(* ===== verification/_CoqProject ===== *)
-Q . S2P
Prelude.v
Double.v
Messages.v
Instrument.v
Position.v
Groups.v
Shared.v
SharedFacts.v
RiskFacts.v
RiskInv.v
Config.v
ConfigProps.v
Format.v
Text.v
Web.v
Statement.v
Sql.v
Trades.v
TradesFacts.v
TradesProps.v
Funds.v
Database.v
Queries.v
Control.v
ControlFacts.v
ControlProps.v
JsonRpc.v
Controller.v
ControllerFacts.v
PublishFacts.v
System.v
Runs.v
Delivery.v
Application.v
ControllerProps.v
SystemProps.v
Frame.v
Truthful.v
Strategies.v
Tables.v
Cache.v
Corrections.v
Feed.v
Durable.v
Restart.v
Watermark.v
Continuity.v
Days.v
Program.v
