(* ===== verification/Prelude.v ===== *)
(** * A verification library for roq-risk-manager

    roq-risk-manager sits beside the trading gateways of an account: it receives
    their trade, position, funds and reference data events, keeps the position of
    every configured account and user in every instrument, publishes positions
    and limits back to the gateways, stores trades and funds in a database, and
    serves them over REST and websocket sessions. The library models that
    program; paths below are relative to src/src/roq.

    ** The program and its models

    The controller (risk_manager/controller.cpp) owns the other parts and handles
    the events; on a timer it lets the control service run and publishes.

    - Double.v: [double] as IEEE binary64 and the exactness of its arithmetic on
      lots. Messages.v: the messages of the roq API and the structs of
      risk_manager/database.
    - Instrument.v: [risk::Limit] and [risk::Instrument]. Position.v:
      [risk::Position], one quantity with the trade ids already counted.
      Groups.v: [risk::Account], [risk::User] and [risk::Strategy], which are
      written alike, over the interface [Handler] with its laws [HandlerLaws].
    - Shared.v: [risk_manager::Shared] (shared.hpp, shared.cpp), the registry of
      instruments, the limits and the sets of instruments to publish; it
      implements [Handler]. SharedFacts.v discharges the laws; RiskFacts.v has
      the positions by name and what each operation does to them.
    - Config.v, ConfigProps.v: [Config] (config.cpp), limits and symbols from TOML.
    - Statement.v: third_party/sqlite, the wrapper of the C library. Sql.v: the SQL
      the program uses, as operations on lists of rows. Trades.v, TradesFacts.v,
      TradesProps.v and Funds.v: the tables of database/sqlite. Database.v: the
      interface [database::Session] ([Database], [DatabaseLaws]), its SQLite
      implementation and [Factory::create].
    - Text.v, Web.v: numbers, timestamps and JSON text, requests and replies.
      Control.v: [control::Session], [control::Response] and [control::Manager].
      ControlFacts.v, ControlProps.v, JsonRpc.v: what they promise.
    - Controller.v: every handler of the controller, and [on_event] over the ten
      events it handles. ControllerFacts.v, PublishFacts.v, ControllerProps.v:
      what they promise one by one.
    - RiskInv.v, System.v, Runs.v, Delivery.v: the controller as a system of
      events, [run], with the invariant of each part composed ([sys_inv]), the
      positions along a run and what a trade owes its owner. Frame.v: what every
      handler keeps, stated once for any relation between states. SystemProps.v,
      Truthful.v, Strategies.v, Tables.v, Cache.v, Corrections.v, Feed.v, Durable.v:
      what holds of every run, of the messages sent, of strategies, of the tables,
      of the cache by source, of corrections, of subscribers, and of stored rows.
      Restart.v, Continuity.v, Watermark.v, Days.v: across one restart and across
      any number of them. Queries.v: typing of the stored rows.
    - Application.v: [Settings], the flags, [Application::main] and [main], from the
      command line to the first event; Program.v composes it with the runs. Format.v:
      the formatters, which write the text of the log.

    ** How code is modelled

    An object is a record with the members of the class, prefixed; a member
    function is a definition over the record, [Class_function] where the name
    alone is ambiguous. Code that can stop returns an [outcome]: a value, an
    exception, the end of the process ([log::fatal]), or [Undef] where the
    language or the text of a statement leaves no behaviour to reason about: a
    dead view, an index past the end, an empty optional, a field that closes its
    own quotes. Code that changes state is an [act], which keeps the state on
    every exit. A callback that only appends is the list of what it was given.
    [assert] is compiled out and not modelled, and neither is logging.

    Integers have their width: instrument ids wrap at 32 bits and go through the
    [int32_t] of the lookup, session ids wrap at 64, sources at 8. Times are
    nanoseconds since the epoch; [now] is an argument where the clock is read.

    What is not in the repository is a parameter: the roq API ([RoqApi], with the
    sign of a side in [RoqApiLaws]), the order hash containers are visited in
    ([HashOrder]), what SQLite decides for itself ([SqlEngine], and [ExactSum]
    where sums of lots must be exact), nlohmann's and roq's JSON ([Json]), the web
    server ([WebServer]), toml++ ([Toml]), how fmt prints numbers ([Fmt],
    [FmtLaws]), and the platform and the service of the start ([Platform],
    [Service]). Each has an instance with which the definitions evaluate.

    ** What is proved

    - Every run (SystemProps.v). A run is any sequence of the events,
      each delivered from a configured source and to existing sessions, whose
      handlers return or throw; the instruments it names are a finite set smaller
      than 2^32 - 1. In every run after a start over any database: the invariant
      of the whole state holds; the position of an account, and of a user, in an
      instrument is the sum of the executed lots newer than the database, each
      execution id counted once however often it is delivered, for totals below
      2^53 lots of any power-of-two size, where the arithmetic in doubles is
      exact; handlers return unless the control service or the database throws;
      what was traded is sent at the next timer event to a source that is ready.
    - What a run leaves. Only the timer sends, and what it sends is the position of
      a configured owner at that time with its limits (Truthful.v); the tables are
      those of the start with the fresh fills and the funds stored in order, and a
      request for trades returns them (Tables.v); what was stored stays stored,
      whatever requests write in between (Durable.v); a subscriber that stays
      connected is sent every fresh fill, once per delivery and in order (Feed.v);
      the cache of a source is the history of its keys (Cache.v); a correction is
      stored and moves no position (Corrections.v); strategies are never touched
      (Strategies.v).
    - Single events (ControllerProps.v). Redelivery changes neither positions nor
      the database; stale updates are dropped; errors of the database or of a
      subscriber leave the risk state as if there were none. A position is
      one-sided at any time, whatever the doubles (Position.v).
    - The program (Program.v, Application.v). From its command line, a document of
      limits and a new file, to the ledger under those limits and the tables at any
      moment of a run; and the starts that fail.
    - Restarts (ControllerProps.v, Restart.v, Continuity.v, Watermark.v, Days.v). What
      is loaded, that the first trade afterwards forgets it, and how it compares with
      the position kept live, for a given table and for the table a run from a new
      file leaves; from which time updates are taken for new; and, over any number of
      runs, that an execution has one row and the program can be started again.
    - Publication. Only ready sources are sent anything; the first one drains
      what is pending, so that the next gets nothing; an account is published in
      full at its first download of a connection; the life of a source.
    - Registry, limits (SharedFacts.v). Ids are stable and distinct for as long as
      there are 2^32 of them, and what happens then; limits are those configured;
      what is published is drained once.
    - Database (TradesProps.v, Funds.v, Database.v, Queries.v, Statement.v).
      Primary keys hold over any history, and no query throws; loops over rows
      end; trades and funds are read back as stored, in order and filtered;
      failures keep what came before; account summaries; the position queries on
      tables of one account, on any table, and on sales only.
    - Control service (ControlFacts.v, ControlProps.v). Subscribers are exactly
      the upgraded, connected sessions in every run; delivery once to each;
      cleanup; only PUT writes; the replies of requests and what a correction
      stores; the two places where a view outlives its JSON value. What websocket
      messages are answered with (JsonRpc.v, under the laws [JsonLaws]).
    - Configuration (ConfigProps.v). A round trip, refusal of unknown keys, and the
      subscriptions. Log (Format.v). A line determines the record it is about.

    Loops are structural recursions or folds. The loop over the rows of a
    statement runs with fuel [S (length rows)], one unit a row and one for the
    last step; [query_spec] (Statement.v) proves that this reaches the end.

    ** What is not modelled

    The parsing of the command line (generated from flags/flags.json, and the roq
    library), logging itself, the socket of the control service (the
    listener, whose events are the inputs of [handle]), tests and the benchmark.
    Names too long for the fixed-size strings of the roq API are outside the model
    of the constructor of an instrument. SQL text is modelled by its meaning; a
    field with a quote or a NUL is [Undef]. Declarations in the headers have no
    definition of their own: the definitions are those of the bodies.

    The tables as the image of runs are for requests that only read; with requests
    that write, Durable.v and Corrections.v say what is kept. A run and the restart
    after it are for the trades of one account in one instrument, the only tables
    for which the position queries answer per position. *)

From stdpp Require Export base gmap strings list fin_maps sets sorting pretty.

Open Scope Z_scope.

(** ** Outcomes

    What a C++ call can do: return a value, throw, end the process through
    [log::fatal], or leave the behaviour the language defines ([Undef]: an
    index past the end of a vector, the dereference of an empty optional, a
    statement text whose quoted fields close their own quotes). *)

Inductive exn : Type :=
| RuntimeError
| InvalidArgument
| RangeError
| BadOptionalAccess
| JsonError
| ServerError.

Inductive outcome (A : Type) : Type :=
| Ret (a : A)
| Throw (e : exn)
| Fatal
| Undef.
Arguments Ret {A} _.
Arguments Throw {A} _.
Arguments Fatal {A}.
Arguments Undef {A}.

#[global] Instance exn_eq_dec : EqDecision exn.
Proof. solve_decision. Defined.

#[global] Instance outcome_eq_dec {A} `{EqDecision A} : EqDecision (outcome A).
Proof. solve_decision. Defined.

Definition is_Ret {A} (o : outcome A) : Prop :=
  match o with Ret _ => True | _ => False end.

Definition outcome_bind {A B} (c : outcome A) (k : A → outcome B) : outcome B :=
  match c with
  | Ret a => k a
  | Throw e => Throw e
  | Fatal => Fatal
  | Undef => Undef
  end.

(** State-passing code that can stop: the state reached is kept on every exit,
    since an exception does not undo what was done before it. *)
Definition act (S A : Type) : Type := S → outcome A * S.

Definition ret {S A} (a : A) : act S A := λ s, (Ret a, s).
Definition throw {S A} (e : exn) : act S A := λ s, (Throw e, s).
Definition undef {S A} : act S A := λ s, (Undef, s).
Definition bind {S A B} (c : act S A) (k : A → act S B) : act S B :=
  λ s, match c s with
       | (Ret a, s') => k a s'
       | (Throw e, s') => (Throw e, s')
       | (Fatal, s') => (Fatal, s')
       | (Undef, s') => (Undef, s')
       end.
Definition get {S} : act S S := λ s, (Ret s, s).
Definition modify {S} (f : S → S) : act S () := λ s, (Ret (), f s).
Definition lift {S A} (o : outcome A) : act S A := λ s, (o, s).

(** [try { c } catch (...) { h }]: only exceptions are caught. *)
Definition catch_all {S} (c : act S ()) (h : act S ()) : act S () :=
  λ s, match c s with
       | (Throw _, s') => h s'
       | r => r
       end.

Declare Scope act_scope.
Delimit Scope act_scope with act.
Notation "'let*' x ':=' c 'in' k" := (bind c (λ x, k))
  (at level 10, x pattern, c at level 150, k at level 200) : act_scope.
Notation "c '>>' k" := (bind c (λ _, k)) (at level 100, right associativity) : act_scope.
Notation "'let?' x ':=' c 'in' k" := (outcome_bind c (λ x, k))
  (at level 10, x pattern, c at level 150, k at level 200) : act_scope.
Open Scope act_scope.

(** [for (auto &x : l) f(x)], stopping where [f] stops. *)
Fixpoint for_each {S A} (f : A → act S ()) (l : list A) : act S () :=
  match l with
  | [] => ret ()
  | x :: l' => f x >> for_each f l'
  end.

(** Collect the results of a fallible function over a list. *)
Fixpoint outcome_map {A B} (f : A → outcome B) (l : list A) : outcome (list B) :=
  match l with
  | [] => Ret []
  | x :: l' => let? y := f x in let? ys := outcome_map f l' in Ret (y :: ys)
  end.

(** ** Machine integers *)

Definition wrap (w : Z) (z : Z) : Z := z `mod` 2 ^ w.
Definition u8 (z : Z) : Z := wrap 8 z.
Definition u32 (z : Z) : Z := wrap 32 z.
Definition u64 (z : Z) : Z := wrap 64 z.
Definition swrap (w : Z) (z : Z) : Z := (z + 2 ^ (w - 1)) `mod` 2 ^ w - 2 ^ (w - 1).
Definition i32 (z : Z) : Z := swrap 32 z.
Definition i64 (z : Z) : Z := swrap 64 z.
Definition int64_min : Z := - 2 ^ 63.
Definition int64_max : Z := 2 ^ 63 - 1.
Definition uint32_max : Z := 2 ^ 32 - 1.

(** ** Iteration order of hash containers

    [absl::flat_hash_map] and [flat_hash_set] are iterated in an order the
    program does not know. The models take it as a parameter: some permutation
    of the contents. *)
Class HashOrder : Type := {
  hash_order : ∀ A : Type, list A → list A;
  hash_order_perm : ∀ (A : Type) (l : list A), hash_order A l ≡ₚ l;
}.
Arguments hash_order {_ A} _.
Arguments hash_order_perm {_ A} _.

(** One such order, for evaluation. *)
Definition in_order : HashOrder :=
  {| hash_order := λ _ l, l; hash_order_perm := λ _ l, Permutation_refl l |}.

Section hash_order.
Context `{!HashOrder}.

Lemma elem_of_hash_order {A} (x : A) l : x ∈ hash_order l ↔ x ∈ l.
Proof. by rewrite (hash_order_perm l). Qed.

Lemma NoDup_hash_order {A} (l : list A) : NoDup l → NoDup (hash_order l).
Proof. by rewrite (hash_order_perm l). Qed.
End hash_order.

(** ** Tactics and hints of the development *)

Create HintDb risk discriminated.
#[export] Hint Resolve NoDup_hash_order : risk.

(** ** Generic lemmas *)

Lemma wrap_small w z : 0 ≤ z < 2 ^ w → wrap w z = z.
Proof. apply Z.mod_small. Qed.

Lemma u32_small z : 0 ≤ z < 2 ^ 32 → u32 z = z.
Proof. apply wrap_small. Qed.

Lemma u8_small z : 0 ≤ z < 256 → u8 z = z.
Proof. intros H. by apply (wrap_small 8). Qed.

Lemma u32_i32 z : u32 (i32 z) = u32 z.
Proof.
  unfold u32, wrap, i32, swrap.
  rewrite Zminus_mod_idemp_l. f_equal. lia.
Qed.

Lemma for_each_app {S A} (f : A → act S ()) l1 l2 s :
  for_each f (l1 ++ l2) s = (for_each f l1 >> for_each f l2) s.
Proof.
  revert s. induction l1 as [|x l1 IH]; intros s; [done|].
  cbn. unfold bind at 1 2 3. by destruct (f x s) as [[]?].
Qed.

(** ** What an action does to the state

    [preserves R c]: whatever the outcome, the state [c] leaves is related to the
    one it found. *)

Definition preserves {S A} (R : relation S) (c : act S A) : Prop := ∀ s, R s (c s).2.

Section preserves.
Context {S : Type} (R : relation S) `{!PreOrder R}.

Lemma preserves_ret {A} (a : A) : preserves R (ret a).
Proof. by intros s. Qed.
Lemma preserves_throw {A} e : preserves R (throw e : act S A).
Proof. by intros s. Qed.
Lemma preserves_undef {A} : preserves R (undef : act S A).
Proof. by intros s. Qed.
Lemma preserves_lift {A} (o : outcome A) : preserves R (lift o).
Proof. by intros s. Qed.
Lemma preserves_get : preserves R get.
Proof. by intros s. Qed.

Lemma preserves_bind {A B} (c : act S A) (k : A → act S B) :
  preserves R c → (∀ a, preserves R (k a)) → preserves R (bind c k).
Proof.
  intros Hc Hk s. specialize (Hc s). unfold bind. destruct (c s) as [[a| | |] s']; try done.
  etrans; [exact Hc|]. apply Hk.
Qed.

Lemma preserves_catch (c h : act S ()) : preserves R c → preserves R h → preserves R (catch_all c h).
Proof.
  intros Hc Hh s. specialize (Hc s). unfold catch_all. destruct (c s) as [[a| | |] s']; try done.
  etrans; [exact Hc|]. apply Hh.
Qed.

Lemma preserves_for_each {A} (f : A → act S ()) l :
  (∀ x, preserves R (f x)) → preserves R (for_each f l).
Proof.
  intros Hf. induction l; cbn [for_each]; [apply preserves_ret|]. by apply preserves_bind.
Qed.
End preserves.
#[export] Hint Resolve preserves_ret preserves_throw preserves_undef preserves_lift preserves_get
  preserves_bind preserves_catch preserves_for_each : risk.
#[export] Hint Extern 0 (PreOrder _) => apply _ : risk.

(** ** Actions that stay within the language

    [settles]: the call returns or throws. [settled c]: so does [c], from every
    state. *)

Definition settles {A} (o : outcome A) : Prop :=
  match o with Ret _ | Throw _ => True | Fatal | Undef => False end.
Definition settled {S A} (c : act S A) : Prop := ∀ s, settles (c s).1.

Lemma settled_bind {S A B} (c : act S A) (k : A → act S B) :
  settled c → (∀ a, settled (k a)) → settled (bind c k).
Proof.
  intros Hc Hk s. specialize (Hc s). unfold bind. destruct (c s) as [[a| | |] s']; try done. apply Hk.
Qed.

Lemma settled_for_each {S A} (f : A → act S ()) l :
  (∀ x, x ∈ l → settled (f x)) → settled (for_each f l).
Proof.
  induction l as [|x l IH]; intros Hf; [done|]. cbn [for_each]. apply settled_bind.
  - apply Hf. by left.
  - intros _. apply IH. intros y Hy. apply Hf. by right.
Qed.

(** Catching everything, and doing nothing about it, returns. *)
Lemma settled_catch {S} (c : act S ()) s : settled c → (catch_all c (ret ()) s).1 = Ret ().
Proof.
  intros Hc. specialize (Hc s). unfold catch_all. by destruct (c s) as [[[]| | |] s'].
Qed.

(** ** Sums over lists and finite sets *)

Definition zsum (l : list Z) : Z := foldr Z.add 0 l.

#[global] Instance zsum_perm : Proper ((≡ₚ) ==> (=)) zsum.
Proof. induction 1; unfold zsum in *; cbn; lia. Qed.

Lemma zsum_cons z l : zsum (z :: l) = z + zsum l.
Proof. done. Qed.

Lemma zsum_app l1 l2 : zsum (l1 ++ l2) = zsum l1 + zsum l2.
Proof. unfold zsum. induction l1; cbn; lia. Qed.

Section set_sum.
Context {A : Type} `{Countable A}.
Implicit Types (f : A → Z) (s : gset A).

(** The sum of [f] over a finite set. *)
Definition set_sum (f : A → Z) (s : gset A) : Z := zsum (f <$> elements s).

Lemma set_sum_empty f : set_sum f ∅ = 0.
Proof. unfold set_sum. by rewrite elements_empty. Qed.

Lemma set_sum_insert f x s : x ∉ s → set_sum f ({[ x ]} ∪ s) = f x + set_sum f s.
Proof. intros Hx. unfold set_sum. by rewrite elements_union_singleton by done. Qed.

Lemma set_sum_abs f s : Z.abs (set_sum f s) ≤ set_sum (λ x, Z.abs (f x)) s.
Proof. unfold set_sum, zsum. induction (elements s); cbn; lia. Qed.

Lemma set_sum_nonneg f s : (∀ x, 0 ≤ f x) → 0 ≤ set_sum f s.
Proof.
  intros Hf. unfold set_sum, zsum. induction (elements s) as [|x l IH]; cbn; [done|].
  specialize (Hf x). lia.
Qed.

Lemma set_sum_disj_union f s1 s2 :
  s1 ## s2 → set_sum f (s1 ∪ s2) = set_sum f s1 + set_sum f s2.
Proof.
  intros Hd. unfold set_sum. rewrite elements_disj_union by done.
  by rewrite fmap_app, zsum_app.
Qed.

Lemma set_sum_mono f s1 s2 : (∀ x, 0 ≤ f x) → s1 ⊆ s2 → set_sum f s1 ≤ set_sum f s2.
Proof.
  intros Hf Hs. rewrite (union_difference_L s1 s2) by done.
  rewrite set_sum_disj_union by set_solver.
  pose proof (set_sum_nonneg f (s2 ∖ s1) Hf). lia.
Qed.
End set_sum.

(** ** Filters *)

Lemma NoDup_fmap_filter {A B} (f : A → B) (P : A → Prop) `{∀ x, Decision (P x)} (l : list A) :
  NoDup (f <$> l) → NoDup (f <$> filter P l).
Proof.
  induction l as [|x l IH]; cbn; [done|]. rewrite NoDup_cons. intros [Hx Hl].
  case_decide; [|by apply IH]. cbn. apply NoDup_cons. split; [|by apply IH].
  contradict Hx. apply list_elem_of_fmap in Hx as (y & -> & Hy).
  apply list_elem_of_fmap_2. by apply list_elem_of_filter in Hy as [_ ?].
Qed.
#[export] Hint Resolve NoDup_fmap_filter : risk.

Lemma filter_Forall {A} (P : A → Prop) `{∀ x, Decision (P x)} (l : list A) :
  Forall P l → filter P l = l.
Proof. induction 1; cbn; [done|]. rewrite decide_True by done. by f_equal. Qed.

Lemma Forall_filter_weaken {A} (P Q : A → Prop) `{∀ x, Decision (P x)} (l : list A) :
  Forall Q l → Forall Q (filter P l).
Proof. rewrite !Forall_forall. intros HQ x Hx. apply HQ. by apply list_elem_of_filter in Hx as [_ ?]. Qed.

Lemma filter_Forall_none {A} (P : A → Prop) `{∀ x, Decision (P x)} (l : list A) :
  Forall (λ x, ¬ P x) l → filter P l = [].
Proof. induction 1; cbn; [done|]. by rewrite decide_False. Qed.

(** Elements whose images are distinct are determined by them. *)
Lemma NoDup_fmap_determines {A B} (f : A → B) (l : list A) x y :
  NoDup (f <$> l) → x ∈ l → y ∈ l → f x = f y → x = y.
Proof.
  intros Hnd [i Hi]%list_elem_of_lookup [j Hj]%list_elem_of_lookup Hf.
  assert (i = j) as ->; [|congruence].
  apply (NoDup_lookup _ i j (f x) Hnd); rewrite list_lookup_fmap; [by rewrite Hi|]. by rewrite Hj, Hf.
Qed.

(** A value that occurs once is found once. *)
Lemma filter_NoDup_singleton {A} `{EqDecision A} (l : list A) x :
  NoDup l → x ∈ l → filter (λ y, y = x) l = [x].
Proof.
  intros Hnd Hx. symmetry. apply Permutation_singleton_l, NoDup_Permutation.
  - apply NoDup_singleton.
  - by apply NoDup_filter.
  - intros y. rewrite list_elem_of_filter, list_elem_of_singleton. naive_solver.
Qed.

(** A list is the elements that satisfy a predicate and those that do not. *)
Lemma filter_app_complement {A} (P : A → Prop) `{∀ x, Decision (P x)} (l : list A) :
  filter P l ++ filter (λ x, ¬ P x) l ≡ₚ l.
Proof.
  induction l as [|x l IH]; cbn; [done|]. repeat case_decide; try done; cbn.
  - by rewrite IH.
  - by rewrite <- Permutation_middle, IH.
Qed.

(** ** More on sums *)

Lemma zsum_concat {A} (q : A → Z) (ls : list (list A)) :
  zsum ((λ l, zsum (q <$> l)) <$> ls) = zsum (q <$> concat ls).
Proof.
  induction ls as [|l ls IH]; [done|]. cbn [concat]. rewrite fmap_cons, fmap_app, zsum_app, <- IH. done.
Qed.

(** The absolute value of an integer-valued function. *)
Definition zabs {A} (q : A → Z) (x : A) : Z := Z.abs (q x).

Lemma zsum_zabs_nonneg {A} (q : A → Z) (l : list A) : 0 ≤ zsum (zabs q <$> l).
Proof. unfold zsum, zabs. induction l; cbn; lia. Qed.

Lemma zsum_zabs_le {A} (q : A → Z) (l : list A) : Z.abs (zsum (q <$> l)) ≤ zsum (zabs q <$> l).
Proof. unfold zsum, zabs. induction l; cbn; lia. Qed.

Lemma zsum_zabs_filter {A} (q : A → Z) (P : A → Prop) `{∀ x, Decision (P x)} (l : list A) :
  zsum (zabs q <$> filter P l) ≤ zsum (zabs q <$> l).
Proof.
  rewrite <- (filter_app_complement P l) at 2. rewrite fmap_app, zsum_app.
  pose proof (zsum_zabs_nonneg q (filter (λ x, ¬ P x) l)). lia.
Qed.

Lemma zsum_zabs_elem {A} (q : A → Z) (l : list A) (ls : list (list A)) :
  l ∈ ls → zsum (zabs q <$> l) ≤ zsum (zabs q <$> concat ls).
Proof.
  induction ls as [|l' ls IH]; intros Hl; [by apply not_elem_of_nil in Hl|].
  cbn [concat]. rewrite fmap_app, zsum_app.
  pose proof (zsum_zabs_nonneg q (concat ls)). pose proof (zsum_zabs_nonneg q l').
  apply elem_of_cons in Hl as [-> | Hl]; [lia|]. specialize (IH Hl). lia.
Qed.

Lemma zsum_zabs_concat {A} (q : A → Z) (ls : list (list A)) :
  zsum (zabs (λ l, zsum (q <$> l)) <$> ls) ≤ zsum (zabs q <$> concat ls).
Proof.
  induction ls as [|l ls IH]; [done|]. cbn [concat]. rewrite fmap_cons, fmap_app, zsum_app.
  unfold zsum at 1. cbn [foldr]. fold (zsum (zabs (λ l, zsum (q <$> l)) <$> ls)).
  pose proof (zsum_zabs_le q l). unfold zabs at 1. lia.
Qed.

Lemma omap_cons_app {A B} (f : A → option B) x l : omap f (x :: l) = omap f [x] ++ omap f l.
Proof. cbn. by destruct (f x). Qed.
