(* ===== verification/Double.v ===== *)
(** * Doubles

    [double] is IEEE-754 binary64, as the Standard Library specifies it
    ([SpecFloat], precision 53, exponent bound 1024): every arithmetic step of
    the models is rounded the way the program rounds it, and NaN, the infinities
    and the signed zeros are kept apart.

    The second half proves when that arithmetic is exact: on multiples of a
    power of two (a lot size [2 ^ g]) of less than 2^53 lots, addition,
    multiplication by a sign and [std::max] compute the integer operation. *)

From S2P Require Import Prelude.
From Stdlib Require Export SpecFloat.

Abbreviation double := spec_float.

Definition prec : Z := 53.
Definition emax : Z := 1024.

Definition NaN : double := S754_nan.
Definition dzero : double := S754_zero false.
Definition dadd : double → double → double := SFadd prec emax.
Definition dmul : double → double → double := SFmul prec emax.
Definition dopp : double → double := SFopp.
Definition dlt : double → double → bool := SFltb.
Definition deq : double → double → bool := SFeqb.
Definition isnan (x : double) : bool := match x with S754_nan => true | _ => false end.
Definition isfinite (x : double) : bool :=
  match x with S754_finite _ _ _ | S754_zero _ => true | _ => false end.

(** [std::max(a, b)]: [(a < b) ? b : a], so an unordered pair yields [a]. *)
Definition dmax (a b : double) : double := if dlt a b then b else a.

(** [static_cast<double>(z)], rounding to nearest even. *)
Definition of_Z (z : Z) : double := binary_normalize prec emax z 0 false.

(** The double nearest to [z * 2 ^ g]. *)
Definition grid (g z : Z) : double := binary_normalize prec emax z g false.

#[global] Instance double_eq_dec : EqDecision double.
Proof. solve_decision. Defined.

(** Numeric equality, with NaN equal to itself: the two zeros are one number. *)
Definition same_number (x y : double) : Prop := x = y ∨ deq x y = true.

Lemma dlt_zero x :
  dlt x dzero = match x with
                | S754_infinity s => s
                | S754_finite s _ _ => s
                | _ => false
                end.
Proof. by destruct x as [[]|[]| |[] ??]. Qed.

(** [std::max(x, 0.0)] is never below zero. *)
Lemma dmax_zero_not_neg x : dlt (dmax x dzero) dzero = false.
Proof. by destruct x as [[]|[]| |[] ??]. Qed.

(** [std::max(x, 0.0)] and [std::max(-x, 0.0)] are never both above zero. *)
Lemma dmax_zero_exclusive x :
  dlt dzero (dmax x dzero) = true → dlt dzero (dmax (dopp x) dzero) = false.
Proof. by destruct x as [[]|[]| |[] ??]. Qed.

(** ** Digits and shifts *)

Lemma digits2_pos_log2 p : Z.pos (digits2_pos p) = Z.log2 (Z.pos p) + 1.
Proof.
  induction p as [p IH|p IH|]; cbn [digits2_pos]; [| |done];
    rewrite Pos2Z.inj_succ, IH.
  - rewrite Pos2Z.inj_xI, Z.log2_succ_double by lia. lia.
  - rewrite Pos2Z.inj_xO, Z.log2_double by lia. lia.
Qed.

Lemma iter_xO p n : Z.pos (Pos.iter xO p n) = Z.pos p * 2 ^ Z.pos n.
Proof.
  induction n as [|n IH] using Pos.peano_ind; [cbn; lia|].
  rewrite Pos.iter_succ, Pos2Z.inj_xO, IH, Pos2Z.inj_succ, Z.pow_succ_r by lia. lia.
Qed.

Lemma iter_pos_add {A} (f : A → A) n x : iter_pos f n x = Pos.iter f x n.
Proof.
  revert x. induction n as [n IH|n IH|]; intros x; cbn; [| |done];
    rewrite !IH; [rewrite <- !Pos.iter_swap|]; done.
Qed.

Lemma shr_1_even m : 0 < m →
  shr_1 {| shr_m := 2 * m; shr_r := false; shr_s := false |}
  = {| shr_m := m; shr_r := false; shr_s := false |}.
Proof. by destruct m. Qed.

(** Shifting out zeros is exact. *)
Lemma iter_shr_exact n q : 0 < q →
  iter_pos shr_1 n {| shr_m := q * 2 ^ Z.pos n; shr_r := false; shr_s := false |}
  = {| shr_m := q; shr_r := false; shr_s := false |}.
Proof.
  intros Hq. rewrite iter_pos_add. revert q Hq.
  induction n as [|n IH] using Pos.peano_ind; intros q Hq.
  - change (2 ^ 1) with 2. rewrite Z.mul_comm. by apply shr_1_even.
  - rewrite Pos.iter_succ, Pos2Z.inj_succ, Z.pow_succ_r by lia.
    replace (q * (2 * 2 ^ Z.pos n)) with ((2 * q) * 2 ^ Z.pos n) by lia.
    rewrite IH by lia. by apply shr_1_even.
Qed.

(** ** Exact rounding

    [q] is a full mantissa (53 digits) at an exponent that is neither too small
    nor too large. *)
Definition normal (q : positive) (e : Z) : Prop :=
  Z.log2 (Z.pos q) = prec - 1 ∧ -1074 ≤ e ≤ 971.

Lemma fexp_normal q e : normal q e → fexp prec emax (Zdigits2 (Z.pos q) + e) = e.
Proof.
  intros [Hq He]. unfold fexp, emin, prec, emax in *. cbn [Zdigits2].
  rewrite digits2_pos_log2. lia.
Qed.

Lemma round_aux_normal s q e : normal q e →
  binary_round_aux prec emax s (Z.pos q) e loc_Exact = S754_finite s q e.
Proof.
  intros Hn. unfold binary_round_aux, shr_fexp.
  rewrite fexp_normal by done. rewrite Z.sub_diag. cbn [shr shr_record_of_loc shr_m loc_of_shr_record round_nearest_even].
  rewrite fexp_normal by done. rewrite Z.sub_diag. cbn.
  destruct Hn as [_ He]. unfold emax, prec. by rewrite (proj2 (Z.leb_le e _)) by lia.
Qed.

Lemma round_aux_shift s q e n : 0 ≤ n → normal q (e + n) →
  binary_round_aux prec emax s (Z.pos q * 2 ^ n) e loc_Exact = S754_finite s q (e + n).
Proof.
  intros Hn Hq. destruct (decide (n = 0)) as [->|Hn0].
  { rewrite Z.mul_1_r, Z.add_0_r in *. by apply round_aux_normal. }
  destruct n as [|n|]; try lia.
  assert (Hd : Zdigits2 (Z.pos q * 2 ^ Z.pos n) = Zdigits2 (Z.pos q) + Z.pos n).
  { rewrite <- (iter_xO q n). cbn [Zdigits2]. rewrite !digits2_pos_log2, iter_xO.
    rewrite Z.log2_mul_pow2 by lia. lia. }
  unfold binary_round_aux, shr_fexp at 1. rewrite Hd.
  rewrite <- Z.add_assoc, (Z.add_comm (Z.pos n)), fexp_normal by done.
  replace (e + Z.pos n - e) with (Z.pos n) by lia.
  cbn [shr shr_record_of_loc]. rewrite iter_shr_exact by lia.
  cbn [shr_m loc_of_shr_record round_nearest_even].
  pose proof (round_aux_normal s q (e + Z.pos n) Hq) as Hr.
  unfold binary_round_aux in Hr. unfold shr_fexp at 1 in Hr.
  rewrite fexp_normal, Z.sub_diag in Hr by done. exact Hr.
Qed.

(** A number that is a full mantissa shifted left is rounded to itself. *)
Lemma round_shifted s p q e n : 0 ≤ n → Z.pos p = Z.pos q * 2 ^ n → normal q (e + n) →
  binary_round prec emax s p e = S754_finite s q (e + n).
Proof.
  intros Hn Hp Hq. unfold binary_round.
  assert (shl_align p e (fexp prec emax (Z.pos (digits2_pos p) + e)) = (p, e)) as ->.
  { rewrite digits2_pos_log2, Hp, Z.log2_mul_pow2 by lia.
    destruct Hq as [Hq He]. rewrite Hq. unfold shl_align, fexp, emin, prec, emax.
    destruct (_ - e) eqn:Hs; [done..|lia]. }
  rewrite Hp. by apply round_aux_shift.
Qed.

(** A number of fewer digits is aligned to a full mantissa. *)
Lemma round_aligned s p q e n : 0 ≤ n → Z.pos q = Z.pos p * 2 ^ n → normal q (e - n) →
  binary_round prec emax s p e = S754_finite s q (e - n).
Proof.
  intros Hn Hp Hq. unfold binary_round.
  assert (shl_align p e (fexp prec emax (Z.pos (digits2_pos p) + e)) = (q, e - n)) as ->.
  { assert (Hl := Hp). apply (f_equal Z.log2) in Hl. rewrite Z.log2_mul_pow2 in Hl by lia.
    assert (fexp prec emax (Z.pos (digits2_pos p) + e) = e - n) as ->.
    { destruct Hq as [Hq He]. rewrite digits2_pos_log2.
      unfold fexp, emin, prec, emax in *. lia. }
    unfold shl_align. replace (e - n - e) with (- n) by lia.
    destruct n as [|n|n]; [|f_equal|lia].
    - f_equal; [|lia]. assert (Z.pos p = Z.pos q) by lia. congruence.
    - apply Pos2Z.inj. rewrite iter_xO. lia. }
  by apply round_aux_normal.
Qed.

(** ** Multiples of a power of two *)

(** The lot sizes the exactness results cover, and the number of lots. *)
Definition lot_exponent (g : Z) : Prop := -1000 ≤ g ≤ 900.
Definition lots (z : Z) : Prop := Z.abs z < 2 ^ prec.

#[global] Instance lot_exponent_dec g : Decision (lot_exponent g).
Proof. unfold lot_exponent. apply _. Defined.
#[global] Instance lots_dec z : Decision (lots z).
Proof. unfold lots. apply _. Defined.

Definition spare (z : Z) : Z := 52 - Z.log2 (Z.abs z).
Definition mantissa (z : Z) : positive := Z.to_pos (Z.abs z * 2 ^ spare z).

Lemma spare_bound z : z ≠ 0 → lots z → 0 ≤ spare z ≤ 52.
Proof.
  intros Hz Hl. unfold spare, lots, prec in *.
  assert (Z.log2 (Z.abs z) < 53) by (apply Z.log2_lt_pow2; lia).
  pose proof (Z.log2_nonneg (Z.abs z)). lia.
Qed.

Lemma mantissa_spec z : z ≠ 0 → lots z → Z.pos (mantissa z) = Z.abs z * 2 ^ spare z.
Proof.
  intros Hz Hl. unfold mantissa. rewrite Z2Pos.id; [done|].
  pose proof (spare_bound z Hz Hl). pose proof (Z.pow_pos_nonneg 2 (spare z)). lia.
Qed.

Lemma mantissa_normal z e : z ≠ 0 → lots z → -1074 ≤ e ≤ 971 → normal (mantissa z) e.
Proof.
  intros Hz Hl He. split; [|done]. rewrite mantissa_spec by done.
  pose proof (spare_bound z Hz Hl). rewrite Z.log2_mul_pow2 by lia. unfold spare, prec. lia.
Qed.

(** Rounding [z * 2 ^ k] at exponent [g - k] does not depend on [k]. *)
Lemma round_lots s p g z k :
  z ≠ 0 → lots z → lot_exponent g → 0 ≤ k ≤ 52 → Z.pos p = Z.abs z * 2 ^ k →
  binary_round prec emax s p (g - k) = S754_finite s (mantissa z) (g - spare z).
Proof.
  intros Hz Hl Hg Hk Hp. pose proof (spare_bound z Hz Hl) as Hs.
  assert (normal (mantissa z) (g - spare z)).
  { apply mantissa_normal; [done..|]. unfold lot_exponent in Hg. lia. }
  destruct (decide (spare z ≤ k)).
  - replace (g - spare z) with (g - k + (k - spare z)) in * by lia.
    apply round_shifted; [lia| |done].
    rewrite mantissa_spec, Hp, <- Z.mul_assoc, <- Z.pow_add_r by (done || lia).
    do 2 f_equal. lia.
  - replace (g - spare z) with (g - k - (spare z - k)) in * by lia.
    apply round_aligned; [lia| |done].
    rewrite mantissa_spec, Hp, <- Z.mul_assoc, <- Z.pow_add_r by (done || lia).
    do 2 f_equal. lia.
Qed.

Lemma normalize_lots g z k : lots z → lot_exponent g → 0 ≤ k ≤ 52 →
  binary_normalize prec emax (z * 2 ^ k) (g - k) false
  = if decide (z = 0) then S754_zero false
    else S754_finite (z <? 0) (mantissa z) (g - spare z).
Proof.
  intros Hl Hg Hk. pose proof (Z.pow_pos_nonneg 2 k).
  case_decide as Hz; [by subst|].
  unfold binary_normalize. destruct (z * 2 ^ k) as [|p|p] eqn:Hp; [nia|..].
  - rewrite (proj2 (Z.ltb_ge z 0)) by nia. apply round_lots; [done..|nia].
  - rewrite (proj2 (Z.ltb_lt z 0)) by nia. apply round_lots; [done..|nia].
Qed.

Lemma grid_spec g z : lots z → lot_exponent g →
  grid g z = if decide (z = 0) then S754_zero false
             else S754_finite (z <? 0) (mantissa z) (g - spare z).
Proof.
  intros Hl Hg. rewrite <- (normalize_lots g z 0) by (done || lia).
  by rewrite Z.mul_1_r, Z.sub_0_r.
Qed.

Lemma shl_align_spec p e e' : e' ≤ e → Z.pos (fst (shl_align p e e')) = Z.pos p * 2 ^ (e - e').
Proof.
  intros He. unfold shl_align. destruct (e' - e) as [|n|n] eqn:Hn; [|lia|]; cbn [fst].
  - replace (e - e') with 0 by lia. lia.
  - rewrite iter_xO. do 2 f_equal. lia.
Qed.

(** The aligned, signed mantissa of a grid point is its number of lots. *)
Lemma cond_Zopp_lots z g k : z ≠ 0 → lots z → 0 ≤ spare z ≤ k →
  cond_Zopp (z <? 0) (Z.pos (fst (shl_align (mantissa z) (g - spare z) (g - k)))) = z * 2 ^ k.
Proof.
  intros Hz Hl Hk. rewrite shl_align_spec, mantissa_spec by (done || lia).
  replace (g - spare z - (g - k)) with (k - spare z) by lia.
  rewrite <- Z.mul_assoc, <- Z.pow_add_r by lia.
  replace (spare z + (k - spare z)) with k by lia.
  unfold cond_Zopp. destruct (Z.ltb_spec z 0);
    [rewrite Z.abs_neq by lia|rewrite Z.abs_eq by lia]; lia.
Qed.

(** Adding two grid points is exact while the sum stays below 2^53 lots. *)
Lemma dadd_grid g a b : lot_exponent g → lots a → lots b → lots (a + b) →
  dadd (grid g a) (grid g b) = grid g (a + b).
Proof.
  intros Hg Ha Hb Hab. rewrite !(grid_spec g a), !(grid_spec g b) by done.
  destruct (decide (a = 0)) as [->|Ha0]; destruct (decide (b = 0)) as [->|Hb0];
    rewrite ?Z.add_0_l, ?Z.add_0_r; [done|by rewrite grid_spec, decide_False..|].
  pose proof (spare_bound a Ha0 Ha). pose proof (spare_bound b Hb0 Hb).
  cbn [dadd SFadd]. unfold dadd, SFadd.
  set (k := Z.max (spare a) (spare b)).
  replace (Z.min _ _) with (g - k) by lia.
  rewrite !cond_Zopp_lots by (done || lia).
  rewrite <- Z.mul_add_distr_r, normalize_lots, grid_spec by (done || lia). done.
Qed.

Lemma dopp_grid g z : z ≠ 0 → lot_exponent g → lots z → dopp (grid g z) = grid g (- z).
Proof.
  intros Hz Hg Hl. assert (lots (- z)) by (unfold lots in *; lia).
  rewrite !grid_spec, !decide_False by (done || lia).
  unfold dopp, SFopp, mantissa, spare. rewrite Z.abs_opp. f_equal.
  destruct (Z.ltb_spec z 0), (Z.ltb_spec (- z) 0); (done || lia).
Qed.

(** Multiplying by [1.0] or [-1.0] is exact on every double of full mantissa. *)
Lemma dmul_unit_normal u s q e : u = 1 ∨ u = -1 → normal q e →
  dmul (of_Z u) (S754_finite s q e) = S754_finite (xorb (u <? 0) s) q e.
Proof.
  intros Hu Hq. change (of_Z u) with (grid 0 u).
  rewrite grid_spec, decide_False by (unfold lots, lot_exponent, prec; lia).
  assert (spare u = 52) as Hsp by (by destruct Hu; subst).
  assert (Z.pos (mantissa u) = 2 ^ 52) as Hm by (by destruct Hu; subst).
  unfold dmul, SFmul. rewrite Hsp, Pos2Z.inj_mul, Hm, Z.mul_comm.
  replace e with (0 - 52 + e + 52) at 2 by lia.
  apply round_aux_shift; [lia|]. by replace (0 - 52 + e + 52) with e by lia.
Qed.

(** A signed fill added to a position: exact, also for an empty fill, whose
    negation is the negative zero. *)
Lemma dadd_signed_grid g u a q : u = 1 ∨ u = -1 →
  lot_exponent g → lots a → lots q → lots (a + u * q) →
  dadd (grid g a) (dmul (of_Z u) (grid g q)) = grid g (a + u * q).
Proof.
  intros Hu Hg Ha Hq Hs. destruct (decide (q = 0)) as [->|Hq0].
  - rewrite Z.mul_0_r, Z.add_0_r, (grid_spec g 0), decide_True by done.
    rewrite (grid_spec g a) by done.
    by destruct Hu; subst; destruct (decide (a = 0)).
  - pose proof (spare_bound q Hq0 Hq).
    assert (normal (mantissa q) (g - spare q)).
    { apply mantissa_normal; [done..|]. unfold lot_exponent in Hg. lia. }
    assert (lots (u * q)) by (unfold lots in *; lia).
    rewrite (grid_spec g q), decide_False, dmul_unit_normal by done.
    rewrite <- dadd_grid by done. f_equal.
    rewrite grid_spec, decide_False by (done || lia).
    unfold mantissa, spare. replace (Z.abs (u * q)) with (Z.abs q) by lia.
    f_equal. destruct (Z.ltb_spec u 0), (Z.ltb_spec q 0), (Z.ltb_spec (u * q) 0); (done || lia).
Qed.

Lemma dlt_grid_zero g z : lot_exponent g → lots z → dlt (grid g z) dzero = (z <? 0).
Proof.
  intros Hg Hl. rewrite grid_spec by done. case_decide; [by subst|]. by rewrite dlt_zero.
Qed.

Lemma dmax_grid g z : lot_exponent g → lots z → dmax (grid g z) dzero = grid g (Z.max z 0).
Proof.
  intros Hg Hl. unfold dmax. rewrite dlt_grid_zero by done.
  destruct (Z.ltb_spec z 0); [by replace (Z.max z 0) with 0 by lia|].
  by replace (Z.max z 0) with z by lia.
Qed.

(** The mirrored side: equal as a number, since the negation of zero is [-0.0]. *)
Lemma dmax_dopp_grid g z : lot_exponent g → lots z →
  same_number (dmax (dopp (grid g z)) dzero) (grid g (Z.max (- z) 0)).
Proof.
  intros Hg Hl. destruct (decide (z = 0)) as [->|Hz].
  - right. by rewrite grid_spec.
  - left. rewrite dopp_grid by done. apply dmax_grid; [done|]. unfold lots in *. lia.
Qed.

(** Equal grid points have equal numbers of lots. *)
Lemma grid_inj g a b :
  lot_exponent g → lots a → lots b → lots (a - b) → grid g a = grid g b → a = b.
Proof.
  intros Hg Ha Hb Hd Heq.
  assert (Hz : ∀ x y, lots x → lots y → lots (x - y) → grid g x = grid g y → (x - y <? 0) = false).
  { intros x y Hx Hy Hxy Hxy'. rewrite <- (dlt_grid_zero g) by done. unfold Z.sub.
    rewrite <- dadd_grid by (unfold lots in *; done || lia). rewrite Hxy', dadd_grid by (unfold lots in *; done || lia).
    by rewrite Z.add_opp_diag_r, dlt_grid_zero. }
  pose proof (Hz a b Ha Hb Hd Heq). pose proof (Hz b a Hb Ha ltac:(unfold lots in *; lia) (eq_sym Heq)). lia.
Qed.

Lemma same_number_zero x : same_number x dzero → same_number dzero x.
Proof. intros [->|Hx]; [by left|]. right. by destruct x as [[]|[]| |[]]. Qed.
