(* ===== verification/Messages.v ===== *)
(** * Messages and records

    The structs of src/roq/risk_manager/database/*.hpp, the messages of the roq
    API as far as the program reads or builds their fields, and the roq functions
    the risk code calls, as parameters ([RoqApi]). Timestamps are
    [std::chrono::nanoseconds], signed 64-bit counts. *)

From S2P Require Import Prelude Double.

(** ** The roq API *)

Inductive Side : Type := UNDEFINED | BUY | SELL.

#[global] Instance Side_eq_dec : EqDecision Side.
Proof. solve_decision. Defined.

(** The enumerator's name, as [magic_enum] and the formatter print it. *)
Definition Side_name (s : Side) : string :=
  match s with UNDEFINED => "UNDEFINED" | BUY => "BUY" | SELL => "SELL" end.

(** [magic_enum::enum_cast<Side>]. *)
Definition Side_cast (s : string) : option Side :=
  if bool_decide (s = "UNDEFINED") then Some UNDEFINED
  else if bool_decide (s = "BUY") then Some BUY
  else if bool_decide (s = "SELL") then Some SELL
  else None.

Lemma Side_cast_name s : Side_cast (Side_name s) = Some s.
Proof. by destruct s. Qed.

Record Fill : Type := {
  fill_external_trade_id : string;
  fill_quantity : double;
  fill_price : double;
}.

Record TradeUpdate : Type := {
  tu_user : string;
  tu_strategy_id : Z;
  tu_account : string;
  tu_exchange : string;
  tu_symbol : string;
  tu_side : Side;
  tu_create_time_utc : Z;
  tu_external_account : string;
  tu_external_order_id : string;
  tu_fills : list Fill;
}.

Record ReferenceData : Type := {
  rd_exchange : string;
  rd_symbol : string;
  rd_min_trade_vol : double;
}.

Record FundsUpdate : Type := {
  fu_account : string;
  fu_currency : string;
  fu_balance : double;
  fu_hold : double;
  fu_exchange_time_utc : Z;
  fu_external_account : string;
}.

Record MessageInfo : Type := {
  mi_source : Z;
  mi_source_session_id : Z;
  mi_source_seqno : Z;
}.

Record RiskLimit : Type := {
  rl_exchange : string;
  rl_symbol : string;
  rl_long_position : double;
  rl_short_position : double;
  rl_long_position_limit : double;
  rl_short_position_limit : double;
  rl_long_risk_exposure_limit : double;
  rl_short_risk_exposure_limit : double;
  rl_allow_netting : bool;
}.

Record RiskLimits : Type := {
  rls_user : string;
  rls_strategy_id : Z;
  rls_account : string;
  rls_limits : list RiskLimit;
  rls_session_id : Z;
  rls_seqno : Z;
}.

(** The functions of the roq libraries the program calls. [to_Exchange] and
    [to_Symbol] are the constructors of the fixed-size string members of
    [risk::Instrument]; [PositionUpdate] carries whatever [cache::Position]
    reads, beside the fields the controller reads itself. *)
Class RoqApi : Type := {
  Decimals : Type;
  Decimals_default : Decimals;
  sign : Side → Z;
  increment_to_decimals : double → Decimals;
  quantity_to_internal_api : double → double → Decimals → Z;
  to_Exchange : string → string;
  to_Symbol : string → string;
  PositionUpdate : Type;
  pu_account : PositionUpdate → string;
  pu_exchange : PositionUpdate → string;
  pu_symbol : PositionUpdate → string;
  cache_Position : Type;
  cache_Position_default : cache_Position;
  cache_Position_update : PositionUpdate → cache_Position → bool * cache_Position;
  cache_Funds : Type;
  cache_Funds_default : cache_Funds;
  cache_Funds_update : FundsUpdate → cache_Funds → bool * cache_Funds;
}.

(** What the program relies on. *)
Class RoqApiLaws `{RoqApi} : Prop := {
  sign_BUY : sign BUY = 1;
  sign_SELL : sign SELL = -1;
}.

(** A concrete API for evaluation: lots of [min_trade_vol] are not converted. *)
Definition test_api : RoqApi := {|
  Decimals := Z;
  Decimals_default := 0;
  sign := λ s, match s with BUY => 1 | SELL => -1 | UNDEFINED => 0 end;
  increment_to_decimals := λ _, 0;
  quantity_to_internal_api := λ _ _ _, 0;
  to_Exchange := λ s, s;
  to_Symbol := λ s, s;
  PositionUpdate := string * (string * string);
  pu_account := fst;
  pu_exchange := λ p, fst (snd p);
  pu_symbol := λ p, snd (snd p);
  cache_Position := nat;
  cache_Position_default := 0%nat;
  cache_Position_update := λ _ n, (true, S n);
  cache_Funds := nat;
  cache_Funds_default := 0%nat;
  cache_Funds_update := λ _ n, (true, S n);
|}.

Lemma test_api_laws : @RoqApiLaws test_api.
Proof. done. Qed.

(** ** Database records *)

(** database/type.hpp *)
Inductive Type_ : Type := EXCHANGE | MANUAL | POSITION.

#[global] Instance Type__eq_dec : EqDecision Type_.
Proof. solve_decision. Defined.

(** database/account.hpp *)
Record db_Account : Type := {
  dba_name : string;
  dba_exchange_time_utc_min : Z;
  dba_exchange_time_utc_max : Z;
  dba_trade_count : Z;
}.

(** database/position.hpp *)
Record db_Position : Type := {
  dbp_user : string;
  dbp_strategy_id : Z;
  dbp_account : string;
  dbp_exchange : string;
  dbp_symbol : string;
  dbp_long_quantity : double;
  dbp_short_quantity : double;
  dbp_exchange_time_utc : Z;
}.

(** database/trade.hpp *)
Record db_Trade : Type := {
  dbt_user : string;
  dbt_strategy_id : Z;
  dbt_account : string;
  dbt_exchange : string;
  dbt_symbol : string;
  dbt_side : Side;
  dbt_quantity : double;
  dbt_price : double;
  dbt_exchange_time_utc : Z;
  dbt_external_account : string;
  dbt_external_order_id : string;
  dbt_external_trade_id : string;
}.

(** database/correction.hpp: a zero time means "now". *)
Record db_Correction : Type := {
  dbc_user : string;
  dbc_strategy_id : Z;
  dbc_account : string;
  dbc_exchange : string;
  dbc_symbol : string;
  dbc_side : Side;
  dbc_quantity : double;
  dbc_price : double;
  dbc_exchange_time_utc : Z;
  dbc_reason : string;
}.

(** The member initialisers of [database::Correction]. *)
Definition db_Correction_default : db_Correction := {|
  dbc_user := EmptyString;
  dbc_strategy_id := 0;
  dbc_account := EmptyString;
  dbc_exchange := EmptyString;
  dbc_symbol := EmptyString;
  dbc_side := UNDEFINED;
  dbc_quantity := NaN;
  dbc_price := NaN;
  dbc_exchange_time_utc := 0;
  dbc_reason := EmptyString;
|}.

(** database/funds.hpp *)
Record db_Funds : Type := {
  dbf_account : string;
  dbf_currency : string;
  dbf_balance : double;
  dbf_hold : double;
  dbf_exchange_time_utc : Z;
  dbf_external_account : string;
}.

(** database/compress.hpp *)
Record db_Compress : Type := { dbz_exchange_time_utc : Z }.

#[global] Instance db_Trade_eq_dec : EqDecision db_Trade.
Proof. solve_decision. Defined.
#[global] Instance db_Position_eq_dec : EqDecision db_Position.
Proof. solve_decision. Defined.
#[global] Instance db_Funds_eq_dec : EqDecision db_Funds.
Proof. solve_decision. Defined.
#[global] Instance RiskLimit_eq_dec : EqDecision RiskLimit.
Proof. solve_decision. Defined.
