(* ===== verification/Instrument.v ===== *)
(** * Limits and instruments

    [risk::Limit] (risk/limit.hpp) and [risk::Instrument] (risk/instrument.hpp,
    risk/instrument.cpp). The conversion to lots and the number of decimals come
    from the roq client library and are parameters. *)

From S2P Require Import Prelude Double Messages.

(** ** Limit *)

Record Limit : Type := {
  lim_long_position_limit : double;
  lim_short_position_limit : double;
  lim_long_risk_exposure_limit : double;
  lim_short_risk_exposure_limit : double;
  lim_allow_netting : bool;
}.

(** The member initialisers: NaN, that is no limit, and no netting. *)
Definition Limit_default : Limit := {|
  lim_long_position_limit := NaN;
  lim_short_position_limit := NaN;
  lim_long_risk_exposure_limit := NaN;
  lim_short_risk_exposure_limit := NaN;
  lim_allow_netting := false;
|}.

#[global] Instance Limit_eq_dec : EqDecision Limit.
Proof. solve_decision. Defined.

(** ** Instrument *)

Section instrument.
Context `{!RoqApi}.

Record Instrument : Type := {
  ins_id : Z;
  ins_exchange : string;
  ins_symbol : string;
  ins_min_trade_vol : double;
  ins_quantity_decimals : Decimals;
}.

Definition Instrument_ctor (id : Z) (exchange symbol : string) : Instrument := {|
  ins_id := id;
  ins_exchange := to_Exchange exchange;
  ins_symbol := to_Symbol symbol;
  ins_min_trade_vol := NaN;
  ins_quantity_decimals := Decimals_default;
|}.

(** [bool Instrument::operator()(ReferenceData const &)]. *)
Definition Instrument_reference_data (rd : ReferenceData) (i : Instrument) : bool * Instrument :=
  if isnan (rd_min_trade_vol rd) then (false, i)
  else (true, {|
    ins_id := ins_id i;
    ins_exchange := ins_exchange i;
    ins_symbol := ins_symbol i;
    ins_min_trade_vol := rd_min_trade_vol rd;
    ins_quantity_decimals := increment_to_decimals (rd_min_trade_vol rd);
  |}).

Definition quantity_to_internal (quantity : double) (i : Instrument) : Z :=
  i64 (quantity_to_internal_api quantity (ins_min_trade_vol i) (ins_quantity_decimals i)).

(** Reference data never renames an instrument. *)
Lemma Instrument_reference_data_names rd i :
  ins_id (Instrument_reference_data rd i).2 = ins_id i
  ∧ ins_exchange (Instrument_reference_data rd i).2 = ins_exchange i
  ∧ ins_symbol (Instrument_reference_data rd i).2 = ins_symbol i.
Proof. unfold Instrument_reference_data. by destruct (isnan _). Qed.
End instrument.
