(* ===== verification/Position.v ===== *)
(** * Positions

    [risk::Position] (risk/position.hpp, risk/position.cpp): the long and short
    position of one account, user or strategy in one instrument, with the set of
    external trade ids already counted. *)

From S2P Require Import Prelude Double Messages Instrument.

Section position.
Context `{!RoqApi}.

Record Position : Type := {
  pos_allow_netting : bool;
  pos_long_position_limit : double;
  pos_short_position_limit : double;
  pos_long_risk_exposure_limit : double;
  pos_short_risk_exposure_limit : double;
  pos_fills : gset string;
  pos_quantity : double;
  pos_long_position : double;
  pos_short_position : double;
  pos_current : Z;
}.

Definition Position_ctor (limit : Limit) : Position := {|
  pos_allow_netting := lim_allow_netting limit;
  pos_long_position_limit := lim_long_position_limit limit;
  pos_short_position_limit := lim_short_position_limit limit;
  pos_long_risk_exposure_limit := lim_long_risk_exposure_limit limit;
  pos_short_risk_exposure_limit := lim_short_risk_exposure_limit limit;
  pos_fills := ∅;
  pos_quantity := dzero;
  pos_long_position := dzero;
  pos_short_position := dzero;
  pos_current := 0;
|}.

(** [operator()(database::Position const &, Instrument const &)]. *)
Definition Position_database (dbp : db_Position) (_ : Instrument) (p : Position) : Position := {|
  pos_allow_netting := pos_allow_netting p;
  pos_long_position_limit := pos_long_position_limit p;
  pos_short_position_limit := pos_short_position_limit p;
  pos_long_risk_exposure_limit := pos_long_risk_exposure_limit p;
  pos_short_risk_exposure_limit := pos_short_risk_exposure_limit p;
  pos_fills := pos_fills p;
  pos_quantity := pos_quantity p;
  pos_long_position := dbp_long_quantity dbp;
  pos_short_position := dbp_short_quantity dbp;
  pos_current := pos_current p;
|}.

(** [operator()(ReferenceData const &, Instrument const &)]: does nothing. *)
Definition Position_reference_data (_ : ReferenceData) (_ : Instrument) (p : Position) : Position := p.

(** The body of the loop over the fills of a trade update. [current_] is kept at
    its 64 bits; nothing reads it. *)
Definition Position_fill (side : Side) (i : Instrument) (p : Position) (item : Fill) : Position :=
  if decide (fill_external_trade_id item ∈ pos_fills p) then p
  else
    let quantity := dadd (pos_quantity p) (dmul (of_Z (sign side)) (fill_quantity item)) in
    {|
      pos_allow_netting := pos_allow_netting p;
      pos_long_position_limit := pos_long_position_limit p;
      pos_short_position_limit := pos_short_position_limit p;
      pos_long_risk_exposure_limit := pos_long_risk_exposure_limit p;
      pos_short_risk_exposure_limit := pos_short_risk_exposure_limit p;
      pos_fills := {[ fill_external_trade_id item ]} ∪ pos_fills p;
      pos_quantity := quantity;
      pos_long_position := dmax quantity dzero;
      pos_short_position := dmax (dopp quantity) dzero;
      pos_current :=
        i64 (pos_current p + sign side * quantity_to_internal (fill_quantity item) i);
    |}.

(** [operator()(TradeUpdate const &, Instrument const &)]. *)
Definition Position_trade_update (tu : TradeUpdate) (i : Instrument) (p : Position) : Position :=
  fold_left (Position_fill (tu_side tu) i) (tu_fills tu) p.

Definition long_position (p : Position) : double := pos_long_position p.
Definition short_position (p : Position) : double := pos_short_position p.
Definition long_position_limit (p : Position) : double := pos_long_position_limit p.
Definition short_position_limit (p : Position) : double := pos_short_position_limit p.
Definition long_risk_exposure_limit (p : Position) : double := pos_long_risk_exposure_limit p.
Definition short_risk_exposure_limit (p : Position) : double := pos_short_risk_exposure_limit p.

(** ** Invariants *)

(** The limits a position was created with. *)
Definition limits_of (p : Position) : Limit := {|
  lim_long_position_limit := pos_long_position_limit p;
  lim_short_position_limit := pos_short_position_limit p;
  lim_long_risk_exposure_limit := pos_long_risk_exposure_limit p;
  lim_short_risk_exposure_limit := pos_short_risk_exposure_limit p;
  lim_allow_netting := pos_allow_netting p;
|}.

Lemma limits_of_ctor l : limits_of (Position_ctor l) = l.
Proof. by destruct l. Qed.

Lemma Position_fill_seen side i p item :
  fill_external_trade_id item ∈ pos_fills p → Position_fill side i p item = p.
Proof. intros. unfold Position_fill. by rewrite decide_True. Qed.

Lemma Position_fill_fills side i p item :
  pos_fills (Position_fill side i p item) = {[ fill_external_trade_id item ]} ∪ pos_fills p.
Proof. unfold Position_fill. case_decide; [set_solver|done]. Qed.

Lemma Position_fill_limits side i p item :
  limits_of (Position_fill side i p item) = limits_of p.
Proof. unfold Position_fill. by case_decide. Qed.

(** The trade ids of a list of fills. *)
Definition ids (l : list Fill) : gset string := list_to_set (fill_external_trade_id <$> l).

Lemma fold_fill_fills side i l p :
  pos_fills (fold_left (Position_fill side i) l p) = ids l ∪ pos_fills p.
Proof.
  revert p. induction l as [|x l IH]; intros p; unfold ids in *; cbn; [set_solver|].
  rewrite IH, Position_fill_fills. set_solver.
Qed.

Lemma fold_fill_limits side i l p :
  limits_of (fold_left (Position_fill side i) l p) = limits_of p.
Proof.
  revert p. induction l as [|x l IH]; intros p; cbn; [done|].
  by rewrite IH, Position_fill_limits.
Qed.

Lemma fold_fill_seen side i l p :
  ids l ⊆ pos_fills p → fold_left (Position_fill side i) l p = p.
Proof.
  unfold ids. revert p. induction l as [|x l IH]; intros p Hl; cbn in *; [done|].
  rewrite Position_fill_seen by set_solver. apply IH. set_solver.
Qed.

(** An update that was counted is not counted again, whatever the instrument
    looks like by then. *)
Lemma trade_update_again tu i i' p :
  Position_trade_update tu i' (Position_trade_update tu i p) = Position_trade_update tu i p.
Proof.
  unfold Position_trade_update. apply fold_fill_seen. rewrite fold_fill_fills. set_solver.
Qed.

(** ** Positions read from the database *)

(** The positions agree but for the long and the short quantity. *)
Definition same_but_sides (p p' : Position) : Prop :=
  limits_of p = limits_of p' ∧ pos_fills p = pos_fills p'
  ∧ pos_quantity p = pos_quantity p' ∧ pos_current p = pos_current p'.

Lemma Position_fill_same_but_sides side i p p' item :
  same_but_sides p p' → fill_external_trade_id item ∉ pos_fills p →
  Position_fill side i p item = Position_fill side i p' item.
Proof.
  intros (Hl & Hf & Hq & Hc) Hn. unfold Position_fill. rewrite <- Hf, !decide_False by done.
  injection Hl as -> -> -> -> ->. by rewrite Hq, Hc.
Qed.

(** A first fill overwrites both sides with what the fills add up to. *)
Lemma trade_update_same_but_sides tu i p p' :
  same_but_sides p p' → pos_fills p = ∅ → tu_fills tu ≠ [] →
  Position_trade_update tu i p = Position_trade_update tu i p'.
Proof.
  intros Hp He Hne. unfold Position_trade_update. destruct (tu_fills tu) as [|f l]; [done|]. cbn.
  rewrite (Position_fill_same_but_sides _ _ p p') by (rewrite ?He; set_solver). done.
Qed.

(** Database positions applied one after the other. *)
Definition load_all (l : list (db_Position * Instrument)) (p : Position) : Position :=
  fold_left (λ p x, Position_database x.1 x.2 p) l p.

Lemma load_all_same_but_sides l p : same_but_sides (load_all l p) p.
Proof.
  unfold load_all. revert p. induction l as [|[d i] l IH]; intros p; [done|]. cbn.
  destruct (IH (Position_database d i p)) as (H1 & H2 & H3 & H4). by split_and!.
Qed.

(** The last one is what is shown. *)
Lemma load_all_sides l d i p :
  long_position (load_all (l ++ [(d, i)]) p) = dbp_long_quantity d
  ∧ short_position (load_all (l ++ [(d, i)]) p) = dbp_short_quantity d.
Proof. unfold load_all. by rewrite fold_left_app. Qed.

(** ** The specification: a set of executions

    What a position promises is stated over the set of external trade ids it has
    been told about: with [ex id] the signed number of lots of execution [id],
    the position is the sum of [ex] over that set, however often and in whatever
    order the executions were reported. *)

(** A trade update that reports executions of [ex], in lots of [2 ^ g]. *)
Definition reports (g : Z) (ex : string → Z) (tu : TradeUpdate) : Prop :=
  (tu_side tu = BUY ∨ tu_side tu = SELL)
  ∧ Forall (λ f, ∃ q, fill_quantity f = grid g q
                      ∧ ex (fill_external_trade_id f) = sign (tu_side tu) * q) (tu_fills tu).

Definition net (ex : string → Z) (s : gset string) : Z := set_sum ex s.
Definition gross (ex : string → Z) (s : gset string) : Z := set_sum (λ x, Z.abs (ex x)) s.

(** The concrete position [p] implements the abstract set [s] of executions. *)
Record implements (g : Z) (ex : string → Z) (s : gset string) (p : Position) : Prop := {
  impl_fills : pos_fills p = s;
  impl_quantity : pos_quantity p = grid g (net ex s);
  impl_long : long_position p = grid g (Z.max (net ex s) 0);
  impl_short : same_number (short_position p) (grid g (Z.max (- net ex s) 0));
}.

Lemma net_gross ex s : Z.abs (net ex s) ≤ gross ex s.
Proof. apply set_sum_abs. Qed.

Lemma implements_init g ex limit : implements g ex ∅ (Position_ctor limit).
Proof. by split; [| | |left]; unfold net; rewrite ?set_sum_empty. Qed.

Context `{!RoqApiLaws}.

Lemma sign_unit side : side = BUY ∨ side = SELL → sign side = 1 ∨ sign side = -1.
Proof. intros [-> | ->]; rewrite ?sign_BUY, ?sign_SELL; auto. Qed.

Lemma implements_fill g ex s p side i item q :
  lot_exponent g → side = BUY ∨ side = SELL →
  fill_quantity item = grid g q → ex (fill_external_trade_id item) = sign side * q →
  gross ex ({[ fill_external_trade_id item ]} ∪ s) < 2 ^ prec →
  implements g ex s p →
  implements g ex ({[ fill_external_trade_id item ]} ∪ s) (Position_fill side i p item).
Proof.
  intros Hg Hside Hq Hex Hgross Hp. pose proof (sign_unit side Hside) as Hu.
  set (id := fill_external_trade_id item) in *.
  destruct (decide (id ∈ s)) as [Hin|Hin].
  { replace ({[id]} ∪ s) with s by set_solver.
    rewrite Position_fill_seen; [done|]. by rewrite (impl_fills _ _ _ _ Hp). }
  pose proof (net_gross ex s). pose proof (net_gross ex ({[id]} ∪ s)).
  unfold net, gross in *. rewrite !set_sum_insert in * by done.
  assert (Hquantity : pos_quantity (Position_fill side i p item)
    = grid g (set_sum ex s + sign side * q)).
  { unfold Position_fill. rewrite (impl_fills _ _ _ _ Hp), decide_False by done. cbn.
    rewrite (impl_quantity _ _ _ _ Hp), Hq.
    apply dadd_signed_grid; unfold lots, net; (done || lia). }
  assert (lots (set_sum ex s + sign side * q)) by (unfold lots; lia).
  split; unfold net; rewrite ?set_sum_insert, ?Hex by done.
  - by rewrite Position_fill_fills, (impl_fills _ _ _ _ Hp).
  - rewrite Hquantity. f_equal. lia.
  - unfold Position_fill in *. rewrite (impl_fills _ _ _ _ Hp), decide_False in * by done.
    cbn in *. rewrite Hquantity, dmax_grid by done. f_equal. lia.
  - unfold Position_fill in *. rewrite (impl_fills _ _ _ _ Hp), decide_False in * by done.
    cbn in *. rewrite Hquantity, (Z.add_comm (sign side * q)). by apply dmax_dopp_grid.
Qed.

Lemma fold_fill_implements g ex side i l s p :
  lot_exponent g → side = BUY ∨ side = SELL →
  Forall (λ f, ∃ q, fill_quantity f = grid g q
                    ∧ ex (fill_external_trade_id f) = sign side * q) l →
  gross ex (ids l ∪ s) < 2 ^ prec →
  implements g ex s p → implements g ex (ids l ∪ s) (fold_left (Position_fill side i) l p).
Proof.
  intros Hg Hside Hl. unfold ids. revert s p.
  induction Hl as [|f l (q & Hq & Hex) _ IH]; intros s p Hgross Hp; cbn in *.
  { by rewrite union_empty_l_L. }
  replace ({[fill_external_trade_id f]} ∪ list_to_set (fill_external_trade_id <$> l) ∪ s)
    with (list_to_set (fill_external_trade_id <$> l) ∪ ({[fill_external_trade_id f]} ∪ s))
    in * by set_solver.
  apply IH; [done|]. eapply implements_fill; try done.
  eapply Z.le_lt_trans; [|exact Hgross].
  apply set_sum_mono; [intros; lia|set_solver].
Qed.

(** The updates of one position, each with the instrument as it was then. *)
Definition apply_updates (l : list (TradeUpdate * Instrument)) (p : Position) : Position :=
  fold_left (λ p '(tu, i), Position_trade_update tu i p) l p.

(** The trade ids reported by a sequence of updates. *)
Definition reported (l : list (TradeUpdate * Instrument)) : gset string :=
  ⋃ ((λ x, ids (tu_fills x.1)) <$> l).

Lemma apply_updates_implements g ex l s p :
  lot_exponent g → Forall (λ x, reports g ex x.1) l →
  gross ex (reported l ∪ s) < 2 ^ prec →
  implements g ex s p → implements g ex (reported l ∪ s) (apply_updates l p).
Proof.
  intros Hg Hl. unfold apply_updates, reported. revert s p.
  induction Hl as [|[tu i] l [Hside Hfills] _ IH]; intros s p Hgross Hp; cbn in *.
  { by rewrite union_empty_l_L. }
  replace (ids (tu_fills tu) ∪ ⋃ ((λ x, ids (tu_fills x.1)) <$> l) ∪ s)
    with (⋃ ((λ x, ids (tu_fills x.1)) <$> l) ∪ (ids (tu_fills tu) ∪ s)) in * by set_solver.
  apply IH; [done|]. apply fold_fill_implements; try done.
  eapply Z.le_lt_trans; [|exact Hgross].
  apply set_sum_mono; [intros; lia|set_solver].
Qed.

(** Updates without executions leave a position alone; with the first execution
    nothing of what was read from the database is left. *)
Lemma apply_updates_same_but_sides us p p' :
  same_but_sides p p' → pos_fills p = ∅ →
  apply_updates us p = if decide (reported us = ∅) then p else apply_updates us p'.
Proof.
  intros Hp He. unfold apply_updates, reported. induction us as [|[tu i] us IH]; [done|].
  rewrite fmap_cons, union_list_cons. cbn [fold_left fst].
  destruct (decide (tu_fills tu = [])) as [Hn|Hn].
  - unfold Position_trade_update. rewrite Hn. cbn [fold_left]. unfold ids. cbn.
    by rewrite union_empty_l_L.
  - rewrite (trade_update_same_but_sides tu i p p') by done. rewrite decide_False; [done|].
    destruct (tu_fills tu) as [|f l]; [done|]. unfold ids. cbn. set_solver.
Qed.

(** Long and short positions are not negative, and never both positive. *)
Definition one_sided (p : Position) : Prop :=
  dlt (long_position p) dzero = false
  ∧ dlt (short_position p) dzero = false
  ∧ (dlt dzero (long_position p) = true → dlt dzero (short_position p) = false).

Lemma Position_fill_one_sided side i p item :
  one_sided p → one_sided (Position_fill side i p item).
Proof.
  intros Hp. unfold Position_fill. case_decide; [done|].
  unfold one_sided, long_position, short_position; cbn. split_and!.
  - apply dmax_zero_not_neg.
  - apply dmax_zero_not_neg.
  - apply dmax_zero_exclusive.
Qed.

Lemma fold_fill_one_sided side i l p :
  one_sided p → one_sided (fold_left (Position_fill side i) l p).
Proof.
  revert p. induction l as [|x l IH]; intros p Hp; cbn; [done|].
  by apply IH, Position_fill_one_sided.
Qed.

Lemma apply_updates_limits us p : limits_of (apply_updates us p) = limits_of p.
Proof.
  unfold apply_updates. revert p. induction us as [|[tu i] us IH]; intros p; cbn; [done|].
  rewrite IH. apply fold_fill_limits.
Qed.

Lemma apply_updates_one_sided us p : one_sided p → one_sided (apply_updates us p).
Proof.
  unfold apply_updates. revert p. induction us as [|[tu i] us IH]; intros p Hp; cbn; [done|].
  by apply IH, fold_fill_one_sided.
Qed.

End position.
