(* ===== verification/Groups.v ===== *)
(** * Accounts, users and strategies

    [risk::Account], [risk::User] and [risk::Strategy] (risk/account,
    risk/user and risk/strategy, .hpp and .cpp): a key, a reference to a handler and one
    position per instrument id. The three classes are written alike, so the body
    of [dispatch] is one definition over the type of the key.

    The handler is the interface the classes are written against: it names
    instruments, knows the limits and records what must be published. [Handler]
    is the record of its operations over the state [S] of whoever implements it,
    [HandlerLaws] what the classes rely on. *)

From S2P Require Import Prelude Double Messages Instrument Position.

Section groups.
Context `{!RoqApi}.

(** ** The handler *)

Record Handler (S K : Type) : Type := {
  h_get_instrument : string → string → S → Instrument * S;
  h_get_limit : K → string → string → S → Limit;
  h_publish : K → Z → S → S;
}.
Arguments h_get_instrument {S K} _ _ _ _.
Arguments h_get_limit {S K} _ _ _ _ _.
Arguments h_publish {S K} _ _ _ _.

(** What the classes rely on, for states [wf n] that have [n] ids left: [ids] is
    the id a name has, if it has one. A request gives the name an id no other name
    has and changes nothing else; publishing changes no id and no limit. *)
Class HandlerLaws {S K} (h : Handler S K) : Type := {
  wf : Z → S → Prop;
  ids_of : S → string → string → option Z;
  wf_weaken n n' s : n' ≤ n → wf n s → wf n' s;
  get_instrument_wf n s e y : 0 ≤ n → wf (n + 1) s → wf n (h_get_instrument h e y s).2;
  get_instrument_known n s e y : 0 < n → wf n s →
    ids_of (h_get_instrument h e y s).2 e y = Some (ins_id (h_get_instrument h e y s).1);
  get_instrument_same n s e y id : wf n s → ids_of s e y = Some id →
    ins_id (h_get_instrument h e y s).1 = id;
  get_instrument_fresh n s e y e' y' : 0 < n → wf n s → ids_of s e y = None →
    ids_of s e' y' ≠ Some (ins_id (h_get_instrument h e y s).1);
  get_instrument_other n s e y e' y' : wf n s → (e', y') ≠ (e, y) →
    ids_of (h_get_instrument h e y s).2 e' y' = ids_of s e' y';
  ids_of_inj n s e y e' y' id : wf n s →
    ids_of s e y = Some id → ids_of s e' y' = Some id → (e, y) = (e', y');
  get_limit_get_instrument s k e y e' y' :
    h_get_limit h k e y (h_get_instrument h e' y' s).2 = h_get_limit h k e y s;
  wf_publish n s k id : wf n s → wf n (h_publish h k id s);
  ids_of_publish s k id e y : ids_of (h_publish h k id s) e y = ids_of s e y;
  get_limit_publish s k e y k' id :
    h_get_limit h k e y (h_publish h k' id s) = h_get_limit h k e y s;
}.

(** ** Values that [dispatch] accepts *)

Class Value (V : Type) : Type := {
  v_exchange : V → string;
  v_symbol : V → string;
  v_apply : V → Instrument → Position → Position;
}.
#[global] Instance db_Position_value : Value db_Position :=
  {| v_exchange := dbp_exchange; v_symbol := dbp_symbol; v_apply := Position_database |}.
#[global] Instance ReferenceData_value : Value ReferenceData :=
  {| v_exchange := rd_exchange; v_symbol := rd_symbol; v_apply := Position_reference_data |}.
#[global] Instance TradeUpdate_value : Value TradeUpdate :=
  {| v_exchange := tu_exchange; v_symbol := tu_symbol; v_apply := Position_trade_update |}.

(** ** State and dispatch *)

Record Group (K : Type) : Type := { grp_key : K; grp_positions : gmap Z Position }.
Arguments grp_key {K} _.
Arguments grp_positions {K} _.

Definition group_ctor {K} (key : K) : Group K := {| grp_key := key; grp_positions := ∅ |}.

(** The position a dispatch works on: the stored one, or one created with the
    handler's limit. *)
Definition position_for {S K} (h : Handler S K) (g : Group K) (id : Z) (e y : string) (s : S) : Position :=
  match grp_positions g !! id with
  | Some p => p
  | None => Position_ctor (h_get_limit h (grp_key g) e y s)
  end.

Definition dispatch {S K V} `{Value V} (h : Handler S K) (value : V)
    (callback : Z → S → S) (g : Group K) (s : S) : Group K * S :=
  let '(instrument, s1) := h_get_instrument h (v_exchange value) (v_symbol value) s in
  let id := ins_id instrument in
  let position := position_for h g id (v_exchange value) (v_symbol value) s1 in
  ({| grp_key := grp_key g;
      grp_positions := <[ id := v_apply value instrument position ]> (grp_positions g) |},
   callback id s1).

Definition no_callback {S} (_ : Z) (s : S) : S := s.

Definition group_database {S K} (h : Handler S K) (dbp : db_Position) (g : Group K) (s : S) : Group K * S :=
  dispatch h dbp no_callback g s.
Definition group_reference_data {S K} (h : Handler S K) (rd : ReferenceData) (g : Group K) (s : S) : Group K * S :=
  dispatch h rd no_callback g s.
Definition group_trade_update {S K} (h : Handler S K) (tu : TradeUpdate) (g : Group K) (s : S) : Group K * S :=
  dispatch h tu (h_publish h (grp_key g)) g s.

(** [get_position(instrument_id, callback)], the callback's result on the
    position when there is one. *)
Definition get_position {K B} (id : Z) (callback : Position → B → B) (g : Group K) (b : B) : B :=
  match grp_positions g !! id with
  | Some p => callback p b
  | None => b
  end.

(** ** The three classes *)

Abbreviation Account := (Group string).
Abbreviation User := (Group string).
Abbreviation Strategy := (Group Z).

Definition Account_ctor (name : string) : Account := group_ctor name.
Definition Account_database {S} (h : Handler S string) : db_Position → Account → S → Account * S :=
  group_database h.
Definition Account_reference_data {S} (h : Handler S string) : ReferenceData → Account → S → Account * S :=
  group_reference_data h.
Definition Account_trade_update {S} (h : Handler S string) : TradeUpdate → Account → S → Account * S :=
  group_trade_update h.
Definition Account_get_position {B} : Z → (Position → B → B) → Account → B → B := get_position.

Definition User_ctor (name : string) : User := group_ctor name.
Definition User_database {S} (h : Handler S string) : db_Position → User → S → User * S :=
  group_database h.
Definition User_reference_data {S} (h : Handler S string) : ReferenceData → User → S → User * S :=
  group_reference_data h.
Definition User_trade_update {S} (h : Handler S string) : TradeUpdate → User → S → User * S :=
  group_trade_update h.
Definition User_get_position {B} : Z → (Position → B → B) → User → B → B := get_position.

Definition Strategy_ctor (strategy_id : Z) : Strategy := group_ctor strategy_id.
Definition Strategy_database {S} (h : Handler S Z) : db_Position → Strategy → S → Strategy * S :=
  group_database h.
Definition Strategy_reference_data {S} (h : Handler S Z) : ReferenceData → Strategy → S → Strategy * S :=
  group_reference_data h.
Definition Strategy_trade_update {S} (h : Handler S Z) : TradeUpdate → Strategy → S → Strategy * S :=
  group_trade_update h.
Definition Strategy_get_position {B} : Z → (Position → B → B) → Strategy → B → B := get_position.

(** ** Lemmas about dispatch *)

Section laws.
Context {S K : Type} (h : Handler S K) `{L : !HandlerLaws h}.

Lemma dispatch_key {V} `{Value V} (v : V) cb g s : grp_key (dispatch h v cb g s).1 = grp_key g.
Proof. unfold dispatch. by destruct (h_get_instrument _ _ _ _). Qed.

Lemma dispatch_positions {V} `{Value V} (v : V) cb g s :
  grp_positions (dispatch h v cb g s).1
  = let i := (h_get_instrument h (v_exchange v) (v_symbol v) s).1 in
    <[ ins_id i := v_apply v i (position_for h g (ins_id i) (v_exchange v) (v_symbol v)
                                  (h_get_instrument h (v_exchange v) (v_symbol v) s).2) ]>
      (grp_positions g).
Proof. unfold dispatch. by destruct (h_get_instrument _ _ _ _). Qed.

Lemma dispatch_state {V} `{Value V} (v : V) cb g s :
  (dispatch h v cb g s).2
  = cb (ins_id (h_get_instrument h (v_exchange v) (v_symbol v) s).1)
       (h_get_instrument h (v_exchange v) (v_symbol v) s).2.
Proof. unfold dispatch. by destruct (h_get_instrument _ _ _ _). Qed.

(** The position a group has in an instrument, by name: the stored one, or what
    the first dispatch would create. *)
Definition position_in (g : Group K) (e y : string) (s : S) : Position :=
  match ids_of s e y with
  | Some id => position_for h g id e y s
  | None => Position_ctor (h_get_limit h (grp_key g) e y s)
  end.

(** The group has positions only under ids the handler gave. *)
Definition group_wf (g : Group K) (s : S) : Prop :=
  ∀ id, is_Some (grp_positions g !! id) → ∃ e y, ids_of s e y = Some id.

(** A callback of [dispatch] that only publishes. *)
Definition publishes (cb : Z → S → S) : Prop :=
  cb = no_callback ∨ ∃ k, cb = h_publish h k.

Lemma publishes_ids cb id s e y : publishes cb → ids_of (cb id s) e y = ids_of s e y.
Proof. intros [->|[k ->]]; [done|]. apply ids_of_publish. Qed.

Lemma publishes_limit cb id s k e y : publishes cb → h_get_limit h k e y (cb id s) = h_get_limit h k e y s.
Proof. intros [->|[k' ->]]; [done|]. apply get_limit_publish. Qed.

Lemma publishes_wf cb id n s : publishes cb → wf n s → wf n (cb id s).
Proof. intros [->|[k ->]]; [done|]. apply wf_publish. Qed.

(** The position [dispatch] works on is the one by name. *)
Lemma position_for_dispatch n g e y s :
  0 < n → wf n s → group_wf g s →
  position_for h g (ins_id (h_get_instrument h e y s).1) e y (h_get_instrument h e y s).2
  = position_in g e y s.
Proof.
  intros Hn Hs Hg. unfold position_in, position_for. rewrite get_limit_get_instrument.
  destruct (ids_of s e y) as [id|] eqn:Hid.
  - by rewrite (get_instrument_same n s e y id).
  - destruct (grp_positions g !! _) eqn:Hp; [|done].
    destruct (Hg _ (mk_is_Some _ _ Hp)) as (e' & y' & Hid').
    by destruct (get_instrument_fresh n s e y e' y').
Qed.

(** Dispatching a value updates the position in its instrument and no other. *)
Lemma dispatch_position_in {V} `{Value V} (v : V) cb n g s e y :
  publishes cb → 0 < n → wf n s → group_wf g s →
  position_in (dispatch h v cb g s).1 e y (dispatch h v cb g s).2
  = if decide ((e, y) = (v_exchange v, v_symbol v))
    then v_apply v (h_get_instrument h e y s).1 (position_in g e y s)
    else position_in g e y s.
Proof.
  intros Hcb Hn Hs Hg. unfold position_in at 1. rewrite dispatch_key, dispatch_state.
  rewrite publishes_ids, publishes_limit, get_limit_get_instrument by done.
  case_decide as Heq; [simplify_eq|].
  - rewrite (get_instrument_known n) by done. unfold position_for. rewrite dispatch_positions.
    cbn zeta. rewrite lookup_insert_eq. by rewrite (position_for_dispatch n).
  - rewrite (get_instrument_other n) by done. unfold position_in.
    destruct (ids_of s e y) as [id|] eqn:Hid; [|done].
    unfold position_for at 1. rewrite dispatch_positions. cbn zeta.
    rewrite lookup_insert_ne, dispatch_key, publishes_limit, get_limit_get_instrument; [done|done|].
    intros Hc. apply Heq. destruct (ids_of s (v_exchange v) (v_symbol v)) as [id'|] eqn:Hid'.
    + apply (get_instrument_same n) in Hid' as Hsame; [|done].
      apply (ids_of_inj n s _ _ _ _ id); congruence.
    + exfalso. apply (get_instrument_fresh n s (v_exchange v) (v_symbol v) e y); congruence.
Qed.

Lemma dispatch_wf {V} `{Value V} (v : V) cb n g s :
  publishes cb → 0 ≤ n → wf (n + 1) s → wf n (dispatch h v cb g s).2.
Proof.
  intros Hcb Hn Hs. rewrite dispatch_state. apply publishes_wf; [done|]. by apply get_instrument_wf.
Qed.

(** Ids survive a dispatch. *)
Lemma dispatch_ids {V} `{Value V} (v : V) cb n g s e y id :
  publishes cb → 0 < n → wf n s → ids_of s e y = Some id → ids_of (dispatch h v cb g s).2 e y = Some id.
Proof.
  intros Hcb Hn Hs Hid. rewrite dispatch_state, publishes_ids by done.
  destruct (decide ((e, y) = (v_exchange v, v_symbol v))) as [[= -> ->]|Hne].
  - rewrite (get_instrument_known n) by done. f_equal. by apply (get_instrument_same n).
  - by rewrite (get_instrument_other n).
Qed.

Lemma dispatch_group_wf {V} `{Value V} (v : V) cb n g s :
  publishes cb → 0 < n → wf n s → group_wf g s → group_wf (dispatch h v cb g s).1 (dispatch h v cb g s).2.
Proof.
  intros Hcb Hn Hs Hg id. rewrite dispatch_positions. cbn zeta.
  destruct (decide (id = ins_id (h_get_instrument h (v_exchange v) (v_symbol v) s).1)) as [->|Hne].
  - intros _. exists (v_exchange v), (v_symbol v). rewrite dispatch_state, publishes_ids by done.
    by apply (get_instrument_known n).
  - rewrite lookup_insert_ne by done. intros (e & y & Hid)%Hg. exists e, y. by eapply dispatch_ids.
Qed.

End laws.
End groups.
Arguments Handler {_} S K.
Arguments h_get_instrument {_ S K} _ _ _ _.
Arguments h_get_limit {_ S K} _ _ _ _ _.
Arguments h_publish {_ S K} _ _ _ _.
Arguments grp_key {K} _.
Arguments grp_positions {K} _.
Abbreviation Account := (Group string).
Abbreviation User := (Group string).
Abbreviation Strategy := (Group Z).
