(* ===== verification/Shared.v ===== *)
(** * Shared state

    [risk_manager::Shared] (shared.hpp, shared.cpp): the registry that numbers
    instruments, the accounts, users and strategies of the configuration, their
    limits, and for each of them the instruments whose position must be
    published. [Shared] is the handler of the three risk classes.

    Hash maps are [gmap]s and hash sets [gset]s; where the code iterates one, the
    order is the parameter [hash_order]. *)

From S2P Require Import Prelude Double Messages Instrument Position Groups.

(** key => exchange => symbol => limit *)
Abbreviation limit_table K := (gmap K (gmap string (gmap string Limit))).

Section shared.
Context `{!RoqApi} `{!HashOrder}.

(** ** State *)

(** [next_instrument_id_], [instrument_lookup_], [instruments_]. *)
Record Registry : Type := {
  next_instrument_id : Z;
  instrument_lookup : gmap string (gmap string Z);
  instruments : gmap Z Instrument;
}.

(** The three constant limit tables. *)
Record Limits : Type := {
  limits_by_account : limit_table string;
  limits_by_user : limit_table string;
  limits_by_strategy : limit_table Z;
}.

(** The three tables of instruments to publish. *)
Record Publish : Type := {
  publish_by_account : gmap string (gset Z);
  publish_by_user : gmap string (gset Z);
  publish_by_strategy : gmap Z (gset Z);
}.

(** [Shared::Account], the cache of positions and funds per source. *)
Record shared_Account : Type := {
  sa_positions : gmap string (gmap string cache_Position);
  sa_funds : gmap string cache_Funds;
}.
Definition shared_Account_default : shared_Account := {| sa_positions := ∅; sa_funds := ∅ |}.

Record Shared : Type := {
  sh_registry : Registry;
  sh_accounts : gmap string Account;
  sh_users : gmap string User;
  sh_strategies : gmap Z Strategy;
  sh_limits : Limits;
  sh_publish : Publish;
  sh_accounts_by_source : gmap Z (gmap string shared_Account);
}.

Definition set_registry (r : Registry) (s : Shared) : Shared :=
  {| sh_registry := r; sh_accounts := sh_accounts s; sh_users := sh_users s;
     sh_strategies := sh_strategies s; sh_limits := sh_limits s;
     sh_publish := sh_publish s; sh_accounts_by_source := sh_accounts_by_source s |}.
Definition set_accounts (a : gmap string Account) (s : Shared) : Shared :=
  {| sh_registry := sh_registry s; sh_accounts := a; sh_users := sh_users s;
     sh_strategies := sh_strategies s; sh_limits := sh_limits s;
     sh_publish := sh_publish s; sh_accounts_by_source := sh_accounts_by_source s |}.
Definition set_users (u : gmap string User) (s : Shared) : Shared :=
  {| sh_registry := sh_registry s; sh_accounts := sh_accounts s; sh_users := u;
     sh_strategies := sh_strategies s; sh_limits := sh_limits s;
     sh_publish := sh_publish s; sh_accounts_by_source := sh_accounts_by_source s |}.
Definition set_strategies (t : gmap Z Strategy) (s : Shared) : Shared :=
  {| sh_registry := sh_registry s; sh_accounts := sh_accounts s; sh_users := sh_users s;
     sh_strategies := t; sh_limits := sh_limits s;
     sh_publish := sh_publish s; sh_accounts_by_source := sh_accounts_by_source s |}.
Definition set_publish (p : Publish) (s : Shared) : Shared :=
  {| sh_registry := sh_registry s; sh_accounts := sh_accounts s; sh_users := sh_users s;
     sh_strategies := sh_strategies s; sh_limits := sh_limits s;
     sh_publish := p; sh_accounts_by_source := sh_accounts_by_source s |}.
Definition set_accounts_by_source (c : gmap Z (gmap string shared_Account)) (s : Shared) : Shared :=
  {| sh_registry := sh_registry s; sh_accounts := sh_accounts s; sh_users := sh_users s;
     sh_strategies := sh_strategies s; sh_limits := sh_limits s;
     sh_publish := sh_publish s; sh_accounts_by_source := c |}.

(** ** Construction *)

(** [result.try_emplace(k, v)]. *)
Definition try_emplace {K V} `{Countable K} (k : K) (v : V) (m : gmap K V) : gmap K V :=
  match m !! k with Some _ => m | None => <[k := v]> m end.

(** [m[k]] on a map of maps: the entry, created empty when missing. *)
Definition at_key {K K' V} `{Countable K} `{Countable K'} (k : K) (m : gmap K (gmap K' V)) : gmap K' V :=
  default ∅ (m !! k).

Definition create_config {K} `{Countable K} {C : Type} (config : gmap K C) : gmap K (Group K) :=
  fold_left (λ result '(name, _), try_emplace name (group_ctor name) result)
            (hash_order (map_to_list config)) ∅.

Definition create_limits {K} `{Countable K} (limits : limit_table K) : limit_table K :=
  fold_left (λ result '(account, value_1),
      <[account :=
        fold_left (λ tmp_1 '(exchange, value_2),
            <[exchange :=
              fold_left (λ tmp_2 '(symbol, limit), try_emplace symbol limit tmp_2)
                        (hash_order (map_to_list value_2)) (at_key exchange tmp_1)]> tmp_1)
          (hash_order (map_to_list value_1)) (at_key account result)]> result)
    (hash_order (map_to_list limits)) ∅.

(** [Shared::Shared(Settings const &, Config const &)], from the three limit
    tables of the configuration. *)
Definition Shared_ctor (accounts users : limit_table string) (strategies : limit_table Z) : Shared := {|
  sh_registry := {| next_instrument_id := 0; instrument_lookup := ∅; instruments := ∅ |};
  sh_accounts := create_config accounts;
  sh_users := create_config users;
  sh_strategies := create_config strategies;
  sh_limits := {| limits_by_account := create_limits accounts;
                  limits_by_user := create_limits users;
                  limits_by_strategy := create_limits strategies |};
  sh_publish := {| publish_by_account := ∅; publish_by_user := ∅; publish_by_strategy := ∅ |};
  sh_accounts_by_source := ∅;
|}.

(** ** Instruments *)

(** A lookup value of zero means "no id yet"; the stored value is an [int32_t],
    the counter and the result are [uint32_t]. *)
Definition get_instrument_id (exchange symbol : string) (r : Registry) : Z * Registry :=
  let result := default 0 (at_key exchange (instrument_lookup r) !! symbol) in
  if result =? 0 then
    let next := u32 (next_instrument_id r + 1) in
    let result := i32 next in
    (u32 result,
     {| next_instrument_id := next;
        instrument_lookup :=
          <[exchange := <[symbol := result]> (at_key exchange (instrument_lookup r))]>
            (instrument_lookup r);
        instruments := instruments r |})
  else (u32 result, r).

Definition registry_get_instrument (exchange symbol : string) (r : Registry) : Instrument * Registry :=
  let '(instrument_id, r1) := get_instrument_id exchange symbol r in
  match instruments r1 !! instrument_id with
  | Some i => (i, r1)
  | None =>
      let i := Instrument_ctor instrument_id exchange symbol in
      (i, {| next_instrument_id := next_instrument_id r1;
             instrument_lookup := instrument_lookup r1;
             instruments := <[instrument_id := i]> (instruments r1) |})
  end.

Definition get_instrument (exchange symbol : string) (s : Shared) : Instrument * Shared :=
  let '(i, r) := registry_get_instrument exchange symbol (sh_registry s) in
  (i, set_registry r s).

(** Writing through the reference [get_instrument] returned. *)
Definition put_instrument (i : Instrument) (s : Shared) : Shared :=
  set_registry
    {| next_instrument_id := next_instrument_id (sh_registry s);
       instrument_lookup := instrument_lookup (sh_registry s);
       instruments := <[ins_id i := i]> (instruments (sh_registry s)) |} s.

(** ** Limits *)

Definition get_limit {K} `{Countable K} (table : limit_table K) (key : K) (exchange symbol : string) : Limit :=
  match table !! key with
  | None => Limit_default
  | Some tmp_1 =>
      match tmp_1 !! exchange with
      | None => Limit_default
      | Some tmp_2 =>
          match tmp_2 !! symbol with
          | None => Limit_default
          | Some limit => limit
          end
      end
  end.

Definition get_limit_by_account (account exchange symbol : string) (s : Shared) : Limit :=
  get_limit (limits_by_account (sh_limits s)) account exchange symbol.
Definition get_limit_by_user (user exchange symbol : string) (s : Shared) : Limit :=
  get_limit (limits_by_user (sh_limits s)) user exchange symbol.
Definition get_limit_by_strategy (strategy_id : Z) (exchange symbol : string) (s : Shared) : Limit :=
  get_limit (limits_by_strategy (sh_limits s)) strategy_id exchange symbol.

(** ** Publication *)

(** [publish[key].emplace(instrument_id)]. *)
Definition publish_one {K} `{Countable K} (key : K) (id : Z) (m : gmap K (gset Z)) : gmap K (gset Z) :=
  <[key := {[ id ]} ∪ default ∅ (m !! key)]> m.

(** [for (auto &[instrument_id, _] : instruments_) publish[key].emplace(instrument_id)]. *)
Definition publish_all {K} `{Countable K} (key : K) (r : Registry) (m : gmap K (gset Z)) : gmap K (gset Z) :=
  <[key := fold_left (λ tmp '(id, _), {[ id ]} ∪ tmp)
             (hash_order (map_to_list (instruments r))) (default ∅ (m !! key))]> m.

Definition set_publish_by_account (m : gmap string (gset Z)) (s : Shared) : Shared :=
  set_publish {| publish_by_account := m;
                 publish_by_user := publish_by_user (sh_publish s);
                 publish_by_strategy := publish_by_strategy (sh_publish s) |} s.
Definition set_publish_by_user (m : gmap string (gset Z)) (s : Shared) : Shared :=
  set_publish {| publish_by_account := publish_by_account (sh_publish s);
                 publish_by_user := m;
                 publish_by_strategy := publish_by_strategy (sh_publish s) |} s.
Definition set_publish_by_strategy (m : gmap Z (gset Z)) (s : Shared) : Shared :=
  set_publish {| publish_by_account := publish_by_account (sh_publish s);
                 publish_by_user := publish_by_user (sh_publish s);
                 publish_by_strategy := m |} s.

Definition publish_account_instrument (account : string) (id : Z) (s : Shared) : Shared :=
  set_publish_by_account (publish_one account id (publish_by_account (sh_publish s))) s.
Definition publish_user_instrument (user : string) (id : Z) (s : Shared) : Shared :=
  set_publish_by_user (publish_one user id (publish_by_user (sh_publish s))) s.
Definition publish_strategy_instrument (strategy_id : Z) (id : Z) (s : Shared) : Shared :=
  set_publish_by_strategy (publish_one strategy_id id (publish_by_strategy (sh_publish s))) s.

Definition publish_account (account : string) (s : Shared) : Shared :=
  set_publish_by_account (publish_all account (sh_registry s) (publish_by_account (sh_publish s))) s.
Definition publish_user (user : string) (s : Shared) : Shared :=
  set_publish_by_user (publish_all user (sh_registry s) (publish_by_user (sh_publish s))) s.
Definition publish_strategy (strategy_id : Z) (s : Shared) : Shared :=
  set_publish_by_strategy (publish_all strategy_id (sh_registry s) (publish_by_strategy (sh_publish s))) s.

(** The loop of [get_publish_by_*]: the callback on every position of the group,
    whose class has [get], among the given instruments. *)
Definition drain {K B} `{Countable K} (get : Z → (Position → B → B) → Group K → B → B) (r : Registry) (groups : gmap K (Group K)) (key : K)
    (callback : Position → Instrument → B → B) (set : gset Z) (b : B) : B :=
  fold_left (λ b id,
      match instruments r !! id with
      | None => b
      | Some instrument =>
          match groups !! key with
          | None => b
          | Some g => get id (λ position, callback position instrument) g b
          end
      end) (hash_order (elements set)) b.

Definition get_publish_by_account {B} (account : string) (callback : Position → Instrument → B → B)
    (b : B) (s : Shared) : bool * B * Shared :=
  match publish_by_account (sh_publish s) !! account with
  | None => (false, b, s)
  | Some set =>
      (true, drain Account_get_position (sh_registry s) (sh_accounts s) account callback set b,
       set_publish_by_account (<[account := ∅]> (publish_by_account (sh_publish s))) s)
  end.

Definition get_publish_by_user {B} (user : string) (callback : Position → Instrument → B → B)
    (b : B) (s : Shared) : bool * B * Shared :=
  match publish_by_user (sh_publish s) !! user with
  | None => (false, b, s)
  | Some set =>
      (true, drain User_get_position (sh_registry s) (sh_users s) user callback set b,
       set_publish_by_user (<[user := ∅]> (publish_by_user (sh_publish s))) s)
  end.

Definition get_publish_by_strategy {B} (strategy_id : Z) (callback : Position → Instrument → B → B)
    (b : B) (s : Shared) : bool * B * Shared :=
  match publish_by_strategy (sh_publish s) !! strategy_id with
  | None => (false, b, s)
  | Some set =>
      (true, drain Strategy_get_position (sh_registry s) (sh_strategies s) strategy_id callback set b,
       set_publish_by_strategy (<[strategy_id := ∅]> (publish_by_strategy (sh_publish s))) s)
  end.

(** ** Access with callbacks

    The callback works on the stored object and may call the handler; it never
    touches the map that holds the object, so its result is written back. *)

Definition get_account (account : string) (callback : Account → Shared → Account * Shared)
    (s : Shared) : bool * Shared :=
  match sh_accounts s !! account with
  | Some a =>
      let '(a', s') := callback a s in
      (true, set_accounts (<[account := a']> (sh_accounts s')) s')
  | None => (false, s)
  end.

Definition get_user (user : string) (callback : User → Shared → User * Shared)
    (s : Shared) : bool * Shared :=
  match sh_users s !! user with
  | Some u =>
      let '(u', s') := callback u s in
      (true, set_users (<[user := u']> (sh_users s')) s')
  | None => (false, s)
  end.

Definition get_strategy (strategy_id : Z) (callback : Strategy → Shared → Strategy * Shared)
    (s : Shared) : bool * Shared :=
  match sh_strategies s !! strategy_id with
  | Some t =>
      let '(t', s') := callback t s in
      (true, set_strategies (<[strategy_id := t']> (sh_strategies s')) s')
  | None => (false, s)
  end.

(** The keys in the order a range-for visits them. *)
Definition keys {K V} `{Countable K} (m : gmap K V) : list K := (hash_order (map_to_list m)).*1.

Definition get_all_accounts (callback : Account → Shared → Account * Shared) (s : Shared) : Shared :=
  fold_left (λ s name, (get_account name callback s).2) (keys (sh_accounts s)) s.
Definition get_all_users (callback : User → Shared → User * Shared) (s : Shared) : Shared :=
  fold_left (λ s name, (get_user name callback s).2) (keys (sh_users s)) s.
Definition get_all_strategys (callback : Strategy → Shared → Strategy * Shared) (s : Shared) : Shared :=
  fold_left (λ s id, (get_strategy id callback s).2) (keys (sh_strategies s)) s.

(** ** [Shared] as the handler of the risk classes *)

Definition account_handler : Handler Shared string :=
  {| h_get_instrument := get_instrument; h_get_limit := get_limit_by_account;
     h_publish := publish_account_instrument |}.
Definition user_handler : Handler Shared string :=
  {| h_get_instrument := get_instrument; h_get_limit := get_limit_by_user;
     h_publish := publish_user_instrument |}.
Definition strategy_handler : Handler Shared Z :=
  {| h_get_instrument := get_instrument; h_get_limit := get_limit_by_strategy;
     h_publish := publish_strategy_instrument |}.
End shared.
