(* ===== verification/SharedFacts.v ===== *)
(** * Facts about the shared state

    The registry gives every (exchange, symbol) one id and every id one
    instrument, for as many instruments as [uint32_t] can count; the constructor
    copies the configured limits; draining hands out every pending position once
    and leaves nothing pending. With these, [Shared] discharges the laws the risk
    classes ask of their handler. *)

From S2P Require Import Prelude Double Messages Instrument Position Groups Shared.

(** ** Copying hash maps *)

Section copy.
Context `{!HashOrder}.

Lemma hash_order_keys_NoDup {K V} `{Countable K} (m : gmap K V) :
  NoDup (hash_order (map_to_list m)).*1.
Proof. rewrite (hash_order_perm (map_to_list m)). apply NoDup_fst_map_to_list. Qed.

(** The keys a loop over a map visits. *)
Lemma elem_of_keys {V} (m : gmap string V) k : k ∈ keys m ↔ is_Some (m !! k).
Proof.
  unfold keys. rewrite (hash_order_perm (map_to_list m)), list_elem_of_fmap. split.
  - intros ([k' v] & -> & Hk). apply elem_of_map_to_list in Hk. by eexists.
  - intros [v Hv]. exists (k, v). split; [done|]. by apply elem_of_map_to_list.
Qed.

Lemma NoDup_keys {V} (m : gmap string V) : NoDup (keys m).
Proof. apply hash_order_keys_NoDup. Qed.

Lemma list_to_map_hash_order {K V} `{Countable K} (m : gmap K V) :
  list_to_map (hash_order (map_to_list m)) = m.
Proof.
  rewrite <- (list_to_map_to_list m) at 2. apply list_to_map_proper.
  - apply hash_order_keys_NoDup.
  - apply hash_order_perm.
Qed.

(** A loop that stores a function of each entry, and of what is there already,
    maps the function over the entries when every key comes once. *)
Lemma fold_left_store_lookup {K V V'} `{Countable K} (f : K → V → option V' → V')
    (l : list (K * V)) (m : gmap K V') k :
  NoDup l.*1 →
  fold_left (λ r '(k, v), <[k := f k v (r !! k)]> r) l m !! k
  = match (list_to_map l : gmap K V) !! k with
    | Some v => Some (f k v (m !! k))
    | None => m !! k
    end.
Proof.
  revert m. induction l as [|[k' v] l IH]; intros m Hnd; cbn in *; [by rewrite lookup_empty|].
  apply NoDup_cons in Hnd as [Hk Hnd]. rewrite IH by done.
  destruct (decide (k = k')) as [->|].
  - by rewrite !lookup_insert_eq, not_elem_of_list_to_map_1.
  - by rewrite !lookup_insert_ne.
Qed.

Lemma fold_left_store_map {K V V'} `{Countable K} (f : K → V → option V' → V') (m : gmap K V) k :
  fold_left (λ r '(k, v), <[k := f k v (r !! k)]> r) (hash_order (map_to_list m)) (∅ : gmap K V') !! k
  = (λ v, f k v None) <$> m !! k.
Proof.
  rewrite fold_left_store_lookup by apply hash_order_keys_NoDup.
  rewrite list_to_map_hash_order, lookup_empty. by destruct (m !! k).
Qed.

Lemma fold_left_ext {A B} (f g : A → B → A) (l : list B) a :
  (∀ a b, f a b = g a b) → fold_left f l a = fold_left g l a.
Proof. intros Hfg. revert a. induction l; intros a'; cbn; [done|]. by rewrite Hfg. Qed.

Lemma try_emplace_insert {K V} `{Countable K} k (v : V) (m : gmap K V) :
  try_emplace k v m = <[k := default v (m !! k)]> m.
Proof. unfold try_emplace. destruct (m !! k) eqn:Hk; cbn; [|done]. by rewrite insert_id. Qed.

Lemma fold_left_try_emplace {K V V'} `{Countable K} (f : K → V → V') (m : gmap K V) k :
  fold_left (λ r '(k, v), try_emplace k (f k v) r) (hash_order (map_to_list m)) (∅ : gmap K V') !! k
  = f k <$> m !! k.
Proof.
  rewrite (fold_left_ext _ (λ r '(k, v), <[k := default (f k v) (r !! k)]> r))
    by (intros r [k' v]; apply try_emplace_insert).
  apply (fold_left_store_map (λ k v o, default (f k v) o)).
Qed.
End copy.

(** ** Construction *)

Section construction.
Context `{!RoqApi} `{!HashOrder}.

Lemma create_limits_id {K} `{Countable K} (limits : limit_table K) : create_limits limits = limits.
Proof.
  apply map_eq. intros account. unfold create_limits, at_key.
  rewrite (fold_left_store_map (λ _ value_1 old,
    fold_left (λ tmp_1 '(exchange, value_2),
      <[exchange := fold_left (λ tmp_2 '(symbol, limit), try_emplace symbol limit tmp_2)
          (hash_order (map_to_list value_2)) (default ∅ (tmp_1 !! exchange))]> tmp_1)
      (hash_order (map_to_list value_1)) (default ∅ old))).
  destruct (limits !! account) as [value_1|]; cbn; [f_equal|done].
  apply map_eq. intros exchange.
  rewrite (fold_left_store_map (λ _ value_2 old,
    fold_left (λ tmp_2 '(symbol, limit), try_emplace symbol limit tmp_2)
      (hash_order (map_to_list value_2)) (default ∅ old))).
  destruct (value_1 !! exchange) as [value_2|]; cbn; [f_equal|done].
  apply map_eq. intros symbol. rewrite (fold_left_try_emplace (λ _ v, v)).
  by destruct (value_2 !! symbol).
Qed.

Lemma create_config_lookup {K} `{Countable K} {C} (config : gmap K C) k :
  create_config config !! k = (λ _, group_ctor k) <$> config !! k.
Proof.
  unfold create_config. apply (fold_left_try_emplace (λ k _, group_ctor k)).
Qed.
End construction.

(** ** The registry of instruments *)

Section registry.
Context `{!RoqApi}.
Implicit Types (r : Registry) (e y : string).

(** The stored value of a name, and its id. *)
Definition stored r e y : Z := default 0 (at_key e (instrument_lookup r) !! y).
Definition known r e y : Prop := stored r e y ≠ 0.

(** Ids run from 1 to the counter, differ for different names, and an
    instrument carries the name it was created with. *)
Record registry_wf (r : Registry) : Prop := {
  wf_next : 0 ≤ next_instrument_id r < 2 ^ 32;
  wf_stored : ∀ e y, known r e y → 1 ≤ u32 (stored r e y) ≤ next_instrument_id r;
  wf_inj : ∀ e y e' y', known r e y → known r e' y' →
    u32 (stored r e y) = u32 (stored r e' y') → (e, y) = (e', y');
  wf_instruments : ∀ id i, instruments r !! id = Some i →
    ins_id i = id ∧ ∃ e y, known r e y ∧ u32 (stored r e y) = id
                           ∧ ins_exchange i = to_Exchange e ∧ ins_symbol i = to_Symbol y;
}.

(** There is an id left. *)
Definition room (r : Registry) : Prop := next_instrument_id r < 2 ^ 32 - 1.

Lemma registry_wf_empty :
  registry_wf {| next_instrument_id := 0; instrument_lookup := ∅; instruments := ∅ |}.
Proof.
  assert (∀ e y, stored {| next_instrument_id := 0; instrument_lookup := ∅; instruments := ∅ |} e y = 0)
    as Hs by (intros; unfold stored, at_key; cbn; by rewrite lookup_empty).
  split; unfold known.
  - done.
  - intros e y. by rewrite Hs.
  - intros e y e' y'. by rewrite Hs.
  - intros id i. cbn. by rewrite lookup_empty.
Qed.

Lemma stored_insert r e y v e' y' n ins :
  stored {| next_instrument_id := n;
            instrument_lookup := <[e := <[y := v]> (at_key e (instrument_lookup r))]> (instrument_lookup r);
            instruments := ins |} e' y'
  = if decide ((e', y') = (e, y)) then v else stored r e' y'.
Proof.
  unfold stored, at_key. cbn. destruct (decide (e' = e)) as [->|].
  - rewrite lookup_insert_eq. cbn. destruct (decide (y' = y)) as [->|].
    + by rewrite lookup_insert_eq, decide_True.
    + rewrite lookup_insert_ne, decide_False by congruence. done.
  - rewrite lookup_insert_ne, decide_False by congruence. done.
Qed.

Lemma i32_nonzero z : 0 < z < 2 ^ 32 → i32 z ≠ 0.
Proof.
  intros Hz Hi. pose proof (u32_i32 z) as Hu. rewrite Hi, (u32_small z) in Hu by lia.
  change (u32 0) with 0 in Hu. lia.
Qed.

(** The id of a name that has one. *)
Lemma get_instrument_id_known r e y :
  known r e y → get_instrument_id e y r = (u32 (stored r e y), r).
Proof.
  unfold known, get_instrument_id. fold (stored r e y). intros Hk.
  by rewrite (proj2 (Z.eqb_neq _ _)).
Qed.

Lemma get_instrument_id_spec r e y :
  registry_wf r → room r →
  let '(id, r') := get_instrument_id e y r in
  registry_wf r' ∧ known r' e y ∧ u32 (stored r' e y) = id
  ∧ instruments r' = instruments r
  ∧ (∀ e' y', known r e' y' → stored r' e' y' = stored r e' y').
Proof.
  intros Hwf Hroom. destruct (decide (known r e y)) as [Hk|Hk].
  { by rewrite get_instrument_id_known by done. }
  assert (Hz : stored r e y = 0) by (unfold known in Hk; lia).
  unfold get_instrument_id. fold (stored r e y). rewrite Hz. cbn -[u32 i32 Z.pow].
  pose proof (wf_next r Hwf). unfold room in Hroom.
  rewrite (u32_small (_ + 1)) by lia.
  set (n := next_instrument_id r + 1) in *.
  assert (Hn : i32 n ≠ 0) by (apply i32_nonzero; lia).
  assert (Hu : u32 (i32 n) = n) by (rewrite u32_i32, u32_small; lia).
  pose proof (wf_stored r Hwf) as Hst. pose proof (wf_inj r Hwf) as Hinj.
  rewrite Hu. split_and!; [split|..]; unfold known in *; cbn [next_instrument_id instruments];
    repeat setoid_rewrite stored_insert.
  - lia.
  - intros e' y'. case_decide; [lia|]. intros ?. specialize (Hst e' y'). lia.
  - intros e1 y1 e2 y2. repeat case_decide; intros Hk1 Hk2 Heq; simplify_eq; try done.
    + specialize (Hst e2 y2 Hk2). lia.
    + specialize (Hst e1 y1 Hk1). lia.
    + by apply Hinj.
  - intros id i Hi. destruct (wf_instruments r Hwf id i Hi) as (Hid & e' & y' & Hk' & Hrest).
    split; [done|]. exists e', y'. rewrite decide_False; [done|].
    intros [= -> ->]. done.
  - by rewrite decide_True.
  - by rewrite decide_True.
  - done.
  - intros e' y' Hk'. rewrite decide_False; [done|]. intros [= -> ->]. done.
Qed.

(** What [get_instrument] promises while an id is left. *)
Lemma registry_get_instrument_spec r e y :
  registry_wf r → room r →
  let '(i, r') := registry_get_instrument e y r in
  registry_wf r' ∧ known r' e y ∧ u32 (stored r' e y) = ins_id i
  ∧ instruments r' !! ins_id i = Some i
  ∧ ins_exchange i = to_Exchange e ∧ ins_symbol i = to_Symbol y
  ∧ (∀ e' y', known r e' y' → stored r' e' y' = stored r e' y')
  ∧ (∀ id j, instruments r !! id = Some j → instruments r' !! id = Some j).
Proof.
  intros Hwf Hroom. unfold registry_get_instrument.
  pose proof (get_instrument_id_spec r e y Hwf Hroom) as Hid.
  destruct (get_instrument_id e y r) as [id r1].
  destruct Hid as (Hwf1 & Hk & Hu & Hins & Hmono).
  destruct (instruments r1 !! id) as [i|] eqn:Hi.
  - destruct (wf_instruments r1 Hwf1 id i Hi) as (Hid & e' & y' & Hk' & Hu' & He & Hy).
    assert ((e', y') = (e, y)) as [= -> ->] by (apply (wf_inj r1 Hwf1); congruence).
    split_and!; try done; [congruence|congruence|]. intros. by rewrite Hins.
  - cbn. split_and!; try done.
    + split; [apply Hwf1|apply Hwf1|apply Hwf1|]. intros id' j.
      destruct (decide (id' = id)) as [->|]; cbn.
      * rewrite lookup_insert_eq. intros [= <-]. split; [done|]. exists e, y. done.
      * rewrite lookup_insert_ne by done. apply Hwf1.
    + by rewrite lookup_insert_eq.
    + intros id' j Hj. rewrite lookup_insert_ne; [by rewrite Hins|].
      intros ->. rewrite <- Hins in Hj. congruence.
Qed.

(** A request takes at most one id, and leaves the other names alone. *)
Lemma registry_get_instrument_next r e y :
  0 ≤ next_instrument_id r →
  next_instrument_id (registry_get_instrument e y r).2 ≤ next_instrument_id r + 1.
Proof.
  intros Hr. unfold registry_get_instrument, get_instrument_id. fold (stored r e y).
  destruct (stored r e y =? 0); cbn -[u32 i32];
    destruct (_ !! _); cbn -[u32 i32]; try lia; apply Z.mod_le; lia.
Qed.

Lemma registry_get_instrument_stored r e y e' y' :
  (e', y') ≠ (e, y) → stored (registry_get_instrument e y r).2 e' y' = stored r e' y'.
Proof.
  intros Hne. unfold registry_get_instrument, get_instrument_id. fold (stored r e y).
  destruct (stored r e y =? 0); cbn -[u32 i32].
  - destruct (_ !! _); cbn -[u32 i32 stored]; rewrite stored_insert, decide_False by done; done.
  - by destruct (_ !! _).
Qed.

(** A second request for the same name finds the same instrument and changes
    nothing. *)
Lemma registry_get_instrument_stable r e y :
  registry_wf r → room r →
  registry_get_instrument e y (registry_get_instrument e y r).2 = registry_get_instrument e y r.
Proof.
  intros Hwf Hroom. pose proof (registry_get_instrument_spec r e y Hwf Hroom) as Hs.
  destruct (registry_get_instrument e y r) as [i r'] eqn:Hr.
  destruct Hs as (Hwf' & Hk & Hu & Hi & _). cbn.
  unfold registry_get_instrument. rewrite get_instrument_id_known by done.
  by rewrite Hu, Hi.
Qed.

(** Names known before keep their id through any request. *)
Lemma registry_id_unique r e y e' y' :
  registry_wf r → room r →
  registry_wf (registry_get_instrument e y r).2 → room (registry_get_instrument e y r).2 →
  ins_id (registry_get_instrument e' y' (registry_get_instrument e y r).2).1
    = ins_id (registry_get_instrument e y r).1 → (e', y') = (e, y).
Proof.
  intros Hwf Hroom Hwf1 Hroom1 Hid.
  pose proof (registry_get_instrument_spec r e y Hwf Hroom) as Hs.
  destruct (registry_get_instrument e y r) as [i r1]; cbn in *.
  destruct Hs as (_ & Hk & Hu & _).
  pose proof (registry_get_instrument_spec r1 e' y' Hwf1 Hroom1) as Hs'.
  destruct (registry_get_instrument e' y' r1) as [i' r2]; cbn in *.
  destruct Hs' as (Hwf2 & Hk' & Hu' & _ & _ & _ & Hmono & _).
  apply (wf_inj r2 Hwf2); [done| |].
  - unfold known. rewrite Hmono by done. exact Hk.
  - rewrite (Hmono e y) by done. congruence.
Qed.
End registry.

(** ** [Shared] discharges the handler's laws *)

Section handler.
Context `{!RoqApi} `{!HashOrder}.

(** The registry is well formed and has [n] ids left. *)
Definition shared_wf (n : Z) (s : Shared) : Prop :=
  registry_wf (sh_registry s) ∧ next_instrument_id (sh_registry s) + n < 2 ^ 32.

Definition registry_ids (r : Registry) (e y : string) : option Z :=
  if decide (known r e y) then Some (u32 (stored r e y)) else None.
Definition shared_ids (s : Shared) : string → string → option Z := registry_ids (sh_registry s).

Lemma get_instrument_eq e y s :
  get_instrument e y s
  = ((registry_get_instrument e y (sh_registry s)).1,
     set_registry (registry_get_instrument e y (sh_registry s)).2 s).
Proof. unfold get_instrument. by destruct (registry_get_instrument _ _ _). Qed.

Lemma shared_get_wf n s e y : 0 ≤ n → shared_wf (n + 1) s → shared_wf n (get_instrument e y s).2.
Proof.
  intros Hn [Hwf Hr]. rewrite get_instrument_eq. cbn. split; cbn.
  - pose proof (registry_get_instrument_spec (sh_registry s) e y Hwf) as Hs.
    destruct (registry_get_instrument e y (sh_registry s)). apply Hs. unfold room. lia.
  - pose proof (registry_get_instrument_next (sh_registry s) e y). pose proof (wf_next _ Hwf). lia.
Qed.

Lemma shared_get_known n s e y : 0 < n → shared_wf n s →
  shared_ids (get_instrument e y s).2 e y = Some (ins_id (get_instrument e y s).1).
Proof.
  intros Hn [Hwf Hr]. rewrite get_instrument_eq. cbn. unfold shared_ids, registry_ids. cbn.
  pose proof (registry_get_instrument_spec (sh_registry s) e y Hwf) as Hs.
  destruct (registry_get_instrument e y (sh_registry s)) as [i r].
  destruct Hs as (_ & Hk & Hu & _); [unfold room; lia|]. cbn. rewrite decide_True by done. by rewrite Hu.
Qed.

Lemma shared_get_same n s e y id : shared_wf n s → shared_ids s e y = Some id →
  ins_id (get_instrument e y s).1 = id.
Proof.
  intros [Hwf _]. rewrite get_instrument_eq. cbn. unfold shared_ids, registry_ids.
  case_decide as Hk; [|done]. intros [= <-]. unfold registry_get_instrument.
  rewrite get_instrument_id_known by done. destruct (instruments _ !! _) eqn:Hi; [|done].
  by destruct (wf_instruments _ Hwf _ _ Hi).
Qed.

Lemma shared_get_fresh n s e y e' y' : 0 < n → shared_wf n s → shared_ids s e y = None →
  shared_ids s e' y' ≠ Some (ins_id (get_instrument e y s).1).
Proof.
  intros Hn [Hwf Hr] Hnone Hsome. rewrite get_instrument_eq in Hsome. cbn in Hsome.
  unfold shared_ids, registry_ids in *.
  destruct (decide (known (sh_registry s) e y)) as [|Hk]; [done|].
  destruct (decide (known (sh_registry s) e' y')) as [Hk'|]; [|done].
  injection Hsome as Hid. pose proof (registry_get_instrument_spec (sh_registry s) e y Hwf) as Hs.
  destruct (registry_get_instrument e y (sh_registry s)) as [i r]. cbn in *.
  destruct Hs as (Hwf' & Hkr & Hu & _ & _ & _ & Hmono & _); [unfold room; lia|].
  assert ((e', y') = (e, y)) as [= -> ->]; [|done].
  apply (wf_inj r Hwf'); [|done|]; rewrite ?Hmono by done; [|congruence].
  unfold known. by rewrite Hmono.
Qed.

Lemma shared_get_other n s e y e' y' : shared_wf n s → (e', y') ≠ (e, y) →
  shared_ids (get_instrument e y s).2 e' y' = shared_ids s e' y'.
Proof.
  intros _ Hne. rewrite get_instrument_eq. unfold shared_ids, registry_ids, known. cbn.
  by rewrite registry_get_instrument_stored.
Qed.

Lemma shared_ids_inj n s e y e' y' id : shared_wf n s →
  shared_ids s e y = Some id → shared_ids s e' y' = Some id → (e, y) = (e', y').
Proof.
  intros [Hwf _]. unfold shared_ids, registry_ids. do 2 (case_decide; [|done]).
  intros [= <-] [= Heq]. by apply (wf_inj _ Hwf).
Qed.

Ltac solve_handler_laws :=
  refine {| wf := shared_wf; ids_of := shared_ids |};
    [ intros n n' s Hle [? ?]; split; [done|lia]
    | exact shared_get_wf | exact shared_get_known | exact shared_get_same | exact shared_get_fresh
    | exact shared_get_other | exact shared_ids_inj
    | intros; cbn; by rewrite get_instrument_eq
    | done | done | done ].

#[global] Instance account_handler_laws : HandlerLaws account_handler.
Proof. solve_handler_laws. Defined.

#[global] Instance user_handler_laws : HandlerLaws user_handler.
Proof. solve_handler_laws. Defined.

#[global] Instance strategy_handler_laws : HandlerLaws strategy_handler.
Proof. solve_handler_laws. Defined.
End handler.

(** ** Publication *)

Section publication.
Context `{!RoqApi} `{!HashOrder}.

(** The positions [drain] finds, in the order of [l]. *)
Definition found {K} `{Countable K} (r : Registry) (groups : gmap K (Group K)) (key : K)
    (l : list Z) : list (Position * Instrument) :=
  omap (λ id, i ← instruments r !! id; g ← groups !! key;
              p ← grp_positions g !! id; Some (p, i)) l.

(** The three classes find positions alike. *)
Definition finds {K B} (get : Z → (Position → B → B) → Group K → B → B) : Prop :=
  ∀ id cb g b, get id cb g b = get_position id cb g b.

Lemma drain_found {K B} `{Countable K} get r (groups : gmap K (Group K)) key
    (cb : Position → Instrument → B → B) set b :
  finds get →
  drain get r groups key cb set b
  = fold_left (λ b '(p, i), cb p i b) (found r groups key (hash_order (elements set))) b.
Proof.
  intros Hget. unfold drain, found. revert b.
  induction (hash_order (elements set)) as [|id l IH]; intros b; cbn; [done|].
  rewrite IH. destruct (instruments r !! id); cbn; [|done].
  destruct (groups !! key) as [g|]; cbn; [|done]. rewrite Hget. unfold get_position.
  by destruct (grp_positions g !! id).
Qed.

Lemma found_perm {K} `{Countable K} r (groups : gmap K (Group K)) key (set : gset Z) :
  found r groups key (hash_order (elements set)) ≡ₚ found r groups key (elements set).
Proof. unfold found. by rewrite (hash_order_perm (elements set)). Qed.

Lemma elem_of_found {K} `{Countable K} r (groups : gmap K (Group K)) key (set : gset Z) p i :
  (p, i) ∈ found r groups key (elements set) ↔
  ∃ id g, id ∈ set ∧ instruments r !! id = Some i ∧ groups !! key = Some g
          ∧ grp_positions g !! id = Some p.
Proof.
  unfold found. rewrite list_elem_of_omap. setoid_rewrite elem_of_elements. split.
  - intros (id & Hid & Hx). exists id.
    destruct (instruments r !! id); [|done]. destruct (groups !! key) as [g|]; [|done].
    cbn in Hx. destruct (grp_positions g !! id) eqn:Hp; [|done]. cbn in Hx. simplify_eq. eauto.
  - intros (id & g & Hid & Hi & Hg & Hp). exists id. by rewrite Hi, Hg; cbn; rewrite Hp.
Qed.

Lemma publish_all_lookup {K} `{Countable K} (key : K) r m :
  publish_all key r m !! key = Some (dom (instruments r) ∪ default ∅ (m !! key)).
Proof.
  unfold publish_all. rewrite lookup_insert_eq. f_equal.
  rewrite <- (list_to_map_hash_order (instruments r)) at 2.
  rewrite dom_list_to_map_L.
  generalize (default ∅ (m !! key)). induction (hash_order (map_to_list (instruments r)))
    as [|[id i] l IH]; intros s; cbn; [set_solver|]. rewrite IH. set_solver.
Qed.

Lemma publish_all_lookup_ne {K} `{Countable K} (key key' : K) r m :
  key ≠ key' → publish_all key r m !! key' = m !! key'.
Proof. intros. unfold publish_all. by rewrite lookup_insert_ne. Qed.
End publication.

(** ** What the shared state promises *)

Section shared_props.
Context `{Api : !RoqApi} `{Order : !HashOrder}.

(** C16. Instruments keep their id: asking again for the same exchange and symbol
    returns the same instrument and changes nothing, another name gets another
    id, and the instrument carries the name it was asked for; as long as fewer
    than 2^32 names were seen. *)
Theorem instrument_ids_stable_and_unique (e y e' y' : string) (s : Shared)
    (Hwf : shared_wf 2 s) (Hne : (e', y') ≠ (e, y)) :
  let '(i, s1) := get_instrument e y s in
  let '(i', s2) := get_instrument e' y' s1 in
  get_instrument e y s1 = (i, s1)
  ∧ ins_id i' ≠ ins_id i
  ∧ (get_instrument e y s2).1 = i
  ∧ ins_exchange i = to_Exchange e ∧ ins_symbol i = to_Symbol y.
Proof.
  destruct Hwf as [Hw Hroom]. assert (Hr : room (sh_registry s)) by (unfold room; lia).
  pose proof (registry_get_instrument_spec (sh_registry s) e y Hw Hr) as H1.
  pose proof (registry_get_instrument_stable (sh_registry s) e y Hw Hr) as Hst.
  pose proof (registry_id_unique (sh_registry s) e y e' y' Hw Hr) as Huniq.
  pose proof (registry_get_instrument_next (sh_registry s) e y (proj1 (wf_next _ Hw))) as Hnext.
  rewrite get_instrument_eq.
  destruct (registry_get_instrument e y (sh_registry s)) as [i r1]. cbn in *.
  destruct H1 as (Hw1 & Hk & Hu & Hi & He & Hy & _).
  assert (Hr1 : room r1) by (unfold room; lia).
  pose proof (registry_get_instrument_spec r1 e' y' Hw1 Hr1) as H2.
  rewrite get_instrument_eq. cbn. destruct (registry_get_instrument e' y' r1) as [i' r2] eqn:H2eq. cbn in *.
  destruct H2 as (_ & _ & _ & _ & _ & _ & Hmono & Hins).
  split_and!; try done.
  - rewrite get_instrument_eq. cbn. by rewrite Hst.
  - intros Heq. by apply Hne, Huniq.
  - rewrite get_instrument_eq. cbn. unfold registry_get_instrument.
    rewrite get_instrument_id_known by (unfold known; by rewrite Hmono).
    by rewrite Hmono, Hu, (Hins _ _ Hi).
Qed.

(** The limits of accounts, users and strategies are the configured ones, in
    whatever order the hash maps of the configuration are walked; an account or a
    user exists exactly when it is configured, and starts without positions. *)
Theorem configured_limits (accounts users : limit_table string) (strategies : limit_table Z) :
  let s := Shared_ctor accounts users strategies in
  (∀ a e y, get_limit_by_account a e y s = get_limit accounts a e y)
  ∧ (∀ u e y, get_limit_by_user u e y s = get_limit users u e y)
  ∧ (∀ k e y, get_limit_by_strategy k e y s = get_limit strategies k e y)
  ∧ (∀ a, sh_accounts s !! a = (λ _, Account_ctor a) <$> accounts !! a)
  ∧ (∀ u, sh_users s !! u = (λ _, User_ctor u) <$> users !! u)
  ∧ (∀ k, sh_strategies s !! k = (λ _, Strategy_ctor k) <$> strategies !! k).
Proof.
  unfold get_limit_by_account, get_limit_by_user, get_limit_by_strategy. cbn.
  rewrite !create_limits_id. split_and!; try done; intros k; apply create_config_lookup.
Qed.

(** Publishing an account marks every instrument known so far, keeps what was
    marked, and leaves other accounts, users and strategies alone; draining it
    then hands each marked position of the account to the callback once, and
    leaves nothing marked. *)
Theorem publish_then_drain {B} (a : string) (cb : Position → Instrument → B → B) (b : B) (s : Shared) :
  let s1 := publish_account a s in
  let set := dom (instruments (sh_registry s)) ∪ default ∅ (publish_by_account (sh_publish s) !! a) in
  publish_by_account (sh_publish s1) !! a = Some set
  ∧ (∀ a', a' ≠ a → publish_by_account (sh_publish s1) !! a' = publish_by_account (sh_publish s) !! a')
  ∧ publish_by_user (sh_publish s1) = publish_by_user (sh_publish s)
  ∧ publish_by_strategy (sh_publish s1) = publish_by_strategy (sh_publish s)
  ∧ ∃ l, get_publish_by_account a cb b s1
         = (true, fold_left (λ b '(p, i), cb p i b) l b,
            set_publish_by_account (<[a := ∅]> (publish_by_account (sh_publish s1))) s1)
         ∧ l ≡ₚ found (sh_registry s) (sh_accounts s) a (elements set).
Proof.
  cbn zeta. assert (Hp : publish_by_account (sh_publish (publish_account a s)) !! a
    = Some (dom (instruments (sh_registry s)) ∪ default ∅ (publish_by_account (sh_publish s) !! a)))
    by apply publish_all_lookup.
  split_and!; try done.
  - intros a' Ha. by apply publish_all_lookup_ne.
  - unfold get_publish_by_account. rewrite Hp. eexists. split; [by rewrite drain_found by done|].
    apply found_perm.
Qed.

(** C39. The bound on instruments: when 2^32 - 1 names have ids, the next one gets the
    id 0, which means none, so that asking for it again counts on and returns the
    instrument that has id 1, of another name. *)
Theorem instrument_ids_wrap (e y : string) (s : Shared) (j : Instrument)
    (Hwf : registry_wf (sh_registry s)) (Hfull : next_instrument_id (sh_registry s) = 2 ^ 32 - 1)
    (Hnew : stored (sh_registry s) e y = 0) (Hj : instruments (sh_registry s) !! 1 = Some j) :
  let '(i, s1) := get_instrument e y s in
  ins_id i = 0
  ∧ (get_instrument e y s1).1 = j
  ∧ ∃ e' y', (e', y') ≠ (e, y) ∧ ins_exchange j = to_Exchange e' ∧ ins_symbol j = to_Symbol y'.
Proof.
  assert (Hzero : instruments (sh_registry s) !! 0 = None).
  { destruct (instruments (sh_registry s) !! 0) as [i|] eqn:Hi; [|done].
    destruct (wf_instruments _ Hwf 0 i Hi) as (_ & e' & y' & Hk & Hu & _).
    pose proof (wf_stored _ Hwf e' y' Hk). lia. }
  destruct (wf_instruments _ Hwf 1 j Hj) as (Hid & e' & y' & Hk & Hu & He & Hy).
  assert (Hne : (e', y') ≠ (e, y)) by (intros [= -> ->]; by apply Hk).
  rewrite get_instrument_eq. unfold registry_get_instrument at 1 2, get_instrument_id at 1 2.
  fold (stored (sh_registry s) e y). rewrite Hnew, Hfull. change (u32 (2 ^ 32 - 1 + 1)) with 0.
  change (i32 0) with 0. change (u32 0) with 0. cbn [Z.eqb instruments]. rewrite Hzero. cbn [fst snd].
  set (r1 := Build_Registry _ _ _). split; [done|]. split; [|by exists e', y'].
  assert (H1 : stored r1 e y = 0) by (etrans; [apply (stored_insert (sh_registry s) e y 0 e y)|by rewrite decide_True]).
  rewrite get_instrument_eq. cbn [fst sh_registry set_registry]. unfold registry_get_instrument, get_instrument_id.
  fold (stored r1 e y). rewrite H1. cbn [Z.eqb next_instrument_id r1].
  change (u32 (i32 (u32 (0 + 1)))) with 1. cbn [instruments r1]. rewrite lookup_insert_ne by done. by rewrite Hj.
Qed.
End shared_props.

Section shared_witnesses.
#[local] Existing Instance test_api.
#[local] Existing Instance in_order.

Lemma instrument_ids_stable_and_unique_witness :
  let s := Shared_ctor ∅ ∅ ∅ in
  let '(i, s1) := get_instrument "deribit" "BTC" s in
  let '(i', s2) := get_instrument "deribit" "ETH" s1 in
  get_instrument "deribit" "BTC" s1 = (i, s1) ∧ ins_id i' ≠ ins_id i
  ∧ (get_instrument "deribit" "BTC" s2).1 = i
  ∧ ins_exchange i = to_Exchange "deribit" ∧ ins_symbol i = to_Symbol "BTC".
Proof.
  apply (instrument_ids_stable_and_unique "deribit" "BTC" "deribit" "ETH" (Shared_ctor ∅ ∅ ∅)).
  - split; [apply registry_wf_empty|]. vm_compute. reflexivity.
  - discriminate.
Defined.

(** A registry that has handed out every id; the instrument with id 1 is still
    there. *)
Definition full_registry : Registry :=
  {| next_instrument_id := 2 ^ 32 - 1; instrument_lookup := {[ "deribit" := {[ "BTC" := 1 ]} ]};
     instruments := {[ 1 := Instrument_ctor 1 "deribit" "BTC" ]} |}.

Lemma full_registry_wf : registry_wf full_registry.
Proof.
  assert (Hs : ∀ e y, known full_registry e y → (e, y) = ("deribit", "BTC") ∧ stored full_registry e y = 1).
  { intros e y. unfold known, stored, at_key, full_registry. cbn.
    destruct (decide (e = "deribit")) as [->|]; [|by rewrite lookup_singleton_ne by done].
    rewrite lookup_singleton_eq. cbn. destruct (decide (y = "BTC")) as [->|]; [|by rewrite lookup_singleton_ne by done].
    by rewrite lookup_singleton_eq. }
  split.
  - done.
  - intros e y [_ ->]%Hs. done.
  - intros e y e' y' [-> _]%Hs [-> _]%Hs. done.
  - intros id i Hi. cbn in Hi. apply lookup_singleton_Some in Hi as [<- <-]. split; [done|]. by exists "deribit", "BTC".
Qed.

Lemma instrument_ids_wrap_witness :
  let s := set_registry full_registry (Shared_ctor ∅ ∅ ∅) in
  (get_instrument "deribit" "ETH" (get_instrument "deribit" "ETH" s).2).1 = Instrument_ctor 1 "deribit" "BTC".
Proof.
  apply (instrument_ids_wrap "deribit" "ETH" (set_registry full_registry (Shared_ctor ∅ ∅ ∅))
           (Instrument_ctor 1 "deribit" "BTC")).
  - exact full_registry_wf.
  - reflexivity.
  - reflexivity.
  - reflexivity.
Defined.
End shared_witnesses.
