(* ===== verification/RiskFacts.v ===== *)
(** * Facts about the risk state

    The positions of accounts and users by name, and what the operations the
    controller calls do to them: each operation changes the position it is about
    and no other. *)

From S2P Require Import Prelude Double Messages Instrument Position Groups Shared SharedFacts.

Section risk.
Context `{Api : !RoqApi} `{Order : !HashOrder}.
Implicit Types (s : Shared) (e y : string).

(** ** How the registry grows *)

(** Ids are kept, new ids are new, limits are constant. *)
Record grows s s' : Prop := {
  grows_ids : ∀ e y id, shared_ids s e y = Some id → shared_ids s' e y = Some id;
  grows_fresh : ∀ e y id, shared_ids s e y = None → shared_ids s' e y = Some id →
    ∀ e' y', shared_ids s e' y' ≠ Some id;
  grows_limits : sh_limits s' = sh_limits s;
}.

#[global] Instance grows_preorder : PreOrder grows.
Proof.
  split.
  - intros s. split; [done| |done]. congruence.
  - intros s1 s2 s3 [I1 F1 L1] [I2 F2 L2]. split; [auto| |congruence].
    intros e y id Hn Hs. destruct (shared_ids s2 e y) as [id'|] eqn:H2.
    + apply I2 in H2 as H3. simplify_eq. by apply (F1 e y).
    + intros e' y' H'. by apply (F2 e y id H2 Hs e' y'), I1.
Qed.

Lemma grows_same_registry s s' :
  instrument_lookup (sh_registry s') = instrument_lookup (sh_registry s) → sh_limits s' = sh_limits s →
  grows s s'.
Proof.
  intros Hl Hm. assert (Hi : ∀ e y, shared_ids s' e y = shared_ids s e y).
  { intros e y. unfold shared_ids, registry_ids, known, stored. by rewrite Hl. }
  split; [|intros e y id; rewrite Hi; congruence|done]. intros e y id. by rewrite Hi.
Qed.

Lemma grows_get_instrument n s e y : 0 < n → shared_wf n s → grows s (get_instrument e y s).2.
Proof.
  intros Hn Hs. split.
  - intros e' y' id Hid. destruct (decide ((e', y') = (e, y))) as [[= -> ->]|Hne].
    + rewrite (shared_get_known n) by done. f_equal. by apply (shared_get_same n).
    + by rewrite (shared_get_other n).
  - intros e' y' id Hnone Hsome. destruct (decide ((e', y') = (e, y))) as [[= -> ->]|Hne].
    + rewrite (shared_get_known n) in Hsome by done. injection Hsome as <-.
      intros e' y'. by apply (shared_get_fresh n).
    + rewrite (shared_get_other n) in Hsome by done. congruence.
  - by rewrite get_instrument_eq.
Qed.

(** ** Positions by name *)

Definition position_of_account (a e y : string) s : option Position :=
  (λ g : Account, position_in account_handler g e y s) <$> sh_accounts s !! a.
Definition position_of_user (u e y : string) s : option Position :=
  (λ g : User, position_in user_handler g e y s) <$> sh_users s !! u.

(** Groups are stored under their key, with positions in known instruments. *)
Definition groups_wf (groups : gmap string (Group string)) s : Prop :=
  map_Forall (λ k g, grp_key g = k ∧ group_wf account_handler g s) groups.

Record risk_wf (n : Z) s : Prop := {
  rw_shared : shared_wf n s;
  rw_accounts : groups_wf (sh_accounts s) s;
  rw_users : groups_wf (sh_users s) s;
}.

Lemma risk_wf_weaken n n' s : n' ≤ n → risk_wf n s → risk_wf n' s.
Proof. intros Hn [[Hr Hc] Ha Hu]. split; [|done..]. split; [done|lia]. Qed.

Lemma group_wf_grows g s s' : grows s s' → group_wf account_handler g s → group_wf account_handler g s'.
Proof. intros [Hi _ _] Hg id (e & y & Hid)%Hg. exists e, y. by apply Hi. Qed.

Lemma groups_wf_grows groups s s' : grows s s' → groups_wf groups s → groups_wf groups s'.
Proof.
  intros Hs Hg k g Hk. destruct (Hg k g Hk) as [Hkey Hgw]. split; [done|]. by eapply group_wf_grows.
Qed.

Lemma position_in_grows_account g e y s s' :
  group_wf account_handler g s → grows s s' →
  position_in account_handler g e y s' = position_in account_handler g e y s.
Proof.
  intros Hg [Hi Hf Hl]. unfold position_in, position_for. cbn. unfold get_limit_by_account. rewrite Hl.
  destruct (shared_ids s e y) as [id|] eqn:Hid; [by rewrite (Hi _ _ _ Hid)|].
  destruct (shared_ids s' e y) as [id|] eqn:Hid'; [|done].
  destruct (grp_positions g !! id) eqn:Hp; [|done].
  destruct (Hg id (mk_is_Some _ _ Hp)) as (e' & y' & Hx). by destruct (Hf e y id Hid Hid' e' y').
Qed.

Lemma position_in_grows_user g e y s s' :
  group_wf account_handler g s → grows s s' →
  position_in user_handler g e y s' = position_in user_handler g e y s.
Proof.
  intros Hg [Hi Hf Hl]. unfold position_in, position_for. cbn. unfold get_limit_by_user. rewrite Hl.
  destruct (shared_ids s e y) as [id|] eqn:Hid; [by rewrite (Hi _ _ _ Hid)|].
  destruct (shared_ids s' e y) as [id|] eqn:Hid'; [|done].
  destruct (grp_positions g !! id) eqn:Hp; [|done].
  destruct (Hg id (mk_is_Some _ _ Hp)) as (e' & y' & Hx). by destruct (Hf e y id Hid Hid' e' y').
Qed.

(** ** One dispatch *)

Lemma dispatch_account_groups {V} `{!Value V} (v : V) cb (g : Account) s :
  publishes account_handler cb →
  sh_accounts (dispatch account_handler v cb g s).2 = sh_accounts s
  ∧ sh_users (dispatch account_handler v cb g s).2 = sh_users s.
Proof.
  intros Hcb. rewrite dispatch_state. cbn. rewrite get_instrument_eq. cbn.
  by destruct Hcb as [->|[k ->]].
Qed.

Lemma dispatch_user_groups {V} `{!Value V} (v : V) cb (g : User) s :
  publishes user_handler cb →
  sh_accounts (dispatch user_handler v cb g s).2 = sh_accounts s
  ∧ sh_users (dispatch user_handler v cb g s).2 = sh_users s.
Proof.
  intros Hcb. rewrite dispatch_state. cbn. rewrite get_instrument_eq. cbn.
  by destruct Hcb as [->|[k ->]].
Qed.

Lemma dispatch_account_grows {V} `{!Value V} (v : V) cb n (g : Account) s :
  publishes account_handler cb → 0 < n → shared_wf n s → grows s (dispatch account_handler v cb g s).2.
Proof.
  intros Hcb Hn Hs. rewrite dispatch_state. cbn.
  etrans; [by eapply (grows_get_instrument n s (v_exchange v) (v_symbol v))|].
  apply grows_same_registry; by destruct Hcb as [->|[k ->]].
Qed.

Lemma dispatch_user_grows {V} `{!Value V} (v : V) cb n (g : User) s :
  publishes user_handler cb → 0 < n → shared_wf n s → grows s (dispatch user_handler v cb g s).2.
Proof.
  intros Hcb Hn Hs. rewrite dispatch_state. cbn.
  etrans; [by eapply (grows_get_instrument n s (v_exchange v) (v_symbol v))|].
  apply grows_same_registry; by destruct Hcb as [->|[k ->]].
Qed.

(** Storing an updated group: the other groups see a state that has grown. *)
Lemma groups_wf_insert groups k g s s' :
  grows s s' → groups_wf groups s → grp_key g = k → group_wf account_handler g s' →
  groups_wf (<[k := g]> groups) s'.
Proof.
  intros Hgrow Hg Hk Hgw. apply map_Forall_insert_2; [done|]. by eapply groups_wf_grows.
Qed.

(** A dispatch to one account: the position of that account in the value's
    instrument is updated, everything else stays. *)
Lemma get_account_dispatch {V} `{!Value V} (v : V) (cb : Account → Z → Shared → Shared) a n s :
  (∀ g, publishes account_handler (cb g)) → 0 ≤ n → risk_wf (n + 1) s →
  let s' := (get_account a (λ g, dispatch account_handler v (cb g) g) s).2 in
  risk_wf n s' ∧ grows s s'
  ∧ (∀ a' e y, position_of_account a' e y s'
       = if decide ((a', e, y) = (a, v_exchange v, v_symbol v))
         then v_apply v (get_instrument e y s).1 <$> position_of_account a' e y s
         else position_of_account a' e y s)
  ∧ (∀ u e y, position_of_user u e y s' = position_of_user u e y s).
Proof.
  intros Hcb Hn [Hs Ha Hu] s'. subst s'. unfold get_account. assert (Hpos : 0 < n + 1) by lia.
  destruct (sh_accounts s !! a) as [g|] eqn:Hg; cbn.
  2: { split_and!; [apply (risk_wf_weaken (n + 1)); [lia|by split]|done| |done].
       intros a' e y. case_decide as Heq; [|done]. injection Heq as -> -> ->.
       unfold position_of_account. by rewrite Hg. }
  destruct (Ha a g Hg) as [Hkey Hgw].
  pose proof (dispatch_account_grows v (cb g) (n + 1) g s (Hcb g) Hpos Hs) as Hgrow.
  pose proof (dispatch_account_groups v (cb g) g s (Hcb g)) as [Hacc Husr].
  pose proof (dispatch_wf account_handler v (cb g) n g s (Hcb g) Hn Hs) as Hwf.
  pose proof (dispatch_group_wf account_handler v (cb g) (n + 1) g s (Hcb g) Hpos Hs Hgw) as Hgw'.
  pose proof (λ e y, dispatch_position_in account_handler v (cb g) (n + 1) g s e y (Hcb g) Hpos Hs Hgw) as Hpi.
  pose proof (dispatch_key account_handler v (cb g) g s) as Hk.
  destruct (dispatch account_handler v (cb g) g s) as [g' s1]. cbn in *.
  set (s' := set_accounts _ s1).
  assert (Hgrow' : grows s s') by (etrans; [exact Hgrow|by apply grows_same_registry]).
  split_and!.
  - split; cbn; [done| |rewrite Husr; by eapply groups_wf_grows].
    rewrite Hacc. eapply (groups_wf_insert _ _ _ s); [done|done|congruence|done].
  - done.
  - intros a' e y. unfold position_of_account. cbn. rewrite Hacc.
    destruct (decide (a' = a)) as [->|Hne].
    + rewrite lookup_insert_eq, Hg. cbn. change (position_in account_handler g' e y s')
        with (position_in account_handler g' e y s1). rewrite Hpi.
      repeat case_decide; simplify_eq; done.
    + rewrite lookup_insert_ne, decide_False by congruence.
      destruct (sh_accounts s !! a') as [k|] eqn:Hk'; [|done]. cbn. f_equal.
      apply (position_in_grows_account k e y s s'); [by apply (Ha a')|done].
  - intros u e y. unfold position_of_user. cbn. rewrite Husr.
    destruct (sh_users s !! u) as [k|] eqn:Hk'; [|done]. cbn. f_equal.
    apply (position_in_grows_user k e y s s'); [by apply (Hu u)|done].
Qed.

(** The same for one user. *)
Lemma get_user_dispatch {V} `{!Value V} (v : V) (cb : User → Z → Shared → Shared) u n s :
  (∀ g, publishes user_handler (cb g)) → 0 ≤ n → risk_wf (n + 1) s →
  let s' := (get_user u (λ g, dispatch user_handler v (cb g) g) s).2 in
  risk_wf n s' ∧ grows s s'
  ∧ (∀ u' e y, position_of_user u' e y s'
       = if decide ((u', e, y) = (u, v_exchange v, v_symbol v))
         then v_apply v (get_instrument e y s).1 <$> position_of_user u' e y s
         else position_of_user u' e y s)
  ∧ (∀ a e y, position_of_account a e y s' = position_of_account a e y s).
Proof.
  intros Hcb Hn [Hs Ha Hu] s'. subst s'. unfold get_user. assert (Hpos : 0 < n + 1) by lia.
  destruct (sh_users s !! u) as [g|] eqn:Hg; cbn.
  2: { split_and!; [apply (risk_wf_weaken (n + 1)); [lia|by split]|done| |done].
       intros u' e y. case_decide as Heq; [|done]. injection Heq as -> -> ->.
       unfold position_of_user. by rewrite Hg. }
  destruct (Hu u g Hg) as [Hkey Hgw].
  pose proof (dispatch_user_grows v (cb g) (n + 1) g s (Hcb g) Hpos Hs) as Hgrow.
  pose proof (dispatch_user_groups v (cb g) g s (Hcb g)) as [Hacc Husr].
  pose proof (dispatch_wf user_handler v (cb g) n g s (Hcb g) Hn Hs) as Hwf.
  pose proof (dispatch_group_wf user_handler v (cb g) (n + 1) g s (Hcb g) Hpos Hs Hgw) as Hgw'.
  pose proof (λ e y, dispatch_position_in user_handler v (cb g) (n + 1) g s e y (Hcb g) Hpos Hs Hgw) as Hpi.
  pose proof (dispatch_key user_handler v (cb g) g s) as Hk.
  destruct (dispatch user_handler v (cb g) g s) as [g' s1]. cbn in *.
  set (s' := set_users _ s1).
  assert (Hgrow' : grows s s') by (etrans; [exact Hgrow|by apply grows_same_registry]).
  split_and!.
  - split; cbn; [done|rewrite Hacc; by eapply groups_wf_grows|].
    rewrite Husr. eapply (groups_wf_insert _ _ _ s); [done|done|congruence|done].
  - done.
  - intros u' e y. unfold position_of_user. cbn. rewrite Husr.
    destruct (decide (u' = u)) as [->|Hne].
    + rewrite lookup_insert_eq, Hg. cbn. change (position_in user_handler g' e y s')
        with (position_in user_handler g' e y s1). rewrite Hpi.
      repeat case_decide; simplify_eq; done.
    + rewrite lookup_insert_ne, decide_False by congruence.
      destruct (sh_users s !! u') as [k|] eqn:Hk'; [|done]. cbn. f_equal.
      apply (position_in_grows_user k e y s s'); [by apply (Hu u')|done].
  - intros a e y. unfold position_of_account. cbn. rewrite Hacc.
    destruct (sh_accounts s !! a) as [k|] eqn:Hk'; [|done]. cbn. f_equal.
    apply (position_in_grows_account k e y s s'); [by apply (Ha a)|done].
Qed.

(** ** The initial state *)

Lemma risk_wf_ctor accounts users strategies :
  risk_wf (2 ^ 32 - 1) (Shared_ctor accounts users strategies).
Proof.
  split.
  - split; [apply registry_wf_empty|cbn; lia].
  - intros k g. cbn. rewrite create_config_lookup. intros (x & _ & ->)%fmap_Some.
    split; [done|]. intros id. cbn. rewrite lookup_empty. by intros [??].
  - intros k g. cbn. rewrite create_config_lookup. intros (x & _ & ->)%fmap_Some.
    split; [done|]. intros id. cbn. rewrite lookup_empty. by intros [??].
Qed.

Lemma initial_ids accounts users strategies e y :
  shared_ids (Shared_ctor accounts users strategies) e y = None.
Proof.
  unfold shared_ids, registry_ids. rewrite decide_False; [done|].
  unfold known, stored, at_key. cbn. rewrite lookup_empty. auto.
Qed.

Lemma initial_position_of_account accounts users strategies a e y :
  position_of_account a e y (Shared_ctor accounts users strategies)
  = (λ _, Position_ctor (get_limit accounts a e y)) <$> accounts !! a.
Proof.
  unfold position_of_account.
  assert (sh_accounts (Shared_ctor accounts users strategies) !! a = (λ _, Account_ctor a) <$> accounts !! a)
    as -> by apply create_config_lookup.
  destruct (accounts !! a); [|done]. cbn. f_equal. unfold position_in.
  cbn [ids_of account_handler_laws user_handler_laws]. rewrite initial_ids.
  cbn. unfold get_limit_by_account. cbn. by rewrite create_limits_id.
Qed.

Lemma initial_position_of_user accounts users strategies u e y :
  position_of_user u e y (Shared_ctor accounts users strategies)
  = (λ _, Position_ctor (get_limit users u e y)) <$> users !! u.
Proof.
  unfold position_of_user.
  assert (sh_users (Shared_ctor accounts users strategies) !! u = (λ _, User_ctor u) <$> users !! u)
    as -> by apply create_config_lookup.
  destruct (users !! u); [|done]. cbn. f_equal. unfold position_in.
  cbn [ids_of account_handler_laws user_handler_laws]. rewrite initial_ids.
  cbn. unfold get_limit_by_user. cbn. by rewrite create_limits_id.
Qed.

(** ** Reference data *)

(** Writing back an instrument that reference data updated. *)
Lemma put_instrument_wf rd n s e y :
  0 < n → shared_wf n s →
  let '(i, s1) := get_instrument e y s in
  shared_wf (n - 1) (put_instrument (Instrument_reference_data rd i).2 s1)
  ∧ grows s (put_instrument (Instrument_reference_data rd i).2 s1).
Proof.
  intros Hn Hs. pose proof (grows_get_instrument n s e y Hn Hs) as Hgrow.
  assert (Hw1 : shared_wf (n - 1) (get_instrument e y s).2)
    by (apply shared_get_wf; [lia|by replace (n - 1 + 1) with n by lia]).
  destruct Hs as [Hw Hr].
  pose proof (registry_get_instrument_spec (sh_registry s) e y Hw) as Hspec.
  rewrite get_instrument_eq in *. destruct (registry_get_instrument e y (sh_registry s)) as [i r]. cbn in *.
  destruct Hspec as (_ & Hk & Hu & _ & He & Hy & _); [unfold room; lia|].
  destruct (Instrument_reference_data_names rd i) as (Hid & Hex & Hsy).
  split.
  - destruct Hw1 as [[W1 W2 W3 W4] Hc]. split; [|done]. split; [done|done|done|].
    intros id j. cbn. destruct (decide (id = ins_id i)) as [->|Hne].
    + rewrite Hid, lookup_insert_eq. intros [= <-]. split; [done|]. exists e, y. cbn. by rewrite Hex, Hsy.
    + rewrite Hid, lookup_insert_ne by done. apply W4.
  - etrans; [exact Hgrow|]. by apply grows_same_registry.
Qed.

(** A loop over accounts whose body leaves positions alone. *)
Lemma get_all_accounts_keep {V} `{!Value V} (v : V) names n s :
  (∀ i p, v_apply v i p = p) → 0 ≤ n → risk_wf (n + Z.of_nat (length names)) s →
  let s' := fold_left (λ s name,
    (get_account name (λ g, dispatch account_handler v no_callback g) s).2) names s in
  risk_wf n s' ∧ (∀ a e y, position_of_account a e y s' = position_of_account a e y s)
  ∧ (∀ u e y, position_of_user u e y s' = position_of_user u e y s).
Proof.
  intros Hv Hn. revert s. induction names as [|k names IH]; intros s Hs; cbn [fold_left length] in *.
  { split_and!; try done. by rewrite Z.add_0_r in Hs. }
  destruct (get_account_dispatch v (λ _, no_callback) k (n + Z.of_nat (length names)) s) as (W & _ & A & U);
    [by left|lia|by replace (n + Z.of_nat (length names) + 1) with (n + Z.of_nat (S (length names))) by lia|].
  destruct (IH _ W) as (W' & A' & U'). split_and!; [done| |intros; rewrite U'; apply U].
  intros a e y. rewrite A', A. case_decide; [|done].
  destruct (position_of_account a e y s); [|done]. cbn. by rewrite Hv.
Qed.

Lemma get_all_users_keep {V} `{!Value V} (v : V) names n s :
  (∀ i p, v_apply v i p = p) → 0 ≤ n → risk_wf (n + Z.of_nat (length names)) s →
  let s' := fold_left (λ s name,
    (get_user name (λ g, dispatch user_handler v no_callback g) s).2) names s in
  risk_wf n s' ∧ (∀ a e y, position_of_account a e y s' = position_of_account a e y s)
  ∧ (∀ u e y, position_of_user u e y s' = position_of_user u e y s).
Proof.
  intros Hv Hn. revert s. induction names as [|k names IH]; intros s Hs; cbn [fold_left length] in *.
  { split_and!; try done. by rewrite Z.add_0_r in Hs. }
  destruct (get_user_dispatch v (λ _, no_callback) k (n + Z.of_nat (length names)) s) as (W & _ & U & A);
    [by left|lia|by replace (n + Z.of_nat (length names) + 1) with (n + Z.of_nat (S (length names))) by lia|].
  destruct (IH _ W) as (W' & A' & U'). split_and!; [done|intros; rewrite A'; apply A|].
  intros u e y. rewrite U', U. case_decide; [|done].
  destruct (position_of_user u e y s); [|done]. cbn. by rewrite Hv.
Qed.

Lemma get_account_users {V} `{!Value V} (v : V) cb name s :
  publishes account_handler cb →
  sh_users (get_account name (λ g, dispatch account_handler v cb g) s).2 = sh_users s.
Proof.
  intros Hcb. unfold get_account. destruct (sh_accounts s !! name) as [g|]; [|done].
  destruct (dispatch_account_groups v cb g s Hcb) as [_ Hu].
  by destruct (dispatch account_handler v cb g s).
Qed.

Lemma get_all_accounts_users {V} `{!Value V} (v : V) names s :
  sh_users (fold_left (λ s name,
    (get_account name (λ g, dispatch account_handler v no_callback g) s).2) names s) = sh_users s.
Proof.
  revert s. induction names as [|k names IH]; intros s; [done|]. cbn [fold_left].
  rewrite IH. apply get_account_users. by left.
Qed.

Lemma length_keys {V} (m : gmap string V) : length (keys m) = size m.
Proof. unfold keys. by rewrite length_fmap, (hash_order_perm (map_to_list m)), length_map_to_list. Qed.

Lemma positions_grow s s' :
  sh_accounts s' = sh_accounts s → sh_users s' = sh_users s → grows s s' →
  groups_wf (sh_accounts s) s → groups_wf (sh_users s) s →
  (∀ a e y, position_of_account a e y s' = position_of_account a e y s)
  ∧ (∀ u e y, position_of_user u e y s' = position_of_user u e y s).
Proof.
  intros Ea Eu Hg Ha Hu. unfold position_of_account, position_of_user. rewrite Ea, Eu. split.
  - intros a e y. destruct (sh_accounts s !! a) as [g|] eqn:Hk; [|done]. cbn. f_equal.
    apply position_in_grows_account; [by apply (Ha a)|done].
  - intros u e y. destruct (sh_users s !! u) as [g|] eqn:Hk; [|done]. cbn. f_equal.
    apply position_in_grows_user; [by apply (Hu u)|done].
Qed.
End risk.
