(* ===== verification/RiskInv.v ===== *)
(** * The invariant of the risk state

    What holds of [Shared] at any time, for as long as the names of instruments
    stay within a set that 32 bits can count: [risk_inv]. The counter of the
    registry is the number of names it has seen, so that asking again for a known
    instrument costs nothing, and whatever waits to be published has an
    instrument. [extends] is how the operations that do not publish change the
    state: nothing that was recorded is lost. *)

From S2P Require Import Prelude Double Messages Instrument Position Groups Shared SharedFacts RiskFacts.

Section risk_inv.
Context `{Api : !RoqApi} `{Order : !HashOrder}.
Implicit Types (s : Shared) (e y : string) (N : gset (string * string)).

(** The set of names leaves an id to spare. *)
Definition fits N : Prop := Z.of_nat (size N) < 2 ^ 32 - 1.

(** The names that have an id are in [N], and the counter counts them. *)
Definition named N s : Prop :=
  ∃ K, K ⊆ N ∧ next_instrument_id (sh_registry s) = Z.of_nat (size K)
    ∧ ∀ e y, (e, y) ∈ K ↔ known (sh_registry s) e y.

(** The instruments that wait to be published for a key. *)
Definition waiting {K} `{Countable K} (m : gmap K (gset Z)) (k : K) : gset Z := default ∅ (m !! k).

(** Whatever waits to be published is an instrument. *)
Record pending_wf s : Prop := {
  pw_account : ∀ k, waiting (publish_by_account (sh_publish s)) k ⊆ dom (instruments (sh_registry s));
  pw_user : ∀ k, waiting (publish_by_user (sh_publish s)) k ⊆ dom (instruments (sh_registry s));
}.

Record risk_inv N s : Prop := {
  ri_wf : risk_wf 0 s;
  ri_named : named N s;
  ri_pending : pending_wf s;
}.

Lemma risk_inv_room N s : fits N → risk_inv N s → risk_wf 1 s.
Proof.
  intros Hfit [[[Hr _] Ha Hu] (K & HK & Hn & _) _]. split; [|done..]. split; [done|].
  apply subseteq_size in HK. unfold fits in Hfit. lia.
Qed.

(** ** Nothing is lost *)

Definition keeps_groups (m m' : gmap string (Group string)) : Prop :=
  ∀ k, match m !! k, m' !! k with
       | Some g, Some g' => dom (grp_positions g) ⊆ dom (grp_positions g')
       | None, None => True
       | _, _ => False
       end.

Record extends s s' : Prop := {
  ex_grows : grows s s';
  ex_instruments : dom (instruments (sh_registry s)) ⊆ dom (instruments (sh_registry s'));
  ex_accounts : keeps_groups (sh_accounts s) (sh_accounts s');
  ex_users : keeps_groups (sh_users s) (sh_users s');
  ex_by_account : ∀ k, waiting (publish_by_account (sh_publish s)) k
                       ⊆ waiting (publish_by_account (sh_publish s')) k;
  ex_by_user : ∀ k, waiting (publish_by_user (sh_publish s)) k
                    ⊆ waiting (publish_by_user (sh_publish s')) k;
}.

#[global] Instance keeps_groups_preorder : PreOrder keeps_groups.
Proof.
  split.
  - intros m k. by destruct (m !! k).
  - intros m1 m2 m3 H1 H2 k. specialize (H1 k). specialize (H2 k).
    destruct (m1 !! k), (m2 !! k), (m3 !! k); try done. by etrans.
Qed.

#[global] Instance extends_preorder : PreOrder extends.
Proof.
  split.
  - intros s. by split.
  - intros s1 s2 s3 [G1 I1 A1 U1 P1 Q1] [G2 I2 A2 U2 P2 Q2]. split; try by etrans.
    all: intros k; etrans; auto.
Qed.

Lemma keeps_groups_insert m k g g' :
  m !! k = Some g → dom (grp_positions g) ⊆ dom (grp_positions g') → keeps_groups m (<[k := g']> m).
Proof.
  intros Hg Hd k'. destruct (decide (k' = k)) as [->|Hne].
  - by rewrite Hg, lookup_insert_eq.
  - rewrite lookup_insert_ne by done. by destruct (m !! k').
Qed.

(** ** Asking for an instrument *)

(** The tables of [s'] have at most [id] more than those of [s]. *)
Definition adds {K} `{Countable K} (id : Z) (m m' : gmap K (gset Z)) : Prop :=
  ∀ k, waiting m k ⊆ waiting m' k ∧ waiting m' k ⊆ {[ id ]} ∪ waiting m k.

Lemma adds_refl {K} `{Countable K} id (m : gmap K (gset Z)) : adds id m m.
Proof. split; set_solver. Qed.

Lemma adds_publish_one {K} `{Countable K} id k (m : gmap K (gset Z)) : adds id m (publish_one k id m).
Proof.
  intros k'. unfold waiting, publish_one. destruct (decide (k' = k)) as [->|Hne].
  - rewrite lookup_insert_eq. cbn. set_solver.
  - rewrite lookup_insert_ne by done. set_solver.
Qed.

(** [s'] is [s] after a request for the instrument, with that instrument perhaps
    marked for publication. *)
Record touched e y s s' : Prop := {
  to_registry : sh_registry s' = (registry_get_instrument e y (sh_registry s)).2;
  to_account : adds (ins_id (registry_get_instrument e y (sh_registry s)).1)
                 (publish_by_account (sh_publish s)) (publish_by_account (sh_publish s'));
  to_user : adds (ins_id (registry_get_instrument e y (sh_registry s)).1)
              (publish_by_user (sh_publish s)) (publish_by_user (sh_publish s'));
}.

Lemma touched_dispatch_account {V} `{!Value V} (v : V) cb (g : Account) s :
  publishes account_handler cb →
  touched (v_exchange v) (v_symbol v) s (dispatch account_handler v cb g s).2.
Proof.
  intros Hcb. rewrite dispatch_state. cbn. rewrite get_instrument_eq. cbn.
  destruct Hcb as [->|[k ->]]; split; cbn; auto using adds_refl. apply adds_publish_one.
Qed.

Lemma touched_dispatch_user {V} `{!Value V} (v : V) cb (g : User) s :
  publishes user_handler cb →
  touched (v_exchange v) (v_symbol v) s (dispatch user_handler v cb g s).2.
Proof.
  intros Hcb. rewrite dispatch_state. cbn. rewrite get_instrument_eq. cbn.
  destruct Hcb as [->|[k ->]]; split; cbn; auto using adds_refl. apply adds_publish_one.
Qed.

(** A request takes an id when the name is new, and only then. *)
Lemma named_touched N e y s s' :
  fits N → (e, y) ∈ N → registry_wf (sh_registry s) → named N s → touched e y s s' → named N s'.
Proof.
  intros Hfit HN Hwf (K & HK & Hn & Hk) [Hr _ _]. unfold named. rewrite Hr.
  pose proof (subseteq_size _ _ HK) as Hsize. unfold fits in Hfit.
  pose proof (registry_get_instrument_spec (sh_registry s) e y Hwf) as Hspec.
  pose proof (λ e' y', registry_get_instrument_stored (sh_registry s) e y e' y') as Hst.
  assert (Hnext : next_instrument_id (registry_get_instrument e y (sh_registry s)).2
    = if decide (known (sh_registry s) e y) then next_instrument_id (sh_registry s)
      else next_instrument_id (sh_registry s) + 1).
  { unfold registry_get_instrument, get_instrument_id. fold (stored (sh_registry s) e y). unfold known.
    destruct (Z.eqb_spec (stored (sh_registry s) e y) 0) as [Hz|Hz].
    - rewrite decide_False by lia. rewrite (u32_small (_ + 1)) by lia. by destruct (_ !! _).
    - rewrite decide_True by done. by destruct (_ !! _). }
  destruct (registry_get_instrument e y (sh_registry s)) as [i r]. cbn [fst snd] in *.
  destruct Hspec as (_ & Hknown & _ & _ & _ & _ & Hmono & _); [unfold room; lia|].
  assert (Hother : ∀ e' y', (e', y') ≠ (e, y) → known r e' y' ↔ known (sh_registry s) e' y').
  { intros e' y' Hne. unfold known. by rewrite Hst. }
  exists ({[(e, y)]} ∪ K). split_and!; [set_solver| |].
  - rewrite Hnext, Hn. case_decide as Hd.
    + f_equal. assert ({[(e, y)]} ∪ K = K) as -> by (apply Hk in Hd; set_solver). done.
    + rewrite size_union by (rewrite disjoint_singleton_l, Hk; done). rewrite size_singleton. lia.
  - intros e' y'. rewrite elem_of_union, elem_of_singleton, Hk.
    destruct (decide ((e', y') = (e, y))) as [Heq|Hne]; [|rewrite Hother by done; naive_solver].
    injection Heq as -> ->. naive_solver.
Qed.

Lemma pending_touched e y s s' :
  registry_wf (sh_registry s) → room (sh_registry s) → pending_wf s → touched e y s s' →
  pending_wf s' ∧ dom (instruments (sh_registry s)) ⊆ dom (instruments (sh_registry s')).
Proof.
  intros Hwf Hroom [PA PU] [Hr TA TU]. pose proof (registry_get_instrument_spec (sh_registry s) e y Hwf Hroom) as Hs.
  destruct (registry_get_instrument e y (sh_registry s)) as [i r]. cbn in *. subst r.
  destruct Hs as (_ & _ & _ & Hi & _ & _ & _ & Hins).
  assert (Hid : ins_id i ∈ dom (instruments (sh_registry s'))) by by eapply elem_of_dom_2.
  assert (Hsub : dom (instruments (sh_registry s)) ⊆ dom (instruments (sh_registry s'))).
  { intros id [j Hj]%elem_of_dom. by eapply elem_of_dom_2, Hins. }
  split; [|done]. split; intros k.
  - destruct (TA k) as [_ Hk]. specialize (PA k). set_solver.
  - destruct (TU k) as [_ Hk]. specialize (PU k). set_solver.
Qed.

(** ** Dispatching keeps the invariant *)

Lemma dispatch_keeps_positions {S K V} `{!Value V} (h : Handler S K) (v : V) cb (g : Group K) (s : S) :
  dom (grp_positions g) ⊆ dom (grp_positions (dispatch h v cb g s).1).
Proof. rewrite dispatch_positions. cbn zeta. rewrite dom_insert. set_solver. Qed.

(** What follows from the request alone. *)
Lemma touched_inv N e y s s' :
  fits N → (e, y) ∈ N → risk_inv N s → touched e y s s' → risk_wf 0 s' →
  risk_inv N s' ∧ dom (instruments (sh_registry s)) ⊆ dom (instruments (sh_registry s'))
  ∧ (∀ k, waiting (publish_by_account (sh_publish s)) k ⊆ waiting (publish_by_account (sh_publish s')) k)
  ∧ (∀ k, waiting (publish_by_user (sh_publish s)) k ⊆ waiting (publish_by_user (sh_publish s')) k).
Proof.
  intros Hfit HN Hinv Ht Hw. destruct (risk_inv_room N s Hfit Hinv) as [[Hr Hroom] _ _].
  destruct Hinv as [_ Hn Hp].
  destruct (pending_touched e y s s') as [Hp' Hd]; [done|unfold room; lia|done|done|].
  split_and!; [|done|intros k; apply Ht|intros k; apply Ht].
  split; [done| |done]. by eapply named_touched.
Qed.

Lemma get_account_inv {V} `{!Value V} (v : V) (cb : Account → Z → Shared → Shared) a N s :
  (∀ g, publishes account_handler (cb g)) → fits N → (v_exchange v, v_symbol v) ∈ N → risk_inv N s →
  let s' := (get_account a (λ g, dispatch account_handler v (cb g) g) s).2 in
  risk_inv N s' ∧ extends s s'
  ∧ (∀ a' e y, position_of_account a' e y s'
       = if decide ((a', e, y) = (a, v_exchange v, v_symbol v))
         then v_apply v (get_instrument e y s).1 <$> position_of_account a' e y s
         else position_of_account a' e y s)
  ∧ (∀ u e y, position_of_user u e y s' = position_of_user u e y s).
Proof.
  intros Hcb Hfit HN Hinv s'.
  destruct (get_account_dispatch v cb a 0 s) as (W & G & A & U); [done..|by apply (risk_inv_room N)|].
  fold s' in W, G, A, U. cut (risk_inv N s' ∧ extends s s'); [intros [? ?]; by split_and!|].
  unfold s', get_account in *. clear s'. destruct (sh_accounts s !! a) as [g|] eqn:Hg; [|done].
  pose proof (touched_dispatch_account v (cb g) g s (Hcb g)) as Ht.
  pose proof (dispatch_account_groups v (cb g) g s (Hcb g)) as [Ea Eu].
  pose proof (dispatch_keeps_positions account_handler v (cb g) g s) as Hd.
  destruct (dispatch account_handler v (cb g) g s) as [g' s1]. cbn [fst snd] in *.
  set (s' := set_accounts _ s1) in *.
  destruct (touched_inv N _ _ s s' Hfit HN Hinv) as (I & D & PA & PU); [by destruct Ht|done|].
  split; [done|]. split; try done; cbn; rewrite ?Ea, ?Eu; [|done]. by eapply keeps_groups_insert.
Qed.

Lemma get_user_inv {V} `{!Value V} (v : V) (cb : User → Z → Shared → Shared) u N s :
  (∀ g, publishes user_handler (cb g)) → fits N → (v_exchange v, v_symbol v) ∈ N → risk_inv N s →
  let s' := (get_user u (λ g, dispatch user_handler v (cb g) g) s).2 in
  risk_inv N s' ∧ extends s s'
  ∧ (∀ u' e y, position_of_user u' e y s'
       = if decide ((u', e, y) = (u, v_exchange v, v_symbol v))
         then v_apply v (get_instrument e y s).1 <$> position_of_user u' e y s
         else position_of_user u' e y s)
  ∧ (∀ a e y, position_of_account a e y s' = position_of_account a e y s).
Proof.
  intros Hcb Hfit HN Hinv s'.
  destruct (get_user_dispatch v cb u 0 s) as (W & G & A & U); [done..|by apply (risk_inv_room N)|].
  fold s' in W, G, A, U. cut (risk_inv N s' ∧ extends s s'); [intros [? ?]; by split_and!|].
  unfold s', get_user in *. clear s'. destruct (sh_users s !! u) as [g|] eqn:Hg; [|done].
  pose proof (touched_dispatch_user v (cb g) g s (Hcb g)) as Ht.
  pose proof (dispatch_user_groups v (cb g) g s (Hcb g)) as [Ea Eu].
  pose proof (dispatch_keeps_positions user_handler v (cb g) g s) as Hd.
  destruct (dispatch user_handler v (cb g) g s) as [g' s1]. cbn [fst snd] in *.
  set (s' := set_users _ s1) in *.
  destruct (touched_inv N _ _ s s' Hfit HN Hinv) as (I & D & PA & PU); [by destruct Ht|done|].
  split; [done|]. split; try done; cbn; rewrite ?Ea, ?Eu; [done|]. by eapply keeps_groups_insert.
Qed.

(** ** Positions are kept *)

(** A change that no position shows. *)
Record same_positions s s' : Prop := {
  sp_accounts : ∀ a e y, position_of_account a e y s' = position_of_account a e y s;
  sp_users : ∀ u e y, position_of_user u e y s' = position_of_user u e y s;
}.
#[global] Instance same_positions_preorder : PreOrder same_positions.
Proof. split; [done|]. intros s1 s2 s3 [A1 U1] [A2 U2]. split; intros; congruence. Qed.

(** Folding a step that keeps the invariant. *)
Lemma fold_inv {A} (f : Shared → A → Shared) (l : list A) N s :
  (∀ s x, risk_inv N s → risk_inv N (f s x) ∧ extends s (f s x) ∧ same_positions s (f s x)) →
  risk_inv N s →
  risk_inv N (fold_left f l s) ∧ extends s (fold_left f l s) ∧ same_positions s (fold_left f l s).
Proof.
  intros Hf. revert s. induction l as [|x l IH]; intros s Hs; cbn [fold_left]; [done|].
  destruct (Hf s x Hs) as (I1 & E1 & P1). destruct (IH _ I1) as (I2 & E2 & P2).
  split_and!; [done|by etrans|by etrans].
Qed.

(** Reference data: the instrument, then every account, then every user. *)
Lemma reference_data_inv (rd : ReferenceData) N s :
  fits N → (rd_exchange rd, rd_symbol rd) ∈ N → risk_inv N s →
  let '(i, s1) := get_instrument (rd_exchange rd) (rd_symbol rd) s in
  let '(updated, i') := Instrument_reference_data rd i in
  let s2 := put_instrument i' s1 in
  let s' := if updated : bool then
              get_all_users (User_reference_data user_handler rd)
                (get_all_accounts (Account_reference_data account_handler rd) s2)
            else s2 in
  risk_inv N s' ∧ extends s s' ∧ same_positions s s'.
Proof.
  intros Hfit HN Hinv. pose proof (risk_inv_room N s Hfit Hinv) as W.
  pose proof (put_instrument_wf rd 1 s (rd_exchange rd) (rd_symbol rd) ltac:(lia) (rw_shared _ _ W)) as Hput.
  assert (Ht : touched (rd_exchange rd) (rd_symbol rd) s (get_instrument (rd_exchange rd) (rd_symbol rd) s).2).
  { rewrite get_instrument_eq. split; [done|apply adds_refl..]. }
  rewrite get_instrument_eq in *.
  pose proof (named_touched N _ _ s _ Hfit HN (proj1 (rw_shared _ _ W)) (ri_named _ _ Hinv) Ht) as Hn.
  destruct (pending_touched _ _ s _ (proj1 (rw_shared _ _ W)) ltac:(destruct W as [[? ?] _ _]; unfold room; lia)
              (ri_pending _ _ Hinv) Ht) as [[PA PU] Hd].
  destruct (registry_get_instrument _ _ _) as [i r]. cbn [fst snd] in *.
  destruct (Instrument_reference_data rd i) as [b i']. cbn [fst snd] in *. destruct Hput as [Hw Hg].
  set (s2 := put_instrument i' (set_registry r s)) in *.
  destruct W as [_ Ha Hu]. destruct (positions_grow s s2) as [A2 U2]; [done..|].
  assert (Hins : dom (instruments r) ⊆ dom (instruments (sh_registry s2))) by (cbn; rewrite dom_insert; set_solver).
  assert (I2 : risk_inv N s2).
  { split; [split; [done|by eapply groups_wf_grows..]|exact Hn|].
    split; intros k; etrans; [apply PA|done|apply PU|done]. }
  assert (E2 : extends s s2) by (split; try done; cbn in *; set_solver).
  destruct b; [|done]. unfold get_all_accounts, get_all_users.
  destruct (fold_inv (λ s name, (get_account name (Account_reference_data account_handler rd) s).2)
              (keys (sh_accounts s2)) N s2) as (I3 & E3 & P3); [|done|].
  { intros t name It. destruct (get_account_inv rd (λ _, no_callback) name N t) as (I & E & A & U);
      [by left|done..|]. split_and!; [done|done|split; [|done]].
    intros a e y. etrans; [apply A|]. case_decide; [|done]. by destruct (position_of_account a e y t). }
  set (s3 := fold_left _ _ s2) in *.
  destruct (fold_inv (λ s name, (get_user name (User_reference_data user_handler rd) s).2)
              (keys (sh_users s3)) N s3) as (I4 & E4 & P4); [|done|].
  { intros t name It. destruct (get_user_inv rd (λ _, no_callback) name N t) as (I & E & U & A);
      [by left|done..|]. split_and!; [done|done|split; [done|]].
    intros u e y. etrans; [apply U|]. case_decide; [|done]. by destruct (position_of_user u e y t). }
  split_and!; [done|by do 2 (etrans; [|done])|by do 2 (etrans; [|done])].
Qed.

(** A trade: the account, then the user. *)
Lemma trade_inv (tu : TradeUpdate) N s :
  fits N → (tu_exchange tu, tu_symbol tu) ∈ N → risk_inv N s →
  let s' := (get_user (tu_user tu) (User_trade_update user_handler tu)
               (get_account (tu_account tu) (Account_trade_update account_handler tu) s).2).2 in
  risk_inv N s' ∧ extends s s'
  ∧ (∀ a e y, ∃ i, position_of_account a e y s'
       = if decide ((a, e, y) = (tu_account tu, tu_exchange tu, tu_symbol tu))
         then Position_trade_update tu i <$> position_of_account a e y s
         else position_of_account a e y s)
  ∧ (∀ u e y, ∃ i, position_of_user u e y s'
       = if decide ((u, e, y) = (tu_user tu, tu_exchange tu, tu_symbol tu))
         then Position_trade_update tu i <$> position_of_user u e y s
         else position_of_user u e y s).
Proof.
  intros Hfit HN Hinv.
  destruct (get_account_inv tu (λ g, publish_account_instrument (grp_key g)) (tu_account tu) N s)
    as (I1 & E1 & A1 & U1); [intros g; right; by eexists|done..|].
  set (s1 := (get_account _ _ s).2) in *.
  destruct (get_user_inv tu (λ g, publish_user_instrument (grp_key g)) (tu_user tu) N s1)
    as (I2 & E2 & U2 & A2); [intros g; right; by eexists|done..|].
  split_and!; [exact I2|by etrans| |].
  - intros a e y. eexists. etrans; [apply A2|]. apply A1.
  - intros u e y. eexists. etrans; [apply U2|]. rewrite U1. done.
Qed.
End risk_inv.
