(* ===== verification/Config.v ===== *)
(** * The configuration

    [risk_manager::Config] (config.hpp, config.cpp): the symbols to subscribe to
    and the limits of accounts and users, read from a TOML document. The TOML
    reader is a parameter: a document is a tree of tables, arrays and leaves, and
    [value<T>()] of a leaf is one of the functions of [Toml]. Dereferencing an
    empty result is undefined, [log::fatal] ends the process. *)

From S2P Require Import Prelude Double Messages Instrument Position Groups Shared SharedFacts.

(** ** Documents *)

Class Toml : Type := {
  leaf : Type;
  leaf_string : leaf → option string;
  leaf_double : leaf → option double;
  leaf_bool : leaf → option bool;
}.

Section config.
Context `{T : !Toml} `{Order : !HashOrder}.

#[warnings="-register-all"]
Inductive node : Type :=
| Leaf (v : leaf)
| Array (l : list node)
| Table (t : list (string * node)).

(** [*node.value<T>()]. *)
Definition deref {A} (o : option A) : outcome A :=
  match o with Some a => Ret a | None => Undef end.
Definition value_of {A} (f : leaf → option A) (n : node) : outcome A :=
  deref (match n with Leaf v => f v | _ => None end).

Definition find (key : string) (t : list (string * node)) : option node :=
  snd <$> head (filter (λ kv, kv.1 = key) t).
Definition erase (key : string) (t : list (string * node)) : list (string * node) :=
  filter (λ kv, kv.1 ≠ key) t.

(** ** Helpers *)

Definition EXCHANGE_NAME : string := "deribit".

Definition check_empty (n : node) : outcome () :=
  match n with
  | Table (_ :: _) => Fatal
  | _ => Ret ()
  end.

(** The result of the callback when the key was found, and the node without it. *)
Definition find_and_remove {A} (key : string) (callback : node → outcome A) (n : node)
    : outcome (option A * node) :=
  match n with
  | Table t =>
      match find key t with
      | None => Ret (None, n)
      | Some value => let? a := callback value in Ret (Some a, Table (erase key t))
      end
  | _ => Ret (None, n)
  end.

(** A loop whose body can stop. *)
Fixpoint outcome_fold {A B} (f : A → B → outcome A) (l : list B) (a : A) : outcome A :=
  match l with
  | [] => Ret a
  | b :: l' => let? a' := f a b in outcome_fold f l' a'
  end.

(** [result[EXCHANGE].emplace(...)] with the value of a node. *)
Definition add_symbol (result : gmap string (gset string)) (n : node) : outcome (gmap string (gset string)) :=
  let? s := value_of leaf_string n in
  Ret (<[EXCHANGE_NAME := {[ s ]} ∪ default ∅ (result !! EXCHANGE_NAME)]> result).

Definition parse_symbols (n : node) : outcome (gmap string (gset string) * node) :=
  let? (found, rest) :=
    find_and_remove "symbols" (λ value,
      match value with
      | Leaf _ => add_symbol ∅ value
      | Array arr => outcome_fold add_symbol arr ∅
      | Table _ => Fatal
      end) n in
  match found with
  | Some result => Ret (result, rest)
  | None => Fatal
  end.

(** The limit of one symbol and what is left of its table. *)
Definition parse_limit (value_3 : node) : outcome (Limit * node) :=
  match value_3 with
  | Table _ =>
      let? (long_position, n) := find_and_remove "long_position_limit" (value_of leaf_double) value_3 in
      let? (short_position, n) := find_and_remove "short_position_limit" (value_of leaf_double) n in
      let? (long_risk, n) := find_and_remove "long_risk_exposure_limit" (value_of leaf_double) n in
      let? (short_risk, n) := find_and_remove "short_risk_exposure_limit" (value_of leaf_double) n in
      let? (netting, n) := find_and_remove "allow_netting" (value_of leaf_bool) n in
      Ret ({| lim_long_position_limit := default NaN long_position;
              lim_short_position_limit := default NaN short_position;
              lim_long_risk_exposure_limit := default NaN long_risk;
              lim_short_risk_exposure_limit := default NaN short_risk;
              lim_allow_netting := default false netting |}, n)
  | _ => Fatal
  end.

(** The innermost loop: the symbols of one exchange. *)
Definition parse_symbol_limit (tmp_2 : gmap string Limit) (entry : string * node)
    : outcome (gmap string Limit) :=
  let '(symbol, value_3) := entry in
  let? (limit, rest) := parse_limit value_3 in
  let tmp_2 := try_emplace symbol limit tmp_2 in
  let? _ := check_empty rest in
  Ret tmp_2.

Definition parse_exchange_limits (tmp_1 : gmap string (gmap string Limit)) (entry : string * node)
    : outcome (gmap string (gmap string Limit)) :=
  let '(exchange, value_2) := entry in
  match value_2 with
  | Table table_2 =>
      let? tmp_2 := outcome_fold parse_symbol_limit table_2 (default ∅ (tmp_1 !! exchange)) in
      Ret (<[exchange := tmp_2]> tmp_1)
  | _ => Fatal
  end.

Definition parse_name_limits (result : limit_table string) (entry : string * node)
    : outcome (limit_table string) :=
  let '(account, value_1) := entry in
  match value_1 with
  | Table table_1 =>
      let? tmp_1 := outcome_fold parse_exchange_limits table_1 (default ∅ (result !! account)) in
      Ret (<[account := tmp_1]> result)
  | _ => Fatal
  end.

(** A missing table is no limits. *)
Definition parse_limits (name : string) (n : node) : outcome (limit_table string * node) :=
  let? (found, rest) :=
    find_and_remove name (λ value,
      match value with
      | Table table => outcome_fold parse_name_limits table ∅
      | _ => Fatal
      end) n in
  Ret (default ∅ found, rest).

(** ** Config *)

Record Config : Type := {
  cfg_symbols : gmap string (gset string);
  cfg_accounts : limit_table string;
  cfg_users : limit_table string;
  cfg_strategies : limit_table Z;
}.

(** [Config::Config(auto &node)]; no table is read for the strategies. *)
Definition Config_ctor (n : node) : outcome Config :=
  let? (symbols, n) := parse_symbols n in
  let? (accounts, n) := parse_limits "accounts" n in
  let? (users, n) := parse_limits "users" n in
  let? _ := check_empty n in
  Ret {| cfg_symbols := symbols; cfg_accounts := accounts; cfg_users := users; cfg_strategies := ∅ |}.

(** [Config::parse_file] and [Config::parse_text], with the reader as argument. *)
Definition Config_parse (toml_parse : string → outcome node) (text : string) : outcome Config :=
  let? root := toml_parse text in Config_ctor root.

(** The calls of [Config::dispatch]. *)
Inductive subscription : Type :=
| client_Account (regex : string)
| client_Symbol (regex exchange : string).

Definition Config_dispatch (c : Config) : list subscription :=
  (client_Account <$> keys (cfg_accounts c))
  ++ (hash_order (map_to_list (cfg_symbols c)) ≫= λ '(exchange, symbols_2),
        (λ item, client_Symbol item exchange) <$> hash_order (elements symbols_2))
  ++ [client_Symbol ".*" EmptyString].
End config.
