(* ===== verification/ConfigProps.v ===== *)
(** * What reading the configuration promises

    A document written from limits and symbols is read back as those; a document
    with anything else in it is refused. *)

From S2P Require Import Prelude Double Messages Instrument Position Groups Shared SharedFacts Config.

(** ** Reading what was written *)

Section roundtrip.
Context `{T : !Toml} `{Order : !HashOrder}.

(** Leaves for strings, numbers and booleans. *)
Context (of_string : string → leaf) (of_double : double → leaf) (of_bool : bool → leaf).
Hypothesis string_leaf : ∀ s, leaf_string (of_string s) = Some s.
Hypothesis double_leaf : ∀ d, leaf_double (of_double d) = Some d.
Hypothesis bool_leaf : ∀ b, leaf_bool (of_bool b) = Some b.

Definition write_limit (l : Limit) : node :=
  Table [("long_position_limit", Leaf (of_double (lim_long_position_limit l)));
         ("short_position_limit", Leaf (of_double (lim_short_position_limit l)));
         ("long_risk_exposure_limit", Leaf (of_double (lim_long_risk_exposure_limit l)));
         ("short_risk_exposure_limit", Leaf (of_double (lim_short_risk_exposure_limit l)));
         ("allow_netting", Leaf (of_bool (lim_allow_netting l)))].

Definition write_map {V} (write : V → node) (m : gmap string V) : node :=
  Table ((λ kv, (kv.1, write kv.2)) <$> map_to_list m).

Definition write_limits (t : limit_table string) : node := write_map (write_map (write_map write_limit)) t.

Definition write_config (symbols : list string) (accounts users : limit_table string) : node :=
  Table [("symbols", Array (Leaf ∘ of_string <$> symbols));
         ("accounts", write_limits accounts);
         ("users", write_limits users)].

Lemma find_and_remove_head {A} (key : string) (cb : node → outcome A) v t :
  key ∉ t.*1 → find_and_remove key cb (Table ((key, v) :: t)) = let? a := cb v in Ret (Some a, Table t).
Proof.
  intros Hk. unfold find_and_remove, find, erase. rewrite !filter_cons, decide_True by done.
  rewrite (decide_False (P := (key, v).1 ≠ key)) by (cbn; tauto). cbn [head fmap option_fmap option_map snd].
  rewrite (filter_Forall (λ kv : string * node, kv.1 ≠ key)); [done|].
  apply Forall_forall. intros kv Hkv <-. apply Hk. by apply list_elem_of_fmap_2.
Qed.

Ltac remove_head := rewrite find_and_remove_head by (apply (bool_decide_unpack _); vm_compute; exact I).

Lemma parse_write_limit l : parse_limit (write_limit l) = Ret (l, Table []).
Proof.
  unfold parse_limit, write_limit.
  do 5 (remove_head; unfold value_of at 1, deref at 1; rewrite ?double_leaf, ?bool_leaf; cbn [outcome_bind]).
  by destruct l.
Qed.

(** A loop that stores one value per entry, on the entries of a map. *)
Lemma outcome_fold_map {V W} (f : gmap string V → string * node → outcome (gmap string V))
    (write : W → node) (read : W → V) (l : list (string * W)) (m : gmap string V) :
  (∀ m k w, m !! k = None → f m (k, write w) = Ret (<[k := read w]> m)) →
  NoDup l.*1 → (∀ k, k ∈ l.*1 → m !! k = None) →
  outcome_fold f ((λ kv, (kv.1, write kv.2)) <$> l) m
  = Ret (list_to_map ((λ kv, (kv.1, read kv.2)) <$> l) ∪ m).
Proof.
  intros Hf. revert m. induction l as [|[k w] l IH]; intros m Hnd Hm; cbn.
  { by rewrite (left_id_L ∅ (∪)). }
  cbn in *. apply NoDup_cons in Hnd as [Hk Hnd]. rewrite Hf by (apply Hm; left). cbn.
  rewrite IH; [|done|].
  - f_equal. rewrite <- insert_union_l, insert_union_r; [done|].
    apply not_elem_of_list_to_map_1. rewrite <- list_fmap_compose. exact Hk.
  - intros k' Hk'. rewrite lookup_insert_ne by (intros ->; done). apply Hm. by right.
Qed.

Lemma outcome_fold_write {V W} (f : gmap string V → string * node → outcome (gmap string V))
    (write : W → node) (read : W → V) (m : gmap string W) :
  (∀ m k w, m !! k = None → f m (k, write w) = Ret (<[k := read w]> m)) →
  outcome_fold f ((λ kv, (kv.1, write kv.2)) <$> map_to_list m) ∅ = Ret (read <$> m).
Proof.
  intros Hf. rewrite (outcome_fold_map f write read); [|done|apply NoDup_fst_map_to_list|].
  - f_equal. rewrite (right_id_L ∅ (∪)). apply map_eq. intros k. rewrite lookup_fmap.
    rewrite <- (list_to_map_to_list m) at 2. rewrite <- lookup_fmap.
    by rewrite <- list_to_map_fmap.
  - intros k _. apply lookup_empty.
Qed.

Lemma parse_write_symbols (m : gmap string Limit) :
  outcome_fold parse_symbol_limit ((λ kv, (kv.1, write_limit kv.2)) <$> map_to_list m) ∅ = Ret m.
Proof.
  rewrite (outcome_fold_write parse_symbol_limit write_limit id).
  - by rewrite map_fmap_id.
  - intros m' k l Hk. unfold parse_symbol_limit. rewrite parse_write_limit. cbn. unfold try_emplace. by rewrite Hk.
Qed.

Lemma parse_write_exchanges (m : gmap string (gmap string Limit)) :
  outcome_fold parse_exchange_limits ((λ kv, (kv.1, write_map write_limit kv.2)) <$> map_to_list m) ∅ = Ret m.
Proof.
  rewrite (outcome_fold_write parse_exchange_limits (write_map write_limit) id).
  - by rewrite map_fmap_id.
  - intros m' k l Hk. unfold parse_exchange_limits, write_map. rewrite Hk. cbn [default].
    by rewrite parse_write_symbols.
Qed.

Lemma parse_write_names (t : limit_table string) :
  outcome_fold parse_name_limits ((λ kv, (kv.1, write_map (write_map write_limit) kv.2)) <$> map_to_list t) ∅
  = Ret t.
Proof.
  rewrite (outcome_fold_write parse_name_limits (write_map (write_map write_limit)) id).
  - by rewrite map_fmap_id.
  - intros m' k l Hk. unfold parse_name_limits, write_map at 1. rewrite Hk. cbn [default].
    by rewrite parse_write_exchanges.
Qed.

Lemma add_symbols (l : list string) (r : gmap string (gset string)) :
  outcome_fold add_symbol (Leaf ∘ of_string <$> l) r
  = Ret (match l with
         | [] => r
         | _ => <[EXCHANGE_NAME := list_to_set l ∪ default ∅ (r !! EXCHANGE_NAME)]> r
         end).
Proof.
  revert r. induction l as [|s l IH]; intros r; [done|]. cbn [fmap list_fmap outcome_fold].
  unfold add_symbol at 1, value_of, deref. cbn [compose]. rewrite string_leaf. cbn [outcome_bind].
  cbn [fmap list_fmap] in IH. rewrite IH. f_equal. destruct l as [|s' l].
  - f_equal. set_solver.
  - rewrite lookup_insert_eq, insert_insert_eq. f_equal. cbn. set_solver.
Qed.

Lemma config_parses (symbols : list string) (accounts users : limit_table string) :
  symbols ≠ [] →
  Config_ctor (write_config symbols accounts users)
  = Ret {| cfg_symbols := {[ EXCHANGE_NAME := list_to_set symbols ]};
           cfg_accounts := accounts; cfg_users := users; cfg_strategies := ∅ |}.
Proof.
  intros Hsymbols. unfold Config_ctor, write_config, parse_symbols, parse_limits, write_limits, write_map at 1 4.
  remove_head. rewrite add_symbols. destruct symbols as [|s l]; [done|]. cbn [outcome_bind].
  remove_head. rewrite parse_write_names. cbn [outcome_bind].
  remove_head. rewrite parse_write_names. cbn [outcome_bind check_empty default].
  rewrite lookup_empty. cbn [default]. by rewrite union_empty_r_L.
Qed.
(** C35. A document that lists symbols and gives every limit of every account and
    user is read back as those symbols and limits. *)
Theorem config_roundtrip (symbols : list string) (accounts users : limit_table string)
    (Hsymbols : symbols ≠ []) :
  Config_ctor (write_config symbols accounts users)
  = Ret {| cfg_symbols := {[ EXCHANGE_NAME := list_to_set symbols ]};
           cfg_accounts := accounts; cfg_users := users; cfg_strategies := ∅ |}.
Proof. by apply config_parses. Qed.
End roundtrip.

(** ** Refusing what is not understood *)

Section refusal.
Context `{T : !Toml} `{Order : !HashOrder}.

(** A node that still has the key. *)
Definition present (key : string) (n : node) : Prop :=
  match n with Table t => ∃ v, (key, v) ∈ t | _ => False end.

Lemma present_not_empty key n : present key n → check_empty n = Fatal.
Proof. destruct n as [| |[|kv t]]; [done|done| |done]. intros [v Hv]. by apply elem_of_nil in Hv. Qed.

Lemma find_and_remove_keeps {A} key key' (cb : node → outcome A) n o n' :
  find_and_remove key' cb n = Ret (o, n') → key ≠ key' → present key n → present key n'.
Proof.
  unfold find_and_remove. destruct n as [v|l|t]; intros Hf Hne Hp; [done|done|].
  destruct (find key' t) as [v'|]; [|by simplify_eq].
  destruct (cb v'); cbn in Hf; simplify_eq. destruct Hp as [v Hv]. exists v.
  apply list_elem_of_filter. done.
Qed.

Lemma outcome_bind_Ret {A B} (c : outcome A) (k : A → outcome B) b :
  outcome_bind c k = Ret b → ∃ a, c = Ret a ∧ k a = Ret b.
Proof. destruct c; cbn; try done. eauto. Qed.

Lemma refused {A} key n (k : () → outcome A) a :
  outcome_bind (check_empty n) k = Ret a → ¬ present key n.
Proof. intros Hc Hp. by rewrite (present_not_empty key n Hp) in Hc. Qed.

(** Take the first step of a computation that returned. *)
Ltac remove_inv H :=
  match type of H with
  | outcome_bind (check_empty _) _ = _ => fail 1
  | outcome_bind (outcome_bind _ _) _ = _ =>
      let x := fresh "x" in let H1 := fresh "H" in
      apply outcome_bind_Ret in H as (x & H1 & H); destruct x;
      repeat remove_inv H1
  | outcome_bind (find_and_remove _ _ _) _ = _ =>
      let o := fresh "o" in let n := fresh "n" in let H1 := fresh "H" in
      apply outcome_bind_Ret in H as ([o n] & H1 & H)
  | (match ?o with Some _ => _ | None => _ end) = Ret _ => destruct o; [|discriminate H]
  | Ret _ = Ret _ => injection H as <- <-
  end.

(** C36. A document with a key beside the symbols, the accounts and the users (a
    table of strategies, say) never becomes a configuration; nor does a limit
    with a key the program does not know. *)
Theorem config_unknown_keys_refused (t : list (string * node)) (key : string) (v : node)
    (Hkey : (key, v) ∈ t) :
  (key ∉ ["symbols"; "accounts"; "users"]%string → ∀ c, Config_ctor (Table t) ≠ Ret c)
  ∧ (key ∉ ["long_position_limit"; "short_position_limit"; "long_risk_exposure_limit";
            "short_risk_exposure_limit"; "allow_netting"]%string →
     ∀ tmp symbol m, parse_symbol_limit tmp (symbol, Table t) ≠ Ret m).
Proof.
  assert (Hp : present key (Table t)) by by exists v.
  split; intros Hn.
  - intros c Hc. unfold Config_ctor, parse_symbols, parse_limits in Hc.
    repeat remove_inv Hc. eapply (refused key); [exact Hc|].
    repeat (eapply find_and_remove_keeps; [eassumption|set_solver|]). done.
  - intros tmp symbol m Hm. unfold parse_symbol_limit, parse_limit in Hm.
    repeat remove_inv Hm. eapply (refused key); [exact Hm|].
    repeat (eapply find_and_remove_keeps; [eassumption|set_solver|]). done.
Qed.
End refusal.

(** ** Subscriptions *)

Section dispatch.
Context `{Order : !HashOrder}.

(** The subscriptions to the symbols of the configuration. *)
Definition symbol_subscriptions (m : gmap string (gset string)) : list subscription :=
  hash_order (map_to_list m) ≫= λ '(exchange, symbols_2),
    (λ item, client_Symbol item exchange) <$> hash_order (elements symbols_2).

Lemma elem_of_symbol_subscriptions m x :
  x ∈ symbol_subscriptions m ↔ ∃ e set s, m !! e = Some set ∧ s ∈ set ∧ x = client_Symbol s e.
Proof.
  unfold symbol_subscriptions. rewrite list_elem_of_bind. split.
  - intros ([e set] & Hx & He). rewrite elem_of_hash_order, elem_of_map_to_list in He.
    apply list_elem_of_fmap in Hx as (s & -> & Hs). rewrite elem_of_hash_order, elem_of_elements in Hs.
    by exists e, set, s.
  - intros (e & set & s & He & Hs & ->). exists (e, set). rewrite elem_of_hash_order, elem_of_map_to_list.
    split; [|done]. apply list_elem_of_fmap. exists s. by rewrite elem_of_hash_order, elem_of_elements.
Qed.

Lemma NoDup_symbol_subscriptions m : NoDup (symbol_subscriptions m).
Proof.
  unfold symbol_subscriptions. assert (Hk : NoDup (hash_order (map_to_list m)).*1) by apply NoDup_keys.
  induction (hash_order (map_to_list m)) as [|[e set] l IH]; cbn; [constructor|]. cbn in Hk.
  apply NoDup_cons in Hk as [He Hk]. apply NoDup_app. split_and!; [|intros x Hx Hx'|by apply IH].
  - apply NoDup_fmap; [by intros ?? [=]|]. apply NoDup_hash_order, NoDup_elements.
  - apply list_elem_of_fmap in Hx as (s & -> & _). apply list_elem_of_bind in Hx' as ([e' set'] & Hx & Hl).
    apply list_elem_of_fmap in Hx as (s' & [= -> ->] & _). apply He. apply (list_elem_of_fmap_2 fst _ _ Hl).
Qed.

(** What the program subscribes to: every configured account and every configured
    symbol of every exchange, and everything of every exchange; each of them once,
    unless the configuration names an exchange without a name. *)
Theorem config_subscriptions (c : Config) :
  (∀ a, client_Account a ∈ Config_dispatch c ↔ is_Some (cfg_accounts c !! a))
  ∧ (∀ s e, client_Symbol s e ∈ Config_dispatch c ↔
       (∃ set, cfg_symbols c !! e = Some set ∧ s ∈ set) ∨ (s = ".*" ∧ e = EmptyString))
  ∧ (cfg_symbols c !! EmptyString = None → NoDup (Config_dispatch c)).
Proof.
  unfold Config_dispatch. fold (symbol_subscriptions (cfg_symbols c)).
  assert (Hac : ∀ x, x ∈ client_Account <$> keys (cfg_accounts c) ↔
                     ∃ a, x = client_Account a ∧ is_Some (cfg_accounts c !! a)).
  { intros x. rewrite list_elem_of_fmap. by setoid_rewrite elem_of_keys. }
  split_and!.
  - intros a. rewrite !elem_of_app, Hac, elem_of_symbol_subscriptions, list_elem_of_singleton. naive_solver.
  - intros s e. rewrite !elem_of_app, Hac, elem_of_symbol_subscriptions, list_elem_of_singleton. naive_solver.
  - intros He. apply NoDup_app. split_and!.
    + apply NoDup_fmap; [by intros ?? [=]|]. apply NoDup_keys.
    + intros x (a & -> & _)%Hac. rewrite elem_of_app, elem_of_symbol_subscriptions, list_elem_of_singleton. naive_solver.
    + apply NoDup_app. split_and!; [apply NoDup_symbol_subscriptions| |apply NoDup_singleton].
      intros x (e & set & s & Hset & _ & ->)%elem_of_symbol_subscriptions.
      rewrite list_elem_of_singleton. intros [= -> ->]. congruence.
Qed.
End dispatch.

(** ** Evaluation *)

Module config_example.
Inductive toml_leaf : Type := LString (s : string) | LDouble (d : double) | LBool (b : bool).
#[export] Instance test_toml : Toml := {|
  leaf := toml_leaf;
  leaf_string := λ v, match v with LString s => Some s | _ => None end;
  leaf_double := λ v, match v with LDouble d => Some d | _ => None end;
  leaf_bool := λ v, match v with LBool b => Some b | _ => None end;
|}.
Definition btc_limits : limit_table string :=
  {[ "A1" := {[ "deribit" := {[ "BTC" := Limit_default ]} ]} ]}.
End config_example.

Section config_witnesses.
Import config_example.

Lemma config_roundtrip_witness :
  Config_ctor (write_config (T := test_toml) LString LDouble LBool ["BTC"; "ETH"] btc_limits ∅)
  = Ret {| cfg_symbols := {[ EXCHANGE_NAME := list_to_set ["BTC"; "ETH"] ]};
           cfg_accounts := btc_limits; cfg_users := ∅; cfg_strategies := ∅ |}.
Proof. apply (config_roundtrip (T := test_toml) LString LDouble LBool); (reflexivity || discriminate). Defined.

Lemma config_unknown_keys_refused_witness :
  ¬ ∃ c, Config_ctor (Table [("symbols", Leaf (T := test_toml) (LString "BTC")); ("strategies", Table [])]) = Ret c.
Proof.
  destruct (config_unknown_keys_refused [("symbols", Leaf (T := test_toml) (LString "BTC")); ("strategies", Table [])]
              "strategies" (Table [])) as [H _].
  - right. left.
  - intros [c Hc]. apply (H ltac:(apply (bool_decide_unpack _); vm_compute; exact I) c Hc).
Defined.
End config_witnesses.
