(* ===== verification/Format.v ===== *)
(** * Log text

    The [fmt::formatter]s of the records (database/*.hpp, risk/limit.hpp,
    risk/instrument.hpp, risk/position.hpp, config.hpp), which write the text of
    the log. A format string is a list of named fields, with their text in quotes
    or bare. How [fmt] prints doubles, durations and the decimals of the roq API is
    a parameter. *)

From Stdlib Require Import Ascii.
From S2P Require Import Prelude Double Messages Instrument Position Groups Shared SharedFacts Config.

Class Fmt `{!RoqApi} : Type := {
  fmt_double : double → string;
  fmt_duration : Z → string;
  fmt_decimals : Decimals → string;
}.

(** ** Format strings *)

Inductive field : Type :=
| Quoted (name value : string)
| Bare (name value : string).

Definition dquote : ascii := "034"%char.

Definition format_field (f : field) : string :=
  match f with
  | Quoted name value => name +:+ "=" +:+ String dquote (value +:+ String dquote EmptyString)
  | Bare name value => name +:+ "=" +:+ value
  end.

(** [", "] between the fields. *)
Fixpoint join (l : list string) : string :=
  match l with
  | [] => EmptyString
  | [s] => s
  | s :: l' => s +:+ ", " +:+ join l'
  end.

Definition format_fields (l : list field) : string := "{" +:+ join (format_field <$> l) +:+ "}".

Definition format_bool (b : bool) : string := if b then "true" else "false".

Section format.
Context `{Api : !RoqApi} `{F : !Fmt} `{Order : !HashOrder} `{T : !Toml}.

(** ** The records of the database *)

Definition format_Type (t : Type_) : string :=
  match t with EXCHANGE => "EXCHANGE" | MANUAL => "MANUAL" | POSITION => "POSITION" end.

Definition format_Account (v : db_Account) : string := format_fields
  [Quoted "account" (dba_name v);
   Bare "exchange_time_utc_min" (fmt_duration (dba_exchange_time_utc_min v));
   Bare "exchange_time_utc_max" (fmt_duration (dba_exchange_time_utc_max v));
   Bare "trade_count" (pretty (dba_trade_count v))].

Definition format_db_Position (v : db_Position) : string := format_fields
  [Quoted "user" (dbp_user v);
   Bare "strategy_id" (pretty (dbp_strategy_id v));
   Quoted "account" (dbp_account v);
   Quoted "exchange" (dbp_exchange v);
   Quoted "symbol" (dbp_symbol v);
   Bare "long_quantity" (fmt_double (dbp_long_quantity v));
   Bare "short_quantity" (fmt_double (dbp_short_quantity v));
   Bare "exchange_time_utc" (fmt_duration (dbp_exchange_time_utc v))].

Definition format_Trade (v : db_Trade) : string := format_fields
  [Quoted "user" (dbt_user v);
   Bare "strategy_id" (pretty (dbt_strategy_id v));
   Quoted "account" (dbt_account v);
   Quoted "exchange" (dbt_exchange v);
   Quoted "symbol" (dbt_symbol v);
   Bare "side" (Side_name (dbt_side v));
   Bare "quantity" (fmt_double (dbt_quantity v));
   Bare "price" (fmt_double (dbt_price v));
   Bare "exchange_time_utc" (fmt_duration (dbt_exchange_time_utc v));
   Quoted "external_account" (dbt_external_account v);
   Quoted "external_order_id" (dbt_external_order_id v);
   Quoted "external_trade_id" (dbt_external_trade_id v)].

Definition format_Correction (v : db_Correction) : string := format_fields
  [Quoted "user" (dbc_user v);
   Bare "strategy_id" (pretty (dbc_strategy_id v));
   Quoted "account" (dbc_account v);
   Quoted "exchange" (dbc_exchange v);
   Quoted "symbol" (dbc_symbol v);
   Bare "side" (Side_name (dbc_side v));
   Bare "quantity" (fmt_double (dbc_quantity v));
   Bare "price" (fmt_double (dbc_price v));
   Bare "exchange_time_utc" (fmt_duration (dbc_exchange_time_utc v));
   Quoted "reason" (dbc_reason v)].

Definition format_Funds (v : db_Funds) : string := format_fields
  [Quoted "account" (dbf_account v);
   Quoted "currency" (dbf_currency v);
   Bare "balance" (fmt_double (dbf_balance v));
   Bare "hold" (fmt_double (dbf_hold v));
   Bare "exchange_time_utc" (fmt_duration (dbf_exchange_time_utc v));
   Quoted "external_account" (dbf_external_account v)].

Definition format_Compress (v : db_Compress) : string := format_fields
  [Bare "exchange_time_utc" (fmt_duration (dbz_exchange_time_utc v))].

(** ** Risk *)

Definition format_Limit (v : Limit) : string := format_fields
  [Bare "long_position_limit" (fmt_double (lim_long_position_limit v));
   Bare "short_position_limit" (fmt_double (lim_short_position_limit v));
   Bare "long_risk_exposure_limit" (fmt_double (lim_long_risk_exposure_limit v));
   Bare "short_risk_exposure_limit" (fmt_double (lim_short_risk_exposure_limit v));
   Bare "allow_netting" (format_bool (lim_allow_netting v))].

(** [Instrument::format_to] leaves out the id and the names. *)
Definition format_Instrument (v : Instrument) : string := format_fields
  [Bare "min_trade_vol" (fmt_double (ins_min_trade_vol v));
   Bare "quantity_decimals" (fmt_decimals (ins_quantity_decimals v))].

(** The fills in the order of the hash set, without quotes. *)
Definition format_Position (v : Position) : string := format_fields
  [Bare "allow_netting" (format_bool (pos_allow_netting v));
   Bare "long_position_limit" (fmt_double (pos_long_position_limit v));
   Bare "short_position_limit" (fmt_double (pos_short_position_limit v));
   Bare "long_risk_exposure_limit" (fmt_double (pos_long_risk_exposure_limit v));
   Bare "short_risk_exposure_limit" (fmt_double (pos_short_risk_exposure_limit v));
   Bare "long_position" (fmt_double (pos_long_position v));
   Bare "short_position" (fmt_double (pos_short_position v));
   Bare "fills" ("[" +:+ join (hash_order (elements (pos_fills v))) +:+ "]")].

(** The tables are not written. *)
Definition format_Config (v : Config) : string := format_fields
  [Bare "symbols" "[]"; Bare "accounts" "[]"; Bare "users" "[]"].
End format.

(** ** Reading a line back *)

Fixpoint without (c : ascii) (s : string) : Prop :=
  match s with
  | EmptyString => True
  | String c' s' => c' ≠ c ∧ without c s'
  end.

(** The text before the first [c] is determined. *)
Lemma split_at c s1 s2 r1 r2 :
  without c s1 → without c s2 → s1 +:+ String c r1 = s2 +:+ String c r2 → s1 = s2 ∧ r1 = r2.
Proof.
  revert s2. induction s1 as [|a s1 IH]; intros [|b s2]; cbn; intros H1 H2 Heq.
  - by injection Heq.
  - destruct H2 as [H2 _]. injection Heq. congruence.
  - destruct H1 as [H1 _]. injection Heq. congruence.
  - destruct H1 as [_ H1], H2 as [_ H2]. injection Heq as -> Heq. destruct (IH s2 H1 H2 Heq) as [-> ->]. done.
Qed.

Lemma append_inv_l s r1 r2 : s +:+ r1 = s +:+ r2 → r1 = r2.
Proof. induction s as [|a s IH]; cbn; [done|]. intros [= H]. by apply IH. Qed.

Lemma text_append_assoc s1 s2 s3 : (s1 +:+ s2) +:+ s3 = s1 +:+ (s2 +:+ s3).
Proof. induction s1 as [|a s1 IH]; [done|]. exact (f_equal (String a) IH). Qed.

(** Text that cannot be taken for the end of its field. *)
Definition clean (f : field) : Prop :=
  match f with
  | Quoted _ value => without dquote value
  | Bare _ value => without "," value ∧ without "}" value
  end.

(** The same place in the same format string. *)
Definition same_label (f f' : field) : Prop :=
  match f, f' with
  | Quoted n _, Quoted n' _ | Bare n _, Bare n' _ => n = n'
  | _, _ => False
  end.

(** A field followed by a comma, or by the closing brace. *)
Lemma format_field_inv f f' c r r' :
  (c = "," ∨ c = "}")%char → same_label f f' → clean f → clean f' →
  format_field f +:+ String c r = format_field f' +:+ String c r' → f = f' ∧ r = r'.
Proof.
  intros Hc Hl H H'.
  destruct f as [n v|n v], f' as [n' v'|n' v']; cbn in Hl; try done; subst n'; cbn [format_field clean] in *.
  - rewrite !text_append_assoc. intros Heq%append_inv_l%append_inv_l. cbn in Heq. injection Heq as Heq.
    rewrite !text_append_assoc in Heq. apply split_at in Heq as [-> Hr]; [|done..]. split; [done|]. cbn in Hr. by injection Hr.
  - rewrite !text_append_assoc. intros Heq%append_inv_l%append_inv_l.
    apply split_at in Heq as [-> Hr]; [done|destruct Hc as [->| ->]; tauto..].
Qed.

(** A line determines the values of its fields. *)
Lemma format_fields_inj l l' :
  Forall2 same_label l l' → Forall clean l → Forall clean l' → format_fields l = format_fields l' → l = l'.
Proof.
  intros Hl H H' Heq. unfold format_fields in Heq. apply append_inv_l in Heq.
  induction Hl as [|f f' l l' Hf Hl IH]; [done|]. apply Forall_cons in H as [H HF], H' as [H' HF'].
  destruct Hl as [|g g' l l' Hg Hl].
  - apply (format_field_inv f f' "}") in Heq as [-> _]; [done|by right|done..].
  - cbn [fmap list_fmap join] in Heq. rewrite !text_append_assoc in Heq.
    apply (format_field_inv f f' ",") in Heq as [-> Heq]; [|by left|done..]. f_equal.
    apply IH; [done..|]. exact (append_inv_l (String " " EmptyString) _ _ Heq).
Qed.

(** ** What [fmt] promises *)

(** Numbers print without commas or braces, and different numbers differently. *)
Class FmtLaws `{F : Fmt} : Prop := {
  fmt_double_clean d : without "," (fmt_double d) ∧ without "}" (fmt_double d);
  fmt_double_inj : Inj (=) (=) fmt_double;
  fmt_duration_clean t : without "," (fmt_duration t) ∧ without "}" (fmt_duration t);
  fmt_duration_inj : Inj (=) (=) fmt_duration;
}.

Lemma without_app c s1 s2 : without c s1 → without c s2 → without c (s1 +:+ s2).
Proof. induction s1 as [|a s1 IH]; [done|]. intros [Ha H1] H2. split; [done|]. by apply IH. Qed.

(** No digit and no sign. *)
Definition separator (c : ascii) : Prop := c ∈ ([","; "}"; "n"; "e"; "034"]%char : list ascii).

Lemma pretty_N_without c (n : N) : separator c → without c (pretty n).
Proof.
  intros Hc. unfold separator in Hc. rewrite !elem_of_cons, elem_of_nil in Hc.
  unfold pretty, pretty_N. case_decide; [split; [naive_solver|done]|].
  assert (Hgo : ∀ (m : N) s, without c s → without c (pretty_N_go m s)); [|by apply Hgo].
  intros m. induction (N.lt_wf_0 m) as [m _ IH]. intros s Hs.
  destruct (decide (0 < m)%N) as [Hm|Hm]; [|by assert (m = 0)%N as -> by lia].
  rewrite pretty_N_go_step by done. apply IH; [apply N.div_lt; lia|]. split; [|done].
  unfold pretty_N_char. repeat case_match; naive_solver.
Qed.

Lemma pretty_Z_without c (z : Z) : separator c → without c (pretty z).
Proof.
  intros Hc. assert (Hd : c ≠ "0"%char ∧ c ≠ "-"%char).
  { unfold separator in Hc. rewrite !elem_of_cons, elem_of_nil in Hc. naive_solver. }
  unfold pretty, pretty_Z. destruct z as [|p|p].
  - split; [naive_solver|done].
  - by apply pretty_N_without.
  - split; [naive_solver|]. by apply pretty_N_without.
Qed.

Lemma pretty_Z_clean (z : Z) : without "," (pretty z) ∧ without "}" (pretty z).
Proof. split; apply pretty_Z_without; unfold separator; set_solver. Qed.

Lemma Side_name_clean s : without "," (Side_name s) ∧ without "}" (Side_name s).
Proof. by destruct s. Qed.

Section lines.
Context `{Api : !RoqApi} `{F : !Fmt} `{Laws : !FmtLaws}.

#[local] Hint Resolve fmt_double_clean fmt_duration_clean pretty_Z_clean Side_name_clean : risk.

(** The text fields of a record, none of which closes its own quotes. *)
Definition unquoted (l : list string) : Prop := Forall (without dquote) l.

Ltac line_clean :=
  repeat (apply Forall_cons; split; [cbn [clean]; first [solve [auto with risk]|tauto]|]); constructor.

Ltac line_inj v v' H H' Heq :=
  unfold unquoted in H, H'; rewrite !Forall_cons in H, H';
  apply format_fields_inj in Heq; [|repeat constructor|line_clean|line_clean];
  injection Heq; intros;
  repeat match goal with
  | E : fmt_double _ = fmt_double _ |- _ => apply fmt_double_inj in E
  | E : fmt_duration _ = fmt_duration _ |- _ => apply fmt_duration_inj in E
  | E : pretty _ = pretty _ |- _ => apply (inj pretty) in E
  | E : Side_name _ = Side_name _ |- _ => apply (f_equal Side_cast) in E; rewrite !Side_cast_name in E; injection E as E
  end;
  destruct v, v'; cbn in *; congruence.

(** C40. A line of the log determines the record it was written from: trades,
    corrections or funds without a double quote in their text that have the same
    line are the same. *)
Theorem log_line_determines_record :
  (∀ v v', unquoted [dbt_user v; dbt_account v; dbt_exchange v; dbt_symbol v; dbt_external_account v;
                     dbt_external_order_id v; dbt_external_trade_id v] →
           unquoted [dbt_user v'; dbt_account v'; dbt_exchange v'; dbt_symbol v'; dbt_external_account v';
                     dbt_external_order_id v'; dbt_external_trade_id v'] →
           format_Trade v = format_Trade v' → v = v')
  ∧ (∀ v v', unquoted [dbc_user v; dbc_account v; dbc_exchange v; dbc_symbol v; dbc_reason v] →
             unquoted [dbc_user v'; dbc_account v'; dbc_exchange v'; dbc_symbol v'; dbc_reason v'] →
             format_Correction v = format_Correction v' → v = v')
  ∧ (∀ v v', unquoted [dbf_account v; dbf_currency v; dbf_external_account v] →
             unquoted [dbf_account v'; dbf_currency v'; dbf_external_account v'] →
             format_Funds v = format_Funds v' → v = v').
Proof.
  split_and!.
  - intros v v' H H' Heq. unfold format_Trade in Heq. line_inj v v' H H' Heq.
  - intros v v' H H' Heq. unfold format_Correction in Heq. line_inj v v' H H' Heq.
  - intros v v' H H' Heq. unfold format_Funds in Heq. line_inj v v' H H' Heq.
Qed.
End lines.

(** ** Evaluation *)

Section format_witnesses.
#[local] Existing Instance test_api.

(** A printer with the laws: the mantissa and the exponent, and nanoseconds. *)
Definition print_double (d : double) : string :=
  match d with
  | S754_zero false => "0"
  | S754_zero true => "-0"
  | S754_infinity false => "inf"
  | S754_infinity true => "-inf"
  | S754_nan => "nan"
  | S754_finite s m e => pretty (if s then Z.neg m else Z.pos m) +:+ "e" +:+ pretty e
  end.
#[local] Instance test_fmt : Fmt :=
  {| fmt_double := print_double; fmt_duration t := pretty t +:+ "ns"; fmt_decimals d := pretty d |}.

#[local] Hint Extern 0 (separator _) => unfold separator; set_solver : risk.

Lemma print_double_finite s m e d : print_double (S754_finite s m e) = print_double d → d = S754_finite s m e.
Proof.
  assert (He : ∀ x t, print_double (S754_finite s m e) = x → without "e" x → t = x → False).
  { intros x t Hx Hw _. assert (Hno : ¬ without "e" (print_double (S754_finite s m e))); [|by rewrite Hx in Hno].
    cbn [print_double]. clear. induction (pretty _) as [|a r IH]; cbn; [by intros [? _]|by intros [_ ?]]. }
  destruct d as [[]|[]| |s' m' e']; intros Heq; try (by exfalso; eapply He; [exact Heq|cbn; split_and!; done|done]).
  cbn [print_double] in Heq. apply split_at in Heq as [Hm He']; auto using pretty_Z_without with risk.
  apply (inj pretty) in Hm, He'. subst e'. by destruct s, s'; simplify_eq.
Qed.

Lemma test_fmt_laws : FmtLaws.
Proof.
  split.
  - intros d. cbn. destruct d as [[]|[]| |s m e]; try by split; vm_compute.
    unfold print_double. split; repeat apply without_app; auto using pretty_Z_without with risk; by vm_compute.
  - intros d d'. cbn. destruct d as [[]|[]| |s m e] eqn:Hd, d' as [[]|[]| |s' m' e'] eqn:Hd'; intros Heq;
      try done; try (by apply print_double_finite in Heq); symmetry in Heq; by apply print_double_finite in Heq.
  - intros t. cbn. split; apply without_app; auto using pretty_Z_without with risk; by vm_compute.
  - intros t t'. cbn. intros Heq. apply split_at in Heq as [Heq _]; auto using pretty_Z_without with risk.
    by apply (inj pretty) in Heq.
Qed.

Definition logged (id : string) : db_Trade := {|
  dbt_user := "trader"; dbt_strategy_id := 7; dbt_account := "A1"; dbt_exchange := "deribit"; dbt_symbol := "BTC";
  dbt_side := BUY; dbt_quantity := of_Z 1; dbt_price := of_Z 100; dbt_exchange_time_utc := 5;
  dbt_external_account := EmptyString; dbt_external_order_id := "o1"; dbt_external_trade_id := id |}.

Lemma log_line_determines_record_witness : ¬ format_Trade (logged "t1") = format_Trade (logged "t2").
Proof.
  intros Heq. destruct (log_line_determines_record (Laws := test_fmt_laws)) as [H _].
  assert (Hsame : logged "t1" = logged "t2"); [|discriminate Hsame].
  apply H.
  - repeat constructor; discriminate.
  - repeat constructor; discriminate.
  - exact Heq.
Defined.
End format_witnesses.
