(* ===== verification/Text.v ===== *)
(** * Decimal text

    [std::from_chars] on integers and the decimal digits [fmt] prints, as the
    control sessions use them: timestamps of requests, numbers of replies. *)

From Stdlib Require Import Ascii.
From S2P Require Import Prelude.

(** ** [std::from_chars] *)

Inductive errc : Type := invalid_argument | result_out_of_range.

#[global] Instance errc_eq_dec : EqDecision errc.
Proof. solve_decision. Defined.

Definition digit (c : ascii) : option Z :=
  let n := Z.of_N (N_of_ascii c) in
  if (48 <=? n) && (n <=? 57) then Some (n - 48) else None.

(** The longest prefix of digits, [None] when there is none. *)
Fixpoint scan_digits (s : string) (acc : option Z) : option Z :=
  match s with
  | EmptyString => acc
  | String c s' =>
      match digit c with
      | Some d => scan_digits s' (Some (10 * default 0 acc + d))
      | None => acc
      end
  end.

(** [std::from_chars(first, last, value)] for a type with the range [lo, hi]: a
    minus sign only for signed types, no other sign and no space, and whatever
    follows the digits is left alone. *)
Definition from_chars (signed : bool) (lo hi : Z) (s : string) : errc + Z :=
  let '(negative, rest) :=
    match s with
    | String c s' => if signed && bool_decide (c = "-"%char) then (true, s') else (false, s)
    | EmptyString => (false, s)
    end in
  match scan_digits rest None with
  | None => inl invalid_argument
  | Some v =>
      let v := if negative : bool then - v else v in
      if (lo <=? v) && (v <=? hi) then inr v else inl result_out_of_range
  end.

Definition from_chars_int64 : string → errc + Z := from_chars true int64_min int64_max.
Definition from_chars_uint16 : string → errc + Z := from_chars false 0 65535.

(** ** Printing and reading *)

Lemma digit_char (d : N) : (d < 10)%N → digit (pretty_N_char d) = Some (Z.of_N d).
Proof.
  intros Hd. assert (d = 0 ∨ d = 1 ∨ d = 2 ∨ d = 3 ∨ d = 4 ∨ d = 5 ∨ d = 6 ∨ d = 7 ∨ d = 8 ∨ d = 9)%N
    as Hc by lia. naive_solver.
Qed.

Lemma scan_digits_go x s :
  (0 < x)%N → scan_digits (pretty_N_go x s) None = scan_digits s (Some (Z.of_N x)).
Proof.
  revert s. induction (N.lt_wf_0 x) as [x _ IH]; intros s Hx.
  rewrite pretty_N_go_step by done.
  assert (Hm : (x `mod` 10 < 10)%N) by (apply N.mod_lt; lia).
  assert (Hx' : (x = 10 * (x `div` 10) + x `mod` 10)%N) by (apply N.div_mod; lia).
  destruct (decide (x `div` 10 = 0)%N) as [Hz|Hz].
  - rewrite Hz, pretty_N_go_0. cbn -[N.modulo]. rewrite digit_char by done. cbn -[N.modulo].
    do 2 f_equal. lia.
  - rewrite IH by (try apply N.div_lt; lia). cbn -[N.modulo N.div Z.mul]. rewrite digit_char by done.
    do 2 f_equal. cbn -[N.modulo N.div Z.mul]. lia.
Qed.

Lemma scan_digits_pretty (n : N) : scan_digits (pretty n) None = Some (Z.of_N n).
Proof.
  unfold pretty, pretty_N. case_decide as Hn; [by subst|].
  rewrite scan_digits_go by lia. done.
Qed.

(** Digits do not start with a minus sign. *)
Lemma pretty_N_dash (n : N) s : pretty n ≠ String "-" s.
Proof.
  unfold pretty, pretty_N. case_decide; [done|]. apply (pretty_N_go_ne_dash n EmptyString s). done.
Qed.

Lemma from_chars_pretty_N signed lo hi (n : N) :
  from_chars signed lo hi (pretty n)
  = if (lo <=? Z.of_N n) && (Z.of_N n <=? hi) then inr (Z.of_N n) else inl result_out_of_range.
Proof.
  unfold from_chars. pose proof (pretty_N_dash n) as Hd. pose proof (scan_digits_pretty n) as Hs.
  destruct (pretty n) as [|c s]; [done|].
  rewrite (bool_decide_false (c = _)) by (intros ->; by eapply Hd). rewrite andb_false_r. by rewrite Hs.
Qed.

Lemma from_chars_pretty lo hi (z : Z) :
  from_chars true lo hi (pretty z) = if (lo <=? z) && (z <=? hi) then inr z else inl result_out_of_range.
Proof.
  destruct z as [|p|p].
  - apply (from_chars_pretty_N true lo hi 0%N).
  - apply (from_chars_pretty_N true lo hi (Npos p)).
  - unfold from_chars. change (pretty (Z.neg p)) with (String "-" (pretty (Npos p))). cbn [andb].
    rewrite bool_decide_true by done. by rewrite scan_digits_pretty.
Qed.
