(* ===== verification/Web.v ===== *)
(** * Requests, replies and their text

    What the control sessions exchange with clients: the REST request and
    response structs as far as they are read or built, the JSON text of trades,
    accounts, positions and funds (control/session.cpp), and the external
    libraries as parameters: nlohmann's JSON reader and roq's JSON formatters
    ([Json]) and roq's web server ([WebServer]). *)

From Stdlib Require Import Ascii.
From S2P Require Import Prelude Double Messages Text.

(** ** External libraries *)

(** [nlohmann::json::value_t]. *)
Inductive value_t : Type :=
| value_null | value_object | value_array | value_string | value_boolean
| value_number_integer | value_number_unsigned | value_number_float
| value_binary | value_discarded.

#[global] Instance value_t_eq_dec : EqDecision value_t.
Proof. solve_decision. Defined.

(** [json_get_string] and the others are [get<std::string_view>()],
    [get<uint32_t>()], [get<int64_t>()] and [get<double>()]; [json_String] and
    [json_Number] the text roq's formatters print. *)
Class Json : Type := {
  json : Type;
  json_parse : string → outcome json;
  json_is_array : json → bool;
  json_elements : json → list json;
  json_items : json → list (string * json);
  json_at : string → json → outcome json;
  json_type : json → value_t;
  json_get_string : json → outcome string;
  json_get_uint32 : json → outcome Z;
  json_get_int64 : json → outcome Z;
  json_get_double : json → outcome double;
  json_String : string → string;
  json_Number : double → string;
}.

Inductive Method : Type := GET | HEAD | POST | PUT | DELETE | CONNECT | OPTIONS | TRACE.
#[global] Instance Method_eq_dec : EqDecision Method.
Proof. solve_decision. Defined.
Inductive Status : Type := OK | NOT_FOUND.
Inductive ConnectionHeader : Type := CONNECTION_UNDEFINED | CLOSE | KEEP_ALIVE | UPGRADE.
Inductive ContentType : Type := APPLICATION_JSON.

#[global] Instance Status_eq_dec : EqDecision Status.
Proof. solve_decision. Defined.
#[global] Instance ConnectionHeader_eq_dec : EqDecision ConnectionHeader.
Proof. solve_decision. Defined.

(** [web::rest::Server::Request]; the server has split the path. *)
Record Request : Type := {
  req_method : Method;
  req_path : list string;
  req_query : list (string * string);
  req_connection : ConnectionHeader;
  req_body : string;
}.

(** [web::rest::Server::Response]. *)
Record Response : Type := {
  rsp_status : Status;
  rsp_connection : ConnectionHeader;
  rsp_sec_websocket_accept : string;
  rsp_cache_control : string;
  rsp_content_type : ContentType;
  rsp_body : string;
}.

(** The server of a session: what each call does beside sending, by session id. *)
Class WebServer : Type := {
  server_create : Z → outcome ();
  server_send : Z → Response → outcome ();
  server_send_text : Z → string → outcome ();
  server_upgrade : Z → Request → outcome ();
}.

(** A server that accepts everything. *)
Definition accepting : WebServer := {|
  server_create := λ _, Ret ();
  server_send := λ _ _, Ret ();
  server_send_text := λ _ _, Ret ();
  server_upgrade := λ _ _, Ret ();
|}.

(** ** Timestamps *)

(** [convert_to_timestamp<std::chrono::nanoseconds>]. *)
Definition convert_to_timestamp (value : string) : outcome Z :=
  if bool_decide (value = EmptyString) then Ret 0
  else match from_chars_int64 value with
       | inr result => Ret result
       | inl invalid_argument => Throw InvalidArgument
       | inl result_out_of_range => Throw RangeError
       end.

(** ** Text *)

Definition dquote : string := String (ascii_of_nat 34) EmptyString.
Definition quoted (s : string) : string := dquote +:+ s +:+ dquote.

(** [{"k1":v1,"k2":v2,...}], as the format strings of the source spell it out. *)
Definition object_text (fields : list (string * string)) : string :=
  "{" +:+ String.concat "," ((λ kv, quoted kv.1 +:+ ":" +:+ kv.2) <$> fields) +:+ "}".

Definition bool_text (b : bool) : string := if b then "true" else "false".

Section text.
Context `{!Json}.

Definition trade_to_json (trade : db_Trade) : string :=
  object_text
    [("user", json_String (dbt_user trade));
     ("strategy_id", pretty (dbt_strategy_id trade));
     ("account", json_String (dbt_account trade));
     ("exchange", json_String (dbt_exchange trade));
     ("symbol", json_String (dbt_symbol trade));
     ("side", json_String (Side_name (dbt_side trade)));
     ("quantity", json_Number (dbt_quantity trade));
     ("price", json_Number (dbt_price trade));
     ("exchange_time_utc", pretty (dbt_exchange_time_utc trade));
     ("external_account", json_String (dbt_external_account trade));
     ("external_order_id", json_String (dbt_external_order_id trade));
     ("external_trade_id", json_String (dbt_external_trade_id trade))].

(** The bodies of the callbacks of [get_accounts], [get_positions], [get_funds]. *)
Definition account_to_json (account : db_Account) : string :=
  object_text
    [("name", json_String (dba_name account));
     ("exchange_time_utc_min", pretty (dba_exchange_time_utc_min account));
     ("exchange_time_utc_max", pretty (dba_exchange_time_utc_max account));
     ("trade_count", pretty (dba_trade_count account))].

Definition position_to_json (position : db_Position) : string :=
  object_text
    [("user", json_String (dbp_user position));
     ("strategy_id", pretty (dbp_strategy_id position));
     ("account", json_String (dbp_account position));
     ("exchange", json_String (dbp_exchange position));
     ("symbol", json_String (dbp_symbol position));
     ("long_quantity", json_Number (dbp_long_quantity position));
     ("short_quantity", json_Number (dbp_short_quantity position));
     ("exchange_time_utc", pretty (dbp_exchange_time_utc position))].

Definition funds_to_json (funds : db_Funds) : string :=
  object_text
    [("account", json_String (dbf_account funds));
     ("currency", json_String (dbf_currency funds));
     ("balance", json_Number (dbf_balance funds));
     ("hold", json_Number (dbf_hold funds));
     ("exchange_time_utc", pretty (dbf_exchange_time_utc funds));
     ("external_account", json_String (dbf_external_account funds))].

(** [if (!std::empty(result)) result += ","; result += item]. *)
Definition add_item (result item : string) : string :=
  (if bool_decide (result = EmptyString) then result else result +:+ ",") +:+ item.

Definition list_to_json {A} (to_json : A → string) (l : list A) : string :=
  fold_left (λ result x, add_item result (to_json x)) l EmptyString.

Definition success_text (b : bool) : string := object_text [("success", bool_text b)].
End text.

Lemma append_assoc (a b c : string) : (a +:+ b) +:+ c = a +:+ (b +:+ c).
Proof.
  induction a as [|ch a IH]; [done|].
  change (String ch ((a +:+ b) +:+ c) = String ch (a +:+ (b +:+ c))). by rewrite IH.
Qed.

Lemma append_nonempty (a b : string) : a ≠ EmptyString → a +:+ b ≠ EmptyString.
Proof. by destruct a. Qed.

Lemma concat_cons2 sep a b l : String.concat sep (a :: b :: l) = a +:+ sep +:+ String.concat sep (b :: l).
Proof. done. Qed.

Lemma fold_add_item {A} (f : A → string) l r :
  r ≠ EmptyString →
  fold_left (λ result x, add_item result (f x)) l r = String.concat "," (r :: (f <$> l)).
Proof.
  revert r. induction l as [|x l IH]; intros r Hr; [done|].
  cbn [fold_left]. unfold add_item at 2. rewrite (bool_decide_false (r = EmptyString)) by done.
  rewrite IH by by do 2 apply append_nonempty.
  rewrite fmap_cons, concat_cons2. destruct (f <$> l) as [|y l'] eqn:Hl.
  - cbn. by rewrite append_assoc.
  - by rewrite !concat_cons2, !append_assoc.
Qed.

(** The items of a reply, separated by commas. *)
Lemma list_to_json_concat {A} (f : A → string) l :
  (∀ x, f x ≠ EmptyString) → list_to_json f l = String.concat "," (f <$> l).
Proof.
  intros Hf. destruct l as [|x l]; [done|]. unfold list_to_json. cbn [fold_left].
  change (add_item EmptyString (f x)) with (f x). by rewrite fold_add_item.
Qed.

Lemma list_to_json_empty {A} (f : A → string) l :
  (∀ x, f x ≠ EmptyString) → list_to_json f l = EmptyString ↔ l = [].
Proof.
  intros Hf. rewrite list_to_json_concat by done. split; [|by intros ->].
  destruct l as [|x l]; [done|]. rewrite fmap_cons. intros Hc. exfalso. revert Hc.
  destruct (f <$> l); [apply Hf|]. rewrite concat_cons2. by apply append_nonempty.
Qed.
