(* ===== verification/Statement.v ===== *)
(** * The SQLite wrapper

    [third_party::sqlite::Statement] and [Connection]
    (third_party/sqlite/statement.cpp, connection.cpp). The C library is a
    parameter: a prepared statement is what it yields, either an error of
    [sqlite3_prepare] or a list of rows followed by the code of the last
    [sqlite3_step]. Every result code other than the expected one is thrown as
    [RuntimeError]. *)

From S2P Require Import Prelude Double.

(** ** Result codes and column values *)

Definition SQLITE_OK : Z := 0.
Definition SQLITE_ROW : Z := 100.
Definition SQLITE_DONE : Z := 101.

Inductive sql_value : Type :=
| SQL_NULL
| SQL_INTEGER (z : Z)
| SQL_FLOAT (d : double)
| SQL_TEXT (s : string)
| SQL_BLOB.

#[global] Instance sql_value_eq_dec : EqDecision sql_value.
Proof. solve_decision. Defined.

Definition row : Type := list sql_value.

(** What the library yields for one query. *)
Record execution : Type := {
  ex_prepare : Z;
  ex_rows : list row;
  ex_final : Z;
}.

Definition prepare_failed : execution := {| ex_prepare := 1; ex_rows := []; ex_final := SQLITE_DONE |}.
Definition yields (rows : list row) : execution :=
  {| ex_prepare := SQLITE_OK; ex_rows := rows; ex_final := SQLITE_DONE |}.

(** ** Statement *)

(** The state of a statement: what is still to be fetched. *)
Record Statement : Type := { st_rows : list row; st_final : Z; st_current : row }.

(** [Statement::Statement]: [sqlite3_prepare], thrown unless [SQLITE_OK]. *)
Definition Statement_ctor (e : execution) : outcome Statement :=
  if ex_prepare e =? SQLITE_OK
  then Ret {| st_rows := ex_rows e; st_final := ex_final e; st_current := [] |}
  else Throw RuntimeError.

(** The code of [sqlite3_step]. *)
Definition sqlite3_step (s : Statement) : Z * Statement :=
  match st_rows s with
  | r :: rs => (SQLITE_ROW, {| st_rows := rs; st_final := st_final s; st_current := r |})
  | [] => (st_final s, s)
  end.

(** [bool Statement::step()]. *)
Definition step (s : Statement) : outcome bool * Statement :=
  let '(result, s') := sqlite3_step s in
  if result =? SQLITE_DONE then (Ret false, s')
  else if result =? SQLITE_ROW then (Ret true, s')
  else (Throw RuntimeError, s').

(** [while (statement.step()) body(statement)], the results of the body
    collected; one unit of fuel per row and one for the last step. *)
Fixpoint step_loop {A} (fuel : nat) (body : row → outcome A) (s : Statement) : outcome (list A) :=
  match fuel with
  | O => Undef
  | S fuel' =>
      match step s with
      | (Ret true, s') =>
          let? a := body (st_current s') in
          let? l := step_loop fuel' body s' in Ret (a :: l)
      | (Ret false, _) => Ret []
      | (Throw e, _) => Throw e
      | (Fatal, _) => Fatal
      | (Undef, _) => Undef
      end
  end.

(** A query with its loop. *)
Definition query {A} (e : execution) (body : row → outcome A) : outcome (list A) :=
  let? s := Statement_ctor e in step_loop (S (length (st_rows s))) body s.

(** [Connection::exec]: a statement that must not yield a row. *)
Definition exec (e : execution) : outcome () :=
  let? s := Statement_ctor e in
  let? more := (step s).1 in
  if more : bool then Throw RuntimeError else Ret ().

(** [Statement::reset]: [sqlite3_reset] stands for the library's function. *)
Definition reset (sqlite3_reset : Statement → Z * Statement) (s : Statement) : outcome () * Statement :=
  let '(result, s') := sqlite3_reset s in
  if result =? SQLITE_OK then (Ret (), s') else (Throw RuntimeError, s').

(** ** Connection *)

(** [Connection::Connection]: [sqlite3_open] yields a code and what the file holds. *)
Definition Connection_ctor {D} (sqlite3_open : string → Z * D) (filename : string) : outcome D :=
  let '(result, d) := sqlite3_open filename in
  if result =? SQLITE_OK then Ret d else Throw RuntimeError.

(** The texts of the utilities. *)
Definition table_exists_query (name : string) : string :=
  "SELECT name FROM sqlite_master WHERE type='table' AND name='" +:+ name +:+ "'".
Definition rename_table_query (old_name new_name : string) : string :=
  "ALTER TABLE " +:+ old_name +:+ " RENAME TO " +:+ new_name.
Definition drop_table_query (name : string) : string := "DROP TABLE " +:+ name.

(** [run] is what the library yields for a text. *)
Definition table_exists (run : string → execution) (name : string) : outcome bool :=
  let? s := Statement_ctor (run (table_exists_query name)) in (step s).1.
Definition rename_table (run : string → execution) (old_name new_name : string) : outcome () :=
  let? s := Statement_ctor (run (rename_table_query old_name new_name)) in
  let? _ := (step s).1 in Ret ().
Definition drop_table (run : string → execution) (name : string) : outcome () :=
  let? s := Statement_ctor (run (drop_table_query name)) in
  let? _ := (step s).1 in Ret ().

(** The text [create_index] builds in trades.cpp and funds.cpp. *)
Definition create_index_query (table_name index_name : string) (sorted : bool) : string :=
  "CREATE INDEX IF NOT EXISTS idx_" +:+ table_name +:+ "_" +:+ index_name
  +:+ " ON " +:+ table_name +:+ "(" +:+ index_name
  +:+ (if sorted then " ASC" else EmptyString) +:+ ")".

Definition create_index (run : string → execution) (table_name : string) (index : string * bool) : outcome () :=
  exec (run (create_index_query table_name index.1 index.2)).

(** ** Binding: zero-based columns of the interface, one-based ones of SQLite *)

Inductive bind_value : Type :=
| bind_null
| bind_int (z : Z)
| bind_int64 (z : Z)
| bind_double (d : double)
| bind_text (s : string).

(** [sqlite3_bind] stands for the library's family of functions: the code it
    returns for a one-based column. *)
Definition bind_column (sqlite3_bind : Z → bind_value → Z) (column : Z) (value : bind_value) : outcome () :=
  let real_column := i32 column + 1 in
  if 2 ^ 31 <=? real_column then Undef  (* signed overflow *)
  else if sqlite3_bind real_column value =? SQLITE_OK then Ret () else Throw RuntimeError.

(** ** Columns *)

(** The value of a column; past the last one the library's result is undefined. *)
Definition column (r : row) (i : nat) : outcome sql_value :=
  match r !! i with Some v => Ret v | None => Undef end.

Definition is_null (r : row) (i : nat) : outcome bool :=
  let? v := column r i in
  Ret (match v with SQL_NULL => true | _ => false end).

Definition get_int32 (r : row) (i : nat) : outcome Z :=
  let? v := column r i in
  match v with
  | SQL_NULL => Ret 0
  | SQL_INTEGER z => Ret (i32 z)
  | _ => Throw RuntimeError
  end.

Definition get_uint32 (r : row) (i : nat) : outcome Z :=
  let? v := column r i in
  match v with
  | SQL_NULL => Ret 0
  | SQL_INTEGER z => if (z <? 0) || (uint32_max <? z) then Throw RuntimeError else Ret (u32 z)
  | _ => Throw RuntimeError
  end.

Definition get_int64 (r : row) (i : nat) : outcome Z :=
  let? v := column r i in
  match v with
  | SQL_NULL => Ret 0
  | SQL_INTEGER z => Ret z
  | _ => Throw RuntimeError
  end.

Definition get_uint64 (r : row) (i : nat) : outcome Z :=
  let? v := column r i in
  match v with
  | SQL_NULL => Ret 0
  | SQL_INTEGER z => if z <? 0 then Throw RuntimeError else Ret (u64 z)
  | _ => Throw RuntimeError
  end.

Definition get_double (r : row) (i : nat) : outcome double :=
  let? v := column r i in
  match v with
  | SQL_NULL => Ret NaN
  | SQL_INTEGER z => Ret (of_Z z)
  | SQL_FLOAT d => Ret d
  | _ => Throw RuntimeError
  end.

Definition get_string (r : row) (i : nat) : outcome string :=
  let? v := column r i in
  match v with
  | SQL_NULL => Ret EmptyString
  | SQL_TEXT s => Ret s
  | _ => Throw RuntimeError
  end.

(** ** Lemmas *)

Lemma step_loop_rows {A} (body : row → outcome A) rows final cur fuel :
  final ≠ SQLITE_ROW → (length rows < fuel)%nat →
  step_loop fuel body {| st_rows := rows; st_final := final; st_current := cur |}
  = let? l := outcome_map body rows in
    if final =? SQLITE_DONE then Ret l else Throw RuntimeError.
Proof.
  intros Hfinal. revert cur fuel.
  induction rows as [|r rows IH]; intros cur [|fuel] Hfuel; cbn in Hfuel; try lia.
  - cbn. unfold step. cbn. destruct (Z.eqb_spec final SQLITE_DONE); [done|].
    by rewrite (proj2 (Z.eqb_neq final SQLITE_ROW)).
  - cbn. destruct (body r); cbn; try done. rewrite IH by lia.
    destruct (outcome_map body rows); cbn; try done.
    by destruct (final =? SQLITE_DONE).
Qed.

(** The fuel of [query] is enough: a query whose statement ends runs the body on
    every row and then reports the last code. *)
Lemma query_spec {A} (e : execution) (body : row → outcome A) :
  ex_final e ≠ SQLITE_ROW →
  query e body
  = if ex_prepare e =? SQLITE_OK then
      let? l := outcome_map body (ex_rows e) in
      if ex_final e =? SQLITE_DONE then Ret l else Throw RuntimeError
    else Throw RuntimeError.
Proof.
  intros He. unfold query, Statement_ctor. destruct (ex_prepare e =? SQLITE_OK); [|done].
  unfold outcome_bind at 1. rewrite step_loop_rows by (done || cbn; lia). done.
Qed.

Lemma query_yields {A} rows (body : row → outcome A) :
  query (yields rows) body = outcome_map body rows.
Proof. rewrite query_spec by done. cbn. by destruct (outcome_map body rows). Qed.

(** C38. The loop over the rows of a statement ends: with any fuel beyond one step per
    row it runs the body on every row, in order, until one throws, and then
    reports the code of the last step; the fuel [query] gives is enough. *)
Theorem step_loop_terminates {A} (e : execution) (body : row → outcome A) (fuel : nat) (s : Statement)
    (Hend : ex_final e ≠ SQLITE_ROW) (Hs : Statement_ctor e = Ret s) (Hfuel : (length (ex_rows e) < fuel)%nat) :
  step_loop fuel body s = query e body
  ∧ query e body = let? l := outcome_map body (ex_rows e) in
                   if ex_final e =? SQLITE_DONE then Ret l else Throw RuntimeError.
Proof.
  unfold Statement_ctor in Hs. destruct (ex_prepare e =? SQLITE_OK) eqn:Hp; [|done]. injection Hs as <-.
  rewrite query_spec by done. rewrite Hp. split; [|done]. by apply step_loop_rows.
Qed.

Lemma step_loop_terminates_witness :
  step_loop 9 (λ r, get_int64 r 0)
    {| st_rows := [[SQL_INTEGER 4]; [SQL_INTEGER 5]]; st_final := SQLITE_DONE; st_current := [] |}
  = query (yields [[SQL_INTEGER 4]; [SQL_INTEGER 5]]) (λ r, get_int64 r 0).
Proof.
  apply (step_loop_terminates (yields [[SQL_INTEGER 4]; [SQL_INTEGER 5]])).
  - discriminate.
  - reflexivity.
  - cbn. lia.
Defined.

(** A statement that yields a row, or fails to prepare or to run, is an error. *)
Lemma exec_cases e :
  exec e = Ret () ∨ exec e = Throw RuntimeError.
Proof.
  unfold exec, Statement_ctor, step, sqlite3_step. destruct (_ =? _); cbn; [|by right].
  destruct (ex_rows e); cbn; [|by right]. repeat case_match; cbn in *; simplify_eq; auto.
Qed.

(** Unsigned columns are read without wrapping: a value is returned as it is
    stored, or as zero for NULL, or the read throws. *)
Lemma unsigned_columns_exact (r : row) (i : nat) (v : sql_value) (Hv : r !! i = Some v)
    (Hint64 : ∀ z, v = SQL_INTEGER z → int64_min ≤ z ≤ int64_max) :
  get_uint32 r i = match v with
                   | SQL_NULL => Ret 0
                   | SQL_INTEGER z => if decide (0 ≤ z ≤ uint32_max) then Ret z else Throw RuntimeError
                   | _ => Throw RuntimeError
                   end
  ∧ get_uint64 r i = match v with
                     | SQL_NULL => Ret 0
                     | SQL_INTEGER z => if decide (0 ≤ z) then Ret z else Throw RuntimeError
                     | _ => Throw RuntimeError
                     end.
Proof.
  unfold get_uint32, get_uint64, column. rewrite Hv. cbn [outcome_bind].
  destruct v as [|z| | |]; try done. specialize (Hint64 z eq_refl). unfold uint32_max, int64_min, int64_max in *.
  split.
  - destruct (Z.ltb_spec z 0); cbn [orb]; [by rewrite decide_False by lia|].
    destruct (Z.ltb_spec (2 ^ 32 - 1) z); [by rewrite decide_False by lia|].
    rewrite decide_True by lia. by rewrite u32_small by lia.
  - destruct (Z.ltb_spec z 0); [by rewrite decide_False by lia|].
    rewrite decide_True by lia. unfold u64. by rewrite wrap_small by lia.
Qed.

