(* ===== verification/Sql.v ===== *)
(** * The SQL the program sends

    The statements of database/sqlite are SQL text; the models of Trades.v and
    Funds.v are shallow embeddings of that text over lists of rows, written with
    the combinators below. What SQLite decides for itself is a parameter
    ([SqlEngine]): the order rows are visited in, the row a column outside the
    aggregates is taken from, how a sum of reals is rounded, and which real it
    reads from the decimal digits [fmt] printed. *)

From Stdlib Require Import Ascii.
From S2P Require Import Prelude Double Statement.

Class SqlEngine : Type := {
  scan : ∀ A : Type, list A → list A;
  scan_perm : ∀ (A : Type) (l : list A), scan A l ≡ₚ l;
  pick_bare : ∀ A : Type, list A → option A;
  pick_bare_elem : ∀ (A : Type) (l : list A) x, pick_bare A l = Some x → x ∈ l;
  pick_bare_some : ∀ (A : Type) (l : list A), l ≠ [] → is_Some (pick_bare A l);
  sql_sum : list double → double;
  real_literal : double → double;
}.
Arguments scan {_ A} _.
Arguments scan_perm {_ A} _.
Arguments pick_bare {_ A} _.
Arguments pick_bare_elem {_ A} _ _ _.
Arguments pick_bare_some {_ A} _ _.

(** An engine for evaluation: rows in table order, the last row for bare
    columns, sums from left to right, exact literals. *)
Definition table_order : SqlEngine.
Proof.
  refine {|
    scan := λ _ l, l;
    pick_bare := λ _ l, last l;
    sql_sum := λ l, fold_left dadd l dzero;
    real_literal := λ d, d |}.
  - done.
  - intros A l x Hx. by apply last_Some_elem_of.
  - intros A l Hl. destruct (last l) eqn:Hx; [done|]. by apply last_None in Hx.
Defined.

(** ** Literals

    A text literal is the field between single quotes, unescaped: it stands for
    the field only when the field has no quote (and no NUL, which ends the
    statement). A double that is not finite prints as [nan] or [inf], which
    SQLite reads as the name of a column and rejects. *)

Fixpoint plain (s : string) : bool :=
  match s with
  | EmptyString => true
  | String c s' =>
      negb (bool_decide (c = "'"%char)) && negb (bool_decide (c = Ascii.zero)) && plain s'
  end.

Definition all_plain (l : list string) : bool := forallb plain l.
Definition all_finite (l : list double) : bool := forallb isfinite l.

(** ** Tables *)

Section tables.
Context {R K : Type} `{EqDecision K} (pk : R → K).

(** [INSERT OR REPLACE] under the primary key [pk]. *)
Definition insert_or_replace (r : R) (t : list R) : list R :=
  filter (λ r', pk r' ≠ pk r) t ++ [r].

(** No two rows share the key. *)
Definition unique_key (t : list R) : Prop := NoDup (pk <$> t).

Lemma insert_or_replace_unique r t : unique_key t → unique_key (insert_or_replace r t).
Proof.
  unfold unique_key, insert_or_replace. intros Ht. rewrite fmap_app. apply NoDup_app. split_and!.
  - by apply NoDup_fmap_filter.
  - intros k Hk Hr. cbn in Hr. apply list_elem_of_singleton in Hr as ->.
    apply list_elem_of_fmap in Hk as (r' & Hk & Hr'). apply list_elem_of_filter in Hr'. naive_solver.
  - apply NoDup_singleton.
Qed.

Lemma elem_of_insert_or_replace r r' t :
  r' ∈ insert_or_replace r t ↔ r' = r ∨ (r' ∈ t ∧ pk r' ≠ pk r).
Proof.
  unfold insert_or_replace. rewrite elem_of_app, list_elem_of_filter, list_elem_of_singleton. naive_solver.
Qed.

(** A row replaces an earlier one of the same key. *)
Lemma insert_or_replace_same_key r1 r2 t :
  pk r1 = pk r2 → insert_or_replace r2 (insert_or_replace r1 t) = insert_or_replace r2 t.
Proof.
  intros Hk. unfold insert_or_replace. rewrite filter_app. cbn. rewrite decide_False by naive_solver.
  rewrite app_nil_r, Hk. f_equal. by apply list_filter_filter_r.
Qed.
End tables.

(** ** Grouping *)

Section grouping.
Context {R K : Type} `{EqDecision K} (k : R → K).

(** [GROUP BY k]: the distinct keys, each with its rows. *)
Definition group_by (t : list R) : list (K * list R) :=
  (λ key, (key, filter (λ r, k r = key) t)) <$> remove_dups (k <$> t).

Lemma elem_of_group_by key rows t :
  (key, rows) ∈ group_by t ↔ rows = filter (λ r, k r = key) t ∧ key ∈ k <$> t.
Proof.
  unfold group_by. rewrite list_elem_of_fmap. setoid_rewrite elem_of_remove_dups. naive_solver.
Qed.

Lemma group_by_keys t : (group_by t).*1 = remove_dups (k <$> t).
Proof. unfold group_by. rewrite <- list_fmap_compose. apply list_fmap_id. Qed.

(** Rows of one key make one group. *)
Lemma group_by_single key t : t ≠ [] → Forall (λ r, k r = key) t → group_by t = [(key, t)].
Proof.
  intros Hn Ht. unfold group_by.
  assert (remove_dups (k <$> t) = [key]) as ->.
  { assert (NoDup (remove_dups (k <$> t))) by apply NoDup_remove_dups.
    assert (∀ x, x ∈ remove_dups (k <$> t) ↔ x = key) as Hx.
    { intros x. rewrite elem_of_remove_dups, list_elem_of_fmap. rewrite Forall_forall in Ht.
      split; [naive_solver|]. intros ->. destruct t as [|r t]; [done|].
      exists r. split; [symmetry; apply Ht|]; by left. }
    symmetry. apply Permutation_singleton_l, NoDup_Permutation; [apply NoDup_singleton|done|].
    intros x. by rewrite list_elem_of_singleton, Hx. }
  cbn. by rewrite filter_Forall.
Qed.

(** A group has a row. *)
Lemma group_by_nonempty key rows t : (key, rows) ∈ group_by t → rows ≠ [].
Proof.
  rewrite elem_of_group_by, list_elem_of_fmap. intros [-> (r & -> & Hr)] Hnil.
  assert (r ∈ filter (λ r', k r' = k r) t) as Hin by by apply list_elem_of_filter.
  rewrite Hnil in Hin. by apply elem_of_nil in Hin.
Qed.
End grouping.

(** Splitting a list by a list of keys loses and repeats nothing. *)
Lemma partition_keys {R K} `{EqDecision K} (k : R → K) (keys : list K) (l : list R) :
  NoDup keys →
  (keys ≫= λ key, filter (λ r, k r = key) l) ++ filter (λ r, k r ∉ keys) l ≡ₚ l.
Proof.
  intros Hnd. revert l. induction Hnd as [|key keys Hkey _ IH]; intros l; cbn.
  { rewrite filter_Forall; [done|]. apply Forall_forall. intros ? _. apply not_elem_of_nil. }
  assert (Hrest : filter (λ r, k r ∉ key :: keys) l
                  = filter (λ r, k r ∉ keys) (filter (λ r, k r ≠ key) l)).
  { rewrite list_filter_filter. apply list_filter_iff. intros r. rewrite not_elem_of_cons. tauto. }
  assert (Hbind : (keys ≫= λ key', filter (λ r, k r = key') l)
                  = (keys ≫= λ key', filter (λ r, k r = key') (filter (λ r, k r ≠ key) l))).
  { clear IH Hrest. induction keys as [|key' keys IH]; cbn; [done|].
    apply not_elem_of_cons in Hkey as [Hne Hkey]. rewrite IH by done. f_equal.
    rewrite list_filter_filter. apply list_filter_iff. intros r. naive_solver. }
  rewrite Hrest, Hbind, <- app_assoc, IH. apply filter_app_complement.
Qed.

Lemma group_by_concat {R K} `{EqDecision K} (k : R → K) (t : list R) :
  (group_by k t ≫= snd) ≡ₚ t.
Proof.
  etrans; [|apply (partition_keys k (remove_dups (k <$> t))), NoDup_remove_dups].
  rewrite (filter_Forall_none (λ r, k r ∉ remove_dups (k <$> t))), app_nil_r.
  - unfold group_by. apply reflexive_eq.
    induction (remove_dups (k <$> t)) as [|key keys IH]; cbn; [done|]. cbn in IH. by rewrite IH.
  - apply Forall_forall. intros r Hr. rewrite elem_of_remove_dups.
    intros Hn. by apply Hn, list_elem_of_fmap_2.
Qed.

(** [MAX] and [MIN] over the rows of a group. *)
Definition max_of (l : list Z) : Z :=
  match l with [] => 0 | x :: l' => foldr Z.max x l' end.
Definition min_of (l : list Z) : Z :=
  match l with [] => 0 | x :: l' => foldr Z.min x l' end.

Lemma max_of_ge l x : x ∈ l → x ≤ max_of l.
Proof.
  destruct l as [|y l]; [by intros ?%elem_of_nil|]. cbn. rewrite elem_of_cons.
  induction l as [|z l IH]; cbn; rewrite ?elem_of_nil, ?elem_of_cons; [naive_solver lia|].
  intros [->|[->|Hx]]; [|lia|]; (etrans; [|apply IH; eauto]) || (etrans; [apply IH; eauto|]); lia.
Qed.

Lemma max_of_elem l : l ≠ [] → max_of l ∈ l.
Proof.
  destruct l as [|y l]; [done|]. intros _. cbn. induction l as [|z l IH]; cbn; [set_solver|].
  destruct (Z.max_spec z (foldr Z.max y l)) as [[_ ->]|[_ ->]]; set_solver.
Qed.

Lemma min_of_le l x : x ∈ l → min_of l ≤ x.
Proof.
  destruct l as [|y l]; [by intros ?%elem_of_nil|]. cbn. rewrite elem_of_cons.
  induction l as [|z l IH]; cbn; rewrite ?elem_of_nil, ?elem_of_cons; [naive_solver lia|].
  intros [->|[->|Hx]]; [|lia|]; (etrans; [|apply IH; eauto]) || (etrans; [apply IH; eauto|]); lia.
Qed.

Lemma min_of_elem l : l ≠ [] → min_of l ∈ l.
Proof.
  destruct l as [|y l]; [done|]. intros _. cbn. induction l as [|z l IH]; cbn; [set_solver|].
  destruct (Z.min_spec z (foldr Z.min y l)) as [[_ ->]|[_ ->]]; set_solver.
Qed.

#[global] Instance max_of_perm : Proper ((≡ₚ) ==> (=)) max_of.
Proof.
  intros l l' Hl. destruct (decide (l = [])) as [->|Hn].
  { apply Permutation_nil_l in Hl as ->. done. }
  assert (l' ≠ []) by (intros ->; by apply Permutation_nil_r in Hl).
  apply Z.le_antisymm; apply max_of_ge.
  - rewrite <- Hl. by apply max_of_elem.
  - rewrite Hl. by apply max_of_elem.
Qed.

(** ** Full outer join on equal keys *)

Section join.
Context {A B K : Type} `{EqDecision K} (ka : A → K) (kb : B → K).

Definition full_outer_join (ta : list A) (tb : list B) : list (option A * option B) :=
  (ta ≫= λ a, match filter (λ b, kb b = ka a) tb with
              | [] => [(Some a, None)]
              | bs => (λ b, (Some a, Some b)) <$> bs
              end)
  ++ ((λ b, (None, Some b)) <$> filter (λ b, kb b ∉ ka <$> ta) tb).

(** Under unique keys every row of the left table is in the join once. *)
Lemma full_outer_join_left ta tb :
  NoDup (kb <$> tb) → omap fst (full_outer_join ta tb) = ta.
Proof.
  intros Hnd. unfold full_outer_join. rewrite omap_app.
  assert (∀ l : list B, omap fst ((λ b, (None : option A, Some b)) <$> l) = []) as ->
    by (intros l; induction l; cbn; auto).
  rewrite app_nil_r. induction ta as [|a ta IH]; [done|]. rewrite bind_cons, omap_app, IH.
  enough (length (filter (λ b, kb b = ka a) tb) ≤ 1)%nat as Hle.
  { destruct (filter _ tb) as [|b [|b' l]]; cbn in *; (done || lia). }
  clear IH. induction tb as [|b tb IH]; cbn; [lia|].
  cbn in Hnd. apply NoDup_cons in Hnd as [Hb Hnd]. case_decide as Heq; [|by apply IH]. cbn.
  rewrite (filter_Forall_none (λ b, kb b = ka a)); [cbn; lia|].
  apply Forall_forall. intros b' Hb' Heq'. apply Hb. rewrite Heq, <- Heq'. by apply list_elem_of_fmap_2.
Qed.

(** Under unique keys every row of the right table is in the join once. *)
Lemma full_outer_join_right ta tb :
  NoDup (ka <$> ta) → omap snd (full_outer_join ta tb) ≡ₚ tb.
Proof.
  intros Hnd. unfold full_outer_join. rewrite omap_app.
  assert (∀ l : list B, omap snd ((λ b, (None : option A, Some b)) <$> l) = l) as ->
    by (intros l; induction l as [|b l IH]; cbn; [done|]; cbn in IH; by rewrite IH).
  etrans; [|apply (partition_keys kb (ka <$> ta) tb Hnd)]. apply Permutation_app_tail, reflexive_eq.
  clear Hnd. induction ta as [|a ta IH]; [done|].
  rewrite fmap_cons, !bind_cons, omap_app, IH. f_equal.
  destruct (filter _ tb) as [|b l]; cbn; [done|]. f_equal. induction l as [|b' l IHl]; cbn; [done|].
  cbn in IHl. by rewrite IHl.
Qed.

Lemma full_outer_join_left_only a : full_outer_join [a] [] = [(Some a, None)].
Proof. done. Qed.

Lemma full_outer_join_match a b : kb b = ka a → full_outer_join [a] [b] = [(Some a, Some b)].
Proof.
  intros Hk. unfold full_outer_join. cbn. rewrite decide_True by done. cbn.
  by rewrite decide_False by (rewrite Hk; set_solver).
Qed.
End join.

(** ** Ordering *)

Definition text_le (a b : string) : Prop := String.leb a b = true.
#[global] Instance text_le_dec a b : Decision (text_le a b).
Proof. unfold text_le. apply _. Defined.
#[global] Instance text_le_total : Total text_le.
Proof. intros a b. unfold text_le. destruct (String.leb_total a b); auto. Qed.

(** ** Laws of the engine on exact sums *)

(** Adding lots of one size is exact, in any order. *)
Class ExactSum `{!SqlEngine} : Prop := {
  sql_sum_exact : ∀ (g : Z) (zs : list Z),
    lot_exponent g → zsum (zabs id <$> zs) < 2 ^ prec →
    sql_sum (grid g <$> zs) = grid g (zsum zs);
}.

Lemma fold_dadd_grid g zs a :
  lot_exponent g → Z.abs a + zsum (zabs id <$> zs) < 2 ^ prec →
  fold_left dadd (grid g <$> zs) (grid g a) = grid g (a + zsum zs).
Proof.
  intros Hg. revert a. induction zs as [|z zs IH]; intros a Hb; cbn in *.
  { by rewrite Z.add_0_r. }
  pose proof (zsum_zabs_nonneg id zs) as Hnn. unfold zsum, zabs in *. cbn in *.
  rewrite dadd_grid; try done; try (unfold lots; lia).
  rewrite IH by lia. f_equal. lia.
Qed.

Lemma table_order_exact : @ExactSum table_order.
Proof.
  split. intros g zs Hg Hb. change (sql_sum (grid g <$> zs)) with (fold_left dadd (grid g <$> zs) dzero).
  change dzero with (grid g 0). rewrite fold_dadd_grid by (done || lia). done.
Qed.
