(* ===== verification/Trades.v ===== *)
(** * The trades table

    [database::sqlite::Trades] (database/sqlite/trades.cpp): the table, its
    statements and the decoding of their rows. *)

From S2P Require Import Prelude Double Messages Statement Sql.

Section trades.
Context `{!SqlEngine}.

(** ** Table *)

Record TradeRow : Type := {
  tr_user : string;
  tr_strategy_id : Z;
  tr_account : string;
  tr_exchange : string;
  tr_symbol : string;
  tr_side : string;
  tr_quantity : double;
  tr_price : double;
  tr_exchange_time_utc : Z;
  tr_external_account : string;
  tr_external_order_id : string;
  tr_external_trade_id : string;
  tr_reason : string;
  tr_type : Type_;
}.

(** [PRIMARY KEY (user, strategy_id, account, exchange, symbol,
    exchange_time_utc, external_trade_id, type)]. *)
Definition trade_key (r : TradeRow) : string * Z * string * string * string * Z * string * Type_ :=
  (tr_user r, tr_strategy_id r, tr_account r, tr_exchange r, tr_symbol r,
   tr_exchange_time_utc r, tr_external_trade_id r, tr_type r).

Definition trades_ddl : string :=
  "CREATE TABLE IF NOT EXISTS trades (" +:+
  "  user TEXT, " +:+
  "  strategy_id INTEGER, " +:+
  "  account TEXT NOT NULL, " +:+
  "  exchange TEXT NOT NULL, " +:+
  "  symbol TEXT NOT NULL, " +:+
  "  side TEXT NOT NULL, " +:+
  "  quantity REAL NOT NULL, " +:+
  "  price REAL NOT NULL, " +:+
  "  exchange_time_utc INTEGER NOT NULL, " +:+
  "  external_account TEXT, " +:+
  "  external_order_id TEXT, " +:+
  "  external_trade_id TEXT NOT NULL, " +:+
  "  reason TEXT NOT NULL, " +:+
  "  type TEXT NOT NULL, " +:+
  "  PRIMARY KEY (" +:+
  "    user, " +:+
  "    strategy_id, " +:+
  "    account, " +:+
  "    exchange, " +:+
  "    symbol, " +:+
  "    exchange_time_utc, " +:+
  "    external_trade_id, " +:+
  "    type " +:+
  "  )" +:+
  ")".

Definition trades_indices : list (string * bool) :=
  [("user", false); ("strategy_id", false); ("account", false); ("exchange", false);
   ("symbol", false); ("side", false); ("exchange_time_utc", true); ("type", false)].

(** [Trades::create] on the table the file has, if any; [run] is what the library
    yields for a text. *)
Definition Trades_create (run : string → execution) (existing : option (list TradeRow))
    : outcome (list TradeRow) :=
  let? _ := exec (run trades_ddl) in
  let? _ := outcome_map (create_index run "trades") trades_indices in
  Ret (default [] existing).

(** ** Insertion *)

Definition trade_row (item : db_Trade) : TradeRow := {|
  tr_user := dbt_user item;
  tr_strategy_id := dbt_strategy_id item;
  tr_account := dbt_account item;
  tr_exchange := dbt_exchange item;
  tr_symbol := dbt_symbol item;
  tr_side := Side_name (dbt_side item);
  tr_quantity := real_literal (dbt_quantity item);
  tr_price := real_literal (dbt_price item);
  tr_exchange_time_utc := dbt_exchange_time_utc item;
  tr_external_account := dbt_external_account item;
  tr_external_order_id := dbt_external_order_id item;
  tr_external_trade_id := dbt_external_trade_id item;
  tr_reason := EmptyString;
  tr_type := EXCHANGE;
|}.

Definition trade_plain (item : db_Trade) : bool :=
  all_plain [dbt_user item; dbt_account item; dbt_exchange item; dbt_symbol item;
             dbt_external_account item; dbt_external_order_id item; dbt_external_trade_id item].

(** One iteration of [Trades::insert(connection, trades)]. *)
Definition insert_trade (item : db_Trade) : act (list TradeRow) () :=
  if negb (trade_plain item) then undef
  else if all_finite [dbt_quantity item; dbt_price item]
  then modify (insert_or_replace trade_key (trade_row item))
  else throw RuntimeError.

Definition Trades_insert_trades (trades : list db_Trade) : act (list TradeRow) () :=
  for_each insert_trade trades.

Definition correction_row (now : Z) (item : db_Correction) : TradeRow := {|
  tr_user := dbc_user item;
  tr_strategy_id := dbc_strategy_id item;
  tr_account := dbc_account item;
  tr_exchange := dbc_exchange item;
  tr_symbol := dbc_symbol item;
  tr_side := Side_name (dbc_side item);
  tr_quantity := real_literal (dbc_quantity item);
  tr_price := real_literal (dbc_price item);
  tr_exchange_time_utc :=
    if dbc_exchange_time_utc item =? 0 then now else dbc_exchange_time_utc item;
  tr_external_account := EmptyString;
  tr_external_order_id := EmptyString;
  tr_external_trade_id := EmptyString;
  tr_reason := dbc_reason item;
  tr_type := MANUAL;
|}.

Definition correction_plain (item : db_Correction) : bool :=
  all_plain [dbc_user item; dbc_account item; dbc_exchange item; dbc_symbol item; dbc_reason item].

(** One iteration of [Trades::insert(connection, corrections)]. *)
Definition insert_correction (now : Z) (item : db_Correction) : act (list TradeRow) () :=
  if negb (correction_plain item) then undef
  else if all_finite [dbc_quantity item; dbc_price item]
  then modify (insert_or_replace trade_key (correction_row now item))
  else throw RuntimeError.

(** [now] is read once, before the loop. *)
Definition Trades_insert_corrections (now : Z) (corrections : list db_Correction) : act (list TradeRow) () :=
  for_each (insert_correction now) corrections.

(** [Trades::compress]: not implemented in the source. *)
Definition Trades_compress (_ : Z) : act (list TradeRow) () := ret ().

(** ** Accounts *)

(** [SELECT DISTINCT(account), MIN(exchange_time_utc), MAX(exchange_time_utc),
    COUNT(external_trade_id) FROM trades GROUP BY account ORDER BY account]. *)
Definition select_accounts_rows (t : list TradeRow) : list row :=
  (λ '(account, rows),
     [SQL_TEXT account;
      SQL_INTEGER (min_of (tr_exchange_time_utc <$> rows));
      SQL_INTEGER (max_of (tr_exchange_time_utc <$> rows));
      SQL_INTEGER (Z.of_nat (length rows))])
  <$> merge_sort (λ a b, text_le a.1 b.1) (scan (group_by tr_account t)).

Definition decode_account (r : row) : outcome db_Account :=
  let? name := get_string r 0 in
  let? exchange_time_utc_min := get_int64 r 1 in
  let? exchange_time_utc_max := get_int64 r 2 in
  let? trade_count := get_uint64 r 3 in
  Ret {| dba_name := name;
         dba_exchange_time_utc_min := exchange_time_utc_min;
         dba_exchange_time_utc_max := exchange_time_utc_max;
         dba_trade_count := trade_count |}.

Definition Trades_select_accounts (t : list TradeRow) : outcome (list db_Account) :=
  query (yields (select_accounts_rows t)) decode_account.

(** ** Positions *)

(** A row of the sub-queries [t1] and [t2]. *)
Record Side_total (K : Type) : Type := {
  tot_key : K;
  tot_quantity : double;
  tot_exchange_time_utc : Z;
}.
Arguments tot_key {K} _.
Arguments tot_quantity {K} _.
Arguments tot_exchange_time_utc {K} _.

(** [SELECT key, SUM(quantity), MAX(exchange_time_utc) FROM trades
    WHERE side = ... GROUP BY key]. *)
Definition side_totals {K} `{EqDecision K} (key : TradeRow → K) (side : string) (t : list TradeRow)
    : list (Side_total K) :=
  (λ '(k, rows), {| tot_key := k;
                    tot_quantity := sql_sum (tr_quantity <$> rows);
                    tot_exchange_time_utc := max_of (tr_exchange_time_utc <$> rows) |})
  <$> group_by key (scan (filter (λ r, tr_side r = side) t)).

Definition coalesce_quantity {K} (o : option (Side_total K)) : double :=
  match o with Some x => tot_quantity x | None => dzero end.
Definition coalesce_time {K} (o : option (Side_total K)) : Z :=
  match o with Some x => tot_exchange_time_utc x | None => 0 end.

(** The outer query: [SUM] without [GROUP BY], so one row over the whole join;
    the other columns come from one row of the join, and are NULL when the join
    is empty. [columns] renders the key columns of [t1]. *)
Definition outer_aggregate {K} `{EqDecision K} (columns : option K → row * row)
    (t1 t2 : list (Side_total K)) : row :=
  let joined := scan (full_outer_join tot_key tot_key t1 t2) in
  let bare := pick_bare joined in
  let '(before, after) := columns (bare ≫= λ j, tot_key <$> j.1) in
  let sum (f : option (Side_total K) * option (Side_total K) → double) :=
    match joined with
    | [] => SQL_NULL
    | _ => SQL_FLOAT (sql_sum (f <$> joined))
    end in
  before ++ after ++
  [sum (λ j, coalesce_quantity j.1);
   sum (λ j, coalesce_quantity j.2);
   SQL_INTEGER (match bare with
                | Some j => Z.max (coalesce_time j.1) (coalesce_time j.2)
                | None => 0
                end)].

Definition text_or_null (o : option string) : sql_value :=
  match o with Some s => SQL_TEXT s | None => SQL_NULL end.

Definition user_key (r : TradeRow) : string * string * string :=
  (tr_user r, tr_exchange r, tr_symbol r).
Definition strategy_key (r : TradeRow) : Z * string * string :=
  (tr_strategy_id r, tr_exchange r, tr_symbol r).
Definition account_key (r : TradeRow) : string * string * string :=
  (tr_account r, tr_exchange r, tr_symbol r).

(** [t1.user, 0 AS strategy_id, '' AS account, t1.exchange, t1.symbol, ...]. *)
Definition select_positions_by_user (t : list TradeRow) : list row :=
  [outer_aggregate (λ o, ([text_or_null ((λ k, k.1.1) <$> o); SQL_INTEGER 0; SQL_TEXT EmptyString],
                          [text_or_null ((λ k, k.1.2) <$> o); text_or_null ((λ k, k.2) <$> o)]))
     (side_totals user_key "BUY" t) (side_totals user_key "SELL" t)].

(** ['' AS user, t1.strategy_id, '' AS account, ...], over rows with a strategy. *)
Definition select_positions_by_strategy (t : list TradeRow) : list row :=
  let t' := filter (λ r, 0 < tr_strategy_id r) t in
  [outer_aggregate (λ o, ([SQL_TEXT EmptyString;
                           match o with Some k => SQL_INTEGER k.1.1 | None => SQL_NULL end;
                           SQL_TEXT EmptyString],
                          [text_or_null ((λ k, k.1.2) <$> o); text_or_null ((λ k, k.2) <$> o)]))
     (side_totals strategy_key "BUY" t') (side_totals strategy_key "SELL" t')].

(** ['' AS user, 0 AS strategy_id, t1.account, ...]. *)
Definition select_positions_by_account (t : list TradeRow) : list row :=
  [outer_aggregate (λ o, ([SQL_TEXT EmptyString; SQL_INTEGER 0; text_or_null ((λ k, k.1.1) <$> o)],
                          [text_or_null ((λ k, k.1.2) <$> o); text_or_null ((λ k, k.2) <$> o)]))
     (side_totals account_key "BUY" t) (side_totals account_key "SELL" t)].

Definition decode_position (r : row) : outcome db_Position :=
  let? user := get_string r 0 in
  let? strategy_id := get_uint32 r 1 in
  let? account := get_string r 2 in
  let? exchange := get_string r 3 in
  let? symbol := get_string r 4 in
  let? long_quantity := get_double r 5 in
  let? short_quantity := get_double r 6 in
  let? exchange_time_utc := get_int64 r 7 in
  Ret {| dbp_user := user;
         dbp_strategy_id := strategy_id;
         dbp_account := account;
         dbp_exchange := exchange;
         dbp_symbol := symbol;
         dbp_long_quantity := long_quantity;
         dbp_short_quantity := short_quantity;
         dbp_exchange_time_utc := exchange_time_utc |}.

Definition Trades_select_positions (t : list TradeRow) : outcome (list db_Position) :=
  let dispatch rows := query (yields rows) decode_position in
  let? by_user := dispatch (select_positions_by_user t) in
  let? by_strategy := dispatch (select_positions_by_strategy t) in
  let? by_account := dispatch (select_positions_by_account t) in
  Ret (by_user ++ by_strategy ++ by_account).

(** ** Trades *)

(** [WHERE account = ... AND exchange_time_utc >= ...], each condition only when
    given. *)
Definition trade_matches (account : string) (start_time : Z) (r : TradeRow) : Prop :=
  (account = EmptyString ∨ tr_account r = account)
  ∧ (start_time = 0 ∨ start_time ≤ tr_exchange_time_utc r).
#[global] Instance trade_matches_dec account start_time r : Decision (trade_matches account start_time r).
Proof. unfold trade_matches. apply _. Defined.

(** [ORDER BY account, exchange_time_utc]. *)
Definition trade_order (a b : TradeRow) : Prop :=
  if decide (tr_account a = tr_account b)
  then tr_exchange_time_utc a ≤ tr_exchange_time_utc b
  else text_le (tr_account a) (tr_account b).
#[global] Instance trade_order_dec a b : Decision (trade_order a b).
Proof. unfold trade_order. case_decide; apply _. Defined.

Definition select_trades_rows (account : string) (start_time : Z) (t : list TradeRow) : list row :=
  (λ r, [SQL_TEXT (tr_user r); SQL_INTEGER (tr_strategy_id r); SQL_TEXT (tr_account r);
         SQL_TEXT (tr_exchange r); SQL_TEXT (tr_symbol r); SQL_TEXT (tr_side r);
         SQL_FLOAT (tr_quantity r); SQL_FLOAT (tr_price r);
         SQL_INTEGER (tr_exchange_time_utc r); SQL_TEXT (tr_external_account r);
         SQL_TEXT (tr_external_order_id r); SQL_TEXT (tr_external_trade_id r)])
  <$> merge_sort trade_order (scan (filter (trade_matches account start_time) t)).

Definition decode_trade (r : row) : outcome db_Trade :=
  let? user := get_string r 0 in
  let? strategy_id := get_uint32 r 1 in
  let? account := get_string r 2 in
  let? exchange := get_string r 3 in
  let? symbol := get_string r 4 in
  let? side_text := get_string r 5 in
  let? quantity := get_double r 6 in
  let? price := get_double r 7 in
  let? exchange_time_utc := get_int64 r 8 in
  let? external_account := get_string r 9 in
  let? external_order_id := get_string r 10 in
  let? external_trade_id := get_string r 11 in
  let? side := match Side_cast side_text with Some s => Ret s | None => Throw BadOptionalAccess end in
  Ret {| dbt_user := user;
         dbt_strategy_id := strategy_id;
         dbt_account := account;
         dbt_exchange := exchange;
         dbt_symbol := symbol;
         dbt_side := side;
         dbt_quantity := quantity;
         dbt_price := price;
         dbt_exchange_time_utc := exchange_time_utc;
         dbt_external_account := external_account;
         dbt_external_order_id := external_order_id;
         dbt_external_trade_id := external_trade_id |}.

(** The account is pasted into the statement between quotes. *)
Definition Trades_select_trades (account : string) (start_time : Z) (t : list TradeRow)
    : outcome (list db_Trade) :=
  if negb (plain account) then Undef
  else query (yields (select_trades_rows account start_time t)) decode_trade.
End trades.
Arguments tot_key {K} _.
Arguments tot_quantity {K} _.
Arguments tot_exchange_time_utc {K} _.
