(* ===== verification/TradesFacts.v ===== *)
(** * Facts about the trades table

    The primary key holds whatever is inserted and however an insertion ends;
    replaying trades that are stored changes nothing; stored trades are read back
    field by field. For the position queries: what they return, on tables where
    that is the position and on tables where it is not. *)

From S2P Require Import Prelude Double Messages Statement Sql Trades.

Section trades_facts.
Context `{!SqlEngine}.
Implicit Types (t : list TradeRow).

(** ** Insertion *)

Lemma insert_trade_cases item t :
  insert_trade item t
  = if trade_plain item then
      if all_finite [dbt_quantity item; dbt_price item]
      then (Ret (), insert_or_replace trade_key (trade_row item) t)
      else (Throw RuntimeError, t)
    else (Undef, t).
Proof. unfold insert_trade. destruct (trade_plain item); cbn; [|done]. by destruct (isfinite _ && _). Qed.

Lemma for_each_invariant {S A} (P : S → Prop) (f : A → act S ()) l s :
  (∀ x s, P s → P (f x s).2) → P s → P (for_each f l s).2.
Proof.
  intros Hf. revert s. induction l as [|x l IH]; intros s Hs; cbn; [done|].
  specialize (Hf x s Hs). unfold bind. destruct (f x s) as [[] s']; cbn in *; auto.
Qed.

Lemma insert_trade_unique item t :
  unique_key trade_key t → unique_key trade_key (insert_trade item t).2.
Proof.
  intros Ht. rewrite insert_trade_cases. repeat case_match; cbn; try done.
  by apply insert_or_replace_unique.
Qed.

Lemma insert_correction_unique now item t :
  unique_key trade_key t → unique_key trade_key (insert_correction now item t).2.
Proof.
  intros Ht. unfold insert_correction. repeat case_match; cbn; try done.
  by apply insert_or_replace_unique.
Qed.

(** A trade the statement can express. *)
Definition storable (item : db_Trade) : Prop :=
  trade_plain item = true ∧ all_finite [dbt_quantity item; dbt_price item] = true.

(** What a successful insertion does to the table. *)
Definition store (rows : list TradeRow) t : list TradeRow :=
  fold_left (λ t r, insert_or_replace trade_key r t) rows t.

Lemma insert_trades_storable l t :
  Forall storable l → Trades_insert_trades l t = (Ret (), store (trade_row <$> l) t).
Proof.
  intros Hl. unfold Trades_insert_trades, store. revert t.
  induction Hl as [|x l [Hp Hf] _ IH]; intros t; cbn; [done|].
  unfold bind. rewrite insert_trade_cases, Hp, Hf. apply IH.
Qed.

(** A stored row is the last one of its key among the new rows, or an old row
    whose key is not among them. *)
Lemma elem_of_store rows t r :
  r ∈ store rows t ↔
  (r ∈ t ∧ trade_key r ∉ trade_key <$> rows)
  ∨ (∃ l1 l2, rows = l1 ++ r :: l2 ∧ trade_key r ∉ trade_key <$> l2).
Proof.
  unfold store. revert t. induction rows as [|x rows IH]; intros t; cbn.
  { split; [intros; left; split; [done|apply not_elem_of_nil]|].
    intros [[? _]|([] & l2 & ? & _)]; done. }
  rewrite IH, elem_of_insert_or_replace. split.
  - intros [[[->|[Hr Hk]] Hn]|(l1 & l2 & -> & Hn)].
    + right. by exists [], rows.
    + left. split; [done|]. by apply not_elem_of_cons.
    + right. by exists (x :: l1), l2.
  - intros [[Hr [Hk Hn]%not_elem_of_cons]|(l1 & l2 & Heq & Hn)].
    + left. auto.
    + destruct l1 as [|y l1]; simplify_eq/=; [left; auto|]. right. eauto.
Qed.

Lemma store_unique rows t : unique_key trade_key t → unique_key trade_key (store rows t).
Proof.
  unfold store. revert t. induction rows as [|x rows IH]; intros t Ht; cbn; [done|].
  by apply IH, insert_or_replace_unique.
Qed.

Lemma unique_key_NoDup t : unique_key trade_key t → NoDup t.
Proof. apply NoDup_fmap_1. Qed.

(** Storing rows again leaves the same rows. *)
Lemma store_again rows t :
  unique_key trade_key t → store rows (store rows t) ≡ₚ store rows t.
Proof.
  intros Ht. apply NoDup_Permutation.
  - by apply unique_key_NoDup, store_unique, store_unique.
  - by apply unique_key_NoDup, store_unique.
  - intros r. rewrite (elem_of_store rows (store rows t)), !(elem_of_store rows t). naive_solver.
Qed.

(** ** Reading trades back *)

(** A trade as it comes back: the doubles through SQLite's decimal reader. *)
Definition read_back (item : db_Trade) : db_Trade := {|
  dbt_user := dbt_user item;
  dbt_strategy_id := dbt_strategy_id item;
  dbt_account := dbt_account item;
  dbt_exchange := dbt_exchange item;
  dbt_symbol := dbt_symbol item;
  dbt_side := dbt_side item;
  dbt_quantity := real_literal (dbt_quantity item);
  dbt_price := real_literal (dbt_price item);
  dbt_exchange_time_utc := dbt_exchange_time_utc item;
  dbt_external_account := dbt_external_account item;
  dbt_external_order_id := dbt_external_order_id item;
  dbt_external_trade_id := dbt_external_trade_id item;
|}.

Definition uint32 (z : Z) : Prop := 0 ≤ z ≤ uint32_max.

(** The row [select_trades_rows] renders for a table row. *)
Definition render_trade (r : TradeRow) : row :=
  [SQL_TEXT (tr_user r); SQL_INTEGER (tr_strategy_id r); SQL_TEXT (tr_account r);
   SQL_TEXT (tr_exchange r); SQL_TEXT (tr_symbol r); SQL_TEXT (tr_side r);
   SQL_FLOAT (tr_quantity r); SQL_FLOAT (tr_price r);
   SQL_INTEGER (tr_exchange_time_utc r); SQL_TEXT (tr_external_account r);
   SQL_TEXT (tr_external_order_id r); SQL_TEXT (tr_external_trade_id r)].

Lemma uint32_in_range z : uint32 z → (z <? 0) || (uint32_max <? z) = false ∧ u32 z = z.
Proof.
  intros [H1 H2]. split.
  - apply orb_false_iff. split; apply Z.ltb_ge; lia.
  - apply u32_small. unfold uint32_max in H2. lia.
Qed.

Lemma decode_trade_row item :
  uint32 (dbt_strategy_id item) →
  decode_trade (render_trade (trade_row item)) = Ret (read_back item).
Proof.
  intros Hu. apply uint32_in_range in Hu as [Hr Hu]. unfold decode_trade, get_uint32.
  cbn -[u32]. rewrite Hr. cbn -[u32]. rewrite Hu, Side_cast_name. done.
Qed.

Lemma decode_trade_rows l :
  Forall (λ item, uint32 (dbt_strategy_id item)) l →
  outcome_map decode_trade (render_trade <$> (trade_row <$> l)) = Ret (read_back <$> l).
Proof.
  induction 1 as [|x l Hx _ IH]; cbn [fmap list_fmap outcome_map]; [done|].
  rewrite decode_trade_row by done. cbn [outcome_bind]. fold (fmap (M:=list) trade_row l).
  cbn in IH. rewrite IH. done.
Qed.

Lemma store_fresh rows t :
  NoDup (trade_key <$> rows) → (∀ k, k ∈ trade_key <$> rows → k ∉ trade_key <$> t) →
  store rows t = t ++ rows.
Proof.
  unfold store. revert t. induction rows as [|x rows IH]; intros t Hnd Hd; cbn in *.
  { by rewrite app_nil_r. }
  apply NoDup_cons in Hnd as [Hx Hnd].
  assert (insert_or_replace trade_key x t = t ++ [x]) as ->.
  { unfold insert_or_replace. f_equal. assert (trade_key x ∉ trade_key <$> t) as Hxt by (apply Hd; left).
    apply filter_Forall, Forall_forall. intros r Hr Heq. apply Hxt. rewrite <- Heq.
    by apply list_elem_of_fmap_2. }
  rewrite IH, <- app_assoc; [done..|]. intros k Hk. rewrite fmap_app, not_elem_of_app. cbn.
  split; [apply Hd; by right|]. rewrite list_elem_of_singleton. intros ->. done.
Qed.

#[global] Instance trade_order_total : Total trade_order.
Proof.
  intros a b. unfold trade_order. destruct (decide (tr_account a = tr_account b)) as [Heq|Hne].
  - rewrite decide_True by done. lia.
  - rewrite decide_False by done. apply text_le_total.
Qed.

(** Whether a trade passes the conditions of the query. *)
Definition wanted (account : string) (start_time : Z) (item : db_Trade) : Prop :=
  (account = EmptyString ∨ dbt_account item = account)
  ∧ (start_time = 0 ∨ start_time ≤ dbt_exchange_time_utc item).
#[global] Instance wanted_dec account start_time item : Decision (wanted account start_time item).
Proof. unfold wanted. apply _. Defined.

Lemma filter_trade_rows account start_time (l : list db_Trade) :
  filter (trade_matches account start_time) (trade_row <$> l)
  = trade_row <$> filter (wanted account start_time) l.
Proof.
  induction l as [|x l IH]; [done|]. rewrite fmap_cons, !filter_cons, IH.
  change (trade_matches account start_time (trade_row x)) with (wanted account start_time x).
  by repeat case_decide.
Qed.

(** Reading a table of trades: every wanted trade once, ordered. *)
Lemma select_trades_table account start_time l t :
  plain account = true → Forall (λ item, uint32 (dbt_strategy_id item)) l →
  t ≡ₚ trade_row <$> l →
  ∃ l', Trades_select_trades account start_time t = Ret (read_back <$> l')
        ∧ l' ≡ₚ filter (wanted account start_time) l
        ∧ Sorted trade_order (trade_row <$> l').
Proof.
  intros Hp Hu Ht. unfold Trades_select_trades. rewrite Hp.
  cbn [negb]. rewrite query_yields. unfold select_trades_rows. fold render_trade.
  set (sorted := merge_sort trade_order _).
  assert (Hperm : sorted ≡ₚ trade_row <$> filter (wanted account start_time) l).
  { unfold sorted. rewrite merge_sort_Permutation, scan_perm, Ht. by rewrite filter_trade_rows. }
  apply Permutation_map_inv in Hperm as (l' & Heq & Hl'). change (map trade_row l') with (trade_row <$> l') in Heq.
  exists l'. rewrite Heq. split_and!.
  - apply decode_trade_rows. rewrite <- Hl'. by apply Forall_filter_weaken.
  - by symmetry.
  - rewrite <- Heq. apply Sorted_merge_sort, _.
Qed.

(** ** Position queries *)

Definition of_side (side : string) t : list TradeRow := filter (λ r, tr_side r = side) t.

(** The totals of one side when all its rows have one key. *)
Lemma side_totals_single {K} `{EqDecision K} (key : TradeRow → K) k side t :
  Forall (λ r, key r = k) t →
  side_totals key side t
  = match of_side side t with
    | [] => []
    | _ => [{| tot_key := k;
               tot_quantity := sql_sum (tr_quantity <$> scan (of_side side t));
               tot_exchange_time_utc := max_of (tr_exchange_time_utc <$> of_side side t) |}]
    end.
Proof.
  intros Ht. unfold side_totals. fold (of_side side t).
  destruct (of_side side t) as [|r l] eqn:Hs.
  { assert (scan ([] : list TradeRow) = []) as -> by apply Permutation_nil_r, scan_perm. done. }
  rewrite <- Hs. rewrite (group_by_single key k).
  - cbn. do 2 f_equal. by rewrite (scan_perm (of_side side t)).
  - intros Hn. pose proof (scan_perm (of_side side t)) as Hp. rewrite Hn, Hs in Hp.
    by apply Permutation_nil_l in Hp.
  - rewrite scan_perm. unfold of_side. by apply Forall_filter_weaken.
Qed.

Context `{!ExactSum}.

(** Rows whose quantity is a number of lots. *)
Definition in_lots (g : Z) (q : TradeRow → Z) t : Prop := Forall (λ r, tr_quantity r = grid g (q r)) t.

Lemma sql_sum_lots g (q : TradeRow → Z) l :
  lot_exponent g → in_lots g q l → zsum (zabs q <$> l) < 2 ^ prec →
  sql_sum (tr_quantity <$> l) = grid g (zsum (q <$> l)).
Proof.
  intros Hg Hl Hb.
  assert (tr_quantity <$> l = grid g <$> (q <$> l)) as ->.
  { rewrite <- list_fmap_compose. by apply Forall_fmap_ext_1. }
  apply sql_sum_exact; [done|]. by rewrite <- list_fmap_compose.
Qed.

(** The lots of the groups of one side. *)
Definition side_lots {K} `{EqDecision K} (key : TradeRow → K) (side : string) (q : TradeRow → Z) t
    : list Z :=
  (λ l, zsum (q <$> l)) <$> (group_by key (scan (of_side side t))).*2.

Lemma side_groups_concat {K} `{EqDecision K} (key : TradeRow → K) side t :
  concat (group_by key (scan (of_side side t))).*2 ≡ₚ of_side side t.
Proof.
  rewrite <- (scan_perm (of_side side t)) at 2.
  rewrite <- (group_by_concat key (scan (of_side side t))) at 2.
  apply reflexive_eq. induction (group_by key _) as [|x l IH]; cbn; [done|]. by rewrite IH.
Qed.

Lemma side_totals_lots {K} `{EqDecision K} (key : TradeRow → K) side g q t :
  lot_exponent g → in_lots g q t → zsum (zabs q <$> t) < 2 ^ prec →
  tot_quantity <$> side_totals key side t = grid g <$> side_lots key side q t.
Proof.
  intros Hg Hq Hb. unfold side_totals, side_lots. fold (of_side side t).
  pose proof (side_groups_concat key side t) as Hc.
  assert (Hb' : zsum (zabs q <$> of_side side t) < 2 ^ prec)
    by (eapply Z.le_lt_trans; [apply zsum_zabs_filter|done]).
  rewrite <- !list_fmap_compose. apply list_fmap_ext. intros i [k rows] Hi. cbn.
  assert (rows ∈ (group_by key (scan (of_side side t))).*2) as Hin.
  { apply list_elem_of_fmap. exists (k, rows). split; [done|]. by eapply list_elem_of_lookup_2. }
  apply sql_sum_lots; [done| |].
  - apply list_elem_of_lookup_2, elem_of_group_by in Hi as [-> _].
    apply Forall_filter_weaken. rewrite scan_perm. by apply Forall_filter_weaken.
  - eapply Z.le_lt_trans; [by apply zsum_zabs_elem|]. by rewrite Hc.
Qed.

Lemma side_lots_sum {K} `{EqDecision K} (key : TradeRow → K) side q t :
  zsum (side_lots key side q t) = zsum (q <$> of_side side t)
  ∧ zsum (zabs id <$> side_lots key side q t) ≤ zsum (zabs q <$> of_side side t).
Proof.
  unfold side_lots. pose proof (side_groups_concat key side t) as Hc. split.
  - by rewrite zsum_concat, Hc.
  - rewrite <- list_fmap_compose. etrans; [apply zsum_zabs_concat|]. by rewrite Hc.
Qed.

Lemma side_totals_keys {K} `{EqDecision K} (key : TradeRow → K) side t :
  NoDup (tot_key <$> side_totals key side t).
Proof.
  unfold side_totals. rewrite <- list_fmap_compose.
  rewrite (list_fmap_ext _ fst) by (by intros i [] _).
  rewrite group_by_keys. apply NoDup_remove_dups.
Qed.

(** [COALESCE(quantity, 0.0)] over the join: the same lots, and zeros. *)
Lemma coalesce_lots {K J} (pr : J → option (Side_total K)) g (js : list J) zs :
  tot_quantity <$> omap pr js = grid g <$> zs →
  ∃ zs', (λ j, coalesce_quantity (pr j)) <$> js = grid g <$> zs'
         ∧ zsum zs' = zsum zs ∧ zsum (zabs id <$> zs') = zsum (zabs id <$> zs).
Proof.
  revert zs. induction js as [|j js IH]; intros zs Hzs; cbn in Hzs.
  { destruct zs; [|done]. by exists []. }
  destruct (pr j) as [x|] eqn:Hj; cbn in Hzs.
  - destruct zs as [|z zs]; [done|]. injection Hzs as Hx Hzs.
    destruct (IH zs Hzs) as (zs' & Hm & H1 & H2). exists (z :: zs').
    rewrite !fmap_cons, !zsum_cons, Hm, H1, H2. rewrite Hj. cbn [coalesce_quantity]. by rewrite Hx.
  - destruct (IH zs Hzs) as (zs' & Hm & H1 & H2). exists (0 :: zs').
    rewrite !fmap_cons, !zsum_cons, Hm, H1, H2. by rewrite Hj.
Qed.

(** One sum of the outer query. *)
Lemma outer_sum {K J} (pr : J → option (Side_total K)) g (js : list J) (tt : list (Side_total K)) zs :
  lot_exponent g → omap pr js ≡ₚ tt → tot_quantity <$> tt = grid g <$> zs →
  zsum (zabs id <$> zs) < 2 ^ prec →
  sql_sum ((λ j, coalesce_quantity (pr j)) <$> js) = grid g (zsum zs).
Proof.
  intros Hg Hp Ht Hb.
  assert (Hm : tot_quantity <$> omap pr js ≡ₚ grid g <$> zs) by by rewrite Hp, Ht.
  apply Permutation_map_inv in Hm as (zs' & Hm & Hperm).
  destruct (coalesce_lots pr g js zs' Hm) as (zs'' & -> & Hs & Ha).
  rewrite sql_sum_exact; [|done|].
  - by rewrite Hs, Hperm.
  - by rewrite Ha, <- Hperm.
Qed.

(** The row of the outer query: the totals of all groups, and the other columns
    of some row of the join. *)
Lemma outer_aggregate_totals {K} `{EqDecision K} (columns : option K → row * row) g
    (t1 t2 : list (Side_total K)) (zs1 zs2 : list Z) :
  lot_exponent g → NoDup (tot_key <$> t1) → NoDup (tot_key <$> t2) →
  tot_quantity <$> t1 = grid g <$> zs1 → tot_quantity <$> t2 = grid g <$> zs2 →
  zsum (zabs id <$> zs1) < 2 ^ prec → zsum (zabs id <$> zs2) < 2 ^ prec →
  full_outer_join tot_key tot_key t1 t2 ≠ [] →
  ∃ a b, (a, b) ∈ full_outer_join tot_key tot_key t1 t2
         ∧ outer_aggregate columns t1 t2
           = (columns (tot_key <$> a)).1 ++ (columns (tot_key <$> a)).2
             ++ [SQL_FLOAT (grid g (zsum zs1)); SQL_FLOAT (grid g (zsum zs2));
                 SQL_INTEGER (Z.max (coalesce_time a) (coalesce_time b))].
Proof.
  intros Hg Hk1 Hk2 Hq1 Hq2 Hb1 Hb2 Hne. unfold outer_aggregate.
  set (js := full_outer_join tot_key tot_key t1 t2) in *.
  assert (Hs : scan js ≠ []).
  { intros Hs. apply Hne, Permutation_nil_r. by rewrite <- Hs, scan_perm. }
  destruct (pick_bare_some (scan js) Hs) as [[a b] Hbare].
  exists a, b. split.
  { rewrite <- (scan_perm js). by apply pick_bare_elem. }
  rewrite Hbare. cbn. destruct (columns (tot_key <$> a)) as [before after]. cbn.
  rewrite <- (outer_sum fst g (scan js) t1 zs1), <- (outer_sum snd g (scan js) t2 zs2); try done.
  - by destruct (scan js).
  - rewrite (scan_perm js). by apply full_outer_join_right.
  - rewrite (scan_perm js). by apply reflexive_eq, full_outer_join_left.
Qed.

(** When the join is empty the sums are NULL. *)
Lemma outer_aggregate_nil {K} `{EqDecision K} (columns : option K → row * row) :
  outer_aggregate columns [] []
  = (columns None).1 ++ (columns None).2 ++ [SQL_NULL; SQL_NULL; SQL_INTEGER 0].
Proof.
  unfold outer_aggregate. cbn.
  assert (scan ([] : list (option (Side_total K) * option (Side_total K))) = []) as ->
    by apply Permutation_nil_r, scan_perm.
  destruct (pick_bare []) as [j|] eqn:Hj.
  - apply pick_bare_elem, elem_of_nil in Hj. done.
  - cbn. by destruct (columns None).
Qed.

Lemma side_totals_nil {K} `{EqDecision K} (key : TradeRow → K) side t :
  side_totals key side t = [] ↔ of_side side t = [].
Proof.
  unfold side_totals. fold (of_side side t). split; intros Hn.
  - apply fmap_nil_inv in Hn. pose proof (side_groups_concat key side t) as Hc.
    rewrite Hn in Hc. by apply Permutation_nil_l in Hc.
  - rewrite Hn. assert (scan ([] : list TradeRow) = []) as -> by apply Permutation_nil_r, scan_perm. done.
Qed.

(** The table has a trade with a side. *)
Definition traded t : Prop := of_side "BUY" t ≠ [] ∨ of_side "SELL" t ≠ [].

(** The lots of a side of the whole table. *)
Definition side_sum (q : TradeRow → Z) (side : string) t : Z := zsum (q <$> of_side side t).

(** What each of the three queries yields on a table in lots. *)
Lemma positions_row {K} `{EqDecision K} (key : TradeRow → K) (columns : option K → row * row) g q t :
  lot_exponent g → in_lots g q t → zsum (zabs q <$> t) < 2 ^ prec → traded t →
  ∃ a b, (a, b) ∈ full_outer_join tot_key tot_key (side_totals key "BUY" t) (side_totals key "SELL" t)
    ∧ outer_aggregate columns (side_totals key "BUY" t) (side_totals key "SELL" t)
      = (columns (tot_key <$> a)).1 ++ (columns (tot_key <$> a)).2
        ++ [SQL_FLOAT (grid g (side_sum q "BUY" t)); SQL_FLOAT (grid g (side_sum q "SELL" t));
            SQL_INTEGER (Z.max (coalesce_time a) (coalesce_time b))].
Proof.
  intros Hg Hq Hb Ht. unfold side_sum.
  destruct (side_lots_sum key "BUY" q t) as [<- Hb1]. destruct (side_lots_sum key "SELL" q t) as [<- Hb2].
  pose proof (zsum_zabs_filter q (λ r, tr_side r = "BUY") t) as Hf1.
  pose proof (zsum_zabs_filter q (λ r, tr_side r = "SELL") t) as Hf2.
  unfold of_side in *.
  apply outer_aggregate_totals; auto using side_totals_keys, side_totals_lots; [lia..|].
  intros Hj. destruct Ht as [Ht|Ht]; apply Ht, (side_totals_nil key).
  - rewrite <- (full_outer_join_left tot_key tot_key _ (side_totals key "SELL" t)), Hj;
      [done|apply side_totals_keys].
  - apply Permutation_nil_r.
    rewrite <- (full_outer_join_right tot_key tot_key (side_totals key "BUY" t)), Hj;
      [done|apply side_totals_keys].
Qed.

(** A key the join shows is the key of a BUY row. *)
Lemma join_key {K} `{EqDecision K} (key : TradeRow → K) t x b :
  (Some x, b) ∈ full_outer_join tot_key tot_key (side_totals key "BUY" t) (side_totals key "SELL" t) →
  ∃ r, r ∈ of_side "BUY" t ∧ key r = tot_key x.
Proof.
  intros Hj. assert (x ∈ side_totals key "BUY" t) as Hx.
  { rewrite <- (full_outer_join_left tot_key tot_key _ (side_totals key "SELL" t)) by apply side_totals_keys.
    apply list_elem_of_omap. by exists (Some x, b). }
  unfold side_totals in Hx. fold (of_side "BUY" t) in Hx.
  apply list_elem_of_fmap in Hx as ([k rows] & -> & Hk). apply elem_of_group_by in Hk as [_ Hk].
  apply list_elem_of_fmap in Hk as (r & -> & Hr). exists r. by rewrite (scan_perm _) in Hr.
Qed.
End trades_facts.
