(* ===== verification/TradesProps.v ===== *)
(** * What the trades table promises

    The theorems on [Trades]: what was inserted is what is read back, an insertion
    that fails keeps what came before it, the summary of accounts, and what the
    three position queries return. *)

From S2P Require Import Prelude Double Messages Statement Sql Trades TradesFacts.

Section trades_props.
Context `{!SqlEngine}.
Implicit Types (t : list TradeRow).


(** A trade whose quantity or price is not a finite number stops the batch:
    the error is thrown, what came before it is stored, what comes after is not. *)
Theorem trades_insert_partial (l1 l2 : list db_Trade) (x : db_Trade) t
    (Hl : Forall storable l1) (Hp : trade_plain x = true)
    (Hx : all_finite [dbt_quantity x; dbt_price x] = false) :
  Trades_insert_trades (l1 ++ x :: l2) t = (Throw RuntimeError, store (trade_row <$> l1) t).
Proof.
  unfold Trades_insert_trades. rewrite for_each_app. unfold bind at 1.
  fold (Trades_insert_trades l1). rewrite insert_trades_storable by done.
  cbn [for_each]. unfold bind. by rewrite insert_trade_cases, Hp, Hx.
Qed.

(** Corrections of one batch for the same user, strategy, account and
    instrument that carry no time all get the time read once at the start, and no
    trade id: the last replaces the others, and only its quantity is kept. *)
Theorem corrections_collide (now : Z) (c1 c2 : db_Correction) t
    (Hp1 : correction_plain c1 = true) (Hf1 : all_finite [dbc_quantity c1; dbc_price c1] = true)
    (Hp2 : correction_plain c2 = true) (Hf2 : all_finite [dbc_quantity c2; dbc_price c2] = true)
    (Ht1 : dbc_exchange_time_utc c1 = 0) (Ht2 : dbc_exchange_time_utc c2 = 0)
    (Hu : dbc_user c1 = dbc_user c2) (Hst : dbc_strategy_id c1 = dbc_strategy_id c2)
    (Ha : dbc_account c1 = dbc_account c2) (He : dbc_exchange c1 = dbc_exchange c2)
    (Hy : dbc_symbol c1 = dbc_symbol c2) :
  Trades_insert_corrections now [c1; c2] t = Trades_insert_corrections now [c2] t.
Proof.
  unfold Trades_insert_corrections. cbn [for_each]. unfold bind, insert_correction.
  rewrite Hp1, Hp2, Hf1, Hf2. cbn [negb modify fst snd ret].
  f_equal. apply insert_or_replace_same_key.
  unfold trade_key. cbn. by rewrite Hu, Hst, Ha, He, Hy, Ht1, Ht2.
Qed.

(** ** Accounts *)

Lemma account_rows_decode (l : list (string * list TradeRow)) :
  Forall (λ g, Z.of_nat (length g.2) < 2 ^ 64) l →
  outcome_map decode_account
    ((λ '(account, rows),
        [SQL_TEXT account; SQL_INTEGER (min_of (tr_exchange_time_utc <$> rows));
         SQL_INTEGER (max_of (tr_exchange_time_utc <$> rows));
         SQL_INTEGER (Z.of_nat (length rows))]) <$> l)
  = Ret ((λ '(account, rows),
        {| dba_name := account;
           dba_exchange_time_utc_min := min_of (tr_exchange_time_utc <$> rows);
           dba_exchange_time_utc_max := max_of (tr_exchange_time_utc <$> rows);
           dba_trade_count := Z.of_nat (length rows) |}) <$> l).
Proof.
  induction 1 as [|[account rows] l Hc _ IH]; [done|].
  rewrite !fmap_cons. cbn [outcome_map].
  unfold decode_account at 1, get_uint64. cbn -[u64]. rewrite (proj2 (Z.ltb_ge _ 0)) by lia.
  cbn -[u64]. rewrite IH. cbn -[u64]. unfold u64. rewrite wrap_small by (cbn in Hc; lia). done.
Qed.

(** The summary has one entry per account that has a row, in the order of the
    names, with the number of its rows and the times of the first and the last. *)
Theorem accounts_summary t (Hb : Z.of_nat (length t) < 2 ^ 64) :
  ∃ l, Trades_select_accounts t = Ret l
       ∧ (dba_name <$> l) ≡ₚ remove_dups (tr_account <$> t)
       ∧ Sorted text_le (dba_name <$> l)
       ∧ Forall (λ a, let rows := filter (λ r, tr_account r = dba_name a) t in
                      dba_trade_count a = Z.of_nat (length rows)
                      ∧ dba_exchange_time_utc_min a ∈ tr_exchange_time_utc <$> rows
                      ∧ dba_exchange_time_utc_max a ∈ tr_exchange_time_utc <$> rows
                      ∧ ∀ r, r ∈ rows → dba_exchange_time_utc_min a ≤ tr_exchange_time_utc r
                                        ≤ dba_exchange_time_utc_max a) l.
Proof.
  unfold Trades_select_accounts, select_accounts_rows. rewrite query_yields.
  set (l := merge_sort _ _).
  assert (Hl : l ≡ₚ group_by tr_account t) by (unfold l; by rewrite merge_sort_Permutation, scan_perm).
  assert (Hg : Forall (λ g, g.2 = filter (λ r, tr_account r = g.1) t ∧ g.2 ≠ []) l).
  { rewrite Hl. apply Forall_forall. intros [a rows] Ha. split; [|by eapply group_by_nonempty].
    by apply elem_of_group_by in Ha as [-> _]. }
  eexists. split; [apply account_rows_decode|split_and!].
  - eapply Forall_impl; [exact Hg|]. cbn. intros [a rows] [-> _]. cbn.
    pose proof (length_filter (λ r, tr_account r = a) t). lia.
  - rewrite <- list_fmap_compose, (list_fmap_ext _ fst) by (by intros i [] _).
    by rewrite Hl, group_by_keys.
  - rewrite <- list_fmap_compose, (list_fmap_ext _ fst) by (by intros i [] _).
    apply (Sorted_fmap fst (λ a b, text_le a.1 b.1)); [done|]. apply Sorted_merge_sort.
    intros a b. apply text_le_total.
  - apply Forall_fmap. eapply Forall_impl; [exact Hg|]. intros [a rows] [Hr Hn]. cbn in *. subst rows.
    split_and!; [done|apply min_of_elem|apply max_of_elem|]; try by intros ?%fmap_nil_inv.
    intros r Hr. split; [apply min_of_le|apply max_of_ge]; by apply list_elem_of_fmap_2.
Qed.

(** ** Positions *)

Context `{!ExactSum}.

(** The names a row of the account or user query shows: those of a BUY row, or
    none. *)
Definition shown (key : TradeRow → string * string * string) t (k : string * string * string) : Prop :=
  (∃ r, r ∈ of_side "BUY" t ∧ key r = k) ∨ k = (EmptyString, EmptyString, EmptyString).

Lemma account_position g q t :
  lot_exponent g → in_lots g q t → zsum (zabs q <$> t) < 2 ^ prec → traded t →
  ∃ p, query (yields (select_positions_by_account t)) decode_position = Ret [p]
       ∧ dbp_user p = EmptyString ∧ dbp_strategy_id p = 0
       ∧ shown account_key t (dbp_account p, dbp_exchange p, dbp_symbol p)
       ∧ dbp_long_quantity p = grid g (side_sum q "BUY" t)
       ∧ dbp_short_quantity p = grid g (side_sum q "SELL" t).
Proof.
  intros Hg Hq Hb Ht. unfold select_positions_by_account. rewrite query_yields.
  destruct (positions_row account_key (λ o,
    ([SQL_TEXT EmptyString; SQL_INTEGER 0; text_or_null ((λ k, k.1.1) <$> o)],
     [text_or_null ((λ k, k.1.2) <$> o); text_or_null ((λ k, k.2) <$> o)])) g q t)
    as (a & b & Hj & ->); try done.
  destruct a as [x|]; (eexists; split; [reflexivity|]); split_and!; try done.
  - left. destruct (join_key account_key t x b Hj) as (r & Hr & Hk). exists r.
    rewrite Hk. by destruct (tot_key x) as [[??]?].
  - by right.
Qed.

Lemma user_position g q t :
  lot_exponent g → in_lots g q t → zsum (zabs q <$> t) < 2 ^ prec → traded t →
  ∃ p, query (yields (select_positions_by_user t)) decode_position = Ret [p]
       ∧ dbp_account p = EmptyString ∧ dbp_strategy_id p = 0
       ∧ shown user_key t (dbp_user p, dbp_exchange p, dbp_symbol p)
       ∧ dbp_long_quantity p = grid g (side_sum q "BUY" t)
       ∧ dbp_short_quantity p = grid g (side_sum q "SELL" t).
Proof.
  intros Hg Hq Hb Ht. unfold select_positions_by_user. rewrite query_yields.
  destruct (positions_row user_key (λ o,
    ([text_or_null ((λ k, k.1.1) <$> o); SQL_INTEGER 0; SQL_TEXT EmptyString],
     [text_or_null ((λ k, k.1.2) <$> o); text_or_null ((λ k, k.2) <$> o)])) g q t)
    as (a & b & Hj & ->); try done.
  destruct a as [x|]; (eexists; split; [reflexivity|]); split_and!; try done.
  - left. destruct (join_key user_key t x b Hj) as (r & Hr & Hk). exists r.
    rewrite Hk. by destruct (tot_key x) as [[??]?].
  - by right.
Qed.

(** The strategy row names no user and no account. *)
Lemma strategy_position g q t :
  lot_exponent g → in_lots g q t → zsum (zabs q <$> t) < 2 ^ prec →
  Forall (λ r, uint32 (tr_strategy_id r)) t →
  ∃ p, query (yields (select_positions_by_strategy t)) decode_position = Ret [p]
       ∧ dbp_user p = EmptyString ∧ dbp_account p = EmptyString.
Proof.
  intros Hg Hq Hb Hu. unfold select_positions_by_strategy. rewrite query_yields.
  set (t' := filter _ t). set (columns := λ o : option (Z * string * string), _).
  destruct (decide (of_side "BUY" t' = [] ∧ of_side "SELL" t' = [])) as [[H1 H2]|Ht].
  { apply (side_totals_nil strategy_key) in H1, H2. rewrite H1, H2, outer_aggregate_nil.
    by eexists. }
  destruct (positions_row strategy_key columns g q t') as (a & b & Hj & ->).
  - done.
  - by apply Forall_filter_weaken.
  - eapply Z.le_lt_trans; [apply zsum_zabs_filter|done].
  - unfold traded. destruct (decide (of_side "BUY" t' = [])); [right|by left]. naive_solver.
  - destruct a as [x|]; [|by eexists].
    destruct (join_key strategy_key t' x b Hj) as (r & Hr & Hk).
    assert (uint32 (tot_key x).1.1) as [Hx1 Hx2]%uint32_in_range.
    { rewrite <- Hk. rewrite Forall_forall in Hu. apply Hu.
      by apply list_elem_of_filter in Hr as [_ [_ ?]%list_elem_of_filter]. }
    destruct (tot_key x) as [[sid e] y] eqn:Hkx.
    unfold decode_position, get_uint32. cbn -[u32 uint32_max] in *. rewrite Hkx.
    cbn -[u32 uint32_max]. rewrite Hx1. by eexists.
Qed.

(** C24. The position queries, on a table whose quantities are numbers of lots:
    three positions, one per query, that name at most a user, a strategy or an
    account. Their outer SUM has no GROUP BY, so the quantities are the totals of
    all users, accounts and instruments together, under the names of one of
    them. *)
Theorem positions_mixed g q t
    (Hg : lot_exponent g) (Hq : in_lots g q t) (Hb : zsum (zabs q <$> t) < 2 ^ prec)
    (Ht : traded t) (Hu : Forall (λ r, uint32 (tr_strategy_id r)) t) :
  ∃ pu ps pa, Trades_select_positions t = Ret [pu; ps; pa]
    ∧ dbp_account pu = EmptyString ∧ dbp_strategy_id pu = 0
    ∧ dbp_user ps = EmptyString ∧ dbp_account ps = EmptyString
    ∧ dbp_user pa = EmptyString ∧ dbp_strategy_id pa = 0
    ∧ shown user_key t (dbp_user pu, dbp_exchange pu, dbp_symbol pu)
    ∧ shown account_key t (dbp_account pa, dbp_exchange pa, dbp_symbol pa)
    ∧ Forall (λ p, dbp_long_quantity p = grid g (side_sum q "BUY" t)
                   ∧ dbp_short_quantity p = grid g (side_sum q "SELL" t)) [pu; pa].
Proof.
  destruct (user_position g q t) as (pu & Hpu & ?); [done..|].
  destruct (strategy_position g q t) as (ps & Hps & ?); [done..|].
  destruct (account_position g q t) as (pa & Hpa & ?); [done..|].
  exists pu, ps, pa. unfold Trades_select_positions. rewrite Hpu, Hps, Hpa. cbn [outcome_bind app].
  split_and!; try apply Forall_cons_2; try apply Forall_singleton; naive_solver.
Qed.

(** One account in one instrument, with a purchase: the position is the
    account's position, and its time that of the last trade. *)
Theorem positions_single_account g q a e y t
    (Hg : lot_exponent g) (Hq : in_lots g q t) (Hb : zsum (zabs q <$> t) < 2 ^ prec)
    (Ht : Forall (λ r, account_key r = (a, e, y)) t) (Hbuy : of_side "BUY" t ≠ []) :
  query (yields (select_positions_by_account t)) decode_position
  = Ret [{| dbp_user := EmptyString; dbp_strategy_id := 0; dbp_account := a;
            dbp_exchange := e; dbp_symbol := y;
            dbp_long_quantity := grid g (side_sum q "BUY" t);
            dbp_short_quantity := grid g (side_sum q "SELL" t);
            dbp_exchange_time_utc :=
              Z.max (max_of (tr_exchange_time_utc <$> of_side "BUY" t))
                    (max_of (tr_exchange_time_utc <$> of_side "SELL" t)) |}].
Proof.
  destruct (positions_row account_key (λ o,
    ([SQL_TEXT EmptyString; SQL_INTEGER 0; text_or_null ((λ k, k.1.1) <$> o)],
     [text_or_null ((λ k, k.1.2) <$> o); text_or_null ((λ k, k.2) <$> o)])) g q t)
    as (x & b & Hj & Hrow); try done; [by left|].
  unfold select_positions_by_account. rewrite query_yields, Hrow. clear Hrow.
  rewrite !(side_totals_single account_key (a, e, y)) in Hj by done.
  destruct (of_side "BUY" t) as [|r1 l1]; [done|]. destruct (of_side "SELL" t) as [|r2 l2];
    rewrite ?full_outer_join_match, ?full_outer_join_left_only in Hj by done;
    apply list_elem_of_singleton in Hj; injection Hj as -> ->; done.
Qed.

(** C25. Sales only: the join has no left row, the account, the exchange and the
    symbol are NULL, and the loaded position belongs to nobody. *)
Theorem positions_sales_only g q t
    (Hg : lot_exponent g) (Hq : in_lots g q t) (Hb : zsum (zabs q <$> t) < 2 ^ prec)
    (Ht : traded t) (Hbuy : of_side "BUY" t = []) (Hu : Forall (λ r, uint32 (tr_strategy_id r)) t) :
  ∃ l, Trades_select_positions t = Ret l
       ∧ Forall (λ p, dbp_user p = EmptyString ∧ dbp_account p = EmptyString) l.
Proof.
  destruct (user_position g q t) as (pu & Hpu & Hau & _ & Hku & _); [done..|].
  destruct (strategy_position g q t) as (ps & Hps & ?); [done..|].
  destruct (account_position g q t) as (pa & Hpa & Hua & _ & Hka & _); [done..|].
  exists [pu; ps; pa]. unfold Trades_select_positions. rewrite Hpu, Hps, Hpa. split; [done|].
  unfold shown in *. rewrite Hbuy in *. repeat constructor; naive_solver set_solver.
Qed.
End trades_props.

(** ** Evaluation

    Two accounts trading two instruments, in lots of one, with the engine
    [table_order]. *)

Module trades_example.
Definition trade (account symbol id : string) (side : Side) (lots time : Z) : db_Trade := {|
  dbt_user := "trader"; dbt_strategy_id := 7; dbt_account := account;
  dbt_exchange := "deribit"; dbt_symbol := symbol; dbt_side := side;
  dbt_quantity := grid 0 lots; dbt_price := grid 0 100; dbt_exchange_time_utc := time;
  dbt_external_account := EmptyString; dbt_external_order_id := "o1"; dbt_external_trade_id := id |}.

Definition btc1 : db_Trade := trade "A1" "BTC" "t1" BUY 10 1.
Definition btc2 : db_Trade := trade "A1" "BTC" "t2" SELL 3 2.
Definition eth1 : db_Trade := trade "A2" "ETH" "t3" BUY 5 3.

Definition row_of : db_Trade → TradeRow := @trade_row table_order.
Definition lots_of (r : TradeRow) : Z :=
  if bool_decide (tr_external_trade_id r = "t1") then 10
  else if bool_decide (tr_external_trade_id r = "t2") then 3 else 5.

Definition correction (lots : Z) : db_Correction := {|
  dbc_user := "trader"; dbc_strategy_id := 0; dbc_account := "A1"; dbc_exchange := "deribit";
  dbc_symbol := "BTC"; dbc_side := BUY; dbc_quantity := grid 0 lots; dbc_price := grid 0 1;
  dbc_exchange_time_utc := 0; dbc_reason := "test" |}.
End trades_example.

Section trades_witnesses.
Import trades_example.

#[local] Existing Instance table_order.
#[local] Existing Instance table_order_exact.


Lemma positions_mixed_witness :
  ∃ pu ps pa, Trades_select_positions [row_of btc1; row_of btc2; row_of eth1] = Ret [pu; ps; pa]
    ∧ dbp_long_quantity pa = grid 0 15 ∧ dbp_short_quantity pa = grid 0 3.
Proof.
  destruct (positions_mixed 0 lots_of [row_of btc1; row_of btc2; row_of eth1])
    as (pu & ps & pa & H & _ & _ & _ & _ & _ & _ & _ & _ & Hq).
  - vm_compute. split; discriminate.
  - repeat constructor.
  - vm_compute. reflexivity.
  - left. discriminate.
  - repeat constructor; vm_compute; discriminate.
  - exists pu, ps, pa. split; [exact H|]. inversion Hq as [|? ? _ Hq']. inversion Hq'. assumption.
Defined.

Lemma positions_sales_only_witness :
  ∃ l, Trades_select_positions [row_of btc2] = Ret l
       ∧ Forall (λ p, dbp_user p = EmptyString ∧ dbp_account p = EmptyString) l.
Proof.
  apply (positions_sales_only 0 lots_of [row_of btc2]).
  - vm_compute. split; discriminate.
  - repeat constructor.
  - vm_compute. reflexivity.
  - right. discriminate.
  - reflexivity.
  - repeat constructor; vm_compute; discriminate.
Defined.
End trades_witnesses.
