(* ===== verification/Funds.v ===== *)
(** * The funds table

    [database::sqlite::Funds] (database/sqlite/funds.cpp): the history of the
    balances of an account in a currency, and the query for the latest of each. *)

From S2P Require Import Prelude Double Messages Statement Sql.

Section funds.
Context `{!SqlEngine}.

(** ** Table *)

Record FundsRow : Type := {
  fr_account : string;
  fr_currency : string;
  fr_balance : double;
  fr_hold : double;
  fr_exchange_time_utc : Z;
  fr_external_account : string;
}.

(** [PRIMARY KEY (account, currency, exchange_time_utc)]. *)
Definition funds_key (r : FundsRow) : string * string * Z :=
  (fr_account r, fr_currency r, fr_exchange_time_utc r).

Definition funds_ddl : string :=
  "CREATE TABLE IF NOT EXISTS funds (" +:+
  "  account TEXT NOT NULL, " +:+
  "  currency TEXT NOT NULL, " +:+
  "  balance REAL NOT NULL, " +:+
  "  hold REAL NOT NULL, " +:+
  "  exchange_time_utc INTEGER NOT NULL, " +:+
  "  external_account TEXT, " +:+
  "  PRIMARY KEY (" +:+
  "    account, " +:+
  "    currency, " +:+
  "    exchange_time_utc " +:+
  "  )" +:+
  ")".

Definition funds_indices : list (string * bool) :=
  [("account", false); ("currency", false); ("exchange_time_utc", true)].

(** [Funds::create] on the table the file has, if any. *)
Definition Funds_create (run : string → execution) (existing : option (list FundsRow))
    : outcome (list FundsRow) :=
  let? _ := exec (run funds_ddl) in
  let? _ := outcome_map (create_index run "funds") funds_indices in
  Ret (default [] existing).

(** ** Insertion *)

Definition funds_plain (item : db_Funds) : bool :=
  all_plain [dbf_account item; dbf_currency item; dbf_external_account item].

(** [std::isnan(item.hold) ? 0.0 : item.hold]. *)
Definition stored_hold (item : db_Funds) : double :=
  if isnan (dbf_hold item) then dzero else dbf_hold item.

Definition funds_row (now : Z) (item : db_Funds) : FundsRow := {|
  fr_account := dbf_account item;
  fr_currency := dbf_currency item;
  fr_balance := real_literal (dbf_balance item);
  fr_hold := real_literal (stored_hold item);
  fr_exchange_time_utc :=
    if dbf_exchange_time_utc item =? 0 then now else dbf_exchange_time_utc item;
  fr_external_account := dbf_external_account item;
|}.

(** One iteration of [Funds::insert]. *)
Definition insert_funds (now : Z) (item : db_Funds) : act (list FundsRow) () :=
  if negb (funds_plain item) then undef
  else if all_finite [dbf_balance item; stored_hold item]
  then modify (insert_or_replace funds_key (funds_row now item))
  else throw RuntimeError.

(** [now] is read once, before the loop. *)
Definition Funds_insert (now : Z) (funds : list db_Funds) : act (list FundsRow) () :=
  for_each (insert_funds now) funds.

(** [Funds::compress]: not implemented in the source. *)
Definition Funds_compress (_ : Z) : act (list FundsRow) () := ret ().

(** ** Selection *)

(** [WHERE account = ... AND currency = ...], each condition only when given. *)
Definition funds_matches (account currency : string) (r : FundsRow) : Prop :=
  (account = EmptyString ∨ fr_account r = account)
  ∧ (currency = EmptyString ∨ fr_currency r = currency).
#[global] Instance funds_matches_dec account currency r : Decision (funds_matches account currency r).
Proof. unfold funds_matches. apply _. Defined.

Definition funds_group (r : FundsRow) : string * string := (fr_account r, fr_currency r).

(** The sub-query [t2]: the last time of each account and currency. *)
Definition latest_times (account currency : string) (t : list FundsRow) : list (string * string * Z) :=
  (λ '(k, rows), (k, max_of (fr_exchange_time_utc <$> rows)))
  <$> group_by funds_group (scan (filter (funds_matches account currency) t)).

(** [FROM funds AS t1 JOIN t2 ON ...]: a row of [t1] for every equal row of [t2]. *)
Definition latest_rows (account currency : string) (t : list FundsRow) : list FundsRow :=
  t ≫= λ r, (λ _, r) <$> filter (λ k, k = funds_key r) (latest_times account currency t).

(** [ORDER BY t1.account, t1.currency]. *)
Definition funds_order (a b : FundsRow) : Prop :=
  if decide (fr_account a = fr_account b)
  then text_le (fr_currency a) (fr_currency b)
  else text_le (fr_account a) (fr_account b).
#[global] Instance funds_order_dec a b : Decision (funds_order a b).
Proof. unfold funds_order. case_decide; apply _. Defined.

Definition render_funds (r : FundsRow) : row :=
  [SQL_TEXT (fr_account r); SQL_TEXT (fr_currency r); SQL_FLOAT (fr_balance r);
   SQL_FLOAT (fr_hold r); SQL_INTEGER (fr_exchange_time_utc r); SQL_TEXT (fr_external_account r)].

Definition decode_funds (r : row) : outcome db_Funds :=
  let? account := get_string r 0 in
  let? currency := get_string r 1 in
  let? balance := get_double r 2 in
  let? hold := get_double r 3 in
  let? exchange_time_utc := get_int64 r 4 in
  let? external_account := get_string r 5 in
  Ret {| dbf_account := account;
         dbf_currency := currency;
         dbf_balance := balance;
         dbf_hold := hold;
         dbf_exchange_time_utc := exchange_time_utc;
         dbf_external_account := external_account |}.

(** Account and currency are pasted into the statement between quotes. *)
Definition Funds_select (account currency : string) (t : list FundsRow) : outcome (list db_Funds) :=
  if negb (all_plain [account; currency]) then Undef
  else query (yields (render_funds <$>
         merge_sort funds_order (scan (latest_rows account currency t)))) decode_funds.

(** ** Lemmas *)

Implicit Types (t : list FundsRow).

Lemma insert_funds_cases now item t :
  insert_funds now item t
  = if funds_plain item then
      if all_finite [dbf_balance item; stored_hold item]
      then (Ret (), insert_or_replace funds_key (funds_row now item) t)
      else (Throw RuntimeError, t)
    else (Undef, t).
Proof. unfold insert_funds. destruct (funds_plain item); cbn; [|done]. by destruct (isfinite _ && _). Qed.

Lemma insert_funds_unique now item t :
  unique_key funds_key t → unique_key funds_key (insert_funds now item t).2.
Proof.
  intros Ht. rewrite insert_funds_cases. repeat case_match; cbn; try done.
  by apply insert_or_replace_unique.
Qed.

(** A row as the program reads it. *)
Definition read_funds (r : FundsRow) : db_Funds := {|
  dbf_account := fr_account r;
  dbf_currency := fr_currency r;
  dbf_balance := fr_balance r;
  dbf_hold := fr_hold r;
  dbf_exchange_time_utc := fr_exchange_time_utc r;
  dbf_external_account := fr_external_account r;
|}.

Lemma decode_funds_rows (l : list FundsRow) :
  outcome_map decode_funds (render_funds <$> l) = Ret (read_funds <$> l).
Proof. induction l as [|r l IH]; [done|]. rewrite !fmap_cons. cbn [outcome_map]. rewrite IH. done. Qed.

#[global] Instance funds_order_total : Total funds_order.
Proof.
  intros a b. unfold funds_order. destruct (decide (fr_account a = fr_account b)) as [Heq|Hne].
  - rewrite decide_True by done. apply text_le_total.
  - rewrite decide_False by done. apply text_le_total.
Qed.

(** [r] is the latest row of its account and currency. *)
Definition is_latest t (r : FundsRow) : Prop :=
  Forall (λ r', funds_group r' = funds_group r → fr_exchange_time_utc r' ≤ fr_exchange_time_utc r) t.
#[global] Instance is_latest_dec t r : Decision (is_latest t r).
Proof. unfold is_latest. apply _. Defined.

Lemma latest_times_NoDup account currency t : NoDup (latest_times account currency t).
Proof.
  apply (NoDup_fmap_1 fst). unfold latest_times. rewrite <- list_fmap_compose.
  rewrite (list_fmap_ext _ fst) by (by intros i [] _).
  rewrite group_by_keys. apply NoDup_remove_dups.
Qed.

Lemma elem_of_latest_times account currency t r :
  r ∈ t → (funds_key r ∈ latest_times account currency t
           ↔ funds_matches account currency r ∧ is_latest t r).
Proof.
  intros Hr. unfold latest_times. rewrite list_elem_of_fmap.
  set (m := filter (funds_matches account currency) t).
  assert (Hm : ∀ r', funds_group r' = funds_group r →
                     funds_matches account currency r' ↔ funds_matches account currency r).
  { intros r' [= H1 H2]. unfold funds_matches. by rewrite H1, H2. }
  assert (Hrow : ∀ r', r' ∈ filter (λ r0, funds_group r0 = funds_group r) (scan m)
                       ↔ r' ∈ t ∧ funds_group r' = funds_group r ∧ funds_matches account currency r').
  { intros r'. rewrite list_elem_of_filter, (scan_perm m). unfold m. rewrite list_elem_of_filter. tauto. }
  split.
  - intros ([k rows] & Heq & Hg). apply elem_of_group_by in Hg as [-> Hk].
    injection Heq as Ha Ht. fold (funds_group r) in Ha. subst k.
    assert (Hmatch : funds_matches account currency r).
    { apply list_elem_of_fmap in Hk as (r' & Heq & Hr'). rewrite (scan_perm m) in Hr'.
      apply list_elem_of_filter in Hr' as [Hr' _]. by apply (Hm r'). }
    split; [done|]. apply Forall_forall. intros r' Hr' Hg'. rewrite Ht. apply max_of_ge.
    apply list_elem_of_fmap_2, Hrow. by rewrite Hm.
  - intros [Hmatch Hl]. exists (funds_group r, filter (λ r0, funds_group r0 = funds_group r) (scan m)).
    assert (Hin : r ∈ filter (λ r0, funds_group r0 = funds_group r) (scan m)) by by apply Hrow.
    split.
    + unfold funds_key, funds_group. f_equal. apply Z.le_antisymm.
      * apply max_of_ge. by apply list_elem_of_fmap_2.
      * assert (max_of (fr_exchange_time_utc <$> filter (λ r0, funds_group r0 = funds_group r) (scan m))
                ∈ fr_exchange_time_utc <$> filter (λ r0, funds_group r0 = funds_group r) (scan m)) as Hx.
        { apply max_of_elem. intros Hn%fmap_nil_inv. rewrite Hn in Hin. by apply elem_of_nil in Hin. }
        apply list_elem_of_fmap in Hx as (r' & Hx & Hr'). unfold funds_group in Hx. rewrite Hx.
        apply Hrow in Hr' as (Ht' & Hg' & _). unfold is_latest in Hl. rewrite Forall_forall in Hl. by apply Hl.
    + apply elem_of_group_by. split; [done|]. apply list_elem_of_fmap_2.
      rewrite (scan_perm m). by apply list_elem_of_filter.
Qed.

(** The join is a filter. *)
Lemma latest_rows_filter account currency t :
  latest_rows account currency t
  = filter (λ r, funds_matches account currency r ∧ is_latest t r) t.
Proof.
  unfold latest_rows.
  assert (Hnd := latest_times_NoDup account currency t).
  assert (Hel := elem_of_latest_times account currency t).
  revert Hel. generalize (is_latest t) (is_latest_dec t). intros P HP Hel.
  set (ks := latest_times account currency t) in *. clearbody ks.
  induction t as [|r t IH]; [done|]. rewrite bind_cons, filter_cons, IH.
  2: { intros r' Hr'. apply Hel. by right. }
  specialize (Hel r (list_elem_of_here _ _)). case_decide as Hd.
  - rewrite (filter_NoDup_singleton ks) by (done || tauto). done.
  - rewrite (filter_Forall_none (λ k, k = funds_key r)); [done|].
    apply Forall_forall. intros k Hk ->. tauto.
Qed.

(** One row per account and currency is the latest. *)
Lemma latest_NoDup t (P : FundsRow → Prop) `{!∀ r, Decision (P r)} :
  unique_key funds_key t → (∀ r, P r → is_latest t r) → NoDup (funds_group <$> filter P t).
Proof.
  intros Hu HP. unfold unique_key in Hu.
  assert (Hin : ∀ r, r ∈ filter P t → r ∈ t ∧ is_latest t r).
  { intros r Hr. apply list_elem_of_filter in Hr as [Hp Hr]. auto. }
  assert (Hk : NoDup (funds_key <$> filter P t)) by by apply NoDup_fmap_filter.
  clear HP. induction (filter P t) as [|r l IH]; [constructor|].
  rewrite fmap_cons in *. apply NoDup_cons in Hk as [Hr Hk].
  apply NoDup_cons. split; [|apply IH; [|done]; intros; apply Hin; by right].
  intros Hg. apply list_elem_of_fmap in Hg as (r' & Hg & Hr'). apply Hr.
  assert (fr_exchange_time_utc r = fr_exchange_time_utc r') as Ht.
  { destruct (Hin r) as [Hrt Hl]; [by left|]. destruct (Hin r') as [Hrt' Hl']; [by right|].
    unfold is_latest in *. rewrite Forall_forall in Hl, Hl'.
    apply Z.le_antisymm; [apply Hl'|apply Hl]; congruence. }
  replace (funds_key r) with (funds_key r'); [by apply list_elem_of_fmap_2|].
  injection Hg as H1 H2. unfold funds_key. by rewrite H1, H2, Ht.
Qed.

Lemma Funds_select_plain account currency t :
  all_plain [account; currency] = true →
  ∃ l, Funds_select account currency t = Ret (read_funds <$> l)
       ∧ l ≡ₚ filter (λ r, funds_matches account currency r ∧ is_latest t r) t
       ∧ Sorted funds_order l.
Proof.
  intros Hp. unfold Funds_select. rewrite Hp. cbn [negb]. rewrite query_yields, decode_funds_rows.
  eexists. split; [done|]. split.
  - by rewrite merge_sort_Permutation, scan_perm, latest_rows_filter.
  - apply Sorted_merge_sort, _.
Qed.

(** C22. The query returns the latest entry of every account and currency that
    passes the conditions, once each, ordered by account and currency. *)
Theorem funds_select_latest (account currency : string) t
    (Hu : unique_key funds_key t) (Hp : all_plain [account; currency] = true) :
  ∃ l, Funds_select account currency t = Ret (read_funds <$> l)
       ∧ (∀ r, r ∈ l ↔ r ∈ t ∧ funds_matches account currency r ∧ is_latest t r)
       ∧ NoDup (funds_group <$> l)
       ∧ Sorted funds_order l.
Proof.
  destruct (Funds_select_plain account currency t Hp) as (l & Hs & Hl & Hsorted).
  exists l. split_and!; try done.
  - intros r. rewrite Hl, list_elem_of_filter. tauto.
  - rewrite Hl. apply latest_NoDup; [done|tauto].
Qed.

(** An update that is not older than what is stored is what the query
    returns: the balance as given, a missing hold as zero, and the time of
    insertion when the update has none. *)
Theorem funds_insert_select (now : Z) (item : db_Funds) t
    (Hu : unique_key funds_key t) (Hp : funds_plain item = true)
    (Hf : all_finite [dbf_balance item; stored_hold item] = true)
    (Ha : dbf_account item ≠ EmptyString) (Hc : dbf_currency item ≠ EmptyString)
    (Ht : is_latest t (funds_row now item)) :
  let r := Funds_insert now [item] t in
  r.1 = Ret ()
  ∧ Funds_select (dbf_account item) (dbf_currency item) r.2 = Ret [read_funds (funds_row now item)].
Proof.
  set (x := funds_row now item) in *. unfold Funds_insert. cbn [for_each]. unfold bind.
  rewrite insert_funds_cases, Hp, Hf. cbn [fst snd ret]. fold x. split; [done|].
  assert (Hpl : all_plain [dbf_account item; dbf_currency item] = true).
  { unfold funds_plain in Hp. cbn in *. destruct (plain (dbf_account item)), (plain (dbf_currency item)); done. }
  set (t' := insert_or_replace funds_key x t).
  destruct (Funds_select_plain _ _ t' Hpl) as (l & -> & Hl & _).
  assert (Hx : l ≡ₚ [x]); [|apply Permutation_singleton_r in Hx; by rewrite Hx].
  rewrite Hl. assert (Hu' : unique_key funds_key t') by by apply insert_or_replace_unique.
  apply NoDup_Permutation.
  - apply NoDup_filter. by apply (NoDup_fmap_1 funds_key).
  - apply NoDup_singleton.
  - intros r. rewrite list_elem_of_filter, list_elem_of_singleton.
    unfold t'. rewrite elem_of_insert_or_replace. split.
    + intros [[[Hm1 Hm2] Hlat] [->|[Hr Hk]]]; [done|]. exfalso. apply Hk.
      assert (Hg : funds_group r = funds_group x).
      { destruct Hm1 as [?|Hm1]; [done|]. destruct Hm2 as [?|Hm2]; [done|].
        unfold funds_group. by rewrite Hm1, Hm2. }
      unfold is_latest in *. rewrite Forall_forall in Ht, Hlat.
      assert (fr_exchange_time_utc r = fr_exchange_time_utc x) as Htime.
      { apply Z.le_antisymm; [by apply Ht|]. apply Hlat; [|done].
        apply elem_of_insert_or_replace. by left. }
      injection Hg as H1 H2. unfold funds_key. by rewrite H1, H2, Htime.
    + intros ->. split; [split|by left].
      * split; by right.
      * unfold is_latest in *. rewrite Forall_forall in *. intros r Hr Hg.
        apply elem_of_insert_or_replace in Hr as [->|[Hr _]]; [done|]. by apply Ht.
Qed.

End funds.

(** ** Evaluation *)

Module funds_example.
Definition usd (balance : double) (time : Z) : db_Funds := {|
  dbf_account := "A1"; dbf_currency := "USD"; dbf_balance := balance; dbf_hold := NaN;
  dbf_exchange_time_utc := time; dbf_external_account := EmptyString |}.
Definition stored (lots time : Z) : FundsRow := {|
  fr_account := "A1"; fr_currency := "USD"; fr_balance := grid 0 lots; fr_hold := dzero;
  fr_exchange_time_utc := time; fr_external_account := EmptyString |}.
End funds_example.

Section funds_witnesses.
Import funds_example.
#[local] Existing Instance table_order.

Lemma funds_select_latest_witness :
  ∃ l, Funds_select EmptyString "USD" [stored 1 10; stored 2 20] = Ret (read_funds <$> l)
       ∧ (∀ r, r ∈ l ↔ r ∈ [stored 1 10; stored 2 20]
                       ∧ funds_matches EmptyString "USD" r ∧ is_latest [stored 1 10; stored 2 20] r)
       ∧ NoDup (funds_group <$> l)
       ∧ Sorted funds_order l.
Proof.
  apply (funds_select_latest EmptyString "USD" [stored 1 10; stored 2 20]).
  - apply (bool_decide_unpack _). vm_compute. exact I.
  - reflexivity.
Defined.
End funds_witnesses.
