(* ===== verification/Database.v ===== *)
(** * The database

    [database::Session] (database/session.hpp) is the interface the controller
    and the control sessions are written against: [Database] is the class of its
    operations over a state [D], [DatabaseLaws] what clients may rely on.
    [sqlite::Session] (database/sqlite/session.cpp) implements it with the tables
    of Trades.v and Funds.v, and [Factory::create] (database/factory.cpp) opens
    it.

    A query hands its rows to a callback one by one; here it returns the list. An
    error on a later row has lost nothing: the callbacks of the program only add
    to objects that die with the exception. *)

From S2P Require Import Prelude Double Messages Statement Sql Trades TradesFacts Funds.

(** ** The interface *)

Class Database (D : Type) : Type := {
  db_accounts : D → outcome (list db_Account);
  db_positions : D → outcome (list db_Position);
  db_trades : string → Z → D → outcome (list db_Trade);
  db_funds : string → string → D → outcome (list db_Funds);
  db_insert_trades : list db_Trade → act D ();
  db_insert_corrections : Z → list db_Correction → act D ();
  db_insert_funds : Z → list db_Funds → act D ();
  db_compress : db_Compress → act D ();
}.

(** What an implementation promises: an invariant every operation keeps however
    it ends, that trades stored twice are stored once, and that trades and funds
    do not disturb each other. *)
Class DatabaseLaws (D : Type) `{!Database D} : Type := {
  db_ok : D → Prop;
  db_equiv : relation D;
  db_equivalence :: Equivalence db_equiv;
  db_insert_trades_ok l d : db_ok d → db_ok (db_insert_trades l d).2;
  db_insert_corrections_ok now l d : db_ok d → db_ok (db_insert_corrections now l d).2;
  db_insert_funds_ok now l d : db_ok d → db_ok (db_insert_funds now l d).2;
  db_compress_ok c d : db_ok d → db_ok (db_compress c d).2;
  db_replay l d d1 :
    db_ok d → db_insert_trades l d = (Ret (), d1) →
    ∃ d2, db_insert_trades l d1 = (Ret (), d2) ∧ db_equiv d2 d1;
  db_trades_keep_funds a c l d : db_funds a c (db_insert_trades l d).2 = db_funds a c d;
  db_funds_keep_trades now a st l d : db_trades a st (db_insert_funds now l d).2 = db_trades a st d;
}.

(** ** The SQLite session *)

Section sqlite.
Context `{Engine : !SqlEngine}.

(** The two tables behind [connection_]. *)
Record SqliteSession : Type := { ss_trades : list TradeRow; ss_funds : list FundsRow }.

Definition on_trades {A} (f : act (list TradeRow) A) : act SqliteSession A := λ d,
  let '(r, t) := f (ss_trades d) in (r, {| ss_trades := t; ss_funds := ss_funds d |}).
Definition on_funds {A} (f : act (list FundsRow) A) : act SqliteSession A := λ d,
  let '(r, t) := f (ss_funds d) in (r, {| ss_trades := ss_trades d; ss_funds := t |}).

#[global] Instance sqlite_database : Database SqliteSession := {|
  db_accounts := λ d, Trades_select_accounts (ss_trades d);
  db_positions := λ d, Trades_select_positions (ss_trades d);
  db_trades := λ account start_time d, Trades_select_trades account start_time (ss_trades d);
  db_funds := λ account currency d, Funds_select account currency (ss_funds d);
  db_insert_trades := λ trades, on_trades (Trades_insert_trades trades);
  db_insert_corrections := λ now corrections, on_trades (Trades_insert_corrections now corrections);
  db_insert_funds := λ now funds, on_funds (Funds_insert now funds);
  db_compress := λ compress, on_trades (Trades_compress (dbz_exchange_time_utc compress));
|}.

(** The library as the session sees it: the code of [sqlite3_open] with the
    tables the file has, and what the statements of [create] yield. *)
Record SqliteFile : Type := {
  sf_open : string → Z * (option (list TradeRow) * option (list FundsRow));
  sf_run : string → execution;
}.

(** [Session::Session]. *)
Definition Session_ctor (file : SqliteFile) (params : string) : outcome SqliteSession :=
  let? existing := Connection_ctor (sf_open file) params in
  let? trades := Trades_create (sf_run file) existing.1 in
  let? funds := Funds_create (sf_run file) existing.2 in
  Ret {| ss_trades := trades; ss_funds := funds |}.

(** [Factory::create]; [compare] stands for [utils::case_insensitive_compare]. *)
Definition Factory_create (compare : string → string → Z) (file : SqliteFile) (type params : string)
    : outcome SqliteSession :=
  if (compare type "sqlite" =? 0) || (compare type "sqlite3" =? 0)
  then Session_ctor file params
  else Fatal.

(** ** The session keeps its promises *)

Definition sqlite_ok (d : SqliteSession) : Prop :=
  unique_key trade_key (ss_trades d) ∧ unique_key funds_key (ss_funds d).

(** Equal up to the order of the rows. *)
Definition sqlite_equiv : relation SqliteSession := λ d d',
  ss_trades d ≡ₚ ss_trades d' ∧ ss_funds d ≡ₚ ss_funds d'.

#[global] Instance sqlite_equivalence : Equivalence sqlite_equiv.
Proof.
  split.
  - by intros d.
  - intros d d' [H1 H2]. by split; symmetry.
  - intros d d' d'' [H1 H2] [H3 H4]. by split; etrans.
Qed.

Lemma on_trades_ok {A} (f : act (list TradeRow) A) d :
  (unique_key trade_key (ss_trades d) → unique_key trade_key (f (ss_trades d)).2) →
  sqlite_ok d → sqlite_ok (on_trades f d).2.
Proof. unfold sqlite_ok, on_trades. destruct (f (ss_trades d)); cbn. naive_solver. Qed.

Lemma on_funds_ok {A} (f : act (list FundsRow) A) d :
  (unique_key funds_key (ss_funds d) → unique_key funds_key (f (ss_funds d)).2) →
  sqlite_ok d → sqlite_ok (on_funds f d).2.
Proof. unfold sqlite_ok, on_funds. destruct (f (ss_funds d)); cbn. naive_solver. Qed.

(** Only storable trades can be inserted without an error. *)
Lemma insert_trades_Ret l t t' : Trades_insert_trades l t = (Ret (), t') → Forall storable l.
Proof.
  unfold Trades_insert_trades. revert t. induction l as [|x l IH]; intros t H; [constructor|].
  cbn in H. unfold bind in H. rewrite insert_trade_cases in H.
  destruct (trade_plain x) eqn:Hp; [|done]. destruct (all_finite _) eqn:Hf; [|done].
  constructor; [done|]. by eapply IH.
Qed.

Lemma insert_trades_replay l t t1 :
  unique_key trade_key t → Trades_insert_trades l t = (Ret (), t1) →
  ∃ t2, Trades_insert_trades l t1 = (Ret (), t2) ∧ t2 ≡ₚ t1.
Proof.
  intros Ht H. pose proof (insert_trades_Ret _ _ _ H) as Hl.
  rewrite insert_trades_storable in H by done. injection H as <-.
  eexists. split; [by apply insert_trades_storable|]. by apply store_again.
Qed.

(** Trades whose text fields have no quote are stored or thrown at. *)
Lemma insert_trades_settled l :
  forallb trade_plain l = true → settled (db_insert_trades (D := SqliteSession) l).
Proof.
  intros Hl d. cbn. unfold on_trades.
  assert (Hs : settled (Trades_insert_trades l)).
  { apply settled_for_each. intros x Hx t. rewrite insert_trade_cases.
    rewrite forallb_forall in Hl. rewrite Hl by by apply list_elem_of_In. by destruct (all_finite _). }
  specialize (Hs (ss_trades d)). by destruct (Trades_insert_trades l (ss_trades d)).
Qed.

#[global] Instance sqlite_laws : DatabaseLaws SqliteSession.
Proof.
  refine {| db_ok := sqlite_ok; db_equiv := sqlite_equiv |}.
  - intros l d Hd. apply on_trades_ok; [|done]. apply for_each_invariant, insert_trade_unique.
  - intros now l d Hd. apply on_trades_ok; [|done]. apply for_each_invariant, insert_correction_unique.
  - intros now l d Hd. apply on_funds_ok; [|done]. apply for_each_invariant, insert_funds_unique.
  - intros c d Hd. by apply on_trades_ok.
  - intros l d d1 [Hd _] H. cbn in *. unfold on_trades in *.
    destruct (Trades_insert_trades l (ss_trades d)) as [r t1] eqn:Hi. simplify_eq.
    destruct (insert_trades_replay _ _ _ Hd Hi) as (t2 & Hr & Hp). cbn. rewrite Hr.
    eexists. split; [done|]. by split.
  - intros a c l d. cbn. unfold on_trades. by destruct (Trades_insert_trades _ _).
  - intros now a st l d. cbn. unfold on_funds. by destruct (Funds_insert _ _ _).
Defined.

(** ** Histories *)

(** One call of an inserting operation, whatever its outcome. *)
Inductive db_step : SqliteSession → SqliteSession → Prop :=
| step_trades l d : db_step d (db_insert_trades l d).2
| step_corrections now l d : db_step d (db_insert_corrections now l d).2
| step_funds now l d : db_step d (db_insert_funds now l d).2
| step_compress c d : db_step d (db_compress c d).2.

Lemma db_step_ok d d' : db_step d d' → sqlite_ok d → sqlite_ok d'.
Proof.
  change sqlite_ok with (db_ok (D := SqliteSession)). intros [] Hd.
  - by apply db_insert_trades_ok.
  - by apply db_insert_corrections_ok.
  - by apply db_insert_funds_ok.
  - by apply db_compress_ok.
Qed.

Lemma db_reachable_ok d d' : rtc db_step d d' → sqlite_ok d → sqlite_ok d'.
Proof. induction 1; eauto using db_step_ok. Qed.

(** The tables of a new file are empty. *)
Lemma new_file_empty (file : SqliteFile) (params : string) (d : SqliteSession) :
  (sf_open file params).2 = (None, None) → Session_ctor file params = Ret d →
  d = {| ss_trades := []; ss_funds := [] |}.
Proof.
  intros Hnew Hopen. unfold Session_ctor, Connection_ctor in Hopen.
  destruct (sf_open file params) as [result existing]. cbn in Hnew. subst existing.
  destruct (result =? SQLITE_OK); [|done]. cbn -[Trades_create Funds_create] in Hopen.
  unfold Trades_create, Funds_create in Hopen.
  repeat match type of Hopen with
  | outcome_bind (outcome_bind ?x _) _ = _ => destruct x; try done; cbn [outcome_bind] in Hopen
  | outcome_bind ?x _ = _ => destruct x; try done; cbn [outcome_bind] in Hopen
  end.
  by injection Hopen as <-.
Qed.

(** From the tables of a new file, no history of insertions, failed ones
    included, stores two trades under one primary key, nor two funds. *)
Theorem database_keys_unique (file : SqliteFile) (params : string) (d d' : SqliteSession)
    (Hnew : (sf_open file params).2 = (None, None))
    (Hopen : Session_ctor file params = Ret d) (Hsteps : rtc db_step d d') :
  unique_key trade_key (ss_trades d') ∧ unique_key funds_key (ss_funds d').
Proof.
  apply (db_reachable_ok d d' Hsteps). rewrite (new_file_empty file params d Hnew Hopen). by split; constructor.
Qed.

(** Opening: a session is returned only when the file opens and every
    statement that creates a table or an index ends without a row; otherwise the
    error is thrown. Types other than SQLite end the process. *)
Theorem factory_create_cases (compare : string → string → Z) (file : SqliteFile) (type params : string) :
  match Factory_create compare file type params with
  | Ret d => (compare type "sqlite" = 0 ∨ compare type "sqlite3" = 0)
             ∧ (sf_open file params).1 = SQLITE_OK
             ∧ d = {| ss_trades := default [] (sf_open file params).2.1;
                      ss_funds := default [] (sf_open file params).2.2 |}
             ∧ Forall (λ q, exec (sf_run file q) = Ret ())
                 ([trades_ddl; funds_ddl]
                  ++ ((λ i, create_index_query "trades" i.1 i.2) <$> trades_indices)
                  ++ ((λ i, create_index_query "funds" i.1 i.2) <$> funds_indices))
  | Throw e => e = RuntimeError
  | Fatal => compare type "sqlite" ≠ 0 ∧ compare type "sqlite3" ≠ 0
  | Undef => False
  end.
Proof.
  unfold Factory_create.
  destruct (Z.eqb_spec (compare type "sqlite") 0), (Z.eqb_spec (compare type "sqlite3") 0); cbn [orb]; try done.
  all: unfold Session_ctor, Connection_ctor; destruct (sf_open file params) as [result existing].
  all: destruct (Z.eqb_spec result SQLITE_OK); [|done]; cbn [outcome_bind].
  all: unfold Trades_create, Funds_create, trades_indices, funds_indices, create_index, outcome_map.
  all: cbn [fst snd fmap list_fmap app].
  all: repeat match goal with
       | |- context [exec (sf_run ?f ?q)] =>
           let H := fresh in
           destruct (exec_cases (sf_run f q)) as [H|H]; rewrite ?H; cbn [outcome_bind]; [|done]
       end.
  all: split_and!; auto; repeat constructor; done.
Qed.
End sqlite.

(** ** Evaluation *)

(** A file that does not exist yet. *)
Definition new_file : SqliteFile :=
  {| sf_open := λ _, (SQLITE_OK, (None, None)); sf_run := λ _, yields [] |}.
