(* ===== verification/Queries.v ===== *)
(** * The queries are total on what the program stores

    The rows the program writes have the types its decoders expect, so no query
    throws on them, whatever the history of the database. *)

From S2P Require Import Prelude Double Messages Statement Sql Trades TradesFacts Funds Database.

Section queries.
Context `{Engine : !SqlEngine}.
Implicit Types (t : list TradeRow).

(** A row as the decoders expect it: the strategy id is 32 bits wide and the side
    has a name. *)
Definition row_typed (r : TradeRow) : Prop :=
  uint32 (tr_strategy_id r) ∧ is_Some (Side_cast (tr_side r)).

Lemma insert_or_replace_typed r t :
  row_typed r → Forall row_typed t → Forall row_typed (insert_or_replace trade_key r t).
Proof.
  intros Hr Ht. apply Forall_forall. intros x [Hx|Hx]%elem_of_insert_or_replace; [by subst|].
  rewrite Forall_forall in Ht. apply Ht, Hx.
Qed.

Lemma for_each_typed {A} (P : A → Prop) (f : A → act (list TradeRow) ()) l t :
  (∀ x t, P x → Forall row_typed t → Forall row_typed (f x t).2) →
  Forall P l → Forall row_typed t → Forall row_typed (for_each f l t).2.
Proof.
  intros Hf Hl. revert t. induction Hl as [|x l Hx _ IH]; intros t Ht; cbn; [done|].
  specialize (Hf x t Hx Ht). unfold bind. destruct (f x t) as [[] t']; cbn in *; auto.
Qed.

(** One call of an operation, with strategy ids of 32 bits as the records have. *)
Inductive typed_step : SqliteSession → SqliteSession → Prop :=
| typed_trades l d : Forall (λ x, uint32 (dbt_strategy_id x)) l → typed_step d (db_insert_trades l d).2
| typed_corrections now l d :
    Forall (λ x, uint32 (dbc_strategy_id x)) l → typed_step d (db_insert_corrections now l d).2
| typed_funds now l d : typed_step d (db_insert_funds now l d).2
| typed_compress c d : typed_step d (db_compress c d).2.

Lemma typed_step_rows d d' : typed_step d d' → Forall row_typed (ss_trades d) → Forall row_typed (ss_trades d').
Proof.
  intros [l d0 Hl|now l d0 Hl|now l d0|c d0] Hd; cbn; unfold on_trades, on_funds.
  - pose proof (for_each_typed (λ x, uint32 (dbt_strategy_id x)) insert_trade l (ss_trades d0)) as H.
    unfold Trades_insert_trades.
    destruct (for_each insert_trade l (ss_trades d0)) as [r t]. cbn in *. apply H; try done.
    intros x t0 Hx Ht. rewrite insert_trade_cases. repeat case_match; try done. apply insert_or_replace_typed; [|done].
    split; [done|]. cbn. by rewrite Side_cast_name.
  - pose proof (for_each_typed (λ x, uint32 (dbc_strategy_id x)) (insert_correction now) l (ss_trades d0)) as H.
    unfold Trades_insert_corrections.
    destruct (for_each (insert_correction now) l (ss_trades d0)) as [r t]. cbn in *.
    apply H; try done.
    intros x t0 Hx Ht. unfold insert_correction. repeat case_match; try done. apply insert_or_replace_typed; [|done].
    split; [done|]. cbn. by rewrite Side_cast_name.
  - by destruct (Funds_insert now l (ss_funds d0)).
  - done.
Qed.

(** ** Decoding *)

Lemma outcome_map_total {A B} (f : A → outcome B) l :
  Forall (λ x, ∃ y, f x = Ret y) l → ∃ ys, outcome_map f l = Ret ys ∧ length ys = length l.
Proof.
  induction 1 as [|x l [y Hy] _ (ys & Hys & Hlen)]; [by exists []|]. exists (y :: ys). cbn. by rewrite Hy, Hys, Hlen.
Qed.

Lemma decode_trade_typed r : row_typed r → ∃ x, decode_trade (render_trade r) = Ret x.
Proof.
  intros [[Hr _]%uint32_in_range [s Hs]]. unfold decode_trade, get_uint32. cbn -[u32 uint32_max]. rewrite Hr.
  cbn. rewrite Hs. by eexists.
Qed.

(** The time of a row of the position queries: that of the row of the join the bare
    columns come from. *)
Definition joined_time {K} `{EqDecision K} (t1 t2 : list (Side_total K)) (z : Z) : Prop :=
  let join := full_outer_join tot_key tot_key t1 t2 in
  (join = [] ∧ z = 0) ∨ ∃ a b, (a, b) ∈ join ∧ z = Z.max (coalesce_time a) (coalesce_time b).

(** The last columns of the position queries. *)
Lemma outer_aggregate_shape {K} `{EqDecision K} (columns : option K → row * row) (t1 t2 : list (Side_total K)) :
  ∃ o v w z, outer_aggregate columns t1 t2 = (columns o).1 ++ (columns o).2 ++ [v; w; SQL_INTEGER z]
    ∧ (v = SQL_NULL ∨ ∃ x, v = SQL_FLOAT x) ∧ (w = SQL_NULL ∨ ∃ x, w = SQL_FLOAT x)
    ∧ (∀ k, o = Some k → ∃ x b, (Some x, b) ∈ full_outer_join tot_key tot_key t1 t2 ∧ tot_key x = k)
    ∧ joined_time t1 t2 z.
Proof.
  unfold outer_aggregate. set (j := full_outer_join tot_key tot_key t1 t2). set (o := pick_bare (scan j)).
  exists (o ≫= λ j, tot_key <$> j.1). eexists _, _, _. split; [by destruct (columns _)|].
  assert (Hin : ∀ x, o = Some x → x ∈ j) by (intros x Ho%pick_bare_elem; by rewrite (scan_perm j) in Ho).
  split_and!; [destruct (scan j); eauto..| |].
  - intros k Hk. apply bind_Some in Hk as ([a b] & Ho & Ha).
    apply fmap_Some in Ha as (x & Ha & ->). cbn in Ha. subst a. exists x, b. split; [|done]. by apply Hin.
  - unfold joined_time. fold j. subst o. destruct (pick_bare (scan j)) as [[a b]|] eqn:Ho; [right|left].
    + exists a, b. split; [by apply Hin|done].
    + split; [|done]. destruct (decide (scan j = [])) as [Hn|Hn].
      * apply Permutation_nil_r. rewrite <- (scan_perm j). by rewrite Hn.
      * apply pick_bare_some in Hn as [x Hx]. congruence.
Qed.

(** Each of the position queries yields a position. *)
Lemma positions_total t : Forall row_typed t →
  ∃ pu ps pa, Trades_select_positions t = Ret [pu; ps; pa]
    ∧ dbp_account pu = EmptyString ∧ (dbp_user ps = EmptyString ∧ dbp_account ps = EmptyString)
    ∧ dbp_user pa = EmptyString
    ∧ joined_time (side_totals user_key "BUY" t) (side_totals user_key "SELL" t) (dbp_exchange_time_utc pu)
    ∧ (let t' := filter (λ r, 0 < tr_strategy_id r) t in
       joined_time (side_totals strategy_key "BUY" t') (side_totals strategy_key "SELL" t') (dbp_exchange_time_utc ps))
    ∧ joined_time (side_totals account_key "BUY" t) (side_totals account_key "SELL" t) (dbp_exchange_time_utc pa).
Proof.
  intros Ht. unfold Trades_select_positions, select_positions_by_user, select_positions_by_strategy,
    select_positions_by_account. cbv zeta. rewrite !query_yields. set (t' := filter _ t).
  set (cu := λ o : option (string * string * string), ([text_or_null _; SQL_INTEGER 0; _], _)).
  destruct (outer_aggregate_shape cu (side_totals user_key "BUY" t) (side_totals user_key "SELL" t))
    as (ou & vu & wu & zu & -> & Hvu & Hwu & _ & Hzu).
  set (cs := λ o : option (Z * string * string), _).
  destruct (outer_aggregate_shape cs (side_totals strategy_key "BUY" t') (side_totals strategy_key "SELL" t'))
    as (os & vs & ws & zs & -> & Hvs & Hws & Hs & Hzs).
  set (ca := λ o : option (string * string * string), ([SQL_TEXT EmptyString; SQL_INTEGER 0; _], _)).
  destruct (outer_aggregate_shape ca (side_totals account_key "BUY" t) (side_totals account_key "SELL" t))
    as (oa & va & wa & za & -> & Hva & Hwa & _ & Hza).
  assert (Hid : ∀ k, os = Some k → uint32 k.1.1).
  { intros k (x & b & Hj & <-)%Hs. destruct (join_key strategy_key t' x b Hj) as (r & Hr & <-).
    apply list_elem_of_filter in Hr as [_ [_ Hr]%list_elem_of_filter]. rewrite Forall_forall in Ht.
    by apply Ht. }
  assert (Hsd : ∃ ps, decode_position ((cs os).1 ++ (cs os).2 ++ [vs; ws; SQL_INTEGER zs]) = Ret ps
    ∧ (dbp_user ps = EmptyString ∧ dbp_account ps = EmptyString) ∧ dbp_exchange_time_utc ps = zs).
  { destruct Hvs as [->|[? ->]], Hws as [->|[? ->]], os as [[[sid e] y]|]; try by eexists.
    all: destruct (uint32_in_range _ (Hid _ eq_refl)) as [Hr _]; cbn in Hr;
      unfold decode_position, get_uint32; cbn -[u32 uint32_max]; rewrite Hr; by eexists. }
  assert (Hud : ∃ pu, decode_position ((cu ou).1 ++ (cu ou).2 ++ [vu; wu; SQL_INTEGER zu]) = Ret pu
    ∧ dbp_account pu = EmptyString ∧ dbp_exchange_time_utc pu = zu).
  { destruct Hvu as [->|[? ->]], Hwu as [->|[? ->]], ou as [[[u e] y]|]; by eexists. }
  assert (Had : ∃ pa, decode_position ((ca oa).1 ++ (ca oa).2 ++ [va; wa; SQL_INTEGER za]) = Ret pa
    ∧ dbp_user pa = EmptyString ∧ dbp_exchange_time_utc pa = za).
  { destruct Hva as [->|[? ->]], Hwa as [->|[? ->]], oa as [[[u e] y]|]; by eexists. }
  clearbody cu cs ca. unfold row in *. destruct Hud as (pu & Hpu & Hu & <-), Hsd as (ps & Hps & Hs' & <-), Had as (pa & Hpa & Ha & <-).
  exists pu, ps, pa. cbn [outcome_map]. rewrite Hpu, Hps, Hpa. done.
Qed.

Lemma trades_total a start_time t :
  all_plain [a] = true → Forall row_typed t →
  ∃ l, Trades_select_trades a start_time t = Ret l
       ∧ length l = length (filter (trade_matches a start_time) t).
Proof.
  intros Ha Ht. unfold Trades_select_trades. cbn in Ha. rewrite andb_true_r in Ha. rewrite Ha. cbn [negb].
  rewrite query_yields. change (select_trades_rows a start_time t) with
    (render_trade <$> merge_sort trade_order (scan (filter (trade_matches a start_time) t))).
  destruct (outcome_map_total decode_trade (render_trade <$> merge_sort trade_order
    (scan (filter (trade_matches a start_time) t)))) as (l & -> & Hlen).
  - apply Forall_fmap, Forall_forall. intros r Hr. apply decode_trade_typed.
    rewrite merge_sort_Permutation, (scan_perm _) in Hr. apply list_elem_of_filter in Hr as [_ Hr].
    rewrite Forall_forall in Ht. by apply Ht.
  - exists l. split; [done|]. rewrite Hlen, length_fmap. by rewrite merge_sort_Permutation, (scan_perm _).
Qed.

Lemma accounts_total t : ∃ l, Trades_select_accounts t = Ret l.
Proof.
  unfold Trades_select_accounts. rewrite query_yields. unfold select_accounts_rows.
  destruct (outcome_map_total decode_account ((λ '(account, rows),
     [SQL_TEXT account; SQL_INTEGER (min_of (tr_exchange_time_utc <$> rows));
      SQL_INTEGER (max_of (tr_exchange_time_utc <$> rows)); SQL_INTEGER (Z.of_nat (length rows))])
     <$> merge_sort (λ a b, text_le a.1 b.1) (scan (group_by tr_account t)))) as (l & -> & _); [|by exists l].
  apply Forall_fmap, Forall_true. intros [account rows]. unfold decode_account, get_uint64. cbn -[u64].
  rewrite (proj2 (Z.ltb_ge _ 0)) by lia. by eexists.
Qed.

Lemma funds_total a currency (f : list FundsRow) :
  all_plain [a; currency] = true → ∃ l, Funds_select a currency f = Ret l.
Proof. intros Ha. unfold Funds_select. rewrite Ha. cbn [negb]. rewrite query_yields, decode_funds_rows. by eexists. Qed.

(** C23. The rows are typed: from a new file, after any history of insertions of
    records with 32 bit strategy ids, failed ones included, no query throws: the
    positions are three, naming at most one of user and account as the loading of
    positions asserts, and trades, accounts and funds are returned for any filter
    without a quote. *)
Theorem queries_typed (file : SqliteFile) (params : string) (d d' : SqliteSession)
    (Hnew : (sf_open file params).2 = (None, None)) (Hopen : Session_ctor file params = Ret d)
    (Hsteps : rtc typed_step d d') :
  (∃ l, db_positions d' = Ret l ∧ length l = 3%nat
        ∧ Forall (λ p, dbp_user p = EmptyString ∨ dbp_account p = EmptyString) l)
  ∧ (∀ a start_time, all_plain [a] = true → ∃ l, db_trades a start_time d' = Ret l
        ∧ length l = length (filter (trade_matches a start_time) (ss_trades d')))
  ∧ (∃ l, db_accounts d' = Ret l)
  ∧ (∀ a currency, all_plain [a; currency] = true → ∃ l, db_funds a currency d' = Ret l).
Proof.
  assert (Ht : Forall row_typed (ss_trades d')).
  { assert (H0 : Forall row_typed (ss_trades d)) by (rewrite (new_file_empty file params d Hnew Hopen); constructor).
    clear Hopen. induction Hsteps; eauto using typed_step_rows. }
  split_and!.
  - destruct (positions_total (ss_trades d') Ht) as (pu & ps & pa & Hp & Hu & [_ Hs] & Ha & _).
    exists [pu; ps; pa]. split_and!; [done|done|]. rewrite !Forall_cons. auto using Forall_nil_2.
  - intros a start_time Ha. by apply trades_total.
  - apply accounts_total.
  - intros a currency Ha. by apply funds_total.
Qed.
End queries.

(** ** Evaluation *)

Section queries_witnesses.
#[local] Existing Instance table_order.

Definition one_trade : db_Trade := {|
  dbt_user := "trader"; dbt_strategy_id := 7; dbt_account := "A1"; dbt_exchange := "deribit"; dbt_symbol := "BTC";
  dbt_side := BUY; dbt_quantity := of_Z 1; dbt_price := of_Z 100; dbt_exchange_time_utc := 5;
  dbt_external_account := EmptyString; dbt_external_order_id := "o1"; dbt_external_trade_id := "t1" |}.

Lemma queries_typed_witness :
  ∃ l, db_positions (db_insert_trades [one_trade] {| ss_trades := []; ss_funds := [] |}).2 = Ret l ∧ length l = 3%nat.
Proof.
  destruct (queries_typed new_file "risk.sqlite3" {| ss_trades := []; ss_funds := [] |}
    (db_insert_trades [one_trade] {| ss_trades := []; ss_funds := [] |}).2) as ((l & H1 & H2 & _) & _).
  - reflexivity.
  - reflexivity.
  - apply rtc_once, typed_trades. repeat constructor; vm_compute; discriminate.
  - exists l. exact (conj H1 H2).
Defined.
End queries_witnesses.
