(* ===== verification/Control.v ===== *)
(** * The control service

    [control::Session] (control/session.cpp), [control::Response]
    (control/response.cpp) and [control::Manager] (control/manager.cpp): the REST
    and websocket sessions over the database, and the manager that creates them,
    forwards trades to the upgraded ones and removes the disconnected ones.

    The state of all sessions is kept in the manager's table, as in the code; the
    database they share is a field, and what the servers send is a trace. A
    session's operation names its session by id. *)

From S2P Require Import Prelude Double Messages Instrument Position Groups Shared Text Web.
From S2P Require Import Statement Sql Trades TradesFacts Funds Database.

(** [Session::State]. *)
Inductive SessionState : Type := WAITING | READY | ZOMBIE.

#[global] Instance SessionState_eq_dec : EqDecision SessionState.
Proof. solve_decision. Defined.

(** [Session::ready] and [Session::zombie]. *)
Definition Session_ready (state : SessionState) : bool := bool_decide (state = READY).
Definition Session_zombie (state : SessionState) : bool := bool_decide (state = ZOMBIE).

(** Calls of the server that reach the client. *)
Inductive output : Type :=
| Sent (session_id : Z) (response : Response)
| SentText (session_id : Z) (text : string)
| Upgraded (session_id : Z)
| Closed (session_id : Z).

(** The session a call is made by. *)
Definition output_session (o : output) : Z :=
  match o with Sent id _ | SentText id _ | Upgraded id | Closed id => id end.

Record Manager (D : Type) : Type := {
  m_url_prefix : string;
  m_next_session_id : Z;
  m_sessions : gmap Z SessionState;
  m_subscribers : gset Z;
  m_next_cleanup : Z;
  m_zombies : gset Z;
  m_database : D;
  m_out : list output;
}.
Arguments m_url_prefix {D} _.
Arguments m_next_session_id {D} _.
Arguments m_sessions {D} _.
Arguments m_subscribers {D} _.
Arguments m_next_cleanup {D} _.
Arguments m_zombies {D} _.
Arguments m_database {D} _.
Arguments m_out {D} _.

Section control.
Context `{!Json} `{!WebServer} `{!HashOrder} {D : Type} `{!Database D}.

Definition set_next_session_id (z : Z) (m : Manager D) : Manager D :=
  {| m_url_prefix := m_url_prefix m; m_next_session_id := z; m_sessions := m_sessions m;
     m_subscribers := m_subscribers m; m_next_cleanup := m_next_cleanup m; m_zombies := m_zombies m;
     m_database := m_database m; m_out := m_out m |}.
Definition set_sessions (ss : gmap Z SessionState) (m : Manager D) : Manager D :=
  {| m_url_prefix := m_url_prefix m; m_next_session_id := m_next_session_id m; m_sessions := ss;
     m_subscribers := m_subscribers m; m_next_cleanup := m_next_cleanup m; m_zombies := m_zombies m;
     m_database := m_database m; m_out := m_out m |}.
Definition set_subscribers (ids : gset Z) (m : Manager D) : Manager D :=
  {| m_url_prefix := m_url_prefix m; m_next_session_id := m_next_session_id m; m_sessions := m_sessions m;
     m_subscribers := ids; m_next_cleanup := m_next_cleanup m; m_zombies := m_zombies m;
     m_database := m_database m; m_out := m_out m |}.
Definition set_next_cleanup (t : Z) (m : Manager D) : Manager D :=
  {| m_url_prefix := m_url_prefix m; m_next_session_id := m_next_session_id m; m_sessions := m_sessions m;
     m_subscribers := m_subscribers m; m_next_cleanup := t; m_zombies := m_zombies m;
     m_database := m_database m; m_out := m_out m |}.
Definition set_zombies (ids : gset Z) (m : Manager D) : Manager D :=
  {| m_url_prefix := m_url_prefix m; m_next_session_id := m_next_session_id m; m_sessions := m_sessions m;
     m_subscribers := m_subscribers m; m_next_cleanup := m_next_cleanup m; m_zombies := ids;
     m_database := m_database m; m_out := m_out m |}.
Definition set_database (d : D) (m : Manager D) : Manager D :=
  {| m_url_prefix := m_url_prefix m; m_next_session_id := m_next_session_id m; m_sessions := m_sessions m;
     m_subscribers := m_subscribers m; m_next_cleanup := m_next_cleanup m; m_zombies := m_zombies m;
     m_database := d; m_out := m_out m |}.
Definition add_out (o : output) (m : Manager D) : Manager D :=
  {| m_url_prefix := m_url_prefix m; m_next_session_id := m_next_session_id m; m_sessions := m_sessions m;
     m_subscribers := m_subscribers m; m_next_cleanup := m_next_cleanup m; m_zombies := m_zombies m;
     m_database := m_database m; m_out := m_out m ++ [o] |}.

Abbreviation M := (act (Manager D)).

(** A call of the session's server. *)
Definition server_call (o : output) (result : outcome ()) : M () :=
  modify (add_out o) >> lift result.

(** A query, and a call that changes the database. *)
Definition ask {A} (f : D → outcome A) : M A := λ m, (f (m_database m), m).
Definition call {A} (f : act D A) : M A := λ m,
  let '(r, d) := f (m_database m) in (r, set_database d m).

(** ** Response *)

(** [Response::send]. *)
Definition Response_send (id : Z) (request : Request) (status : Status) (body : string) : M () :=
  let response := {|
    rsp_status := status;
    rsp_connection := if bool_decide (status = OK) then req_connection request else CLOSE;
    rsp_sec_websocket_accept := EmptyString;
    rsp_cache_control := "no-store";
    rsp_content_type := APPLICATION_JSON;
    rsp_body := body |} in
  server_call (Sent id response) (server_send id response).

(** The end of every [get_*]. *)
Definition send_list (id : Z) (request : Request) (result : string) : M () :=
  if bool_decide (result = EmptyString)
  then Response_send id request NOT_FOUND "[]"
  else Response_send id request OK ("[" +:+ result +:+ "]").

(** ** Requests for data *)

Definition get_accounts (id : Z) (request : Request) : M () :=
  if bool_decide (req_query request = []) then
    let* accounts := ask db_accounts in
    send_list id request (list_to_json account_to_json accounts)
  else throw RuntimeError.

Definition get_positions (id : Z) (request : Request) : M () :=
  if bool_decide (req_query request = []) then
    let* positions := ask db_positions in
    send_list id request (list_to_json position_to_json positions)
  else throw RuntimeError.

(** The loop over the query of a request that has two optional keys; a later
    value replaces an earlier one. *)
Fixpoint query_keys (key_1 key_2 : string) (query : list (string * string)) (found : string * string)
    : outcome (string * string) :=
  match query with
  | [] => Ret found
  | (key, value) :: query' =>
      if bool_decide (key = key_1) then query_keys key_1 key_2 query' (value, found.2)
      else if bool_decide (key = key_2) then query_keys key_1 key_2 query' (found.1, value)
      else Throw RuntimeError
  end.

Definition get_trades (id : Z) (request : Request) : M () :=
  let* (account, start_time_as_string) :=
    lift (query_keys "account" "start_time" (req_query request) (EmptyString, EmptyString)) in
  let* start_time := lift (convert_to_timestamp start_time_as_string) in
  let* trades := ask (db_trades account start_time) in
  send_list id request (list_to_json trade_to_json trades).

Definition get_funds (id : Z) (request : Request) : M () :=
  let* (account, currency) :=
    lift (query_keys "account" "currency" (req_query request) (EmptyString, EmptyString)) in
  let* funds := ask (db_funds account currency) in
  send_list id request (list_to_json funds_to_json funds).

(** ** Requests that change the database *)

(** The body of the loop of [parse_item]; [exchange_time_utc] is read over. *)
Definition parse_field (correction : db_Correction) (field : string * json) : outcome db_Correction :=
  let '(key, value) := field in
  let c := correction in
  let set user strategy_id account exchange symbol side quantity price reason :=
    {| dbc_user := user; dbc_strategy_id := strategy_id; dbc_account := account;
       dbc_exchange := exchange; dbc_symbol := symbol; dbc_side := side;
       dbc_quantity := quantity; dbc_price := price;
       dbc_exchange_time_utc := dbc_exchange_time_utc c; dbc_reason := reason |} in
  if bool_decide (key = "user") then
    let? x := json_get_string value in
    Ret (set x (dbc_strategy_id c) (dbc_account c) (dbc_exchange c) (dbc_symbol c) (dbc_side c)
             (dbc_quantity c) (dbc_price c) (dbc_reason c))
  else if bool_decide (key = "strategy_id") then
    let? x := json_get_uint32 value in
    Ret (set (dbc_user c) x (dbc_account c) (dbc_exchange c) (dbc_symbol c) (dbc_side c)
             (dbc_quantity c) (dbc_price c) (dbc_reason c))
  else if bool_decide (key = "account") then
    let? x := json_get_string value in
    Ret (set (dbc_user c) (dbc_strategy_id c) x (dbc_exchange c) (dbc_symbol c) (dbc_side c)
             (dbc_quantity c) (dbc_price c) (dbc_reason c))
  else if bool_decide (key = "exchange") then
    let? x := json_get_string value in
    Ret (set (dbc_user c) (dbc_strategy_id c) (dbc_account c) x (dbc_symbol c) (dbc_side c)
             (dbc_quantity c) (dbc_price c) (dbc_reason c))
  else if bool_decide (key = "symbol") then
    let? x := json_get_string value in
    Ret (set (dbc_user c) (dbc_strategy_id c) (dbc_account c) (dbc_exchange c) x (dbc_side c)
             (dbc_quantity c) (dbc_price c) (dbc_reason c))
  else if bool_decide (key = "side") then
    let? tmp := json_get_string value in
    match Side_cast tmp with
    | None => Throw BadOptionalAccess
    | Some x =>
        Ret (set (dbc_user c) (dbc_strategy_id c) (dbc_account c) (dbc_exchange c) (dbc_symbol c) x
                 (dbc_quantity c) (dbc_price c) (dbc_reason c))
    end
  else if bool_decide (key = "quantity") then
    let? x := json_get_double value in
    Ret (set (dbc_user c) (dbc_strategy_id c) (dbc_account c) (dbc_exchange c) (dbc_symbol c) (dbc_side c)
             x (dbc_price c) (dbc_reason c))
  else if bool_decide (key = "price") then
    let? x := json_get_double value in
    Ret (set (dbc_user c) (dbc_strategy_id c) (dbc_account c) (dbc_exchange c) (dbc_symbol c) (dbc_side c)
             (dbc_quantity c) x (dbc_reason c))
  else if bool_decide (key = "exchange_time_utc") then Ret c
  else if bool_decide (key = "reason") then
    let? x := json_get_string value in
    Ret (set (dbc_user c) (dbc_strategy_id c) (dbc_account c) (dbc_exchange c) (dbc_symbol c) (dbc_side c)
             (dbc_quantity c) (dbc_price c) x)
  else Throw RuntimeError.

Fixpoint parse_fields (correction : db_Correction) (fields : list (string * json)) : outcome db_Correction :=
  match fields with
  | [] => Ret correction
  | field :: fields' => let? c := parse_field correction field in parse_fields c fields'
  end.

Definition parse_item (item : json) : outcome db_Correction :=
  parse_fields db_Correction_default (json_items item).

(** The text fields of a correction are views into the JSON value it was read
    from. *)
Definition has_text (c : db_Correction) : bool :=
  negb (forallb (λ s, bool_decide (s = EmptyString))
          [dbc_user c; dbc_account c; dbc_exchange c; dbc_symbol c; dbc_reason c]).

(** The elements of an array are visited by value ([for (auto item : json)]): the
    views into them are dead when the corrections are stored. *)
Definition put_trade (now : Z) (id : Z) (request : Request) : M () :=
  if bool_decide (req_body request = EmptyString)
  then Response_send id request NOT_FOUND (success_text false)
  else
    let* json := lift (json_parse (req_body request)) in
    let* corrections :=
      if json_is_array json
      then
        let* l := lift (outcome_map parse_item (json_elements json)) in
        if existsb has_text l then undef else ret l
      else let* c := lift (parse_item json) in ret [c] in
    call (db_insert_corrections now corrections) >>
    Response_send id request OK (success_text true).

(** The loops of [put_compress]: over the query and over the body. *)
Fixpoint end_time_of_query (query : list (string * string)) (found : string) : outcome string :=
  match query with
  | [] => Ret found
  | (key, value) :: query' =>
      if bool_decide (key = "end_time") then end_time_of_query query' value else Throw RuntimeError
  end.

Fixpoint end_time_of_body (fields : list (string * json)) (found : string) : outcome string :=
  match fields with
  | [] => Ret found
  | (key, value) :: fields' =>
      if bool_decide (key = "end_time")
      then let? s := json_get_string value in end_time_of_body fields' s
      else Throw RuntimeError
  end.

(** The JSON value of the body dies with its block, before the time read from it
    is converted. *)
Definition put_compress (id : Z) (request : Request) : M () :=
  let* from_query := lift (end_time_of_query (req_query request) EmptyString) in
  let* end_time :=
    if bool_decide (req_body request = EmptyString) then ret from_query
    else if bool_decide (from_query = EmptyString) then
      let* json := lift (json_parse (req_body request)) in
      let* s := lift (end_time_of_body (json_items json) EmptyString) in
      if bool_decide (s = EmptyString) then ret s else undef
    else throw RuntimeError in
  if bool_decide (end_time = EmptyString) then throw RuntimeError
  else
    let* exchange_time_utc := lift (convert_to_timestamp end_time) in
    call (db_compress {| dbz_exchange_time_utc := exchange_time_utc |}) >>
    Response_send id request OK (success_text true).

(** ** Routing *)

Definition route (now : Z) (id : Z) (request : Request) (path : list string) : M () :=
  match req_method request, path with
  | GET, "accounts" :: rest => match rest with [] => get_accounts id request | _ => ret () end
  | GET, "positions" :: rest => match rest with [] => get_positions id request | _ => ret () end
  | GET, "trades" :: rest => match rest with [] => get_trades id request | _ => ret () end
  | GET, "funds" :: rest => match rest with [] => get_funds id request | _ => ret () end
  | PUT, "trade" :: rest => match rest with [] => put_trade now id request | _ => ret () end
  | PUT, "compress" :: rest => match rest with [] => put_compress id request | _ => ret () end
  | _, _ => ret ()
  end%string.

(** The path without the configured prefix. *)
Definition drop_prefix (url_prefix : string) (path : list string) : list string :=
  match path with
  | first :: rest =>
      if bool_decide (url_prefix ≠ EmptyString ∧ first = url_prefix) then rest else path
  | [] => path
  end.

(** ** Manager as the handler of its sessions *)

Definition Manager_disconnected (id : Z) : M () :=
  modify (λ m, set_zombies ({[ id ]} ∪ m_zombies m) m) >>
  modify (λ m, set_subscribers (m_subscribers m ∖ {[ id ]}) m).

Definition Manager_upgraded (id : Z) : M () :=
  modify (λ m, set_subscribers ({[ id ]} ∪ m_subscribers m) m).

(** ** Session *)

Definition set_state (id : Z) (state : SessionState) : M () :=
  modify (λ m, set_sessions (<[id := state]> (m_sessions m)) m).

(** [Session::Session]: the server is created over the connection; a new session
    waits. *)
Definition control_Session_ctor (id : Z) : M SessionState :=
  lift (server_create id) >> ret WAITING.

Definition Session_close (id : Z) : M () := server_call (Closed id) (Ret ()).

Definition send_text (id : Z) (text : string) : M () :=
  server_call (SentText id text) (server_send_text id text).

(** [Session::operator()(database::Trade const &)]. *)
Definition Session_trade (id : Z) (trade : db_Trade) : M () := send_text id (trade_to_json trade).

Definition Session_disconnected (id : Z) : M () :=
  set_state id ZOMBIE >> Manager_disconnected id.

Definition Session_request (now : Z) (id : Z) (request : Request) : M () :=
  catch_all
    (if bool_decide (req_connection request = UPGRADE) then
       server_call (Upgraded id) (server_upgrade id request) >>
       set_state id READY >>
       Manager_upgraded id
     else
       let* m := get in
       let path := drop_prefix (m_url_prefix m) (req_path request) in
       if bool_decide (path = []) then ret () else route now id request path)
    (Session_close id).

Definition JSONRPC_VERSION : string := "2.0".
Definition UNKNOWN_METHOD : string := "UNKNOWN_METHOD".

(** The reply echoes the id of the request, when it is a string or an integer. *)
Definition send_jsonrpc (id : Z) (type message : string) (request_id : json) : M () :=
  match json_type request_id with
  | value_string =>
      let* s := lift (json_get_string request_id) in
      send_text id (object_text [("jsonrpc", quoted JSONRPC_VERSION); (type, quoted message);
                                 ("id", quoted s)])
  | value_number_integer | value_number_unsigned =>
      let* z := lift (json_get_int64 request_id) in
      send_text id (object_text [("jsonrpc", quoted JSONRPC_VERSION); (type, quoted message);
                                 ("id", pretty z)])
  | _ => ret ()
  end.

Definition send_result (id : Z) (message : string) (request_id : json) : M () :=
  send_jsonrpc id "result" message request_id.
Definition send_error (id : Z) (message : string) (request_id : json) : M () :=
  send_jsonrpc id "error" message request_id.

Definition process_jsonrpc (id : Z) (_ : string) (_ : json) (request_id : json) : M () :=
  send_error id UNKNOWN_METHOD request_id.

Definition process (id : Z) (message : string) : M () :=
  catch_all
    (let* json := lift (json_parse message) in
     let* version := lift (let? v := json_at "jsonrpc" json in json_get_string v) in
     if bool_decide (version = JSONRPC_VERSION) then
       let* method := lift (let? v := json_at "method" json in json_get_string v) in
       let* params := lift (json_at "params" json) in
       let* request_id := lift (json_at "id" json) in
       process_jsonrpc id method params request_id
     else throw RuntimeError)
    (Session_close id).

Definition Session_text (id : Z) (payload : string) : M () :=
  catch_all (process id payload) (Session_close id).

Definition Session_binary (_ : Z) : M () := ret ().

(** ** Manager *)

(** [io::NetworkAddress]: a port or the path of a socket. *)
Inductive NetworkAddress : Type :=
| Port (port : Z)
| Path (path : string).

(** [create_network_address]; [parent_path] and [create_directory] stand for the
    functions of [std::filesystem]. *)
Definition create_network_address (parent_path : string → string) (create_directory : string → outcome bool)
    (address : string) : outcome NetworkAddress :=
  match from_chars_uint16 address with
  | inr port => Ret (Port port)
  | inl _ =>
      let directory := parent_path address in
      let? _ := if bool_decide (directory = EmptyString) then Ret false else create_directory directory in
      Ret (Path address)
  end.

(** The members of a new [Manager] beside its listener. *)
Definition Manager_ctor (url_prefix : string) (database : D) : Manager D :=
  {| m_url_prefix := url_prefix; m_next_session_id := 0; m_sessions := ∅; m_subscribers := ∅;
     m_next_cleanup := 0; m_zombies := ∅; m_database := database; m_out := [] |}.

Definition remove_zombies : M () :=
  modify (λ m,
    if bool_decide (size (m_zombies m) = 0%nat) then m
    else set_zombies ∅ (set_sessions
           (fold_left (λ ss id, delete id ss) (hash_order (elements (m_zombies m))) (m_sessions m)) m)).

(** [CLEANUP_FREQUENCY] in nanoseconds. *)
Definition CLEANUP_FREQUENCY : Z := 1000000000.

Definition Manager_timer (now : Z) : M () :=
  let* m := get in
  if m_next_cleanup m <? now
  then modify (set_next_cleanup (now + CLEANUP_FREQUENCY)) >> remove_zombies
  else ret ().

Definition Manager_trade (trade : db_Trade) : M () :=
  let* m := get in
  for_each (λ id, match m_sessions m !! id with
                  | Some _ => Session_trade id trade
                  | None => ret ()
                  end) (hash_order (elements (m_subscribers m))).

(** A connection was accepted. *)
Definition Manager_accept : M () :=
  modify (λ m, set_next_session_id (u64 (m_next_session_id m + 1)) m) >>
  let* m := get in
  let session_id := m_next_session_id m in
  let* session := control_Session_ctor session_id in
  modify (λ m, set_sessions (try_emplace session_id session (m_sessions m)) m).

(** ** Events *)

Inductive control_event : Type :=
| EvAccept
| EvDisconnected (id : Z)
| EvRequest (now : Z) (id : Z) (request : Request)
| EvText (id : Z) (payload : string)
| EvBinary (id : Z)
| EvTimer (now : Z)
| EvTrade (trade : db_Trade).

(** The session an event is delivered to; it exists. *)
Definition event_session (e : control_event) : option Z :=
  match e with
  | EvDisconnected id | EvRequest _ id _ | EvText id _ | EvBinary id => Some id
  | _ => None
  end.

Definition handle (e : control_event) : M () :=
  match e with
  | EvAccept => Manager_accept
  | EvDisconnected id => Session_disconnected id
  | EvRequest now id request => Session_request now id request
  | EvText id payload => Session_text id payload
  | EvBinary id => Session_binary id
  | EvTimer now => Manager_timer now
  | EvTrade trade => Manager_trade trade
  end.
End control.
