(* ===== verification/ControlFacts.v ===== *)
(** * Facts about the control service

    The bookkeeping of sessions as an invariant of every run, the delivery of
    trades to subscribers, the removal of disconnected sessions, and what the
    requests read, change and reply. *)

From S2P Require Import Prelude Double Messages Text Web Statement Sql Trades TradesFacts Funds.
From S2P Require Import Database Shared Control.

(** ** Operations that leave the bookkeeping alone *)

Section frame.
Context `{J : !Json} `{W : !WebServer} `{O : !HashOrder} {D : Type} `{DB : !Database D}.
Implicit Types (m : Manager D).

(** Equal session tables. *)
Record same_sessions m m' : Prop := {
  same_next : m_next_session_id m' = m_next_session_id m;
  same_table : m_sessions m' = m_sessions m;
  same_subscribers : m_subscribers m' = m_subscribers m;
  same_zombies : m_zombies m' = m_zombies m;
}.

#[global] Instance same_sessions_preorder : PreOrder same_sessions.
Proof.
  split; [done|]. intros m1 m2 m3 [H1 H2 H3 H4] [H5 H6 H7 H8]. split; congruence.
Qed.

(** Equal databases. *)
Definition same_database m m' : Prop := m_database m' = m_database m.

#[global] Instance same_database_preorder : PreOrder same_database.
Proof. split; [done|]. intros m1 m2 m3 H1 H2. unfold same_database in *. congruence. Qed.

Lemma frames_ask {A} (R : relation (Manager D)) `{!PreOrder R} (f : D → outcome A) : preserves R (ask f).
Proof. by intros m. Qed.
Lemma frames_call {A} (f : act D A) : preserves same_sessions (call f).
Proof. intros m. unfold call. by destruct (f (m_database m)). Qed.
Lemma frames_server_call o r : preserves same_sessions (server_call (D := D) o r).
Proof. by destruct r. Qed.
Lemma reads_server_call o r : preserves same_database (server_call (D := D) o r).
Proof. by destruct r. Qed.
End frame.
#[export] Hint Resolve frames_ask frames_call frames_server_call reads_server_call : risk.

(** ** The requests frame *)

Section requests.
Context `{J : !Json} `{W : !WebServer} `{O : !HashOrder} {D : Type} `{DB : !Database D}.
Implicit Types (m : Manager D).

(** What the requests that only read need of a relation. *)
Section reading.
Context (R : relation (Manager D)) `{!PreOrder R}.
Context (id : Z).
Hypothesis Hserver : ∀ o r, output_session o = id → preserves R (server_call o r).

#[local] Hint Resolve Hserver : risk.

Lemma preserves_Response_send req st body : preserves R (Response_send id req st body).
Proof. unfold Response_send. auto with risk. Qed.
#[local] Hint Resolve preserves_Response_send : risk.

Lemma preserves_send_list req result : preserves R (send_list id req result).
Proof. unfold send_list. case_bool_decide; auto with risk. Qed.
#[local] Hint Resolve preserves_send_list : risk.

Lemma preserves_get_accounts req : preserves R (get_accounts id req).
Proof. unfold get_accounts. case_bool_decide; auto with risk. Qed.
Lemma preserves_get_positions req : preserves R (get_positions id req).
Proof. unfold get_positions. case_bool_decide; auto with risk. Qed.
Lemma preserves_get_trades req : preserves R (get_trades id req).
Proof. unfold get_trades. apply preserves_bind; auto with risk. intros [a st]. auto with risk. Qed.
Lemma preserves_get_funds req : preserves R (get_funds id req).
Proof. unfold get_funds. apply preserves_bind; auto with risk. intros [a c]. auto with risk. Qed.

Lemma preserves_route_read now req path :
  req_method req ≠ PUT → preserves R (route now id req path).
Proof.
  intros Hm. unfold route.
  repeat (case_match; try done;
          auto using preserves_get_accounts, preserves_get_positions, preserves_get_trades,
            preserves_get_funds with risk).
Qed.

Lemma preserves_close : preserves R (Session_close id).
Proof. unfold Session_close. auto with risk. Qed.

Lemma preserves_text payload : preserves R (Session_text id payload).
Proof.
  unfold Session_text, process. apply preserves_catch; auto using preserves_close.
  apply preserves_catch; auto using preserves_close.
  apply preserves_bind; auto with risk. intros j. apply preserves_bind; auto with risk. intros v.
  case_bool_decide; auto with risk. repeat (apply preserves_bind; auto with risk; intros ?).
  unfold process_jsonrpc, send_error, send_jsonrpc, send_text. case_match; auto with risk.
Qed.

End reading.

Lemma preserves_trade (R : relation (Manager D)) `{!PreOrder R} trade :
  (∀ o r, preserves R (server_call o r)) → preserves R (Manager_trade trade).
Proof.
  intros Hserver. unfold Manager_trade. apply preserves_bind; auto with risk. intros m. apply preserves_for_each; [done|].
  intros id. unfold Session_trade, send_text. case_match; auto with risk.
Qed.

(** What the requests that write need beside. *)
Section writing.
Context (R : relation (Manager D)) `{!PreOrder R}.
Context (id : Z).
Hypothesis Hserver : ∀ o r, output_session o = id → preserves R (server_call o r).
Hypothesis Hcorrections : ∀ now l, preserves R (call (db_insert_corrections now l)).
Hypothesis Hcompress : ∀ z, preserves R (call (db_compress z)).

#[local] Hint Resolve Hserver Hcorrections Hcompress preserves_Response_send : risk.

Lemma preserves_put_trade now req : preserves R (put_trade now id req).
Proof.
  unfold put_trade. case_bool_decide; auto with risk.
  apply preserves_bind; auto with risk. intros j.
  apply preserves_bind; auto with risk. case_match; auto with risk.
  apply preserves_bind; auto with risk. intros l. case_match; auto with risk.
Qed.

Lemma preserves_put_compress req : preserves R (put_compress id req).
Proof.
  unfold put_compress. apply preserves_bind; auto with risk. intros s. apply preserves_bind; auto with risk.
  - repeat case_bool_decide; auto with risk. apply preserves_bind; auto with risk. intros j.
    apply preserves_bind; auto with risk. intros x. case_bool_decide; auto with risk.
  - intros x. case_bool_decide; auto with risk.
Qed.

Lemma preserves_route now req path : preserves R (route now id req path).
Proof.
  destruct (req_method req) eqn:Hm; try (apply preserves_route_read; [apply _|auto with risk|by rewrite Hm]).
  unfold route. rewrite Hm.
  repeat (case_match; try done; auto using preserves_put_trade, preserves_put_compress with risk).
Qed.
End writing.

Lemma frames_route now id req path : preserves same_sessions (route (D := D) now id req path).
Proof. apply preserves_route; auto with risk. Qed.
End requests.

(** ** The invariant *)

Section invariant.
Context `{J : !Json} `{W : !WebServer} `{O : !HashOrder} {D : Type} `{DB : !Database D}.
Implicit Types (m : Manager D).

(** Ids are handed out in order; a subscriber with a session is ready; a session
    in the list of zombies is one, unless its client sent an upgrade after the
    connection was lost. *)
Record control_wf m : Prop := {
  cw_next : 0 ≤ m_next_session_id m;
  cw_ids : ∀ id, is_Some (m_sessions m !! id) → 0 < id ≤ m_next_session_id m;
  cw_subscriber_ids : ∀ id, id ∈ m_subscribers m → id ≤ m_next_session_id m;
  cw_subscribers : ∀ id st, id ∈ m_subscribers m → m_sessions m !! id = Some st → st = READY;
  cw_ready : ∀ id, m_sessions m !! id = Some READY → id ∈ m_subscribers m;
  cw_zombies : ∀ id, m_sessions m !! id = Some ZOMBIE → id ∈ m_zombies m;
}.

(** An event is delivered: its session exists, and an id is left for a new one. *)
Definition deliverable (e : control_event) m : Prop :=
  match event_session e with
  | Some id => is_Some (m_sessions m !! id)
  | None => m_next_session_id m < 2 ^ 64 - 1
  end.

(** One event, however its handler ends. *)
Inductive control_step : Manager D → Manager D → Prop :=
| control_event_step e m : deliverable e m → control_step m (handle e m).2.

Lemma control_wf_ctor prefix (d : D) : control_wf (Manager_ctor prefix d).
Proof. split; cbn; [done|..]; intros *; rewrite ?lookup_empty; set_solver. Qed.

Lemma control_wf_same m m' : same_sessions m m' → control_wf m → control_wf m'.
Proof.
  intros [H1 H2 H3 H4] [C0 C1 CS C2 C3 C4]. split; rewrite ?H1, ?H2, ?H3, ?H4; done.
Qed.

Lemma control_wf_preserved {A} (c : act (Manager D) A) m :
  preserves same_sessions c → control_wf m → control_wf (c m).2.
Proof. intros Hc. apply control_wf_same, Hc. Qed.

Lemma control_wf_disconnected id m :
  control_wf m → is_Some (m_sessions m !! id) → control_wf (Session_disconnected id m).2.
Proof.
  intros [C0 C1 CS C2 C3 C4] Hid. split; [done|..]; cbn; intros id'; (destruct (decide (id' = id)) as [->|Hne];
    [rewrite ?lookup_insert_eq | rewrite ?lookup_insert_ne by done]).
  - intros _. by apply C1.
  - apply C1.
  - set_solver.
  - set_solver.
  - set_solver.
  - intros st Hin. apply C2. set_solver.
  - done.
  - intros ?%C3. set_solver.
  - set_solver.
  - intros ?%C4. set_solver.
Qed.

Lemma control_wf_upgrade id m :
  control_wf m → is_Some (m_sessions m !! id) → control_wf ((set_state id READY >> Manager_upgraded id) m).2.
Proof.
  intros [C0 C1 CS C2 C3 C4] Hid. split; [done|..]; cbn; intros id'; (destruct (decide (id' = id)) as [->|Hne];
    [rewrite ?lookup_insert_eq | rewrite ?lookup_insert_ne by done]).
  - intros _. by apply C1.
  - apply C1.
  - intros _. by apply C1.
  - set_solver.
  - by intros st _ [= <-].
  - intros st Hin. apply C2. set_solver.
  - set_solver.
  - intros ?%C3. set_solver.
  - done.
  - apply C4.
Qed.

Lemma control_wf_request now id req m :
  control_wf m → is_Some (m_sessions m !! id) → control_wf (Session_request now id req m).2.
Proof.
  intros Hm Hid. unfold Session_request. case_bool_decide.
  - unfold catch_all, bind at 1, server_call at 1, bind at 1, modify, lift.
    assert (Hm' : control_wf (add_out (Upgraded id) m)) by (eapply control_wf_same; [|exact Hm]; done).
    destruct (server_upgrade id req) as [[]|e| |]; try done.
    + by apply control_wf_upgrade.
    + apply (control_wf_preserved (Session_close id)); [|done]. apply preserves_close; auto with risk.
  - apply control_wf_preserved; [|done]. apply preserves_catch; auto using preserves_close with risk.
    apply preserves_bind; auto with risk. intros m'. case_bool_decide; auto using frames_route with risk.
Qed.

Lemma fold_delete_lookup (l : list Z) (ss : gmap Z SessionState) id :
  fold_left (λ ss id, delete id ss) l ss !! id = if decide (id ∈ l) then None else ss !! id.
Proof.
  revert ss. induction l as [|x l IH]; intros ss; cbn; [by rewrite decide_False by apply not_elem_of_nil|].
  rewrite IH. destruct (decide (id = x)) as [->|Hne].
  - rewrite lookup_delete_eq, (decide_True _ _ (list_elem_of_here x l)). by case_decide.
  - rewrite lookup_delete_ne by done. repeat case_decide; set_solver.
Qed.

Lemma remove_zombies_lookup m id :
  m_sessions (remove_zombies m).2 !! id = if decide (id ∈ m_zombies m) then None else m_sessions m !! id.
Proof.
  unfold remove_zombies, modify. cbn. case_bool_decide as Hs; cbn.
  - apply size_empty_inv in Hs. rewrite decide_False; [done|]. set_solver.
  - rewrite fold_delete_lookup. apply decide_ext. by rewrite elem_of_hash_order, elem_of_elements.
Qed.

Lemma remove_zombies_rest m :
  m_zombies (remove_zombies m).2 = ∅ ∧ m_subscribers (remove_zombies m).2 = m_subscribers m
  ∧ m_next_session_id (remove_zombies m).2 = m_next_session_id m
  ∧ m_next_cleanup (remove_zombies m).2 = m_next_cleanup m.
Proof.
  unfold remove_zombies, modify. cbn. case_bool_decide as Hs; cbn; [|done].
  apply size_empty_inv in Hs. by rewrite (leibniz_equiv _ _ Hs).
Qed.

Lemma control_wf_remove_zombies m : control_wf m → control_wf (remove_zombies m).2.
Proof.
  intros [C0 C1 CS C2 C3 C4]. destruct (remove_zombies_rest m) as (H1 & H2 & H3 & _).
  split; [by rewrite H3|..]; intros id; rewrite ?remove_zombies_lookup, ?H1, ?H2, ?H3;
    try case_decide; try done.
  - apply C1.
  - apply CS.
  - apply C2.
  - apply C3.
  - intros ?%C4. done.
Qed.

Lemma timer_due m now :
  m_next_cleanup m < now →
  Manager_timer now m = remove_zombies (set_next_cleanup (now + CLEANUP_FREQUENCY) m).
Proof. intros Hn. unfold Manager_timer, bind, get. by rewrite (proj2 (Z.ltb_lt _ _)). Qed.

Lemma control_wf_accept m :
  m_next_session_id m < 2 ^ 64 - 1 → control_wf m → control_wf (Manager_accept m).2.
Proof.
  intros Hn [C0 C1 CS C2 C3 C4]. unfold Manager_accept, control_Session_ctor, bind, modify, get, lift. cbn -[u64].
  unfold u64. rewrite wrap_small by lia. set (n := m_next_session_id m + 1).
  assert (Hnew : m_sessions m !! n = None).
  { destruct (m_sessions m !! n) eqn:Hl; [|done]. destruct (C1 n (mk_is_Some _ _ Hl)) as [_ Hle]. unfold n in Hle. lia. }
  assert (Hkeep : control_wf (set_next_session_id n m)).
  { split; cbn; [lia|..]; try done; intros id Hid; [specialize (C1 id Hid)|specialize (CS id Hid)]; lia. }
  destruct (server_create n) as [[]|e| |]; try done. cbn. unfold try_emplace. rewrite Hnew.
  split; cbn; [lia|..]; intros id; (destruct (decide (id = n)) as [->|Hne];
    [rewrite ?lookup_insert_eq | rewrite ?lookup_insert_ne by done]).
  - intros _. lia.
  - intros Hid. specialize (C1 id Hid). lia.
  - lia.
  - intros Hid. specialize (CS id Hid). lia.
  - intros st Hin. specialize (CS n Hin). lia.
  - apply C2.
  - done.
  - apply C3.
  - done.
  - apply C4.
Qed.

Lemma control_wf_timer now m : control_wf m → control_wf (Manager_timer now m).2.
Proof.
  intros Hm. unfold Manager_timer, bind, get. case_match; [|done].
  apply control_wf_remove_zombies. by eapply control_wf_same; [|exact Hm].
Qed.

Lemma control_wf_trade trade m : control_wf m → control_wf (Manager_trade trade m).2.
Proof. apply control_wf_preserved, preserves_trade; auto with risk. Qed.

Lemma control_wf_step m m' : control_step m m' → control_wf m → control_wf m'.
Proof.
  intros [e m0 He] Hm. destruct e as [|id|now id req|id payload|id|now|trade]; cbn [handle]; cbn in He.
  - by apply control_wf_accept.
  - by apply control_wf_disconnected.
  - by apply control_wf_request.
  - apply control_wf_preserved; [|done]. apply preserves_text; auto with risk.
  - done.
  - by apply control_wf_timer.
  - by apply control_wf_trade.
Qed.

Lemma control_reachable_wf m m' : rtc control_step m m' → control_wf m → control_wf m'.
Proof. induction 1; eauto using control_wf_step. Qed.


(** A timer event after the cleanup time removes every disconnected session
    and no other, and empties the list. *)
Theorem control_cleanup m (now : Z) (Hnow : m_next_cleanup m < now) :
  let m' := (Manager_timer now m).2 in
  m_zombies m' = ∅ ∧ m_next_cleanup m' = now + CLEANUP_FREQUENCY
  ∧ ∀ id, m_sessions m' !! id = if decide (id ∈ m_zombies m) then None else m_sessions m !! id.
Proof.
  cbn zeta. rewrite timer_due by done.
  destruct (remove_zombies_rest (set_next_cleanup (now + CLEANUP_FREQUENCY) m)) as (H1 & _ & _ & H2).
  split_and!; [done|done|]. intros id. by rewrite remove_zombies_lookup.
Qed.
End invariant.

(** ** What the service does to the database

    Whatever relation the operations of the database keep, every event keeps. *)

Section on_db.
Context `{J : !Json} `{W : !WebServer} `{O : !HashOrder} {D : Type} `{DB : !Database D}.
Context (R : relation D) `{HR : !PreOrder R}.
Implicit Types (m : Manager D).

Record operations_keep : Prop := {
  ok_trades l d : R d (db_insert_trades l d).2;
  ok_corrections now l d : R d (db_insert_corrections now l d).2;
  ok_funds now l d : R d (db_insert_funds now l d).2;
  ok_compress z d : R d (db_compress z d).2;
}.

Definition on_db m m' : Prop := R (m_database m) (m_database m').
#[global] Instance on_db_preorder : PreOrder on_db.
Proof. split; [intros m; by unfold on_db|]. intros m1 m2 m3 H1 H2. unfold on_db in *. by etrans. Qed.

Lemma on_db_same {A} (c : act (Manager D) A) : preserves same_database c → preserves on_db c.
Proof. intros Hc m. unfold on_db. by rewrite (Hc m). Qed.

Lemma on_db_call {A} (f : act D A) : (∀ d, R d (f d).2) → preserves on_db (call f).
Proof. intros Hf m. unfold call, on_db. specialize (Hf (m_database m)). by destruct (f (m_database m)). Qed.

Lemma handle_on_db e : operations_keep → preserves on_db (handle (D := D) e).
Proof.
  intros Hops. assert (Hserver : ∀ o r, preserves on_db (server_call (D := D) o r))
    by (intros; apply on_db_same; auto with risk).
  destruct e as [|id|now id req|id payload|id|now|trade]; cbn [handle].
  - intros m. unfold Manager_accept, control_Session_ctor, bind, modify, get, lift, on_db. cbn. by destruct (server_create _) as [[]| | |].
  - intros m. by unfold on_db.
  - unfold Session_request. apply preserves_catch; auto using preserves_close with risk. case_bool_decide.
    + apply preserves_bind; auto with risk. intros _ m. by unfold on_db.
    + apply preserves_bind; auto with risk. intros m. case_bool_decide; auto with risk.
      apply preserves_route; auto with risk; intros; apply on_db_call, Hops.
  - apply preserves_text; auto with risk.
  - intros m. by unfold on_db.
  - intros m. unfold Manager_timer, bind, get, remove_zombies, modify, on_db. case_match; [|done].
    cbn. by case_bool_decide.
  - apply preserves_trade; auto with risk.
Qed.
End on_db.

(** The database stays well formed. *)
Section keeps_ok.
Context `{J : !Json} `{W : !WebServer} `{O : !HashOrder} {D : Type} `{DB : !Database D} `{L : !DatabaseLaws D}.

Definition keeps_ok (d d' : D) : Prop := db_ok d → db_ok d'.
#[global] Instance keeps_ok_preorder : PreOrder keeps_ok.
Proof. split; unfold keeps_ok; naive_solver. Qed.

Lemma keeps_ok_operations : operations_keep keeps_ok.
Proof.
  split; intros * Hd;
    auto using db_insert_trades_ok, db_insert_corrections_ok, db_insert_funds_ok, db_compress_ok.
Qed.
End keeps_ok.
