(* ===== verification/ControlProps.v ===== *)
(** * What the control service promises

    Delivery of trades to subscribers, what requests change and reply, and the
    text of timestamps. *)

From S2P Require Import Prelude Double Messages Text Web Statement Sql Trades TradesFacts Funds.
From S2P Require Import Database Shared Control ControlFacts TradesProps.

(** ** Timestamps *)

(** A timestamp that is the decimal text of a number is read as that number
    when it fits 64 bits, and is out of range otherwise; no text means zero. *)
Theorem timestamp_roundtrip (z : Z) :
  convert_to_timestamp (pretty z)
  = (if (int64_min <=? z) && (z <=? int64_max) then Ret z else Throw RangeError)
  ∧ convert_to_timestamp EmptyString = Ret 0.
Proof.
  split; [|done]. unfold convert_to_timestamp, from_chars_int64. rewrite bool_decide_false.
  - rewrite from_chars_pretty. by destruct (_ && _).
  - intros He. pose proof (from_chars_pretty z z z) as Hf. rewrite He in Hf.
    rewrite Z.leb_refl in Hf. done.
Qed.

(** Text after the digits is not looked at. *)
Example timestamp_trailing : convert_to_timestamp "12x" = Ret 12.
Proof. reflexivity. Qed.

(** ** The address of the service *)

(** The text of a port is that port, and creates no directory; a number past the
    range of ports is a path. *)
Lemma network_address_number parent_path create_directory (n : N) :
  create_network_address parent_path create_directory (pretty n)
  = if Z.of_N n <=? 65535 then Ret (Port (Z.of_N n))
    else let? _ := if bool_decide (parent_path (pretty n) = EmptyString) then Ret false
                   else create_directory (parent_path (pretty n)) in
         Ret (Path (pretty n)).
Proof.
  unfold create_network_address, from_chars_uint16. rewrite from_chars_pretty_N.
  rewrite (proj2 (Z.leb_le 0 (Z.of_N n))) by lia. cbn [andb]. by destruct (Z.of_N n <=? 65535).
Qed.

(** What follows the digits is ignored: the path of a socket that starts with a
    digit is taken for a port. *)
Example network_address_trailing parent_path create_directory :
  create_network_address parent_path create_directory "1/control.sock" = Ret (Port 1).
Proof. reflexivity. Qed.

Section props.
Context `{J : !Json} `{W : !WebServer} `{O : !HashOrder} {D : Type} `{DB : !Database D}.
Implicit Types (m : Manager D).

(** ** Delivery *)

Lemma m_out_add_all os m : m_out (fold_left (λ m o, add_out o m) os m) = m_out m ++ os.
Proof.
  revert m. induction os as [|o os IH]; intros m; cbn [fold_left]; [by rewrite app_nil_r|].
  rewrite IH. cbn. by rewrite <- app_assoc.
Qed.

Lemma for_each_send (trade : db_Trade) (ss : gmap Z SessionState) (ids : list Z) m :
  (∀ id t, server_send_text id t = Ret ()) →
  for_each (λ id, match ss !! id with Some _ => Session_trade id trade | None => ret () end) ids m
  = (Ret (), fold_left (λ m o, add_out o m)
       ((λ id, SentText id (trade_to_json trade)) <$> filter (λ id, is_Some (ss !! id)) ids) m).
Proof.
  intros Hs. revert m. induction ids as [|id ids IH]; intros m; [done|].
  cbn [for_each]. rewrite filter_cons. unfold bind at 1. destruct (ss !! id) eqn:Hid.
  - rewrite decide_True by done. unfold Session_trade, send_text, server_call, bind at 1, modify, lift.
    rewrite Hs. apply IH.
  - rewrite decide_False by by intros [??]. apply IH.
Qed.

(** The sessions a trade goes to. *)
Definition receivers m : list Z :=
  filter (λ id, is_Some (m_sessions m !! id)) (hash_order (elements (m_subscribers m))).

Lemma Manager_trade_sends (trade : db_Trade) m :
  (∀ id t, server_send_text id t = Ret ()) →
  ∃ m', Manager_trade trade m = (Ret (), m')
        ∧ m_out m' = m_out m ++ ((λ id, SentText id (trade_to_json trade)) <$> receivers m)
        ∧ same_sessions m m' ∧ m_database m' = m_database m.
Proof.
  intros Hs. eexists. split_and!.
  - unfold Manager_trade, bind at 1, get. by apply for_each_send.
  - apply m_out_add_all.
  - pose proof (preserves_trade same_sessions trade frames_server_call m) as H.
    unfold Manager_trade, bind at 1, get in H. by rewrite for_each_send in H.
  - pose proof (preserves_trade same_database trade reads_server_call m) as H.
    unfold Manager_trade, bind at 1, get in H. by rewrite for_each_send in H.
Qed.

(** Every subscriber that has a session gets the trade once, as the text
    [trade_to_json] builds; nobody else gets anything, and no other state
    changes. *)
Theorem trade_delivery (trade : db_Trade) m (Hs : ∀ id t, server_send_text id t = Ret ()) :
  ∃ ids m', Manager_trade trade m = (Ret (), m')
    ∧ NoDup ids
    ∧ (∀ id, id ∈ ids ↔ id ∈ m_subscribers m ∧ is_Some (m_sessions m !! id))
    ∧ m_out m' = m_out m ++ ((λ id, SentText id (trade_to_json trade)) <$> ids)
    ∧ same_sessions m m' ∧ m_database m' = m_database m.
Proof.
  destruct (Manager_trade_sends trade m Hs) as (m' & H1 & H2 & H3 & H4).
  exists (receivers m), m'. split_and!; try done.
  - apply NoDup_filter, NoDup_hash_order, NoDup_elements.
  - intros id. unfold receivers. rewrite list_elem_of_filter, elem_of_hash_order, elem_of_elements. tauto.
Qed.

(** ** Reading requests *)

Lemma request_reads (now id : Z) (request : Request) :
  req_method request ≠ PUT → preserves same_database (Session_request (D := D) now id request).
Proof.
  intros Hm. unfold Session_request. apply (preserves_catch same_database); [|by apply preserves_close; auto with risk].
  case_bool_decide.
  - apply preserves_bind; auto with risk. by intros _ m.
  - apply preserves_bind; auto with risk. intros m'. case_bool_decide; auto with risk.
    apply preserves_route_read; auto with risk.
Qed.

(** C29. No request but a PUT changes the database, whatever its path, its query,
    its outcome and the state of the connection; nor does a websocket message. *)
Theorem only_put_writes (now id : Z) (request : Request) (payload : string) m
    (Hm : req_method request ≠ PUT) :
  m_database (Session_request now id request m).2 = m_database m
  ∧ m_database (Session_text id payload m).2 = m_database m.
Proof.
  split; [by apply request_reads|apply (preserves_text same_database id); auto with risk].
Qed.

(** The reply to a request for a list. *)
Definition list_reply (request : Request) (items : list string) : Response :=
  let status := match items with [] => NOT_FOUND | _ => OK end in {|
  rsp_status := status;
  rsp_connection := match status with OK => req_connection request | NOT_FOUND => CLOSE end;
  rsp_sec_websocket_accept := EmptyString;
  rsp_cache_control := "no-store";
  rsp_content_type := APPLICATION_JSON;
  rsp_body := "[" +:+ String.concat "," items +:+ "]" |}.

Lemma send_list_reply {A} (f : A → string) (l : list A) id request m :
  (∀ x, f x ≠ EmptyString) →
  send_list id request (list_to_json f l) m
  = server_call (Sent id (list_reply request (f <$> l))) (server_send id (list_reply request (f <$> l))) m.
Proof.
  intros Hf. unfold send_list. rewrite (bool_decide_ext _ (l = [])) by by apply list_to_json_empty.
  rewrite list_to_json_concat by done. case_bool_decide as Hl; [by subst|].
  destruct l as [|x l]; [done|]. done.
Qed.

Lemma get_trades_sends (now id : Z) (request : Request) (account start : string) (t : Z) (l : list db_Trade) m :
  req_method request = GET → req_connection request ≠ UPGRADE →
  drop_prefix (m_url_prefix m) (req_path request) = ["trades"] →
  query_keys "account" "start_time" (req_query request) (EmptyString, EmptyString) = Ret (account, start) →
  convert_to_timestamp start = Ret t → db_trades account t (m_database m) = Ret l →
  (∀ r, server_send id r = Ret ()) →
  Session_request now id request m
  = (Ret (), add_out (Sent id (list_reply request (trade_to_json <$> l))) m).
Proof.
  intros Hmethod Hconn Hpath Hquery Ht Hdb Hsend.
  unfold Session_request. rewrite bool_decide_false by done. unfold catch_all.
  unfold bind at 1, get. rewrite Hpath. cbn [route]. rewrite bool_decide_false by done.
  unfold route. rewrite Hmethod. unfold get_trades. unfold bind at 1, lift at 1. rewrite Hquery.
  unfold bind at 1, lift at 1. rewrite Ht. unfold bind at 1, ask. rewrite Hdb.
  rewrite send_list_reply by done. unfold server_call, bind, modify, lift. by rewrite Hsend.
Qed.

(** A request for trades: when the query names only an account and a start
    time and the database answers, the reply is the list of its trades, each as
    JSON, separated by commas; an empty list is "not found" and closes the
    connection. *)
Theorem get_trades_reply (now id : Z) (request : Request) (account start : string) (t : Z)
    (l : list db_Trade) m
    (Hmethod : req_method request = GET) (Hconn : req_connection request ≠ UPGRADE)
    (Hpath : drop_prefix (m_url_prefix m) (req_path request) = ["trades"])
    (Hquery : query_keys "account" "start_time" (req_query request) (EmptyString, EmptyString)
              = Ret (account, start))
    (Ht : convert_to_timestamp start = Ret t) (Hdb : db_trades account t (m_database m) = Ret l)
    (Hsend : ∀ r, server_send id r = Ret ()) :
  Session_request now id request m
  = (Ret (), add_out (Sent id (list_reply request (trade_to_json <$> l))) m).
Proof. by eapply get_trades_sends. Qed.

(** A request whose path is not served, and is not an upgrade, is not
    answered: nothing is sent, the connection stays open, nothing changes. *)
Lemma unknown_path_silent (now id : Z) (request : Request) (first : string) (rest : list string) m
    (Hconn : req_connection request ≠ UPGRADE)
    (Hpath : drop_prefix (m_url_prefix m) (req_path request) = first :: rest)
    (Hunknown : first ∉ ["accounts"; "positions"; "trades"; "funds"; "trade"; "compress"]%string) :
  Session_request now id request m = (Ret (), m).
Proof.
  unfold Session_request. rewrite bool_decide_false by done. unfold catch_all, bind, get.
  rewrite Hpath, bool_decide_false by done.
  unfold route. repeat (case_match; try done); subst; exfalso; apply Hunknown; set_solver.
Qed.

(** ** Requests that write *)

(** A request with one path component, after the prefix. *)
Definition addressed (method : Method) (name : string) (request : Request) m : Prop :=
  req_method request = method ∧ req_connection request ≠ UPGRADE
  ∧ drop_prefix (m_url_prefix m) (req_path request) = [name].

Lemma Session_request_put_trade now id request m :
  addressed PUT "trade" request m →
  Session_request now id request m = catch_all (put_trade now id request) (Session_close id) m.
Proof.
  intros (Hm & Hc & Hp). unfold Session_request. rewrite bool_decide_false by done.
  unfold catch_all, bind at 1, get. rewrite Hp. rewrite bool_decide_false by done.
  unfold route. by rewrite Hm.
Qed.

Lemma Session_request_put_compress now id request m :
  addressed PUT "compress" request m →
  Session_request now id request m = catch_all (put_compress id request) (Session_close id) m.
Proof.
  intros (Hm & Hc & Hp). unfold Session_request. rewrite bool_decide_false by done.
  unfold catch_all, bind at 1, get. rewrite Hp. rewrite bool_decide_false by done.
  unfold route. by rewrite Hm.
Qed.

Definition success_reply (request : Request) : Response := {|
  rsp_status := OK;
  rsp_connection := req_connection request;
  rsp_sec_websocket_accept := EmptyString;
  rsp_cache_control := "no-store";
  rsp_content_type := APPLICATION_JSON;
  rsp_body := success_text true |}.

Lemma put_trade_object_eq now id request (j : json) (c : db_Correction) (d : D) r m :
  addressed PUT "trade" request m → req_body request ≠ EmptyString →
  json_parse (req_body request) = Ret j → json_is_array j = false → parse_item j = Ret c →
  db_insert_corrections now [c] (m_database m) = (r, d) → (∀ r, server_send id r = Ret ()) →
  Session_request now id request m
  = match r with
    | Ret _ => (Ret (), add_out (Sent id (success_reply request)) (set_database d m))
    | Throw _ => (Ret (), add_out (Closed id) (set_database d m))
    | Fatal => (Fatal, set_database d m)
    | Undef => (Undef, set_database d m)
    end.
Proof.
  intros Haddr Hbody Hparse Harray Hitem Hdb Hsend.
  rewrite Session_request_put_trade by done. unfold catch_all, put_trade.
  rewrite bool_decide_false by done. unfold bind at 1, lift at 1. rewrite Hparse, Harray.
  unfold bind at 1 2, lift at 1. rewrite Hitem. unfold ret at 1. unfold bind at 1, call. rewrite Hdb.
  destruct r as [[]|e| |]; try done.
  unfold Response_send, server_call, bind, modify, lift. by rewrite Hsend.
Qed.

(** A correction sent as one JSON object: if the object parses, the database
    gets that one correction; the client is told of success when the database
    took it, and the connection is closed when the database threw, with whatever
    the database had done. *)
Theorem put_trade_object (now id : Z) (request : Request) (j : json) (c : db_Correction) (d : D) r m
    (Haddr : addressed PUT "trade" request m) (Hbody : req_body request ≠ EmptyString)
    (Hparse : json_parse (req_body request) = Ret j) (Harray : json_is_array j = false)
    (Hitem : parse_item j = Ret c)
    (Hdb : db_insert_corrections now [c] (m_database m) = (r, d))
    (Hsend : ∀ r, server_send id r = Ret ()) :
  Session_request now id request m
  = match r with
    | Ret _ => (Ret (), add_out (Sent id (success_reply request)) (set_database d m))
    | Throw _ => (Ret (), add_out (Closed id) (set_database d m))
    | Fatal => (Fatal, set_database d m)
    | Undef => (Undef, set_database d m)
    end.
Proof. by apply put_trade_object_eq with j c. Qed.



End props.

(** ** Evaluation

    A JSON reader that knows three texts, a server that accepts everything, and
    the SQLite session on empty tables. *)

Module control_example.
#[warnings="-register-all"]
Inductive jvalue : Type :=
| JString (s : string)
| JInteger (z : Z)
| JArray (l : list jvalue)
| JObject (l : list (string * jvalue)).

Definition correction_value : jvalue :=
  JObject [("account", JString "A1"); ("symbol", JString "BTC"); ("side", JString "BUY");
           ("quantity", JInteger 2); ("price", JInteger 100)].

Definition parse (text : string) : outcome jvalue :=
  if bool_decide (text = "one") then Ret correction_value
  else if bool_decide (text = "many") then Ret (JArray [correction_value; correction_value])
  else if bool_decide (text = "ping") then
    Ret (JObject [("jsonrpc", JString "2.0"); ("method", JString "ping"); ("params", JArray []); ("id", JInteger 7)])
  else if bool_decide (text = "time") then Ret (JObject [("end_time", JString "5")])
  else Throw JsonError.

#[export] Instance test_json : Json := {|
  json := jvalue;
  json_parse := parse;
  json_is_array := λ j, match j with JArray _ => true | _ => false end;
  json_elements := λ j, match j with JArray l => l | _ => [] end;
  json_items := λ j, match j with JObject l => l | _ => [] end;
  json_at := λ key j,
    match j with
    | JObject l => match list_find (λ kv, kv.1 = key) l with Some (_, kv) => Ret kv.2 | None => Throw JsonError end
    | _ => Throw JsonError
    end;
  json_type := λ j, match j with JString _ => value_string | JInteger _ => value_number_integer
                              | JArray _ => value_array | JObject _ => value_object end;
  json_get_string := λ j, match j with JString s => Ret s | _ => Throw JsonError end;
  json_get_uint32 := λ j, match j with JInteger z => Ret (u32 z) | _ => Throw JsonError end;
  json_get_int64 := λ j, match j with JInteger z => Ret z | _ => Throw JsonError end;
  json_get_double := λ j, match j with JInteger z => Ret (of_Z z) | _ => Throw JsonError end;
  json_String := quoted;
  json_Number := λ _, "1";
|}.

#[export] Instance example_server : WebServer := accepting.
#[export] Instance example_order : HashOrder := in_order.
#[export] Instance example_engine : SqlEngine := table_order.

Definition empty_database : SqliteSession := {| ss_trades := []; ss_funds := [] |}.

(** A manager with a subscriber (1), a waiting session (2) and a zombie (3). *)
Definition manager : Manager SqliteSession := {|
  m_url_prefix := "api"; m_next_session_id := 3;
  m_sessions := {[ 1 := READY; 2 := WAITING; 3 := ZOMBIE ]}; m_subscribers := {[ 1 ]};
  m_next_cleanup := 0; m_zombies := {[ 3 ]}; m_database := empty_database; m_out := [] |}.

Definition request (method : Method) (path : list string) (query : list (string * string)) (body : string)
    : Request :=
  {| req_method := method; req_path := path; req_query := query;
     req_connection := KEEP_ALIVE; req_body := body |}.

(** A session that was accepted and asked for the upgrade. *)
Definition upgrade : Request :=
  {| req_method := GET; req_path := []; req_query := [];
     req_connection := UPGRADE; req_body := EmptyString |}.
Definition upgraded : Manager SqliteSession :=
  (handle (EvRequest 9 1 upgrade) (handle EvAccept (Manager_ctor "api" empty_database)).2).2.
End control_example.

Section control_witnesses.
Import control_example.


Lemma only_put_writes_witness :
  m_database (Session_request 9 2 (request GET ["api"; "trades"] [] "one") manager).2 = m_database manager
  ∧ m_database (Session_text 2 "one" manager).2 = m_database manager.
Proof. apply (only_put_writes 9 2 (request GET ["api"; "trades"] [] "one") "one" manager). discriminate. Defined.

Definition stored_correction : db_Correction := {|
  dbc_user := EmptyString; dbc_strategy_id := 0; dbc_account := "A1"; dbc_exchange := EmptyString;
  dbc_symbol := "BTC"; dbc_side := BUY; dbc_quantity := of_Z 2; dbc_price := of_Z 100;
  dbc_exchange_time_utc := 0; dbc_reason := EmptyString |}.



End control_witnesses.
