(* ===== verification/JsonRpc.v ===== *)
(** * Messages of websocket sessions

    [Session::process] and what it calls (control/session.cpp): a JSON-RPC message is
    answered with an error that echoes its id, since no method is defined yet;
    anything else closes the connection. *)

From S2P Require Import Prelude Double Messages Instrument Position Groups Shared SharedFacts RiskFacts.
From S2P Require Import Config Format Text Web Statement Sql Trades TradesFacts Funds Database.
From S2P Require Import Control ControlFacts ControlProps.

(** What the code relies on of nlohmann's JSON: parsing and access return or throw,
    and the text of a string and the value of an integer can be read. *)
Class JsonLaws `{J : Json} : Prop := {
  json_parse_settles s : settles (json_parse s);
  json_at_settles key j : settles (json_at key j);
  json_get_string_settles j : settles (json_get_string j);
  json_get_string_type j : json_type j = value_string → is_Ret (json_get_string j);
  json_get_int64_type j :
    json_type j = value_number_integer ∨ json_type j = value_number_unsigned → is_Ret (json_get_int64 j);
}.

(** ** Replies *)

(** The ids a reply can echo. *)
Inductive request_id : Type :=
| IdString (s : string)
| IdInteger (z : Z).

Definition id_text (i : request_id) : string :=
  match i with IdString s => quoted s | IdInteger z => pretty z end.

(** [{"jsonrpc":"2.0","error":"UNKNOWN_METHOD","id":...}] *)
Definition error_text (i : request_id) : string :=
  object_text [("jsonrpc", quoted "2.0"); ("error", quoted "UNKNOWN_METHOD"); ("id", id_text i)].

Lemma append_inv_r s1 s2 a : s1 +:+ String a EmptyString = s2 +:+ String a EmptyString → s1 = s2.
Proof.
  revert s2. induction s1 as [|b s1 IH]; intros [|b' s2]; cbn; [done|..].
  - intros [= _ H]. by destruct s2.
  - intros [= _ H]. by destruct s1.
  - intros [= -> H]. f_equal. by apply IH.
Qed.

Lemma quoted_not_integer s (z : Z) : quoted s ≠ pretty z.
Proof.
  pose proof (pretty_Z_without (Ascii.ascii_of_nat 34) z) as H. intros Heq. rewrite <- Heq in H.
  destruct H as [H _]; [unfold separator; set_solver|done].
Qed.

Lemma id_text_inj i i' : id_text i = id_text i' → i = i'.
Proof.
  destruct i as [s|z], i' as [s'|z']; cbn [id_text]; intros H.
  - f_equal. unfold quoted in H. apply append_inv_l in H. by apply append_inv_r in H.
  - by destruct (quoted_not_integer s z').
  - by destruct (quoted_not_integer s' z).
  - f_equal. by apply (inj pretty).
Qed.

Lemma error_text_inj i i' : error_text i = error_text i' → i = i'.
Proof.
  unfold error_text, object_text. cbn [fmap list_fmap String.concat fst snd]. intros H.
  rewrite !text_append_assoc in H. repeat apply append_inv_l in H. apply append_inv_r in H. by apply id_text_inj.
Qed.

Section jsonrpc.
Context `{J : !Json} `{L : !JsonLaws} `{W : !WebServer} {D : Type} `{DB : !Database D}.
Implicit Types (m : Manager D) (id : Z).

(** The id of a message of the protocol: version 2.0, a method with a name,
    parameters and an id. *)
Definition message_id (payload : string) : outcome json :=
  let? j := json_parse payload in
  let? version := json_at "jsonrpc" j in
  let? version := json_get_string version in
  if bool_decide (version = JSONRPC_VERSION) then
    let? method := json_at "method" j in
    let? _ := json_get_string method in
    let? _ := json_at "params" j in
    json_at "id" j
  else Throw RuntimeError.

(** The id as a reply can echo it. *)
Definition echo (j : json) : option request_id :=
  match json_type j, json_get_string j, json_get_int64 j with
  | value_string, Ret s, _ => Some (IdString s)
  | (value_number_integer | value_number_unsigned), _, Ret z => Some (IdInteger z)
  | _, _, _ => None
  end.

(** What the session does for a message. *)
Definition answer id (payload : string) : list output :=
  match message_id payload with
  | Ret j => match echo j with Some i => [SentText id (error_text i)] | None => [] end
  | _ => [Closed id]
  end.

Lemma process_jsonrpc_eq id method params j m :
  (∀ id t, server_send_text id t = Ret ()) →
  process_jsonrpc id method params j m
  = (Ret (), match echo j with Some i => add_out (SentText id (error_text i)) m | None => m end).
Proof.
  intros Hs. unfold process_jsonrpc, send_error, send_jsonrpc, echo. pose proof (json_get_string_type j) as H1.
  pose proof (json_get_int64_type j) as H2.
  destruct (json_type j); try done.
  - destruct (json_get_string j) as [s| | |]; try by destruct (H1 eq_refl).
    unfold bind, lift, send_text, server_call. by rewrite Hs.
  - destruct (json_get_int64 j) as [z| | |]; try by destruct (H2 (or_introl eq_refl)).
    unfold bind, lift, send_text, server_call. by rewrite Hs.
  - destruct (json_get_int64 j) as [z| | |]; try by destruct (H2 (or_intror eq_refl)).
    unfold bind, lift, send_text, server_call. by rewrite Hs.
Qed.

Lemma process_eq id payload m :
  (∀ id t, server_send_text id t = Ret ()) →
  process id payload m = (Ret (), fold_left (λ m o, add_out o m) (answer id payload) m).
Proof.
  intros Hs. unfold process, answer, message_id, catch_all.
  pose proof (json_parse_settles payload) as Hj. unfold bind at 1, lift at 1.
  destruct (json_parse payload) as [j|e| |]; try done. cbn [outcome_bind].
  pose proof (json_at_settles "jsonrpc" j) as Hv. unfold bind at 1, lift at 1.
  destruct (json_at "jsonrpc" j) as [v|e| |]; try done. cbn [outcome_bind].
  pose proof (json_get_string_settles v) as Hv'. destruct (json_get_string v) as [version|e| |]; try done. cbn [outcome_bind].
  case_bool_decide; [|done].
  pose proof (json_at_settles "method" j) as Hm. unfold bind at 1, lift at 1.
  destruct (json_at "method" j) as [method|e| |]; try done. cbn [outcome_bind].
  pose proof (json_get_string_settles method) as Hm'. destruct (json_get_string method) as [name|e| |]; try done. cbn [outcome_bind].
  pose proof (json_at_settles "params" j) as Hp. unfold bind at 1, lift at 1.
  destruct (json_at "params" j) as [params|e| |]; try done. cbn [outcome_bind].
  pose proof (json_at_settles "id" j) as Hi. unfold bind at 1, lift at 1.
  destruct (json_at "id" j) as [rid|e| |]; try done.
  rewrite process_jsonrpc_eq by done. by destruct (echo rid).
Qed.

End jsonrpc.

(** ** Evaluation *)

Section jsonrpc_witnesses.
Import control_example.

Lemma test_json_laws : JsonLaws.
Proof.
  split.
  - intros s. cbn. unfold parse. by repeat case_bool_decide.
  - intros key j. cbn. destruct j as [| | |l]; try done. by destruct (list_find _ l) as [[? ?]|].
  - intros j. by destruct j.
  - intros j. by destruct j.
  - intros j. by destruct j; intros [].
Qed.

End jsonrpc_witnesses.
