(* ===== verification/Controller.v ===== *)
(** * The controller

    [risk_manager::Controller] (controller.hpp, controller.cpp): the handlers of
    the events the gateways send, over the shared risk state, the database and
    the control service. What is sent to the gateways is a trace.

    An event carries the number of its source; [state_] has one entry per source,
    and an index past its end is undefined. *)

From S2P Require Import Prelude Double Messages Instrument Position Groups Shared Text Web.
From S2P Require Import Statement Sql Trades TradesFacts Funds Database Control.

(** [Controller::State]. *)
Record State : Type := {
  st_session_id : Z;
  st_seqno : Z;
  st_ready : bool;
  st_latch_by_account : gset string;
}.
Definition State_default : State :=
  {| st_session_id := 0; st_seqno := 0; st_ready := false; st_latch_by_account := ∅ |}.

Section controller.
Context `{!RoqApi} `{!HashOrder} `{!Json} `{!WebServer} {D : Type} `{!Database D}.

Record Controller : Type := {
  c_manager : Manager D;
  c_shared : Shared;
  c_last_exchange_time_utc : Z;
  c_state : list State;
  c_sent : list (Z * RiskLimits);
}.

Definition set_manager (m : Manager D) (c : Controller) : Controller :=
  {| c_manager := m; c_shared := c_shared c; c_last_exchange_time_utc := c_last_exchange_time_utc c;
     c_state := c_state c; c_sent := c_sent c |}.
Definition set_shared (s : Shared) (c : Controller) : Controller :=
  {| c_manager := c_manager c; c_shared := s; c_last_exchange_time_utc := c_last_exchange_time_utc c;
     c_state := c_state c; c_sent := c_sent c |}.
Definition set_last_exchange_time_utc (t : Z) (c : Controller) : Controller :=
  {| c_manager := c_manager c; c_shared := c_shared c; c_last_exchange_time_utc := t;
     c_state := c_state c; c_sent := c_sent c |}.
Definition set_source_states (l : list State) (c : Controller) : Controller :=
  {| c_manager := c_manager c; c_shared := c_shared c;
     c_last_exchange_time_utc := c_last_exchange_time_utc c; c_state := l; c_sent := c_sent c |}.

(** [dispatcher_.send(risk_limits, source)]. *)
Definition dispatcher_send (source : Z) (r : RiskLimits) (c : Controller) : Controller :=
  {| c_manager := c_manager c; c_shared := c_shared c;
     c_last_exchange_time_utc := c_last_exchange_time_utc c; c_state := c_state c;
     c_sent := c_sent c ++ [(source, r)] |}.

Abbreviation C := (act Controller).

Definition on_manager {A} (f : act (Manager D) A) : C A := λ c,
  let '(r, m) := f (c_manager c) in (r, set_manager m c).
Definition on_shared (f : Shared → Shared) : C () := modify (λ c, set_shared (f (c_shared c)) c).
Definition on_database {A} (f : act D A) : C A := on_manager (call f).

(** [state_[source]]. *)
Definition state_at (source : Z) : C State := λ c,
  match c_state c !! Z.to_nat source with Some st => (Ret st, c) | None => (Undef, c) end.
Definition put_state (source : Z) (st : State) : C () :=
  modify (λ c, set_source_states (<[Z.to_nat source := st]> (c_state c)) c).

(** ** Utilities *)

(** [operator()(MessageInfo const &)]. *)
Definition Controller_message_info (mi : MessageInfo) : C () :=
  let* st := state_at (mi_source mi) in
  put_state (mi_source mi)
    {| st_session_id := mi_source_session_id mi; st_seqno := mi_source_seqno mi;
       st_ready := st_ready st; st_latch_by_account := st_latch_by_account st |}.

(** The [RiskLimit] built in the inner callbacks. *)
Definition risk_limit (position : Position) (instrument : Instrument) : RiskLimit := {|
  rl_exchange := ins_exchange instrument;
  rl_symbol := ins_symbol instrument;
  rl_long_position := long_position position;
  rl_short_position := short_position position;
  rl_long_position_limit := long_position_limit position;
  rl_short_position_limit := short_position_limit position;
  rl_long_risk_exposure_limit := long_risk_exposure_limit position;
  rl_short_risk_exposure_limit := short_risk_exposure_limit position;
  rl_allow_netting := pos_allow_netting position;
|}.

Definition collect (position : Position) (instrument : Instrument) (buffer : list RiskLimit) : list RiskLimit :=
  buffer ++ [risk_limit position instrument].

(** The callback of [publish_accounts] on one account. *)
Definition publish_one_account (source : Z) (state : State) (c : Controller) (name : string) : Controller :=
  match sh_accounts (c_shared c) !! name with
  | None => c
  | Some account =>
      let '(_, buffer, s) := get_publish_by_account (grp_key account) collect [] (c_shared c) in
      let c := set_shared s c in
      if bool_decide (buffer = []) then c
      else dispatcher_send source
             {| rls_user := EmptyString; rls_strategy_id := 0; rls_account := grp_key account;
                rls_limits := buffer; rls_session_id := st_session_id state;
                rls_seqno := st_seqno state |} c
  end.

Definition publish_accounts (source : Z) : C () :=
  let* state := state_at source in
  modify (λ c, fold_left (publish_one_account source state) (keys (sh_accounts (c_shared c))) c).

(** The callback of [publish_users] on one user. *)
Definition publish_one_user (source : Z) (state : State) (c : Controller) (name : string) : Controller :=
  match sh_users (c_shared c) !! name with
  | None => c
  | Some user =>
      let '(_, buffer, s) := get_publish_by_user (grp_key user) collect [] (c_shared c) in
      let c := set_shared s c in
      if bool_decide (buffer = []) then c
      else dispatcher_send source
             {| rls_user := grp_key user; rls_strategy_id := 0; rls_account := EmptyString;
                rls_limits := buffer; rls_session_id := st_session_id state;
                rls_seqno := st_seqno state |} c
  end.

Definition publish_users (source : Z) : C () :=
  let* state := state_at source in
  modify (λ c, fold_left (publish_one_user source state) (keys (sh_users (c_shared c))) c).

(** The callback of [load_positions]. *)
Definition load_position (c : Controller) (position : db_Position) : Controller :=
  let c := set_last_exchange_time_utc
             (Z.max (c_last_exchange_time_utc c) (dbp_exchange_time_utc position)) c in
  let c := if bool_decide (dbp_user position = EmptyString) then c
           else set_shared (get_user (dbp_user position) (User_database user_handler position) (c_shared c)).2 c in
  if bool_decide (dbp_account position = EmptyString) then c
  else set_shared (get_account (dbp_account position) (Account_database account_handler position) (c_shared c)).2 c.

Definition load_positions : C () :=
  let* positions := on_manager (ask db_positions) in
  modify (λ c, fold_left load_position positions c).

(** ** Construction *)

(** What the constructor reads of the settings and the configuration. *)
Record Setup : Type := {
  su_url_prefix : string;
  su_accounts : limit_table string;
  su_users : limit_table string;
  su_strategies : limit_table Z;
  su_source_count : nat;
}.

Definition initial (setup : Setup) (database : D) : Controller := {|
  c_manager := Manager_ctor (su_url_prefix setup) database;
  c_shared := Shared_ctor (su_accounts setup) (su_users setup) (su_strategies setup);
  c_last_exchange_time_utc := 0;
  c_state := replicate (su_source_count setup) State_default;
  c_sent := [];
|}.

(** [Controller::Controller], with the session [Factory::create] returned and what
    creating the listener of the control service came to. *)
Definition Controller_ctor (setup : Setup) (database : outcome D) (listener : outcome ()) : outcome Controller :=
  let? d := database in
  let? _ := listener in
  match load_positions (initial setup d) with
  | (Ret _, c) => Ret c
  | (Throw e, _) => Throw e
  | (Fatal, _) => Fatal
  | (Undef, _) => Undef
  end.

(** ** Events *)

(** [source] runs over the sources; the published number is its low byte. *)
Definition publish_source (source : nat) : C () :=
  let* state := state_at (Z.of_nat source) in
  if st_ready state then
    publish_accounts (u8 (Z.of_nat source)) >> publish_users (u8 (Z.of_nat source))
  else ret ().

(** [Event<Timer>]; [events] is what [context_.drain()] delivers to the control
    service. *)
Definition Controller_timer (now : Z) (events : list control_event) : C () :=
  on_manager (for_each handle events) >>
  on_manager (Manager_timer now) >>
  let* c := get in
  for_each publish_source (seq 0 (length (c_state c))).

Definition Controller_connected (_ : MessageInfo) : C () := ret ().

Definition Controller_disconnected (mi : MessageInfo) : C () :=
  state_at (mi_source mi) >> put_state (mi_source mi) State_default.

Definition Controller_download_begin (mi : MessageInfo) (account : string) : C () :=
  Controller_message_info mi.

Definition Controller_download_end (mi : MessageInfo) (account : string) : C () :=
  Controller_message_info mi >>
  if bool_decide (account = EmptyString) then ret ()
  else
    let* st := state_at (mi_source mi) in
    if bool_decide (account ∈ st_latch_by_account st) then ret ()
    else
      put_state (mi_source mi)
        {| st_session_id := st_session_id st; st_seqno := st_seqno st; st_ready := st_ready st;
           st_latch_by_account := {[ account ]} ∪ st_latch_by_account st |} >>
      on_shared (publish_account account).

Definition Controller_ready (mi : MessageInfo) : C () :=
  Controller_message_info mi >>
  let* st := state_at (mi_source mi) in
  if st_ready st then ret ()
  else
    put_state (mi_source mi)
      {| st_session_id := st_session_id st; st_seqno := st_seqno st; st_ready := true;
         st_latch_by_account := st_latch_by_account st |} >>
    on_shared (get_all_users (λ user s, (user, publish_user (grp_key user) s))).

Definition Controller_reference_data (rd : ReferenceData) : C () :=
  on_shared (λ s,
    let '(instrument, s) := get_instrument (rd_exchange rd) (rd_symbol rd) s in
    let '(updated, instrument) := Instrument_reference_data rd instrument in
    let s := put_instrument instrument s in
    if updated : bool then
      get_all_users (User_reference_data user_handler rd)
        (get_all_accounts (Account_reference_data account_handler rd) s)
    else s).

(** The database record of one fill. *)
Definition trade_of_fill (tu : TradeUpdate) (item : Fill) : db_Trade := {|
  dbt_user := tu_user tu;
  dbt_strategy_id := tu_strategy_id tu;
  dbt_account := tu_account tu;
  dbt_exchange := tu_exchange tu;
  dbt_symbol := tu_symbol tu;
  dbt_side := tu_side tu;
  dbt_quantity := fill_quantity item;
  dbt_price := fill_price item;
  dbt_exchange_time_utc := tu_create_time_utc tu;
  dbt_external_account := tu_external_account tu;
  dbt_external_order_id := tu_external_order_id tu;
  dbt_external_trade_id := fill_external_trade_id item;
|}.

(** Every fill goes to the subscribers, then all of them to the database. *)
Definition store_trades (tu : TradeUpdate) : C () :=
  for_each (λ item, on_manager (Manager_trade (trade_of_fill tu item))) (tu_fills tu) >>
  on_database (db_insert_trades (trade_of_fill tu <$> tu_fills tu)).

Definition apply_trade (tu : TradeUpdate) (s : Shared) : Shared :=
  let s := (get_account (tu_account tu) (Account_trade_update account_handler tu) s).2 in
  (get_user (tu_user tu) (User_trade_update user_handler tu) s).2.

Definition Controller_trade_update (mi : MessageInfo) (tu : TradeUpdate) : C () :=
  Controller_message_info mi >>
  let* c := get in
  if tu_create_time_utc tu <=? c_last_exchange_time_utc c then ret ()
  else
    on_shared (apply_trade tu) >>
    catch_all (store_trades tu) (ret ()).

(** [accounts_by_source[source][account]], created when missing. *)
Definition source_account (source : Z) (account : string) (s : Shared) : shared_Account :=
  default shared_Account_default (at_key source (sh_accounts_by_source s) !! account).
Definition put_source_account (source : Z) (account : string) (a : shared_Account) (s : Shared) : Shared :=
  set_accounts_by_source
    (<[source := <[account := a]> (at_key source (sh_accounts_by_source s))]> (sh_accounts_by_source s)) s.

Definition Controller_position_update (mi : MessageInfo) (pu : PositionUpdate) : C () :=
  on_shared (λ s,
    let account := source_account (mi_source mi) (pu_account pu) s in
    let by_symbol := at_key (pu_exchange pu) (sa_positions account) in
    let position := default cache_Position_default (by_symbol !! pu_symbol pu) in
    let '(_, position) := cache_Position_update pu position in
    put_source_account (mi_source mi) (pu_account pu)
      {| sa_positions := <[pu_exchange pu := <[pu_symbol pu := position]> by_symbol]> (sa_positions account);
         sa_funds := sa_funds account |} s).

(** The database record of a funds update. *)
Definition funds_of_update (fu : FundsUpdate) : db_Funds := {|
  dbf_account := fu_account fu;
  dbf_currency := fu_currency fu;
  dbf_balance := fu_balance fu;
  dbf_hold := fu_hold fu;
  dbf_exchange_time_utc := fu_exchange_time_utc fu;
  dbf_external_account := fu_external_account fu;
|}.

Definition Controller_funds_update (now : Z) (mi : MessageInfo) (fu : FundsUpdate) : C () :=
  on_database (db_insert_funds now [funds_of_update fu]) >>
  on_shared (λ s,
    let account := source_account (mi_source mi) (fu_account fu) s in
    let funds := default cache_Funds_default (sa_funds account !! fu_currency fu) in
    let '(_, funds) := cache_Funds_update fu funds in
    put_source_account (mi_source mi) (fu_account fu)
      {| sa_positions := sa_positions account;
         sa_funds := <[fu_currency fu := funds]> (sa_funds account) |} s).

(** ** Dispatch *)

(** The events of [client::Handler] the controller handles. *)
Inductive event : Type :=
| ETimer (now : Z) (events : list control_event)
| EConnected (mi : MessageInfo)
| EDisconnected (mi : MessageInfo)
| EDownloadBegin (mi : MessageInfo) (account : string)
| EDownloadEnd (mi : MessageInfo) (account : string)
| EReady (mi : MessageInfo)
| EReferenceData (rd : ReferenceData)
| ETradeUpdate (mi : MessageInfo) (tu : TradeUpdate)
| EPositionUpdate (mi : MessageInfo) (pu : PositionUpdate)
| EFundsUpdate (now : Z) (mi : MessageInfo) (fu : FundsUpdate).

Definition on_event (e : event) : C () :=
  match e with
  | ETimer now events => Controller_timer now events
  | EConnected mi => Controller_connected mi
  | EDisconnected mi => Controller_disconnected mi
  | EDownloadBegin mi account => Controller_download_begin mi account
  | EDownloadEnd mi account => Controller_download_end mi account
  | EReady mi => Controller_ready mi
  | EReferenceData rd => Controller_reference_data rd
  | ETradeUpdate mi tu => Controller_trade_update mi tu
  | EPositionUpdate mi pu => Controller_position_update mi pu
  | EFundsUpdate now mi fu => Controller_funds_update now mi fu
  end.
End controller.
Arguments Controller {_} D.
