(* ===== verification/ControllerFacts.v ===== *)
(** * Facts about the controller

    How the handlers act on the parts of the controller's state, and the lemmas
    the theorems of ControllerProps.v share. *)

From S2P Require Import Prelude Double Messages Instrument Position Groups Shared SharedFacts.
From S2P Require Import RiskFacts Text Web Statement Sql Trades TradesFacts Funds Database Control.
From S2P Require Import ControlFacts Controller.

Section controller_facts.
Context `{Api : !RoqApi} `{Order : !HashOrder} `{J : !Json} `{W : !WebServer} {D : Type} `{DB : !Database D}.
Implicit Types (c : Controller D).

(** ** Frames *)

(** Only the control service and the database differ. *)
Record same_risk c c' : Prop := {
  sr_shared : c_shared c' = c_shared c;
  sr_last : c_last_exchange_time_utc c' = c_last_exchange_time_utc c;
  sr_state : c_state c' = c_state c;
  sr_sent : c_sent c' = c_sent c;
}.
#[global] Instance same_risk_preorder : PreOrder same_risk.
Proof. split; [done|]. intros c1 c2 c3 [] []. split; congruence. Qed.

Lemma same_risk_on_manager {A} (f : act (Manager D) A) : preserves same_risk (on_manager f).
Proof. intros c. unfold on_manager. by destruct (f (c_manager c)). Qed.

Lemma same_risk_store_trades tu : preserves same_risk (store_trades tu).
Proof.
  unfold store_trades. apply preserves_bind; [apply _| |intros _; apply same_risk_on_manager].
  apply preserves_for_each; [apply _|]. intros item. apply same_risk_on_manager.
Qed.

(** ** The entry of a source *)

Definition has_source (source : Z) c : Prop := is_Some (c_state c !! Z.to_nat source).

Lemma message_info_spec mi c st :
  c_state c !! Z.to_nat (mi_source mi) = Some st →
  Controller_message_info mi c
  = (Ret (), set_source_states
       (<[Z.to_nat (mi_source mi) :=
          {| st_session_id := mi_source_session_id mi; st_seqno := mi_source_seqno mi;
             st_ready := st_ready st; st_latch_by_account := st_latch_by_account st |}]> (c_state c)) c).
Proof. intros Hst. unfold Controller_message_info, bind, state_at. by rewrite Hst. Qed.

(** ** Trade updates *)

(** The update is newer than what was in the database at start. *)
Definition fresh c (tu : TradeUpdate) : Prop := c_last_exchange_time_utc c < tu_create_time_utc tu.
#[global] Instance fresh_dec c tu : Decision (fresh c tu).
Proof. unfold fresh. apply _. Defined.

(** The entry of the source after a message. *)
Definition noted (mi : MessageInfo) (st : State) c : Controller D :=
  set_source_states
    (<[Z.to_nat (mi_source mi) :=
       {| st_session_id := mi_source_session_id mi; st_seqno := mi_source_seqno mi;
          st_ready := st_ready st; st_latch_by_account := st_latch_by_account st |}]> (c_state c)) c.

Lemma trade_update_eq mi tu c st :
  c_state c !! Z.to_nat (mi_source mi) = Some st →
  Controller_trade_update mi tu c
  = if decide (fresh c tu)
    then catch_all (store_trades tu) (ret ()) (set_shared (apply_trade tu (c_shared c)) (noted mi st c))
    else (Ret (), noted mi st c).
Proof.
  intros Hst. unfold Controller_trade_update, bind at 1. rewrite (message_info_spec mi c st Hst).
  unfold bind at 1, get. cbn [c_last_exchange_time_utc set_source_states]. unfold fresh.
  destruct (Z.leb_spec (tu_create_time_utc tu) (c_last_exchange_time_utc c)).
  - by rewrite decide_False by lia.
  - by rewrite decide_True by lia.
Qed.

Lemma trade_update_effect mi tu c :
  has_source (mi_source mi) c →
  let c' := (Controller_trade_update mi tu c).2 in
  c_shared c' = (if decide (fresh c tu) then apply_trade tu (c_shared c) else c_shared c)
  ∧ c_last_exchange_time_utc c' = c_last_exchange_time_utc c
  ∧ length (c_state c') = length (c_state c)
  ∧ c_sent c' = c_sent c.
Proof.
  intros [st Hst] c'. subst c'. rewrite (trade_update_eq mi tu c st Hst). case_decide.
  - pose proof (preserves_catch same_risk (store_trades tu) (ret ())
      (same_risk_store_trades tu) (preserves_ret same_risk ())) as Hp.
    edestruct Hp as [-> -> -> ->]. split_and!; try done. apply length_insert.
  - split_and!; try done. apply length_insert.
Qed.

(** Subscribers and database may fail, but not take the process down. *)
Lemma store_trades_settled tu :
  (∀ id t, settles (server_send_text id t)) →
  settled (db_insert_trades (trade_of_fill tu <$> tu_fills tu)) → settled (store_trades tu).
Proof.
  intros Hs Hdb.
  assert (Hm : ∀ {A} (f : act (Manager D) A), settled f → settled (on_manager f)).
  { intros A f Hf c. unfold on_manager. specialize (Hf (c_manager c)). by destruct (f (c_manager c)). }
  unfold store_trades. apply settled_bind.
  - apply settled_for_each. intros item _. apply Hm. unfold Manager_trade.
    apply settled_bind; [done|]. intros m. apply settled_for_each. intros id _.
    destruct (m_sessions m !! id); [|done]. unfold Session_trade, send_text, server_call.
    apply settled_bind; [done|]. intros _ m'. apply Hs.
  - intros _. apply Hm. intros m. unfold call. specialize (Hdb (m_database m)).
    by destruct (db_insert_trades _ _).
Qed.

Lemma trade_update_total mi tu c :
  (∀ id t, settles (server_send_text id t)) →
  settled (db_insert_trades (trade_of_fill tu <$> tu_fills tu)) →
  has_source (mi_source mi) c → (Controller_trade_update mi tu c).1 = Ret ().
Proof.
  intros Hs Hdb [st Hst]. rewrite (trade_update_eq mi tu c st Hst). case_decide; [|done].
  by apply settled_catch, store_trades_settled.
Qed.

(** A run of trade updates. *)
Definition trade_updates (l : list (MessageInfo * TradeUpdate)) : act (Controller D) () :=
  for_each (λ x, Controller_trade_update x.1 x.2) l.

Lemma trade_updates_effect l c c' :
  Forall (λ x, has_source (mi_source x.1) c) l → trade_updates l c = (Ret (), c') →
  c_shared c' = fold_left (λ s tu, apply_trade tu s) (filter (fresh c) l.*2) (c_shared c).
Proof.
  unfold trade_updates. revert c. induction l as [|[mi tu] l IH]; intros c Hl Hrun; cbn in *; [by injection Hrun as <-|].
  apply Forall_cons in Hl as [Hmi Hl].
  destruct (trade_update_effect mi tu c Hmi) as (H1 & H2 & H3 & _).
  unfold bind in Hrun. cbn in Hmi.
  destruct (Controller_trade_update mi tu c) as [r c1]. cbn in *. destruct r as [[]| | |]; try done.
  assert (Hl1 : Forall (λ x, has_source (mi_source x.1) c1) l).
  { eapply Forall_impl; [exact Hl|]. intros x. unfold has_source. rewrite !lookup_lt_is_Some. lia. }
  rewrite (IH c1 Hl1 Hrun).
  assert (Hf : ∀ x, fresh c1 x ↔ fresh c x) by (intros x; unfold fresh; by rewrite H2).
  rewrite H1. rewrite (list_filter_iff (fresh c1) (fresh c)) by done.
  by case_decide.
Qed.

Lemma trade_updates_total l c :
  (∀ id t, settles (server_send_text id t)) →
  Forall (λ x, settled (db_insert_trades (trade_of_fill x.2 <$> tu_fills x.2))) l →
  Forall (λ x, has_source (mi_source x.1) c) l → ∃ c', trade_updates l c = (Ret (), c').
Proof.
  intros Hs Hdb. revert c. induction Hdb as [|[mi tu] l Hx Hdb IH]; intros c Hl; [by eexists|].
  apply Forall_cons in Hl as [Hmi Hl]. cbn in Hx, Hmi.
  pose proof (trade_update_total mi tu c Hs Hx Hmi) as H.
  destruct (trade_update_effect mi tu c Hmi) as (_ & _ & Hlen & _).
  unfold trade_updates. cbn [for_each]. unfold bind. cbn [fst snd].
  destruct (Controller_trade_update mi tu c) as [r c1]. cbn in *. subst r. apply IH.
  eapply Forall_impl; [exact Hl|]. intros x. unfold has_source. rewrite !lookup_lt_is_Some. lia.
Qed.

(** ** Positions through updates *)

Lemma apply_trade_effect tu n s :
  0 ≤ n → risk_wf (n + 2) s →
  let s' := apply_trade tu s in
  risk_wf n s'
  ∧ (∀ a e y, ∃ i, position_of_account a e y s'
       = if decide ((a, e, y) = (tu_account tu, tu_exchange tu, tu_symbol tu))
         then Position_trade_update tu i <$> position_of_account a e y s
         else position_of_account a e y s)
  ∧ (∀ u e y, ∃ i, position_of_user u e y s'
       = if decide ((u, e, y) = (tu_user tu, tu_exchange tu, tu_symbol tu))
         then Position_trade_update tu i <$> position_of_user u e y s
         else position_of_user u e y s).
Proof.
  intros Hn Hs s'. subst s'. unfold apply_trade.
  destruct (get_account_dispatch tu (λ g, publish_account_instrument (grp_key g)) (tu_account tu) (n + 1) s)
    as (W1 & _ & A1 & U1); [intros g; right; by eexists|lia|by replace (n + 1 + 1) with (n + 2) by lia|].
  set (s1 := (get_account _ _ s).2) in *.
  destruct (get_user_dispatch tu (λ g, publish_user_instrument (grp_key g)) (tu_user tu) n s1)
    as (W2 & _ & U2 & A2); [intros g; right; by eexists|lia|done|].
  split_and!; [exact W2| |].
  - intros a e y. eexists. etrans; [apply A2|]. apply A1.
  - intros u e y. eexists. etrans; [apply U2|]. rewrite U1. done.
Qed.

(** The updates of an account, or a user, in one instrument. *)
Definition of_account (a e y : string) (tu : TradeUpdate) : Prop :=
  (a, e, y) = (tu_account tu, tu_exchange tu, tu_symbol tu).
Definition of_user (u e y : string) (tu : TradeUpdate) : Prop :=
  (u, e, y) = (tu_user tu, tu_exchange tu, tu_symbol tu).
#[global] Instance of_account_dec a e y tu : Decision (of_account a e y tu).
Proof. unfold of_account. apply _. Defined.
#[global] Instance of_user_dec u e y tu : Decision (of_user u e y tu).
Proof. unfold of_user. apply _. Defined.

Definition apply_trades (l : list TradeUpdate) (s : Shared) : Shared :=
  fold_left (λ s tu, apply_trade tu s) l s.

(** One position through a run: it sees its own updates, in order. *)
Lemma apply_trades_positions l n s :
  0 ≤ n → risk_wf (n + 2 * Z.of_nat (length l)) s →
  risk_wf n (apply_trades l s)
  ∧ (∀ a e y, ∃ us, us.*1 = filter (of_account a e y) l
       ∧ position_of_account a e y (apply_trades l s) = apply_updates us <$> position_of_account a e y s)
  ∧ (∀ u e y, ∃ us, us.*1 = filter (of_user u e y) l
       ∧ position_of_user u e y (apply_trades l s) = apply_updates us <$> position_of_user u e y s).
Proof.
  intros Hn. unfold apply_trades. revert s. induction l as [|tu l IH]; intros s Hs; cbn [fold_left].
  { split_and!; [by eapply risk_wf_weaken; [|exact Hs]; cbn; lia| |];
      intros x e y; exists []; (split; [done|]); symmetry; apply option_fmap_id. }
  destruct (apply_trade_effect tu (n + 2 * Z.of_nat (length l)) s) as (Hw & Ha & Hu); [lia| |].
  { replace (n + 2 * Z.of_nat (length l) + 2) with (n + 2 * Z.of_nat (length (tu :: l))) by (cbn; lia). done. }
  destruct (IH _ Hw) as (Hw' & Ha' & Hu'). split_and!; [done| |].
  - intros a e y. destruct (Ha a e y) as [i Hi]. destruct (Ha' a e y) as (us & Hus & Hp).
    rewrite filter_cons, Hp, Hi. unfold of_account at 1. case_decide as Hc.
    + exists ((tu, i) :: us). rewrite decide_True by done. split; [by rewrite <- Hus|].
      by rewrite <- option_fmap_compose.
    + exists us. by rewrite decide_False.
  - intros u e y. destruct (Hu u e y) as [i Hi]. destruct (Hu' u e y) as (us & Hus & Hp).
    rewrite filter_cons, Hp, Hi. unfold of_user at 1. case_decide as Hc.
    + exists ((tu, i) :: us). rewrite decide_True by done. split; [by rewrite <- Hus|].
      by rewrite <- option_fmap_compose.
    + exists us. by rewrite decide_False.
Qed.

(** The trade ids reported by updates. *)
Definition executed (l : list TradeUpdate) : gset string := ⋃ ((λ tu, ids (tu_fills tu)) <$> l).

Lemma reported_executed us : reported us = executed us.*1.
Proof. unfold reported, executed. by rewrite <- list_fmap_compose. Qed.

(** ** Positions from the database *)

Definition db_of_account (a e y : string) (p : db_Position) : Prop :=
  (a, e, y) = (dbp_account p, dbp_exchange p, dbp_symbol p).
#[global] Instance db_of_account_dec a e y p : Decision (db_of_account a e y p).
Proof. unfold db_of_account. apply _. Defined.

Lemma load_position_effect p n c :
  0 ≤ n → risk_wf (n + 2) (c_shared c) →
  let c' := load_position c p in
  risk_wf n (c_shared c')
  ∧ c_last_exchange_time_utc c' = Z.max (c_last_exchange_time_utc c) (dbp_exchange_time_utc p)
  ∧ c_state c' = c_state c
  ∧ (∀ a e y, a ≠ EmptyString → ∃ i, position_of_account a e y (c_shared c')
       = if decide (db_of_account a e y p)
         then Position_database p i <$> position_of_account a e y (c_shared c)
         else position_of_account a e y (c_shared c)).
Proof.
  intros Hn Hs c'. subst c'. unfold load_position. set (c1 := set_last_exchange_time_utc _ c).
  set (c2 := if bool_decide (dbp_user p = EmptyString) then c1 else _).
  assert (Hc2 : risk_wf (n + 1) (c_shared c2)
    ∧ (∀ a e y, position_of_account a e y (c_shared c2) = position_of_account a e y (c_shared c))
    ∧ c_last_exchange_time_utc c2 = c_last_exchange_time_utc c1 ∧ c_state c2 = c_state c).
  { unfold c2. case_bool_decide.
    - split_and!; try done. by eapply risk_wf_weaken; [|exact Hs]; lia.
    - destruct (get_user_dispatch p (λ _, no_callback) (dbp_user p) (n + 1) (c_shared c1))
        as (W2 & _ & _ & A2); [by left|lia|by replace (n + 1 + 1) with (n + 2) by lia|].
      split_and!; try done. }
  destruct Hc2 as (W2 & A2 & L2 & S2). clearbody c2. case_bool_decide as Hacc.
  - split_and!; [by eapply risk_wf_weaken; [|exact W2]; lia|by rewrite L2|done|].
    intros a e y Ha. exists (Instrument_ctor 0 e y). rewrite A2, decide_False; [done|]. unfold db_of_account. congruence.
  - destruct (get_account_dispatch p (λ _, no_callback) (dbp_account p) n (c_shared c2))
      as (W3 & _ & A3 & _); [by left|lia|done|].
    split_and!; [done|exact L2|exact S2|]. intros a e y _. exists (get_instrument e y (c_shared c2)).1. etrans; [apply A3|].
    by rewrite A2.
Qed.

Lemma load_positions_effect ps n c :
  0 ≤ n → risk_wf (n + 2 * Z.of_nat (length ps)) (c_shared c) →
  let c' := fold_left load_position ps c in
  risk_wf n (c_shared c')
  ∧ c_last_exchange_time_utc c'
    = foldr Z.max (c_last_exchange_time_utc c) (dbp_exchange_time_utc <$> ps)
  ∧ c_state c' = c_state c
  ∧ (∀ a e y, a ≠ EmptyString → ∃ us, us.*1 = filter (db_of_account a e y) ps
       ∧ position_of_account a e y (c_shared c') = load_all us <$> position_of_account a e y (c_shared c)).
Proof.
  intros Hn. revert c. induction ps as [|p ps IH]; intros c Hs c'; subst c'; cbn [fold_left].
  { split_and!; try done; [by eapply risk_wf_weaken; [|exact Hs]; cbn; lia|].
    intros a e y _. exists []. split; [done|]. symmetry. apply option_fmap_id. }
  destruct (load_position_effect p (n + 2 * Z.of_nat (length ps)) c) as (W1 & L1 & S1 & A1); [lia| |].
  { replace (n + 2 * Z.of_nat (length ps) + 2) with (n + 2 * Z.of_nat (length (p :: ps))) by (cbn; lia). done. }
  destruct (IH _ W1) as (W2 & L2 & S2 & A2). split_and!; [done| |congruence|].
  - rewrite L2, L1. cbn. generalize (c_last_exchange_time_utc c). intros t. clear.
    induction ps as [|q ps IH]; cbn in *; lia.
  - intros a e y Ha. destruct (A1 a e y Ha) as [i Hi]. destruct (A2 a e y Ha) as (us & Hus & Hp).
    rewrite filter_cons, Hp, Hi. case_decide as Hc.
    + exists ((p, i) :: us). split; [by rewrite <- Hus|]. by rewrite <- option_fmap_compose.
    + by exists us.
Qed.

(** ** Publishing all users *)

(** The body of the loop over the users when a source becomes ready. *)
Definition publish_name (s : Shared) (name : string) : Shared :=
  (get_user name (λ user s, (user, publish_user (grp_key user) s)) s).2.

Lemma publish_name_spec s name g :
  sh_users s !! name = Some g → grp_key g = name →
  sh_users (publish_name s name) = sh_users s ∧ sh_registry (publish_name s name) = sh_registry s
  ∧ publish_by_user (sh_publish (publish_name s name))
    = publish_all name (sh_registry s) (publish_by_user (sh_publish s)).
Proof.
  intros Hg Hk. unfold publish_name, get_user. rewrite Hg. cbn. rewrite Hk.
  split_and!; try done. by apply insert_id.
Qed.

Lemma publish_names_spec names s :
  NoDup names → map_Forall (λ k g, grp_key g = k) (sh_users s) →
  Forall (λ n, is_Some (sh_users s !! n)) names →
  let s' := fold_left publish_name names s in
  sh_users s' = sh_users s ∧ sh_registry s' = sh_registry s
  ∧ ∀ u, publish_by_user (sh_publish s') !! u
    = if decide (u ∈ names)
      then Some (dom (instruments (sh_registry s)) ∪ default ∅ (publish_by_user (sh_publish s) !! u))
      else publish_by_user (sh_publish s) !! u.
Proof.
  intros Hnd. revert s. induction Hnd as [|n names Hn Hnd IH]; intros s Hk Hex; cbn [fold_left].
  { done. }
  apply Forall_cons in Hex as [[g Hg] Hex].
  destruct (publish_name_spec s n g Hg (Hk n g Hg)) as (E1 & E2 & E3).
  destruct (IH (publish_name s n)) as (F1 & F2 & F3); [by rewrite E1|by rewrite E1|].
  split_and!; [congruence|congruence|]. intros u. rewrite F3, E2, E3.
  destruct (decide (u = n)) as [->|Hne].
  - rewrite (decide_False (P := n ∈ names)) by done. rewrite decide_True by left. apply publish_all_lookup.
  - rewrite publish_all_lookup_ne by done. repeat case_decide; set_solver.
Qed.
End controller_facts.
