(* ===== verification/PublishFacts.v ===== *)
(** * Facts about publication

    What [publish_accounts] and [publish_users] send: one message per account, or
    user, with something pending, with one entry per pending position; nothing is
    pending afterwards. *)

From S2P Require Import Prelude Double Messages Instrument Position Groups Shared SharedFacts.
From S2P Require Import RiskFacts Text Web Statement Sql Trades TradesFacts Funds Database Control.
From S2P Require Import Controller ControllerFacts.

Section publish_facts.
Context `{Api : !RoqApi} `{Order : !HashOrder} `{J : !Json} `{W : !WebServer} {D : Type} `{DB : !Database D}.
Implicit Types (c : Controller D) (s : Shared).

Lemma collect_all (l : list (Position * Instrument)) b :
  fold_left (λ b '(p, i), collect p i b) l b = b ++ ((λ x, risk_limit x.1 x.2) <$> l).
Proof.
  revert b. induction l as [|[p i] l IH]; intros b; cbn; [by rewrite app_nil_r|].
  rewrite IH. unfold collect. by rewrite <- app_assoc.
Qed.

(** The entries of the message of a group with the pending instruments [set]. *)
Definition pending {K} `{Countable K} (r : Registry) (groups : gmap K (Group K)) (key : K)
    (set : gset Z) : list RiskLimit :=
  (λ x, risk_limit x.1 x.2) <$> found r groups key (hash_order (elements set)).

Lemma drain_collect {K} `{Countable K} get r (groups : gmap K (Group K)) key set :
  finds get → drain get r groups key collect set [] = pending r groups key set.
Proof. intros Hget. rewrite drain_found by done. apply (collect_all _ []). Qed.

(** ** Accounts *)

Definition account_limits (name : string) s : list RiskLimit :=
  match publish_by_account (sh_publish s) !! name with
  | Some set => pending (sh_registry s) (sh_accounts s) name set
  | None => []
  end.

Definition account_message (source : Z) (st : State) s (name : string) : option (Z * RiskLimits) :=
  match account_limits name s with
  | [] => None
  | limits => Some (source, {| rls_user := EmptyString; rls_strategy_id := 0; rls_account := name;
                               rls_limits := limits; rls_session_id := st_session_id st;
                               rls_seqno := st_seqno st |})
  end.

(** Nothing is pending for [name] any more. *)
Definition clear_account (name : string) s : Shared :=
  match publish_by_account (sh_publish s) !! name with
  | Some _ => set_publish_by_account (<[name := ∅]> (publish_by_account (sh_publish s))) s
  | None => s
  end.

Definition add_sent (l : list (Z * RiskLimits)) c : Controller D :=
  {| c_manager := c_manager c; c_shared := c_shared c;
     c_last_exchange_time_utc := c_last_exchange_time_utc c; c_state := c_state c;
     c_sent := c_sent c ++ l |}.

Lemma publish_one_account_eq source st c name :
  groups_wf (sh_accounts (c_shared c)) (c_shared c) → is_Some (sh_accounts (c_shared c) !! name) →
  publish_one_account source st c name
  = add_sent (option_list (account_message source st (c_shared c) name))
      (set_shared (clear_account name (c_shared c)) c).
Proof.
  intros Hwf [g Hg]. unfold publish_one_account. rewrite Hg. destruct (Hwf name g Hg) as [Hk _].
  unfold get_publish_by_account, account_message, account_limits, clear_account. rewrite Hk.
  destruct (publish_by_account (sh_publish (c_shared c)) !! name) as [set|].
  - rewrite drain_collect by done. destruct (pending _ _ _ _); cbn; [|done].
    unfold add_sent. cbn. by rewrite app_nil_r.
  - cbn. unfold add_sent. cbn. rewrite app_nil_r. by destruct c.
Qed.

Lemma clear_account_accounts name s : sh_accounts (clear_account name s) = sh_accounts s.
Proof. unfold clear_account. by destruct (_ !! _). Qed.

Lemma clear_account_limits name name' s :
  account_limits name' (clear_account name s) = if decide (name' = name) then [] else account_limits name' s.
Proof.
  unfold account_limits, clear_account. destruct (publish_by_account (sh_publish s) !! name) as [set|] eqn:Hp; cbn.
  - destruct (decide (name' = name)) as [->|Hne].
    + rewrite lookup_insert_eq. unfold pending. rewrite elements_empty.
      assert (hash_order (A := Z) [] = []) as -> by apply Permutation_nil_r, hash_order_perm. done.
    + by rewrite lookup_insert_ne.
  - case_decide as Hn; [subst; by rewrite Hp|done].
Qed.

Definition clear_accounts (names : list string) s : Shared := fold_left (λ s n, clear_account n s) names s.

Lemma groups_wf_clear groups name s : groups_wf groups s → groups_wf groups (clear_account name s).
Proof.
  intros Hg. eapply groups_wf_grows; [|exact Hg].
  apply grows_same_registry; unfold clear_account; by destruct (_ !! _).
Qed.

(** The loop over the accounts. *)
Lemma publish_accounts_fold source st names c :
  NoDup names → groups_wf (sh_accounts (c_shared c)) (c_shared c) →
  Forall (λ n, is_Some (sh_accounts (c_shared c) !! n)) names →
  fold_left (publish_one_account source st) names c
  = add_sent (omap (account_message source st (c_shared c)) names)
      (set_shared (clear_accounts names (c_shared c)) c).
Proof.
  intros Hnd. revert c. induction Hnd as [|n names Hn Hnd IH]; intros c Hwf Hex.
  { cbn. unfold add_sent. cbn. rewrite app_nil_r. by destruct c. }
  apply Forall_cons in Hex as [Hn' Hex]. cbn [fold_left].
  rewrite publish_one_account_eq by done. rewrite IH; cbn.
  - unfold add_sent. cbn. rewrite <- app_assoc. f_equal. f_equal.
    assert (omap (account_message source st (clear_account n (c_shared c))) names
            = omap (account_message source st (c_shared c)) names) as ->.
    { apply list_omap_ext, Forall_Forall2_diag, Forall_forall. intros m Hm. unfold account_message.
      rewrite clear_account_limits, decide_False; [done|]. by intros ->. }
    by destruct (account_message source st (c_shared c) n).
  - rewrite clear_account_accounts. by apply groups_wf_clear.
  - by rewrite clear_account_accounts.
Qed.

Lemma clear_accounts_limits names name s :
  account_limits name (clear_accounts names s) = if decide (name ∈ names) then [] else account_limits name s.
Proof.
  unfold clear_accounts. revert s. induction names as [|n names IH]; intros s; cbn [fold_left].
  { by rewrite decide_False by apply not_elem_of_nil. }
  rewrite IH, clear_account_limits. repeat case_decide; set_solver.
Qed.

Lemma publish_accounts_eq source st c :
  c_state c !! Z.to_nat source = Some st → groups_wf (sh_accounts (c_shared c)) (c_shared c) →
  publish_accounts source c
  = (Ret (), add_sent (omap (account_message source st (c_shared c)) (keys (sh_accounts (c_shared c))))
               (set_shared (clear_accounts (keys (sh_accounts (c_shared c))) (c_shared c)) c)).
Proof.
  intros Hst Hwf. unfold publish_accounts, bind, state_at. rewrite Hst. unfold modify.
  rewrite publish_accounts_fold; [done|apply NoDup_keys|done|].
  apply Forall_forall. intros n Hn. by apply elem_of_keys.
Qed.

Lemma clear_accounts_accounts names s : sh_accounts (clear_accounts names s) = sh_accounts s.
Proof.
  unfold clear_accounts. revert s. induction names as [|n names IH]; intros s; cbn; [done|].
  by rewrite IH, clear_account_accounts.
Qed.

Lemma groups_wf_clear_all groups names s : groups_wf groups s → groups_wf groups (clear_accounts names s).
Proof.
  unfold clear_accounts. revert s. induction names as [|n names IH]; intros s Hs; cbn; [done|].
  by apply IH, groups_wf_clear.
Qed.

(** ** Users *)

Definition user_limits (name : string) s : list RiskLimit :=
  match publish_by_user (sh_publish s) !! name with
  | Some set => pending (sh_registry s) (sh_users s) name set
  | None => []
  end.

Definition user_message (source : Z) (st : State) s (name : string) : option (Z * RiskLimits) :=
  match user_limits name s with
  | [] => None
  | limits => Some (source, {| rls_user := name; rls_strategy_id := 0; rls_account := EmptyString;
                               rls_limits := limits; rls_session_id := st_session_id st;
                               rls_seqno := st_seqno st |})
  end.

Definition clear_user (name : string) s : Shared :=
  match publish_by_user (sh_publish s) !! name with
  | Some _ => set_publish_by_user (<[name := ∅]> (publish_by_user (sh_publish s))) s
  | None => s
  end.

Lemma publish_one_user_eq source st c name :
  groups_wf (sh_users (c_shared c)) (c_shared c) → is_Some (sh_users (c_shared c) !! name) →
  publish_one_user source st c name
  = add_sent (option_list (user_message source st (c_shared c) name))
      (set_shared (clear_user name (c_shared c)) c).
Proof.
  intros Hwf [g Hg]. unfold publish_one_user. rewrite Hg. destruct (Hwf name g Hg) as [Hk _].
  unfold get_publish_by_user, user_message, user_limits, clear_user. rewrite Hk.
  destruct (publish_by_user (sh_publish (c_shared c)) !! name) as [set|].
  - rewrite drain_collect by done. destruct (pending _ _ _ _); cbn; [|done].
    unfold add_sent. cbn. by rewrite app_nil_r.
  - cbn. unfold add_sent. cbn. rewrite app_nil_r. by destruct c.
Qed.

(** ** Who is sent to *)

(** A message to a source that is ready, with the ids of its last message. *)
Definition addressed_ready (states : list State) (x : Z * RiskLimits) : Prop :=
  ∃ st, states !! Z.to_nat x.1 = Some st ∧ st_ready st = true
        ∧ rls_session_id x.2 = st_session_id st ∧ rls_seqno x.2 = st_seqno st.

(** The sources are as before, and what was sent since is addressed to ready
    ones. *)
Definition sends_ready c c' : Prop :=
  c_state c' = c_state c ∧ ∃ l, c_sent c' = c_sent c ++ l ∧ Forall (addressed_ready (c_state c)) l.
#[global] Instance sends_ready_preorder : PreOrder sends_ready.
Proof.
  split.
  - intros c. split; [done|]. exists []. by rewrite app_nil_r.
  - intros c1 c2 c3 [S1 (l1 & E1 & F1)] [S2 (l2 & E2 & F2)]. split; [congruence|].
    exists (l1 ++ l2). rewrite E2, E1, app_assoc. split; [done|]. apply Forall_app. split; [done|].
    by rewrite <- S1.
Qed.

Lemma sends_ready_quiet c c' : c_state c' = c_state c → c_sent c' = c_sent c → sends_ready c c'.
Proof. intros H1 H2. split; [done|]. exists []. by rewrite H2, app_nil_r. Qed.

Lemma sends_ready_one source st c r :
  c_state c !! Z.to_nat source = Some st → st_ready st = true →
  rls_session_id r = st_session_id st → rls_seqno r = st_seqno st →
  sends_ready c (dispatcher_send source r c).
Proof.
  intros Hst Hr H1 H2. split; [done|]. exists [(source, r)]. split; [done|]. apply Forall_singleton.
  by exists st.
Qed.

Lemma publish_one_account_sends source st c name :
  c_state c !! Z.to_nat source = Some st → st_ready st = true →
  sends_ready c (publish_one_account source st c name).
Proof.
  intros Hst Hr. unfold publish_one_account. destruct (_ !! name) as [g|]; [|done].
  destruct (get_publish_by_account _ _ _ _) as [[b buf] s]. case_bool_decide.
  - by apply sends_ready_quiet.
  - etrans; [|by apply (sends_ready_one source st)]. by apply sends_ready_quiet.
Qed.

Lemma publish_one_user_sends source st c name :
  c_state c !! Z.to_nat source = Some st → st_ready st = true →
  sends_ready c (publish_one_user source st c name).
Proof.
  intros Hst Hr. unfold publish_one_user. destruct (_ !! name) as [g|]; [|done].
  destruct (get_publish_by_user _ _ _ _) as [[b buf] s]. case_bool_decide.
  - by apply sends_ready_quiet.
  - etrans; [|by apply (sends_ready_one source st)]. by apply sends_ready_quiet.
Qed.

Lemma fold_sends (f : Controller D → string → Controller D) source st names c :
  (∀ c name, c_state c !! Z.to_nat source = Some st → sends_ready c (f c name)) →
  c_state c !! Z.to_nat source = Some st → sends_ready c (fold_left f names c).
Proof.
  intros Hf. revert c. induction names as [|n names IH]; intros c Hst; cbn; [done|].
  etrans; [by apply Hf|]. apply IH. by rewrite (proj1 (Hf c n Hst)).
Qed.

Lemma publish_source_sends (source : nat) :
  (source < 256)%nat → preserves sends_ready (publish_source (D := D) source).
Proof.
  intros Hs c. assert (Hu : u8 (Z.of_nat source) = Z.of_nat source) by (apply u8_small; lia).
  unfold publish_source. rewrite Hu. unfold bind at 1, state_at.
  destruct (c_state c !! Z.to_nat (Z.of_nat source)) as [st|] eqn:Hst; [|done]. cbn [snd].
  destruct (st_ready st) eqn:Hr; [|done].
  unfold bind at 1, publish_accounts, bind at 1, state_at. rewrite Hst. unfold modify.
  set (c1 := fold_left (publish_one_account _ st) _ c).
  assert (H1 : sends_ready c c1) by (apply (fold_sends _ (Z.of_nat source) st); [|done];
    intros; by apply publish_one_account_sends).
  unfold publish_users, bind, state_at. rewrite (proj1 H1), Hst. cbn [snd].
  etrans; [exact H1|]. apply (fold_sends _ (Z.of_nat source) st); [|by rewrite (proj1 H1)].
  intros. by apply publish_one_user_sends.
Qed.

Lemma for_each_sends (l : list nat) :
  Forall (λ n, (n < 256)%nat) l → preserves sends_ready (for_each (publish_source (D := D)) l).
Proof.
  induction 1 as [|n l Hn _ IH]; cbn [for_each]; [apply preserves_ret; apply _|].
  apply preserves_bind; [apply _|by apply publish_source_sends|done].
Qed.

Lemma timer_sends_ready now events c :
  (length (c_state c) ≤ 256)%nat → sends_ready c (Controller_timer now events c).2.
Proof.
  intros Hcount.
  assert (Hm : ∀ A (f : act (Manager D) A) c, sends_ready c (on_manager f c).2).
  { intros A f c'. destruct (same_risk_on_manager f c') as [_ _ H1 H2]. by apply sends_ready_quiet. }
  unfold Controller_timer. pose proof (Hm _ (for_each handle events) c) as H1. unfold bind at 1.
  destruct (on_manager (for_each handle events) c) as [[[]| | |] c1]; try done. cbn [snd] in H1.
  etrans; [exact H1|]. pose proof (Hm _ (Manager_timer now) c1) as H2. unfold bind at 1.
  destruct (on_manager (Manager_timer now) c1) as [[[]| | |] c2]; try done. cbn [snd] in H2.
  etrans; [exact H2|]. unfold bind, get. apply for_each_sends. apply Forall_forall. intros n Hn.
  apply elem_of_seq in Hn. rewrite (proj1 H2), (proj1 H1) in Hn. lia.
Qed.
End publish_facts.
