(* ===== verification/System.v ===== *)
(** * The controller as a system of events

    Runs of the controller: any sequence of the events it handles, each handler
    ending by a return or an exception. [sys_inv] is what holds at every moment of
    every run, the composition of the invariants of the parts: the risk state
    ([risk_inv]), the sources, the sessions of the control service ([control_wf])
    and the database ([db_ok]). *)

From S2P Require Import Prelude Double Messages Instrument Position Groups Shared SharedFacts RiskFacts.
From S2P Require Import RiskInv Text Web Statement Sql Trades TradesFacts Funds Database Control.
From S2P Require Import ControlFacts Controller ControllerFacts PublishFacts.

Section system.
Context `{Api : !RoqApi} `{Order : !HashOrder} `{J : !Json} `{W : !WebServer} {D : Type} `{DB : !Database D}
  `{L : !DatabaseLaws D}.
Implicit Types (c : Controller D) (s : Shared) (N : gset (string * string)).

(** ** Runs *)

(** The source of an event, and the instrument it names. *)
Definition event_source (e : event) : option Z :=
  match e with
  | EConnected mi | EDisconnected mi | EDownloadBegin mi _ | EDownloadEnd mi _ | EReady mi
  | ETradeUpdate mi _ | EPositionUpdate mi _ | EFundsUpdate _ mi _ => Some (mi_source mi)
  | ETimer _ _ | EReferenceData _ => None
  end.
Definition event_name (e : event) : option (string * string) :=
  match e with
  | EReferenceData rd => Some (rd_exchange rd, rd_symbol rd)
  | ETradeUpdate _ tu => Some (tu_exchange tu, tu_symbol tu)
  | _ => None
  end.

(** The events of the control service in a timer event, each delivered in the
    state the ones before it left. *)
Fixpoint delivered (events : list control_event) (m : Manager D) : Prop :=
  match events with
  | [] => True
  | e :: events' => deliverable e m ∧ delivered events' (handle e m).2
  end.

(** What the gateways and the network guarantee: events come from sources that
    were configured and are delivered to sessions that exist; the instruments are
    those of [N]. *)
Record admissible N c (e : event) : Prop := {
  ad_source : ∀ source, event_source e = Some source → has_source source c;
  ad_name : ∀ name, event_name e = Some name → name ∈ N;
  ad_control : match e with ETimer _ events => delivered events (c_manager c) | _ => True end;
}.

Inductive run N : Controller D → list event → Controller D → Prop :=
| run_nil c : run N c [] c
| run_cons c e r c1 l c2 :
    admissible N c e → on_event e c = (r, c1) → settles r → run N c1 l c2 → run N c (e :: l) c2.

(** Whether an event is admissible can be computed, and so can a run. *)
#[global] Instance deliverable_dec e m : Decision (deliverable (D := D) e m).
Proof. unfold deliverable. destruct (event_session e); apply _. Defined.

#[global] Instance delivered_dec events m : Decision (delivered events m).
Proof. revert m. induction events as [|e events IH]; intros m; cbn [delivered]; apply _. Defined.

Lemma admissible_alt N c e :
  (match event_source e with Some source => has_source source c | None => True end
   ∧ match event_name e with Some name => name ∈ N | None => True end
   ∧ match e with ETimer _ events => delivered events (c_manager c) | _ => True end) ↔ admissible N c e.
Proof.
  split.
  - intros (Hs & Hn & Hc). split; [|intros name Hname; by rewrite Hname in Hn|done].
    intros source Hsource. by rewrite Hsource in Hs.
  - intros [Hs Hn Hc]. split_and!; [| |done]; [destruct (event_source e)|destruct (event_name e)]; auto.
Qed.

#[global] Instance admissible_dec N c e : Decision (admissible N c e).
Proof.
  refine (cast_if (_ : Decision (match event_source e with Some source => has_source source c | None => True end
   ∧ match event_name e with Some name => name ∈ N | None => True end
   ∧ match e with ETimer _ events => delivered events (c_manager c) | _ => True end)));
    [|by apply admissible_alt|by rewrite <- admissible_alt].
  unfold has_source. destruct (event_source e), (event_name e), e; apply _.
Defined.

Fixpoint execute N (l : list event) c : option (Controller D) :=
  match l with
  | [] => Some c
  | e :: l' =>
      if decide (admissible N c e) then
        match on_event e c with
        | ((Ret _ | Throw _), c1) => execute N l' c1
        | _ => None
        end
      else None
  end.

Lemma execute_run N l c c' : execute N l c = Some c' → run N c l c'.
Proof.
  revert c. induction l as [|e l IH]; intros c; cbn; [intros [= ->]; constructor|].
  case_decide as Ha; [|done]. destruct (on_event e c) as [[|ex| |] c1] eqn:He; try done; intros Hl;
    (eapply run_cons; [exact Ha|exact He|done|by apply IH]).
Qed.

(** ** The invariant *)

Record sys_inv N (n : nat) c : Prop := {
  si_risk : risk_inv N (c_shared c);
  si_sources : length (c_state c) = n;
  si_control : control_wf (c_manager c);
  si_database : db_ok (m_database (c_manager c));
}.

(** What an event that is neither a timer nor a trade does to the rest. *)
Record quiet c c' : Prop := {
  qu_extends : extends (c_shared c) (c_shared c');
  qu_positions : same_positions (c_shared c) (c_shared c');
  qu_last : c_last_exchange_time_utc c' = c_last_exchange_time_utc c;
}.
#[global] Instance quiet_preorder : PreOrder quiet.
Proof.
  split; [by split|]. intros c1 c2 c3 [E1 P1 L1] [E2 P2 L2]. split; [by etrans|by etrans|congruence].
Qed.

(** ** Publication keeps the risk state *)

(** [s'] is [s] with other tables of what waits. *)
Record same_groups s s' : Prop := {
  sg_registry : sh_registry s' = sh_registry s;
  sg_accounts : sh_accounts s' = sh_accounts s;
  sg_users : sh_users s' = sh_users s;
  sg_limits : sh_limits s' = sh_limits s;
}.
#[global] Instance same_groups_preorder : PreOrder same_groups.
Proof. split; [done|]. intros s1 s2 s3 [] []. split; congruence. Qed.

Lemma same_groups_grows s s' : same_groups s s' → grows s s'.
Proof. intros [R A U Li]. apply grows_same_registry; [by rewrite R|done]. Qed.

Lemma same_groups_positions s s' : same_groups s s' → same_positions s s'.
Proof.
  intros [R A U Li]. split.
  - intros a e y. unfold position_of_account. rewrite A. destruct (sh_accounts s !! a); [|done]. cbn. f_equal.
    unfold position_in, position_for. cbn. unfold shared_ids, get_limit_by_account. by rewrite R, Li.
  - intros u e y. unfold position_of_user. rewrite U. destruct (sh_users s !! u); [|done]. cbn. f_equal.
    unfold position_in, position_for. cbn. unfold shared_ids, get_limit_by_user. by rewrite R, Li.
Qed.

Lemma same_groups_inv N s s' :
  same_groups s s' → risk_inv N s →
  (∀ k, waiting (publish_by_account (sh_publish s')) k
        ⊆ dom (instruments (sh_registry s)) ∪ waiting (publish_by_account (sh_publish s)) k) →
  (∀ k, waiting (publish_by_user (sh_publish s')) k
        ⊆ dom (instruments (sh_registry s)) ∪ waiting (publish_by_user (sh_publish s)) k) →
  risk_inv N s'.
Proof.
  intros Hg [[Hs Ha Hu] Hn [PA PU]] HA HU. pose proof (same_groups_grows _ _ Hg) as Hgr.
  destruct Hg as [R A U Li]. split.
  - split; [unfold shared_wf; by rewrite R|rewrite A|rewrite U]; by eapply groups_wf_grows.
  - unfold named. by rewrite R.
  - split; intros k; rewrite R; [specialize (PA k); specialize (HA k)|specialize (PU k); specialize (HU k)];
      set_solver.
Qed.

Lemma waiting_publish_all {K} `{Countable K} (k : K) (r : Registry) (m : gmap K (gset Z)) k' :
  waiting (publish_all k r m) k' = if decide (k' = k) then dom (instruments r) ∪ waiting m k' else waiting m k'.
Proof.
  unfold waiting. case_decide as Hk; [subst; by rewrite publish_all_lookup|by rewrite publish_all_lookup_ne].
Qed.

Lemma publish_account_inv N a s :
  risk_inv N s → risk_inv N (publish_account a s) ∧ extends s (publish_account a s)
                 ∧ same_positions s (publish_account a s).
Proof.
  intros Hs. assert (Hg : same_groups s (publish_account a s)) by done.
  split_and!; [| |by apply same_groups_positions].
  - eapply same_groups_inv; [done..| |]; intros k; cbn; [|set_solver].
    rewrite waiting_publish_all. case_decide; set_solver.
  - split; try done; [by apply same_groups_grows|]. intros k. cbn. rewrite waiting_publish_all.
    case_decide; set_solver.
Qed.

Lemma publish_name_inv N s name :
  risk_inv N s → risk_inv N (publish_name s name) ∧ extends s (publish_name s name)
                 ∧ same_positions s (publish_name s name).
Proof.
  intros Hs. unfold publish_name, get_user. destruct (sh_users s !! name) as [g|] eqn:Hg; [|done]. cbn.
  assert (Hsg : same_groups s (set_users (<[name := g]> (sh_users s)) (publish_user (grp_key g) s))).
  { split; try done. cbn. by rewrite insert_id. }
  split_and!; [| |by apply same_groups_positions].
  - eapply same_groups_inv; [done..| |]; intros k; cbn; [set_solver|].
    rewrite waiting_publish_all. case_decide; set_solver.
  - split; try done; [by apply same_groups_grows|cbn; by rewrite insert_id|].
    intros k. cbn. rewrite waiting_publish_all. case_decide; set_solver.
Qed.

Lemma publish_one_account_groups source st c name :
  let c' := publish_one_account source st c name in
  same_groups (c_shared c) (c_shared c')
  ∧ (∀ k, waiting (publish_by_account (sh_publish (c_shared c'))) k
          ⊆ waiting (publish_by_account (sh_publish (c_shared c))) k)
  ∧ publish_by_user (sh_publish (c_shared c')) = publish_by_user (sh_publish (c_shared c))
  ∧ c_manager c' = c_manager c ∧ c_state c' = c_state c
  ∧ c_last_exchange_time_utc c' = c_last_exchange_time_utc c.
Proof.
  cbn zeta. unfold publish_one_account, get_publish_by_account.
  destruct (sh_accounts (c_shared c) !! name) as [g|]; [|done].
  destruct (publish_by_account (sh_publish (c_shared c)) !! grp_key g) as [set|] eqn:Hset.
  - case_bool_decide; (split_and!; [done| |done..]); intros k; cbn; unfold waiting;
      (destruct (decide (k = grp_key g)) as [->|];
       [rewrite lookup_insert_eq; set_solver|by rewrite lookup_insert_ne]).
  - cbn. by destruct c.
Qed.

Lemma publish_one_user_groups source st c name :
  let c' := publish_one_user source st c name in
  same_groups (c_shared c) (c_shared c')
  ∧ (∀ k, waiting (publish_by_user (sh_publish (c_shared c'))) k
          ⊆ waiting (publish_by_user (sh_publish (c_shared c))) k)
  ∧ publish_by_account (sh_publish (c_shared c')) = publish_by_account (sh_publish (c_shared c))
  ∧ c_manager c' = c_manager c ∧ c_state c' = c_state c
  ∧ c_last_exchange_time_utc c' = c_last_exchange_time_utc c.
Proof.
  cbn zeta. unfold publish_one_user, get_publish_by_user.
  destruct (sh_users (c_shared c) !! name) as [g|]; [|done].
  destruct (publish_by_user (sh_publish (c_shared c)) !! grp_key g) as [set|] eqn:Hset.
  - case_bool_decide; (split_and!; [done| |done..]); intros k; cbn; unfold waiting;
      (destruct (decide (k = grp_key g)) as [->|];
       [rewrite lookup_insert_eq; set_solver|by rewrite lookup_insert_ne]).
  - cbn. by destruct c.
Qed.

(** ** The rest of the state *)

(** Only the tables of [s'] that no position depends on differ. *)
Lemma same_tables_extends s s' : same_groups s s' → sh_publish s' = sh_publish s → extends s s'.
Proof.
  intros Hg Hp. pose proof (same_groups_grows _ _ Hg). destruct Hg as [R A U Li].
  split; [done|by rewrite R|by rewrite A|by rewrite U|intros k; by rewrite Hp..].
Qed.

Lemma same_tables_inv N s s' :
  same_groups s s' → sh_publish s' = sh_publish s → risk_inv N s →
  risk_inv N s' ∧ extends s s' ∧ same_positions s s'.
Proof.
  intros Hg Hp Hs. split_and!; [|by apply same_tables_extends|by apply same_groups_positions].
  eapply same_groups_inv; [done..| |]; intros k; rewrite Hp; set_solver.
Qed.

(** What the events do to everything but the positions a trade is about. *)
Record step_ok N c c' : Prop := {
  so_risk : risk_inv N (c_shared c) → risk_inv N (c_shared c');
  so_sources : length (c_state c') = length (c_state c);
  so_last : c_last_exchange_time_utc c' = c_last_exchange_time_utc c;
  so_positions : risk_inv N (c_shared c) → same_positions (c_shared c) (c_shared c');
}.
#[global] Instance step_ok_preorder N : PreOrder (step_ok N).
Proof.
  split; [done|]. intros c1 c2 c3 [R1 S1 L1 P1] [R2 S2 L2 P2]. split; [auto|congruence|congruence|].
  intros H. etrans; eauto.
Qed.

(** A step that publishes nothing. *)
Record calm N c c' : Prop := {
  ca_step : step_ok N c c';
  ca_extends : risk_inv N (c_shared c) → extends (c_shared c) (c_shared c');
}.
#[global] Instance calm_preorder N : PreOrder (calm N).
Proof.
  split; [done|]. intros c1 c2 c3 [S1 E1] [S2 E2]. split; [by etrans|].
  intros H. etrans; [by apply E1|]. apply E2. by apply S1.
Qed.

Lemma calm_shared N (f : Shared → Shared) :
  (∀ s, risk_inv N s → risk_inv N (f s) ∧ extends s (f s) ∧ same_positions s (f s)) →
  preserves (calm N) (on_shared (D := D) f).
Proof. intros Hf c. split; [split|]; cbn; try done; intros Hs; by apply Hf. Qed.

Lemma calm_manager N {A} (f : act (Manager D) A) : preserves (calm N) (on_manager f).
Proof. intros c. unfold on_manager. by destruct (f (c_manager c)). Qed.

Lemma calm_state_at N source : preserves (calm N) (state_at (D := D) source).
Proof. intros c. unfold state_at. by case_match. Qed.

Lemma calm_put_state N source st : preserves (calm N) (put_state (D := D) source st).
Proof. intros c. split; [split|]; try done. apply length_insert. Qed.

Lemma calm_message_info N mi : preserves (calm N) (Controller_message_info (D := D) mi).
Proof.
  unfold Controller_message_info. apply preserves_bind; [apply _|apply calm_state_at|].
  intros st. apply calm_put_state.
Qed.
End system.
#[export] Hint Resolve calm_shared calm_manager calm_state_at calm_put_state calm_message_info : risk.

(** ** The events *)

Section events.
Context `{Api : !RoqApi} `{Order : !HashOrder} `{J : !Json} `{W : !WebServer} {D : Type} `{DB : !Database D}
  `{L : !DatabaseLaws D}.
Implicit Types (c : Controller D) (s : Shared) (N : gset (string * string)).

Lemma calm_download_end N mi account : preserves (calm N) (Controller_download_end (D := D) mi account).
Proof.
  unfold Controller_download_end. apply preserves_bind; auto with risk. intros _.
  case_bool_decide; auto with risk. apply preserves_bind; auto with risk. intros st.
  case_bool_decide; auto with risk. apply preserves_bind; auto with risk. intros _.
  apply calm_shared. apply publish_account_inv.
Qed.

Lemma calm_ready N mi : preserves (calm N) (Controller_ready (D := D) mi).
Proof.
  unfold Controller_ready. apply preserves_bind; auto with risk. intros _.
  apply preserves_bind; auto with risk. intros st. case_match; auto with risk.
  apply preserves_bind; auto with risk. intros _. apply calm_shared. intros s Hs.
  unfold get_all_users. apply fold_inv; [|done]. intros s' name. apply publish_name_inv.
Qed.

Lemma calm_reference_data N rd :
  fits N → (rd_exchange rd, rd_symbol rd) ∈ N → preserves (calm N) (Controller_reference_data (D := D) rd).
Proof.
  intros Hfit HN. apply calm_shared. intros s Hs.
  pose proof (reference_data_inv rd N s Hfit HN Hs) as H.
  destruct (get_instrument _ _ s) as [i s1]. by destruct (Instrument_reference_data rd i) as [b i'].
Qed.

Lemma calm_position_update N mi pu : preserves (calm N) (Controller_position_update (D := D) mi pu).
Proof. apply calm_shared. intros s Hs. cbn beta zeta. case_match. by apply same_tables_inv. Qed.

Lemma calm_funds_update N now mi fu : preserves (calm N) (Controller_funds_update (D := D) now mi fu).
Proof.
  unfold Controller_funds_update, on_database. apply preserves_bind; auto with risk. intros _.
  apply calm_shared. intros s Hs. cbn beta zeta. case_match. by apply same_tables_inv.
Qed.

(** ** The timer *)

Lemma step_publish_account N source st c name : step_ok N c (publish_one_account source st c name).
Proof.
  destruct (publish_one_account_groups source st c name) as (G & HW & HU & _ & HS & HL).
  split; [|by rewrite HS|done|intros _; by apply same_groups_positions].
  intros Hs. eapply same_groups_inv; [done..| |]; intros k; [specialize (HW k)|rewrite HU]; set_solver.
Qed.

Lemma step_publish_user N source st c name : step_ok N c (publish_one_user source st c name).
Proof.
  destruct (publish_one_user_groups source st c name) as (G & HW & HA & _ & HS & HL).
  split; [|by rewrite HS|done|intros _; by apply same_groups_positions].
  intros Hs. eapply same_groups_inv; [done..| |]; intros k; [rewrite HA|specialize (HW k)]; set_solver.
Qed.

Lemma step_fold N (f : Controller D → string → Controller D) l c :
  (∀ c x, step_ok N c (f c x)) → step_ok N c (fold_left f l c).
Proof. intros Hf. revert c. induction l as [|x l IH]; intros c; cbn; [done|]. etrans; [apply Hf|apply IH]. Qed.

Lemma calm_step N {A} (f : act (Controller D) A) : preserves (calm N) f → preserves (step_ok N) f.
Proof. intros Hf c. apply Hf. Qed.

Lemma step_publish_source N source : preserves (step_ok N) (publish_source (D := D) source).
Proof.
  unfold publish_source, publish_accounts, publish_users.
  assert (Hst : ∀ i, preserves (step_ok N) (state_at (D := D) i)) by (intros; apply calm_step; auto with risk).
  apply preserves_bind; auto with risk. intros st. case_match; auto with risk.
  apply preserves_bind; auto with risk; [|intros _]; apply preserves_bind; auto with risk;
    intros st' c; unfold modify; cbn; apply step_fold;
    auto using step_publish_account, step_publish_user.
Qed.

Lemma step_timer N now events : preserves (step_ok N) (Controller_timer (D := D) now events).
Proof.
  unfold Controller_timer. apply preserves_bind; auto with risk; [apply calm_step; auto with risk|intros _].
  apply preserves_bind; auto with risk; [apply calm_step; auto with risk|intros _].
  apply preserves_bind; auto with risk. intros c. apply preserves_for_each; [apply _|].
  intros source. apply step_publish_source.
Qed.

(** The publication of a source leaves the manager alone. *)
Definition same_manager c c' : Prop := c_manager c' = c_manager c.
#[global] Instance same_manager_preorder : PreOrder same_manager.
Proof. split; unfold same_manager; [done|]. intros c1 c2 c3. congruence. Qed.

Lemma same_manager_fold (f : Controller D → string → Controller D) l c :
  (∀ c x, same_manager c (f c x)) → same_manager c (fold_left f l c).
Proof. intros Hf. revert c. induction l as [|x l IH]; intros c; cbn; [done|]. etrans; [apply Hf|apply IH]. Qed.

Lemma same_manager_publish_source source : preserves same_manager (publish_source (D := D) source).
Proof.
  unfold publish_source, publish_accounts, publish_users.
  assert (Hst : ∀ i, preserves same_manager (state_at (D := D) i)) by (intros i c; unfold state_at; by case_match).
  apply preserves_bind; auto with risk. intros st. case_match; auto with risk.
  apply preserves_bind; auto with risk; [|intros _]; apply preserves_bind; auto with risk;
    intros st' c; unfold modify; cbn; apply same_manager_fold; intros c' name;
    [apply publish_one_account_groups|apply publish_one_user_groups].
Qed.

(** ** The database *)

Definition on_controller (R : relation (Manager D)) c c' : Prop := R (c_manager c) (c_manager c').
#[global] Instance on_controller_preorder R : PreOrder R → PreOrder (on_controller R).
Proof.
  intros HR. split; [intros c; by unfold on_controller|].
  intros c1 c2 c3 H1 H2. unfold on_controller in *. by etrans.
Qed.

(** Handlers keep what their calls of the manager keep. *)
Section manager_relation.
Context (R : relation (Manager D)) `{HR : !PreOrder R}.
Hypothesis Htrades : ∀ l, preserves R (call (db_insert_trades l)).
Hypothesis Hfunds : ∀ now l, preserves R (call (db_insert_funds now l)).
Hypothesis Htrade : ∀ trade, preserves R (Manager_trade trade).
Hypothesis Htimer : ∀ now, preserves R (Manager_timer now).

Lemma rel_on_manager {A} (f : act (Manager D) A) : preserves R f → preserves (on_controller R) (on_manager f).
Proof. intros Hf c. unfold on_manager, on_controller. specialize (Hf (c_manager c)). by destruct (f (c_manager c)). Qed.

Lemma rel_state_at i : preserves (on_controller R) (state_at (D := D) i).
Proof. intros c. unfold state_at, on_controller. by case_match. Qed.

Lemma rel_put_state i st : preserves (on_controller R) (put_state (D := D) i st).
Proof. intros c. by unfold on_controller. Qed.

Lemma rel_on_shared f : preserves (on_controller R) (on_shared (D := D) f).
Proof. intros c. by unfold on_controller. Qed.
#[local] Hint Resolve rel_on_manager rel_state_at rel_put_state rel_on_shared Htrades Hfunds Htrade Htimer : risk.

Lemma rel_message_info mi : preserves (on_controller R) (Controller_message_info (D := D) mi).
Proof. unfold Controller_message_info. auto with risk. Qed.
#[local] Hint Resolve rel_message_info : risk.

Lemma rel_trade_update mi tu : preserves (on_controller R) (Controller_trade_update mi tu).
Proof.
  unfold Controller_trade_update, store_trades, on_database. apply preserves_bind; auto with risk. intros _.
  apply preserves_bind; auto with risk. intros c. case_match; auto 10 with risk.
Qed.

Lemma rel_download_end mi a : preserves (on_controller R) (Controller_download_end (D := D) mi a).
Proof.
  unfold Controller_download_end. apply preserves_bind; auto with risk. intros _. case_bool_decide; auto with risk.
  apply preserves_bind; auto with risk. intros st. case_bool_decide; auto with risk.
Qed.

Lemma rel_ready mi : preserves (on_controller R) (Controller_ready (D := D) mi).
Proof.
  unfold Controller_ready. apply preserves_bind; auto with risk. intros _.
  apply preserves_bind; auto with risk. intros st. case_match; auto with risk.
Qed.

Lemma rel_publish_source source : preserves (on_controller R) (publish_source (D := D) source).
Proof. intros c. unfold on_controller. by rewrite (same_manager_publish_source source c). Qed.

Lemma rel_funds_update now mi fu : preserves (on_controller R) (Controller_funds_update (D := D) now mi fu).
Proof. unfold Controller_funds_update, on_database. auto with risk. Qed.

(** All events, given what the control events of the timer, trades and funds
    keep. *)
Lemma event_relation_from e c :
  match e with
  | ETimer _ events => R (c_manager c) (for_each handle events (c_manager c)).2
  | ETradeUpdate _ _ | EFundsUpdate _ _ _ => R (c_manager c) (c_manager (on_event e c).2)
  | _ => True
  end → R (c_manager c) (c_manager (on_event e c).2).
Proof.
  intros Hc. destruct e as [now events|mi|mi|mi a|mi a|mi|rd|mi tu|mi pu|now mi fu]; cbn [on_event] in *; try done.
  - unfold Controller_timer, bind at 1, on_manager at 1.
    destruct (for_each handle events (c_manager c)) as [[[]| | |] m1]; try done. cbn [snd] in Hc.
    etrans; [exact Hc|]. change m1 with (c_manager (set_manager m1 c)) at 1.
    assert (Hrest : preserves (on_controller R)
      (on_manager (Manager_timer now) >> let* c := get in for_each publish_source (seq 0 (length (c_state c))))).
    { apply preserves_bind; auto with risk. intros _. apply preserves_bind; auto with risk. intros c'.
      apply preserves_for_each; auto using rel_publish_source with risk. }
    apply Hrest.
  - assert (H : preserves (on_controller R) (Controller_disconnected (D := D) mi))
      by (unfold Controller_disconnected; auto with risk). apply H.
  - apply rel_message_info.
  - apply rel_download_end.
  - apply rel_ready.
Qed.

(** All events, given what the control events of the timer keep. *)
Lemma event_relation e c :
  match e with ETimer _ events => R (c_manager c) (for_each handle events (c_manager c)).2 | _ => True end →
  R (c_manager c) (c_manager (on_event e c).2).
Proof.
  intros Hc. apply event_relation_from. destruct e; try done; [apply rel_trade_update|apply rel_funds_update].
Qed.
End manager_relation.

(** A relation the operations of the database keep. *)
Lemma event_database (R : relation D) `{!PreOrder R} e c :
  operations_keep R → R (m_database (c_manager c)) (m_database (c_manager (on_event e c).2)).
Proof.
  intros Hops. apply (event_relation (on_db R)).
  - intros l. apply on_db_call, Hops.
  - intros now l. apply on_db_call, Hops.
  - intros trade. by apply (handle_on_db R (EvTrade trade)).
  - intros now. by apply (handle_on_db R (EvTimer now)).
  - destruct e as [now events| | | | | | | | |]; try done.
    assert (H : preserves (on_db R) (for_each (handle (D := D)) events))
      by (apply preserves_for_each; [apply _|]; intros; by apply handle_on_db).
    apply H.
Qed.

(** ** The control service *)

Definition keeps_control (m m' : Manager D) : Prop := control_wf m → control_wf m'.
#[global] Instance keeps_control_preorder : PreOrder keeps_control.
Proof. split; unfold keeps_control; naive_solver. Qed.

Lemma control_drain events m : delivered events m → control_wf m → control_wf (for_each handle events m).2.
Proof.
  revert m. induction events as [|e events IH]; intros m; cbn; [done|]. intros [He Hes] Hm.
  pose proof (control_wf_step m (handle e m).2 ltac:(by constructor) Hm) as H1. unfold bind.
  destruct (handle e m) as [[[]| | |] m1]; try done. by apply IH.
Qed.

Lemma event_control N e c : admissible N c e → control_wf (c_manager c) → control_wf (c_manager (on_event e c).2).
Proof.
  intros [_ _ Hc]. apply (event_relation keeps_control).
  - intros l m Hm. apply control_wf_preserved; auto with risk.
  - intros now l m Hm. apply control_wf_preserved; auto with risk.
  - intros trade m Hm. by apply control_wf_trade.
  - intros now m Hm. by apply control_wf_timer.
  - destruct e; try done. intros Hm. by apply control_drain.
Qed.

(** ** One event *)

Lemma event_calm N e c :
  fits N → admissible N c e →
  match e with
  | ETimer _ _ => step_ok N c (on_event e c).2
  | ETradeUpdate _ _ => True
  | _ => calm N c (on_event e c).2
  end.
Proof.
  intros Hfit [_ HN _].
  destruct e as [now events|mi|mi|mi a|mi a|mi|rd|mi tu|mi pu|now mi fu]; cbn [on_event event_name] in *.
  - apply step_timer.
  - done.
  - assert (H : preserves (calm N) (Controller_disconnected (D := D) mi))
      by (unfold Controller_disconnected; auto with risk).
    apply H.
  - apply calm_message_info.
  - apply calm_download_end.
  - apply calm_ready.
  - apply calm_reference_data; auto.
  - done.
  - apply calm_position_update.
  - apply calm_funds_update.
Qed.

(** Every event keeps the invariant. *)
Lemma event_inv N n e c : fits N → admissible N c e → sys_inv N n c → sys_inv N n (on_event e c).2.
Proof.
  intros Hfit Ha [R S C B]. pose proof (event_calm N e c Hfit Ha) as Hc.
  pose proof (event_control N e c Ha C) as C'. pose proof (event_database keeps_ok e c keeps_ok_operations B) as B'.
  assert (Hs : step_ok N c (on_event e c).2 ∨ ∃ mi tu, e = ETradeUpdate mi tu).
  { destruct e; try (by left; apply Hc). right. by eexists _, _. }
  destruct Hs as [[R' S' _ _]|(mi & tu & ->)]; [split; auto; congruence|].
  destruct (trade_update_effect mi tu c) as (E & _ & E' & _); [by apply (ad_source _ _ _ Ha)|].
  cbn [on_event] in *. split; [|congruence|done|done]. rewrite E. case_decide; [|done].
  apply trade_inv; [done| |done]. by apply (ad_name _ _ _ Ha).
Qed.
End events.
