(* ===== verification/Runs.v ===== *)
(** * Positions along a run

    The position of an owner, an account or a user, through the start of the
    controller and any run of events after it: it sees the rows of the database
    that are its own, then the trade updates that are its own and newer, in
    order, and nothing else. *)

From S2P Require Import Prelude Double Messages Instrument Position Groups Shared SharedFacts RiskFacts.
From S2P Require Import RiskInv Text Web Statement Sql Trades TradesFacts Funds Database Control.
From S2P Require Import ControlFacts Controller ControllerFacts PublishFacts System.

(** Whose position it is. *)
Inductive owner : Type :=
| OAccount (name : string)
| OUser (name : string).

Definition owner_name (o : owner) : string :=
  match o with OAccount name | OUser name => name end.

(** The name of the owner in a trade update, and in a row of positions. *)
Definition trade_owner (o : owner) (tu : TradeUpdate) : string :=
  match o with OAccount _ => tu_account tu | OUser _ => tu_user tu end.
Definition row_owner (o : owner) (p : db_Position) : string :=
  match o with OAccount _ => dbp_account p | OUser _ => dbp_user p end.

Definition owns_trade (o : owner) (e y : string) (tu : TradeUpdate) : Prop :=
  (owner_name o, e, y) = (trade_owner o tu, tu_exchange tu, tu_symbol tu).
Definition owns_row (o : owner) (e y : string) (p : db_Position) : Prop :=
  (owner_name o, e, y) = (row_owner o p, dbp_exchange p, dbp_symbol p).
#[global] Instance owns_trade_dec o e y tu : Decision (owns_trade o e y tu).
Proof. unfold owns_trade. apply _. Defined.
#[global] Instance owns_row_dec o e y p : Decision (owns_row o e y p).
Proof. unfold owns_row. apply _. Defined.

Section runs.
Context `{Api : !RoqApi} `{Order : !HashOrder} `{J : !Json} `{W : !WebServer} {D : Type} `{DB : !Database D}
  `{L : !DatabaseLaws D}.
Implicit Types (c : Controller D) (s : Shared) (N : gset (string * string)) (o : owner) (e y : string).

Definition position_of o e y s : option Position :=
  match o with
  | OAccount a => position_of_account a e y s
  | OUser u => position_of_user u e y s
  end.

(** The limits configured for an owner. *)
Definition limits_for (setup : Setup) o : limit_table string :=
  match o with OAccount _ => su_accounts setup | OUser _ => su_users setup end.

Lemma same_positions_of o e y s s' : same_positions s s' → position_of o e y s' = position_of o e y s.
Proof. intros [A U]. destruct o; cbn; auto. Qed.

Lemma initial_position_of (setup : Setup) (d : D) o e y :
  position_of o e y (c_shared (initial setup d))
  = (λ _, Position_ctor (get_limit (limits_for setup o) (owner_name o) e y))
    <$> limits_for setup o !! owner_name o.
Proof. destruct o; cbn; [apply initial_position_of_account|apply initial_position_of_user]. Qed.

(** ** Start *)

(** The instrument of a position that belongs to somebody is one of [N]. *)
Definition row_named N (p : db_Position) : Prop :=
  dbp_user p ≠ EmptyString ∨ dbp_account p ≠ EmptyString → (dbp_exchange p, dbp_symbol p) ∈ N.
#[global] Instance row_named_dec N p : Decision (row_named N p).
Proof. unfold row_named. apply _. Defined.

Lemma load_position_inv N p c :
  fits N → row_named N p → risk_inv N (c_shared c) →
  let c' := load_position c p in
  risk_inv N (c_shared c')
  ∧ c_last_exchange_time_utc c' = Z.max (c_last_exchange_time_utc c) (dbp_exchange_time_utc p)
  ∧ c_state c' = c_state c ∧ c_manager c' = c_manager c
  ∧ (∀ o e y, owner_name o ≠ EmptyString → ∃ i, position_of o e y (c_shared c')
       = if decide (owns_row o e y p)
         then Position_database p i <$> position_of o e y (c_shared c)
         else position_of o e y (c_shared c)).
Proof.
  intros Hfit HN Hs c'. subst c'. unfold load_position. set (c1 := set_last_exchange_time_utc _ c).
  set (c2 := if bool_decide (dbp_user p = EmptyString) then c1 else _).
  assert (Hc2 : risk_inv N (c_shared c2)
    ∧ (∀ a e y, position_of_account a e y (c_shared c2) = position_of_account a e y (c_shared c))
    ∧ (∀ u e y, u ≠ EmptyString → ∃ i, position_of_user u e y (c_shared c2)
       = if decide ((u, e, y) = (dbp_user p, dbp_exchange p, dbp_symbol p))
         then Position_database p i <$> position_of_user u e y (c_shared c)
         else position_of_user u e y (c_shared c))
    ∧ c_last_exchange_time_utc c2 = c_last_exchange_time_utc c1 ∧ c_state c2 = c_state c
    ∧ c_manager c2 = c_manager c).
  { unfold c2. case_bool_decide.
    - split_and!; try done. intros u e y Hu. exists (Instrument_ctor 0 e y). rewrite decide_False; [done|congruence].
    - destruct (get_user_inv p (λ _, no_callback) (dbp_user p) N (c_shared c1)) as (I & _ & U & A);
        [by left|done|by apply HN; left|done|].
      split_and!; try done. intros u e y _. exists (get_instrument e y (c_shared c1)).1. apply U. }
  destruct Hc2 as (I2 & A2 & U2 & L2 & S2 & M2). clearbody c2. case_bool_decide as Hacc.
  - split_and!; [done..|]. intros [a|u] e y Ho; cbn in *; [|by apply U2].
    exists (Instrument_ctor 0 e y). rewrite A2, decide_False; [done|]. unfold owns_row. cbn. congruence.
  - destruct (get_account_inv p (λ _, no_callback) (dbp_account p) N (c_shared c2)) as (I3 & _ & A3 & U3);
      [by left|done|by apply HN; right|done|].
    split_and!; [done..|]. intros [a|u] e y Ho; cbn in *.
    + exists (get_instrument e y (c_shared c2)).1. etrans; [apply A3|]. by rewrite A2.
    + destruct (U2 u e y Ho) as [i Hi]. exists i. etrans; [apply U3|]. exact Hi.
Qed.

Lemma load_positions_inv N ps c :
  fits N → Forall (row_named N) ps → risk_inv N (c_shared c) →
  let c' := fold_left load_position ps c in
  risk_inv N (c_shared c')
  ∧ c_last_exchange_time_utc c' = foldr Z.max (c_last_exchange_time_utc c) (dbp_exchange_time_utc <$> ps)
  ∧ c_state c' = c_state c ∧ c_manager c' = c_manager c
  ∧ (∀ o e y, owner_name o ≠ EmptyString → ∃ us, us.*1 = filter (owns_row o e y) ps
       ∧ position_of o e y (c_shared c') = load_all us <$> position_of o e y (c_shared c)).
Proof.
  intros Hfit Hps. revert c. induction Hps as [|p ps Hp Hps IH]; intros c Hs c'; subst c'; cbn [fold_left].
  { split_and!; try done. intros o e y _. exists []. split; [done|]. symmetry. apply option_fmap_id. }
  destruct (load_position_inv N p c Hfit Hp Hs) as (I1 & L1 & S1 & M1 & P1).
  destruct (IH _ I1) as (I2 & L2 & S2 & M2 & P2). split_and!; [done| |congruence|congruence|].
  - rewrite L2, L1. cbn. generalize (c_last_exchange_time_utc c). intros t. clear.
    induction ps as [|q ps IH]; cbn in *; lia.
  - intros o e y Ho. destruct (P1 o e y Ho) as [i Hi]. destruct (P2 o e y Ho) as (us & Hus & Hq).
    rewrite filter_cons, Hq, Hi. case_decide as Hc.
    + exists ((p, i) :: us). split; [by rewrite <- Hus|]. by rewrite <- option_fmap_compose.
    + by exists us.
Qed.

Lemma initial_risk_inv N (setup : Setup) (d : D) : risk_inv N (c_shared (initial setup d)).
Proof.
  split.
  - eapply risk_wf_weaken; [|apply risk_wf_ctor]. lia.
  - exists ∅. split_and!; [set_solver|done|]. intros e y. split; [set_solver|].
    unfold known, stored, at_key. cbn. rewrite !lookup_empty. cbn. rewrite lookup_empty. done.
  - split; intros k; unfold waiting; cbn; rewrite lookup_empty; set_solver.
Qed.

(** What the constructor leaves. *)
Lemma start_inv N (setup : Setup) (d : D) (ps : list db_Position) c :
  db_positions d = Ret ps → db_ok d → fits N → Forall (row_named N) ps →
  Controller_ctor setup (Ret d) (Ret ()) = Ret c →
  sys_inv N (su_source_count setup) c
  ∧ c_last_exchange_time_utc c = foldr Z.max 0 (dbp_exchange_time_utc <$> ps)
  ∧ c_sent c = []
  ∧ (∀ o e y, owner_name o ≠ EmptyString → ∃ us, us.*1 = filter (owns_row o e y) ps
       ∧ position_of o e y (c_shared c)
         = (λ _, load_all us (Position_ctor (get_limit (limits_for setup o) (owner_name o) e y)))
           <$> limits_for setup o !! owner_name o).
Proof.
  intros Hd Hok Hfit Hps. unfold Controller_ctor, outcome_bind, load_positions, bind, on_manager, ask.
  cbn [c_manager initial Manager_ctor m_database]. rewrite Hd. cbn. intros [= <-].
  change (set_manager _ _) with (initial setup d).
  destruct (load_positions_inv N ps (initial setup d) Hfit Hps) as (I & T & S & M & P); [apply initial_risk_inv|].
  split_and!.
  - split; [done|rewrite S; cbn; by rewrite length_replicate|rewrite M; apply control_wf_ctor|by rewrite M].
  - done.
  - clear. change ([] : list (Z * RiskLimits)) with (c_sent (initial setup d)). generalize (initial setup d).
    induction ps as [|p ps IH]; intros c; cbn; [done|]. rewrite IH. unfold load_position. by repeat case_bool_decide.
  - intros o e y Ho. destruct (P o e y Ho) as (us & Hus & Hp). exists us. split; [done|].
    rewrite Hp, initial_position_of. by destruct (limits_for setup o !! owner_name o).
Qed.

(** ** Runs *)

Definition event_trade (ev : event) : option TradeUpdate :=
  match ev with ETradeUpdate _ tu => Some tu | _ => None end.

(** The trade updates of a run that are newer than [t]. *)
Definition run_trades (t : Z) (l : list event) : list TradeUpdate :=
  filter (λ tu, t < tu_create_time_utc tu) (omap event_trade l).

(** One position through one event. *)
Lemma event_positions N n ev c o e y :
  fits N → admissible N c ev → sys_inv N n c →
  let c' := (on_event ev c).2 in
  c_last_exchange_time_utc c' = c_last_exchange_time_utc c
  ∧ ∃ us, us.*1 = filter (owns_trade o e y) (run_trades (c_last_exchange_time_utc c) [ev])
    ∧ position_of o e y (c_shared c') = apply_updates us <$> position_of o e y (c_shared c).
Proof.
  intros Hfit Ha [R _ _ _]. pose proof (event_calm N ev c Hfit Ha) as Hc. cbn zeta.
  assert (Hs : (step_ok N c (on_event ev c).2 ∧ event_trade ev = None) ∨ ∃ mi tu, ev = ETradeUpdate mi tu).
  { destruct ev; try (left; split; [apply Hc|done]). right. by eexists _, _. }
  destruct Hs as [[[_ _ T P] He]|(mi & tu & ->)].
  { split; [done|]. exists []. unfold run_trades. cbn. rewrite He. split; [done|].
    rewrite (same_positions_of o e y _ _ (P R)). symmetry. apply option_fmap_id. }
  destruct (trade_update_effect mi tu c) as (E & T & _ & _); [by apply (ad_source _ _ _ Ha)|].
  cbn [on_event]. split; [done|]. rewrite E. unfold run_trades. cbn [omap list_omap event_trade].
  rewrite filter_cons, filter_nil. fold (fresh c tu). case_decide as Hf; cycle 1.
  { rewrite decide_False by done. exists []. split; [done|]. symmetry. apply option_fmap_id. }
  rewrite decide_True by done. rewrite filter_cons, filter_nil.
  destruct (trade_inv tu N (c_shared c)) as (_ & _ & PA & PU); [done|by apply (ad_name _ _ _ Ha)|done|].
  assert (∃ i, position_of o e y (apply_trade tu (c_shared c))
    = if decide (owns_trade o e y tu) then Position_trade_update tu i <$> position_of o e y (c_shared c)
      else position_of o e y (c_shared c)) as [i Hi] by (destruct o; [apply PA|apply PU]).
  rewrite Hi. case_decide; [by exists [(tu, i)]|]. exists []. split; [done|]. symmetry. apply option_fmap_id.
Qed.

(** One position through a run, and the invariant. *)
Lemma run_positions N n c l c' :
  fits N → run N c l c' → sys_inv N n c →
  sys_inv N n c' ∧ c_last_exchange_time_utc c' = c_last_exchange_time_utc c
  ∧ ∀ o e y, ∃ us, us.*1 = filter (owns_trade o e y) (run_trades (c_last_exchange_time_utc c) l)
    ∧ position_of o e y (c_shared c') = apply_updates us <$> position_of o e y (c_shared c).
Proof.
  intros Hfit. induction 1 as [c|c ev r c1 l c2 Ha Hev Hr _ IH]; intros Hc.
  { split_and!; [done..|]. intros o e y. exists []. split; [done|]. symmetry. apply option_fmap_id. }
  pose proof (event_inv N n ev c Hfit Ha Hc) as H1.
  pose proof (λ o e y, event_positions N n ev c o e y Hfit Ha Hc) as HP. rewrite Hev in *. cbn [snd] in *.
  destruct (IH H1) as (H2 & T2 & P2). destruct (HP (OAccount EmptyString) EmptyString EmptyString) as [T1 _].
  split_and!; [done|congruence|]. intros o e y. destruct (HP o e y) as (_ & us1 & E1 & Q1).
  destruct (P2 o e y) as (us2 & E2 & Q2). exists (us1 ++ us2). split.
  - rewrite fmap_app, E1, E2, T1. change (ev :: l) with ([ev] ++ l). unfold run_trades.
    assert (omap event_trade ([ev] ++ l) = omap event_trade [ev] ++ omap event_trade l) as ->
      by (cbn; by destruct (event_trade ev)).
    by rewrite !filter_app.
  - rewrite Q2, Q1. rewrite <- option_fmap_compose. unfold apply_updates.
    destruct (position_of o e y (c_shared c)); [|done]. cbn. by rewrite fold_left_app.
Qed.
End runs.
