(* ===== verification/Delivery.v ===== *)
(** * What a trade owes its owner

    After a trade the position of its owner waits to be published, whatever
    happens before the next timer event, and that event sends it if a source is
    ready. *)

From S2P Require Import Prelude Double Messages Instrument Position Groups Shared SharedFacts RiskFacts.
From S2P Require Import RiskInv Text Web Statement Sql Trades TradesFacts Funds Database Control.
From S2P Require Import ControlFacts Controller ControllerFacts PublishFacts System Runs.

#[global] Instance owner_eq_dec : EqDecision owner.
Proof. solve_decision. Defined.

Section delivery.
Context `{Api : !RoqApi} `{Order : !HashOrder} `{J : !Json} `{W : !WebServer} {D : Type} `{DB : !Database D}.
Implicit Types (c : Controller D) (s : Shared) (N : gset (string * string)) (o : owner) (e y : string).

(** The groups, and the tables of what waits, of the kind of an owner. *)
Definition groups_of o s : gmap string (Group string) :=
  match o with OAccount _ => sh_accounts s | OUser _ => sh_users s end.
Definition waiting_of o s : gset Z :=
  match o with
  | OAccount a => waiting (publish_by_account (sh_publish s)) a
  | OUser u => waiting (publish_by_user (sh_publish s)) u
  end.

(** The position of the owner in the instrument waits to be published. *)
Definition owed o e y s : Prop :=
  ∃ id g, shared_ids s e y = Some id ∧ groups_of o s !! owner_name o = Some g
    ∧ id ∈ dom (grp_positions g) ∧ id ∈ waiting_of o s.

Lemma owed_extends o e y s s' : extends s s' → owed o e y s → owed o e y s'.
Proof.
  intros [G _ KA KU PA PU] (id & g & Hid & Hg & Hp & Hw).
  assert (Hk : keeps_groups (groups_of o s) (groups_of o s')) by by destruct o.
  specialize (Hk (owner_name o)). rewrite Hg in Hk. destruct (groups_of o s' !! owner_name o) as [g'|] eqn:Hg'; [|done].
  exists id, g'. split_and!; [by apply G|done|set_solver|]. destruct o; cbn in *; set_solver.
Qed.

(** A dispatch with publication leaves the position owed. *)
Lemma owed_get_account tu N s :
  fits N → risk_inv N s → is_Some (sh_accounts s !! tu_account tu) →
  owed (OAccount (tu_account tu)) (tu_exchange tu) (tu_symbol tu)
    (get_account (tu_account tu) (Account_trade_update account_handler tu) s).2.
Proof.
  intros Hfit Hs [g Hg]. pose proof (risk_inv_room N s Hfit Hs) as [Hw Ha _]. destruct (Ha _ _ Hg) as [Hk _].
  unfold get_account. rewrite Hg. unfold Account_trade_update, group_trade_update, dispatch. cbn -[get_instrument].
  pose proof (shared_get_known 1 s (tu_exchange tu) (tu_symbol tu) ltac:(lia) Hw) as Hid.
  destruct (get_instrument (tu_exchange tu) (tu_symbol tu) s) as [i s1]. cbn [fst snd] in *.
  eexists (ins_id i), _. split_and!; [exact Hid|apply lookup_insert_eq|cbn; rewrite dom_insert; set_solver|].
  cbn. unfold waiting, publish_one. rewrite Hk, lookup_insert_eq. set_solver.
Qed.

Lemma owed_get_user tu N s :
  fits N → risk_inv N s → is_Some (sh_users s !! tu_user tu) →
  owed (OUser (tu_user tu)) (tu_exchange tu) (tu_symbol tu)
    (get_user (tu_user tu) (User_trade_update user_handler tu) s).2.
Proof.
  intros Hfit Hs [g Hg]. pose proof (risk_inv_room N s Hfit Hs) as [Hw _ Hu]. destruct (Hu _ _ Hg) as [Hk _].
  unfold get_user. rewrite Hg. unfold User_trade_update, group_trade_update, dispatch. cbn -[get_instrument].
  pose proof (shared_get_known 1 s (tu_exchange tu) (tu_symbol tu) ltac:(lia) Hw) as Hid.
  destruct (get_instrument (tu_exchange tu) (tu_symbol tu) s) as [i s1]. cbn [fst snd] in *.
  eexists (ins_id i), _. split_and!; [exact Hid|apply lookup_insert_eq|cbn; rewrite dom_insert; set_solver|].
  cbn. unfold waiting, publish_one. rewrite Hk, lookup_insert_eq. set_solver.
Qed.

Lemma owed_apply_trade tu N o e y s :
  fits N → (tu_exchange tu, tu_symbol tu) ∈ N → risk_inv N s →
  owns_trade o e y tu → is_Some (groups_of o s !! owner_name o) → owed o e y (apply_trade tu s).
Proof.
  intros Hfit HN Hs Ho Hg. injection Ho as Hn -> ->. unfold apply_trade.
  destruct (get_account_inv tu (λ g, publish_account_instrument (grp_key g)) (tu_account tu) N s)
    as (I1 & E1 & _ & _); [intros g; right; by eexists|done..|].
  set (s1 := (get_account _ _ s).2) in *.
  destruct (get_user_inv tu (λ g, publish_user_instrument (grp_key g)) (tu_user tu) N s1)
    as (I2 & E2 & _ & _); [intros g; right; by eexists|done..|].
  destruct o as [a|u]; cbn in Hn, Hg; subst.
  - eapply owed_extends; [exact E2|]. by eapply owed_get_account.
  - eapply owed_get_user; [done|exact I1|]. pose proof (ex_users _ _ E1 (tu_user tu)) as Hk. cbn in Hg.
    destruct Hg as [g Hg]. rewrite Hg in Hk. by destruct (sh_users s1 !! tu_user tu).
Qed.

(** ** One source *)

(** What a message should say of an instrument: the two sides of a position and
    its limits. *)
Definition limit_entry (name : string * string) (long short : double) (limit : Limit) : RiskLimit := {|
  rl_exchange := to_Exchange name.1;
  rl_symbol := to_Symbol name.2;
  rl_long_position := long;
  rl_short_position := short;
  rl_long_position_limit := lim_long_position_limit limit;
  rl_short_position_limit := lim_short_position_limit limit;
  rl_long_risk_exposure_limit := lim_long_risk_exposure_limit limit;
  rl_short_risk_exposure_limit := lim_short_risk_exposure_limit limit;
  rl_allow_netting := lim_allow_netting limit;
|}.

Lemma risk_limit_entry (name : string * string) p :
  risk_limit p (Instrument_ctor 0 name.1 name.2)
  = limit_entry name (long_position p) (short_position p) (limits_of p).
Proof. reflexivity. Qed.

(** A message to the owner with an entry. *)
Definition entry_for o (r : RiskLimit) (x : Z * RiskLimits) : Prop :=
  match o with
  | OAccount a => rls_account x.2 = a ∧ rls_user x.2 = EmptyString
  | OUser u => rls_user x.2 = u ∧ rls_account x.2 = EmptyString
  end ∧ r ∈ rls_limits x.2.

(** The entry waits, with the group it comes from. *)
Definition outstanding o (r : RiskLimit) s : Prop :=
  ∃ id g p i, groups_of o s !! owner_name o = Some g ∧ grp_key g = owner_name o
    ∧ grp_positions g !! id = Some p ∧ instruments (sh_registry s) !! id = Some i
    ∧ id ∈ waiting_of o s ∧ r = risk_limit p i.

(** The entry was sent since [c]. *)
Definition sent_since o (r : RiskLimit) c c' : Prop :=
  ∃ l, c_sent c' = c_sent c ++ l ∧ Exists (entry_for o r) l.

(** What was owed is that entry. *)
Lemma owed_outstanding N o e y s :
  risk_inv N s → owed o e y s →
  ∃ p, position_of o e y s = Some p ∧ outstanding o (risk_limit p (Instrument_ctor 0 e y)) s.
Proof.
  intros [[[Hr _] Ha Hu] _ [PA PU]] (id & g & Hid & Hg & [p Hp]%elem_of_dom & Hw).
  assert (Hkey : grp_key g = owner_name o) by (destruct o; [by apply (Ha _ _ Hg)|by apply (Hu _ _ Hg)]).
  assert (is_Some (instruments (sh_registry s) !! id)) as [i Hi].
  { apply elem_of_dom. destruct o; [by apply (PA name)|by apply (PU name)]. }
  exists p. split.
  - destruct o; cbn in *; unfold position_of_account, position_of_user; rewrite Hg; cbn; unfold position_in;
      cbn; rewrite Hid; unfold position_for; by rewrite Hp.
  - exists id, g, p, i. split_and!; try done. destruct (wf_instruments _ Hr id i Hi) as (_ & e' & y' & Hk & Hst & He & Hy).
    unfold shared_ids, registry_ids in Hid. case_decide as Hk'; [|done]. injection Hid as <-.
    apply (wf_inj _ Hr) in Hst as [= -> ->]; [|done..]. unfold risk_limit. by rewrite He, Hy.
Qed.

Lemma in_pending (r : Registry) (groups : gmap string (Group string)) (key : string) (set : gset Z) id g p i :
  groups !! key = Some g → grp_positions g !! id = Some p → instruments r !! id = Some i → id ∈ set →
  risk_limit p i ∈ pending r groups key set.
Proof.
  intros Hg Hp Hi Hid. unfold pending. apply list_elem_of_fmap. exists (p, i). split; [done|].
  rewrite found_perm. apply elem_of_found. by exists id, g.
Qed.

(** Messages are only added. *)
Definition appends c c' : Prop := ∃ l, c_sent c' = c_sent c ++ l.
#[global] Instance appends_preorder : PreOrder appends.
Proof.
  split; [intros c; exists []; by rewrite app_nil_r|]. intros c1 c2 c3 [l1 E1] [l2 E2].
  exists (l1 ++ l2). by rewrite E2, E1, app_assoc.
Qed.

Lemma sent_since_app o r c c1 c2 :
  appends c1 c2 → sent_since o r c c1 → sent_since o r c c2.
Proof.
  intros [l2 E2] (l1 & E1 & H1). exists (l1 ++ l2). rewrite E2, E1, app_assoc. split; [done|].
  apply Exists_app. by left.
Qed.

Lemma sent_since_trans o r c c1 c2 :
  appends c c1 → sent_since o r c1 c2 → sent_since o r c c2.
Proof.
  intros [l1 E1] (l2 & E2 & H2). exists (l1 ++ l2). rewrite E2, E1, app_assoc. split; [done|].
  apply Exists_app. by right.
Qed.

(** Outstanding entries are sent with the message of their owner, and wait while
    others are visited. *)
Lemma outstanding_same o r s s' :
  same_groups s s' → waiting_of o s ⊆ waiting_of o s' → outstanding o r s → outstanding o r s'.
Proof.
  intros [R A U _] Hw (id & g & p & i & Hg & Hk & Hp & Hi & Hid & ->). exists id, g, p, i.
  split_and!; try done; [destruct o; cbn in *; congruence|congruence|set_solver].
Qed.

Lemma publish_account_entry source st c name o r :
  groups_wf (sh_accounts (c_shared c)) (c_shared c) → outstanding o r (c_shared c) →
  let c' := publish_one_account source st c name in
  appends c c'
  ∧ if decide (o = OAccount name) then sent_since o r c c' else outstanding o r (c_shared c').
Proof.
  intros Hwf Ho. cbn zeta. destruct (publish_one_account_groups source st c name) as (G & _ & HU & _).
  destruct (sh_accounts (c_shared c) !! name) as [g0|] eqn:Hname; cycle 1.
  { assert (publish_one_account source st c name = c) as -> by (unfold publish_one_account; by rewrite Hname).
    split; [done|]. rewrite decide_False; [done|]. intros ->.
    destruct Ho as (id & g & p & i & Hg & _). cbn in Hg. congruence. }
  rewrite (publish_one_account_eq source st c name) in * by done. split; [by eexists|]. cbn in *.
  case_decide as Hc.
  - subst o. destruct Ho as (id & g & p & i & Hg & Hk & Hp & Hi & Hid & ->). cbn in *.
    unfold sent_since, add_sent. cbn. eexists. split; [done|]. unfold account_message, account_limits.
    unfold waiting in Hid. destruct (publish_by_account (sh_publish (c_shared c)) !! name) as [set|]; [|set_solver].
    pose proof (in_pending (sh_registry (c_shared c)) (sh_accounts (c_shared c)) name set id g p i Hg Hp Hi Hid) as Hin.
    destruct (pending _ _ _ _) as [|x l]; [set_solver|]. by apply Exists_cons_hd.
  - apply (outstanding_same _ _ (c_shared c)); [done| |done]. destruct o as [a|u]; cbn; [|by rewrite HU].
    unfold clear_account. destruct (publish_by_account _ !! name) as [set|]; [|done]. cbn. unfold waiting.
    rewrite lookup_insert_ne by congruence. done.
Qed.

Lemma publish_user_entry source st c name o r :
  groups_wf (sh_users (c_shared c)) (c_shared c) → outstanding o r (c_shared c) →
  let c' := publish_one_user source st c name in
  appends c c'
  ∧ if decide (o = OUser name) then sent_since o r c c' else outstanding o r (c_shared c').
Proof.
  intros Hwf Ho. cbn zeta. destruct (publish_one_user_groups source st c name) as (G & _ & HA & _).
  destruct (sh_users (c_shared c) !! name) as [g0|] eqn:Hname; cycle 1.
  { assert (publish_one_user source st c name = c) as -> by (unfold publish_one_user; by rewrite Hname).
    split; [done|]. rewrite decide_False; [done|]. intros ->.
    destruct Ho as (id & g & p & i & Hg & _). cbn in Hg. congruence. }
  rewrite (publish_one_user_eq source st c name) in * by done. split; [by eexists|]. cbn in *.
  case_decide as Hc.
  - subst o. destruct Ho as (id & g & p & i & Hg & Hk & Hp & Hi & Hid & ->). cbn in *.
    unfold sent_since, add_sent. cbn. eexists. split; [done|]. unfold user_message, user_limits.
    unfold waiting in Hid. destruct (publish_by_user (sh_publish (c_shared c)) !! name) as [set|]; [|set_solver].
    pose proof (in_pending (sh_registry (c_shared c)) (sh_users (c_shared c)) name set id g p i Hg Hp Hi Hid) as Hin.
    destruct (pending _ _ _ _) as [|x l]; [set_solver|]. by apply Exists_cons_hd.
  - apply (outstanding_same _ _ (c_shared c)); [done| |done]. destruct o as [a|u]; cbn; [by rewrite HA|].
    unfold clear_user. destruct (publish_by_user _ !! name) as [set|]; [|done]. cbn. unfold waiting.
    rewrite lookup_insert_ne by congruence. done.
Qed.

(** The loops over the accounts and over the users. *)
Section loop.
Context (N : gset (string * string)) (f : Controller D → string → Controller D) (mk : string → owner).
Context (o : owner) (r : RiskLimit).
Hypothesis Hstep : ∀ c name, step_ok N c (f c name).
Hypothesis Happend : ∀ c name, appends c (f c name).
Hypothesis Hone : ∀ c name, risk_inv N (c_shared c) → outstanding o r (c_shared c) →
  if decide (o = mk name) then sent_since o r c (f c name) else outstanding o r (c_shared (f c name)).

Lemma loop_appends names c : appends c (fold_left f names c).
Proof. revert c. induction names as [|n names IH]; intros c; cbn; [done|]. etrans; [apply Happend|apply IH]. Qed.

Lemma loop_keeps names c :
  (∀ name, o ≠ mk name) → risk_inv N (c_shared c) → outstanding o r (c_shared c) →
  outstanding o r (c_shared (fold_left f names c)).
Proof.
  intros Hne. revert c. induction names as [|n names IH]; intros c Hs Ho; cbn; [done|].
  apply IH; [by apply Hstep|]. specialize (Hone c n Hs Ho). by rewrite decide_False in Hone.
Qed.

Lemma loop_sends names name c :
  o = mk name → name ∈ names → risk_inv N (c_shared c) → outstanding o r (c_shared c) →
  sent_since o r c (fold_left f names c).
Proof.
  intros Hmk Hin. revert c. induction names as [|n names IH]; intros c Hs Ho; [by apply not_elem_of_nil in Hin|].
  cbn. pose proof (Hone c n Hs Ho) as H1. case_decide as Hd.
  - eapply sent_since_app; [apply loop_appends|done].
  - eapply sent_since_trans; [apply Happend|]. apply IH; [|by apply Hstep|done].
    apply elem_of_cons in Hin as [->|]; [|done]. congruence.
Qed.
End loop.

Lemma appends_account source st c name : appends c (publish_one_account source st c name).
Proof.
  unfold publish_one_account. destruct (_ !! name) as [g|]; [|done].
  destruct (get_publish_by_account _ _ _ _) as [[b buf] s]. case_bool_decide; [exists []; by rewrite app_nil_r|]. by eexists.
Qed.

Lemma appends_user source st c name : appends c (publish_one_user source st c name).
Proof.
  unfold publish_one_user. destruct (_ !! name) as [g|]; [|done].
  destruct (get_publish_by_user _ _ _ _) as [[b buf] s]. case_bool_decide; [exists []; by rewrite app_nil_r|]. by eexists.
Qed.

Lemma state_fold (f : Controller D → string → Controller D) names c :
  (∀ c name, c_state (f c name) = c_state c) → c_state (fold_left f names c) = c_state c.
Proof. intros Hf. revert c. induction names as [|n names IH]; intros c; cbn; [done|]. by rewrite IH, Hf. Qed.

Lemma state_publish_one_account source st c name : c_state (publish_one_account source st c name) = c_state c.
Proof. by destruct (publish_one_account_groups source st c name) as (_ & _ & _ & _ & H & _). Qed.

Lemma state_publish_one_user source st c name : c_state (publish_one_user source st c name) = c_state c.
Proof. by destruct (publish_one_user_groups source st c name) as (_ & _ & _ & _ & H & _). Qed.

(** A source that is ready is published to, and the call returns. *)
Lemma publish_source_eq (source : nat) c st :
  (source < 256)%nat → c_state c !! source = Some st → st_ready st = true →
  let c1 := fold_left (publish_one_account (Z.of_nat source) st) (keys (sh_accounts (c_shared c))) c in
  publish_source source c
  = (Ret (), fold_left (publish_one_user (Z.of_nat source) st) (keys (sh_users (c_shared c1))) c1).
Proof.
  intros Hlt Hst Hr c1. unfold publish_source. rewrite (u8_small (Z.of_nat source)) by lia.
  unfold bind at 1, state_at. rewrite Nat2Z.id, Hst, Hr.
  unfold publish_accounts, bind at 1, bind at 1, state_at. rewrite Nat2Z.id, Hst. unfold modify. fold c1.
  unfold publish_users, bind, state_at. rewrite Nat2Z.id.
  assert (c_state c1 = c_state c) as -> by (apply state_fold, state_publish_one_account). by rewrite Hst.
Qed.

Lemma publish_source_ready N (source : nat) c st o r :
  (source < 256)%nat → c_state c !! source = Some st → st_ready st = true →
  risk_inv N (c_shared c) → outstanding o r (c_shared c) →
  sent_since o r c (publish_source source c).2.
Proof.
  intros Hlt Hst Hr Hs Ho. rewrite (publish_source_eq source c st Hlt Hst Hr). cbn [snd].
  set (c1 := fold_left (publish_one_account _ _) _ c).
  assert (Hac : ∀ c name, risk_inv N (c_shared c) → outstanding o r (c_shared c) →
    if decide (o = OAccount name) then sent_since o r c (publish_one_account (Z.of_nat source) st c name)
    else outstanding o r (c_shared (publish_one_account (Z.of_nat source) st c name)))
    by (intros ? ? Hi ?; apply publish_account_entry; [apply Hi|done]).
  assert (Hus : ∀ c name, risk_inv N (c_shared c) → outstanding o r (c_shared c) →
    if decide (o = OUser name) then sent_since o r c (publish_one_user (Z.of_nat source) st c name)
    else outstanding o r (c_shared (publish_one_user (Z.of_nat source) st c name)))
    by (intros ? ? Hi ?; apply publish_user_entry; [apply Hi|done]).
  assert (Hkey : is_Some (groups_of o (c_shared c) !! owner_name o))
    by (destruct Ho as (id & g & _ & _ & Hg & _); by eexists).
  destruct o as [a|u].
  - eapply sent_since_app; [apply loop_appends, appends_user|].
    apply (loop_sends N _ OAccount) with a; auto using step_publish_account, appends_account. by apply elem_of_keys.
  - assert (I1 : risk_inv N (c_shared c1)) by (apply step_fold; [apply step_publish_account|done]).
    assert (O1 : outstanding (OUser u) r (c_shared c1))
      by (apply (loop_keeps N _ OAccount); auto using step_publish_account).
    eapply sent_since_trans; [apply loop_appends, appends_account|].
    apply (loop_sends N _ OUser) with u; auto using step_publish_user, appends_user.
    apply elem_of_keys. destruct O1 as (id & g & _ & _ & Hg & _). by eexists.
Qed.

(** ** All sources *)

Lemma publish_source_returns (source : nat) c :
  (source < length (c_state c))%nat →
  ∃ c', publish_source source c = (Ret (), c') ∧ c_state c' = c_state c.
Proof.
  intros Hlt. unfold publish_source, bind at 1, state_at. rewrite Nat2Z.id.
  destruct (lookup_lt_is_Some_2 _ _ Hlt) as [st ->]. case_match; [|by eexists].
  destruct (lookup_lt_is_Some_2 (c_state c) (Z.to_nat (u8 (Z.of_nat source)))) as [st' Hst'].
  { unfold u8, wrap. pose proof (Z.mod_le (Z.of_nat source) (2 ^ 8)). lia. }
  unfold publish_accounts, publish_users, bind, state_at, modify. rewrite Hst'.
  rewrite state_fold by apply state_publish_one_account. rewrite Hst'. eexists. split; [done|].
  rewrite state_fold by apply state_publish_one_user. apply state_fold, state_publish_one_account.
Qed.

Lemma publish_sources_return l c :
  Forall (λ n, (n < length (c_state c))%nat) l →
  ∃ c', for_each publish_source l c = (Ret (), c') ∧ c_state c' = c_state c.
Proof.
  intros Hl. remember (c_state c) as ss eqn:Hss. revert c Hss. induction Hl as [|n l Hn _ IH]; intros c ->; [by eexists|].
  destruct (publish_source_returns n c Hn) as (c1 & E1 & S1). destruct (IH c1) as (c' & E' & S'); [done|].
  exists c'. split; [|done]. cbn [for_each]. unfold bind. by rewrite E1.
Qed.

Lemma publish_sources_send N l c k st o r :
  Forall (λ n, (n < length (c_state c))%nat ∧ (n < 256)%nat) l →
  k ∈ l → c_state c !! k = Some st → st_ready st = true →
  risk_inv N (c_shared c) → outstanding o r (c_shared c) →
  sent_since o r c (for_each publish_source l c).2.
Proof.
  intros Hl Hk. remember (c_state c) as ss eqn:Hss. revert c Hss.
  induction Hl as [|n l [Hn Hlt] Hl IH]; intros c -> Hst Hr Hs Ho.
  { by apply not_elem_of_nil in Hk. }
  destruct (publish_source_returns n c Hn) as (c1 & E1 & S1). cbn [for_each]. unfold bind. rewrite E1.
  destruct (lookup_lt_is_Some_2 _ _ Hn) as [stn Hstn]. destruct (st_ready stn) eqn:Hrn.
  - pose proof (publish_source_ready N n c stn o r Hlt Hstn Hrn Hs Ho) as H1. rewrite E1 in H1.
    eapply sent_since_app; [|exact H1]. destruct (for_each_sends (D := D) l) with c1 as [_ (l' & El & _)]; [|by exists l'].
    by eapply Forall_impl; [exact Hl|intros ? [_ ?]].
  - assert (c1 = c) as ->.
    { revert E1. unfold publish_source, bind at 1, state_at. rewrite Nat2Z.id, Hstn, Hrn. unfold ret. by intros [= ->]. }
    apply IH; try done. apply elem_of_cons in Hk as [->|]; [|done]. congruence.
Qed.

(** ** The timer *)

Lemma Manager_timer_returns now (m : Manager D) : (Manager_timer now m).1 = Ret ().
Proof. unfold Manager_timer, bind, get. by case_match. Qed.

(** The timer event returns when the control service does. *)
Lemma timer_eq now events c m1 :
  for_each handle events (c_manager c) = (Ret (), m1) →
  let c2 := set_manager (Manager_timer now m1).2 c in
  ∃ c', Controller_timer now events c = (Ret (), c')
    ∧ for_each publish_source (seq 0 (length (c_state c))) c2 = (Ret (), c') ∧ c_state c' = c_state c.
Proof.
  intros Hev c2. destruct (publish_sources_return (seq 0 (length (c_state c))) c2) as (c' & E & S).
  { apply Forall_forall. intros n Hn. apply elem_of_seq in Hn. cbn. lia. }
  exists c'. split_and!; [|done|done]. unfold Controller_timer.
  unfold bind at 1, on_manager at 1. rewrite Hev. unfold bind at 1, on_manager.
  pose proof (Manager_timer_returns now m1) as Ht. cbn [c_manager set_manager].
  unfold c2 in E. destruct (Manager_timer now m1) as [r m2]. cbn in Ht, E. subst r.
  unfold bind, get. exact E.
Qed.

(** A timer event sends what is owed when a source is ready. *)
Lemma timer_sends N now events c k st o e y m1 :
  (length (c_state c) ≤ 256)%nat → c_state c !! k = Some st → st_ready st = true →
  for_each handle events (c_manager c) = (Ret (), m1) → risk_inv N (c_shared c) → owed o e y (c_shared c) →
  ∃ c' p, Controller_timer now events c = (Ret (), c') ∧ position_of o e y (c_shared c) = Some p
    ∧ sent_since o (risk_limit p (Instrument_ctor 0 e y)) c c'.
Proof.
  intros Hlen Hst Hr Hev Hs Ho. destruct (owed_outstanding N o e y (c_shared c) Hs Ho) as (p & Hp & Hout).
  destruct (timer_eq now events c m1 Hev) as (c' & E & E' & _). exists c', p. split_and!; [done..|].
  pose proof (publish_sources_send N (seq 0 (length (c_state c)))
    (set_manager (Manager_timer now m1).2 c) k st o (risk_limit p (Instrument_ctor 0 e y))) as H.
  rewrite E' in H. apply H; try done.
  - apply Forall_forall. intros n Hn. apply elem_of_seq in Hn. cbn. lia.
  - apply elem_of_seq. apply lookup_lt_Some in Hst. lia.
Qed.
End delivery.

(** ** Runs from the start *)

Section started.
Context `{Api : !RoqApi} `{Order : !HashOrder} `{J : !Json} `{W : !WebServer} {D : Type} `{DB : !Database D}
  `{L : !DatabaseLaws D}.
Implicit Types (c : Controller D) (N : gset (string * string)) (o : owner) (e y : string).

(** The controller was constructed over a database with positions [ps]; the
    instruments of those that belong to somebody are in [N]. *)
Record started N (setup : Setup) (ps : list db_Position) c : Prop := {
  sd_ctor : ∃ d, db_positions d = Ret ps ∧ db_ok d ∧ Controller_ctor setup (Ret d) (Ret ()) = Ret c;
  sd_fits : fits N;
  sd_names : Forall (row_named N) ps;
}.

(** The latest time of the positions found at start. *)
Definition start_time (ps : list db_Position) : Z := foldr Z.max 0 (dbp_exchange_time_utc <$> ps).

(** Everything about a run from the start. *)
Lemma started_run N setup ps c0 l c :
  started N setup ps c0 → run N c0 l c →
  sys_inv N (su_source_count setup) c
  ∧ c_last_exchange_time_utc c = start_time ps
  ∧ ∀ o e y, owner_name o ≠ EmptyString → ∃ rs us,
      rs.*1 = filter (owns_row o e y) ps
      ∧ us.*1 = filter (owns_trade o e y) (run_trades (start_time ps) l)
      ∧ position_of o e y (c_shared c)
        = (λ _, apply_updates us (load_all rs (Position_ctor (get_limit (limits_for setup o) (owner_name o) e y))))
          <$> limits_for setup o !! owner_name o.
Proof.
  intros [(d & Hd & Hok & Hc) Hfit Hnames] Hrun.
  destruct (start_inv N setup d ps c0 Hd Hok Hfit Hnames Hc) as (I0 & T0 & _ & P0).
  destruct (run_positions N _ c0 l c Hfit Hrun I0) as (I & T & P). split_and!; [done|by rewrite T, T0|].
  intros o e y Ho. destruct (P0 o e y Ho) as (rs & Hrs & Q0). destruct (P o e y) as (us & Hus & Q).
  exists rs, us. split_and!; [done|by rewrite Hus, T0|]. rewrite Q, Q0.
  by destruct (limits_for setup o !! owner_name o).
Qed.

Lemma run_app N c l1 l2 c' : run N c (l1 ++ l2) c' → ∃ c1, run N c l1 c1 ∧ run N c1 l2 c'.
Proof.
  revert c. induction l1 as [|e l1 IH]; intros c; cbn; [intros ?; exists c; by split; [constructor|]|].
  inversion_clear 1 as [|? ? r c1 ? ? Ha He Hr Hrest]. destruct (IH _ Hrest) as (c2 & H1 & H2).
  exists c2. split; [|done]. by econstructor.
Qed.

Definition is_timer (ev : event) : Prop := match ev with ETimer _ _ => True | _ => False end.
#[global] Instance is_timer_dec ev : Decision (is_timer ev).
Proof. destruct ev; cbn; apply _. Defined.

(** Events other than the timer publish nothing and lose nothing. *)
Lemma event_extends N n ev c :
  fits N → admissible N c ev → ¬ is_timer ev → sys_inv N n c → extends (c_shared c) (c_shared (on_event ev c).2).
Proof.
  intros Hfit Ha Hnt [R _ _ _]. pose proof (event_calm N ev c Hfit Ha) as Hc.
  destruct ev as [| | | | | | |mi tu| |]; try (by apply Hc); [done|].
  destruct (trade_update_effect mi tu c) as (E & _); [by apply (ad_source _ _ _ Ha)|]. cbn [on_event]. rewrite E.
  case_decide; [|done]. apply (trade_inv tu N); [done|by apply (ad_name _ _ _ Ha)|done].
Qed.

Lemma run_extends N n c l c' :
  fits N → run N c l c' → Forall (λ ev, ¬ is_timer ev) l → sys_inv N n c → extends (c_shared c) (c_shared c').
Proof.
  intros Hfit. induction 1 as [c|c ev r c1 l c2 Ha Hev _ _ IH]; intros Hl Hc; [done|].
  apply Forall_cons in Hl as [Hnt Hl]. pose proof (event_extends N n ev c Hfit Ha Hnt Hc) as He.
  pose proof (event_inv N n ev c Hfit Ha Hc) as Hi. rewrite Hev in He, Hi. etrans; [exact He|]. by apply IH.
Qed.

(** The groups of a run are those configured. *)
Lemma position_of_group o e y s : is_Some (position_of o e y s) → is_Some (groups_of o s !! owner_name o).
Proof. destruct o; cbn; unfold position_of_account, position_of_user; by rewrite fmap_is_Some. Qed.
End started.
