(* ===== verification/Application.v ===== *)
(** * Start-up

    [Settings] (settings.hpp, settings.cpp), the flags (flags/flags.json) and
    [Application::main] (application.cpp): from the command line to a controller.
    The command line, the TOML reader, the file system, the network and the bridge
    to the gateways are arguments. *)

From S2P Require Import Prelude Double Messages Instrument Position Groups Shared SharedFacts RiskFacts.
From S2P Require Import RiskInv Config ConfigProps Format Text Web Statement Sql Trades TradesFacts Funds.
From S2P Require Import Database Queries Control ControlFacts ControlProps Controller ControllerFacts PublishFacts.
From S2P Require Import System Runs Delivery.

(** [flags::Flags], generated from flags/flags.json. *)
Record Flags : Type := {
  fl_config_file : string;
  fl_db_type : string;
  fl_db_params : string;
  fl_control_listen_address : string;
  fl_control_url_prefix : string;
}.

(** The flags with their defaults: [config_file] and [control_listen_address] have
    to be given. *)
Definition Flags_default (config_file control_listen_address : string) : Flags := {|
  fl_config_file := config_file;
  fl_db_type := "sqlite";
  fl_db_params := "risk.sqlite3";
  fl_control_listen_address := control_listen_address;
  fl_control_url_prefix := EmptyString;
|}.

(** [Settings]: the member of the client's settings the program sets, and the
    flags, which [Flags::create] reads from the command line. *)
Record Settings : Type := { se_app_drop_copy : bool; se_flags : Flags }.

Definition Settings_ctor (app_drop_copy : bool) (create : outcome Flags) : outcome Settings :=
  let? flags := create in
  Ret {| se_app_drop_copy := app_drop_copy; se_flags := flags |}.

(** [control::Shared::Shared]: the prefix of the paths the service answers to. The
    buffer texts are formatted into is cleared before every use. *)
Definition control_Shared_ctor (settings : Settings) : string := fl_control_url_prefix (se_flags settings).

(** The formatter of [Settings]; [client] and [flags] are the texts of its two
    bases. *)
Definition format_Settings (client flags : string) : string :=
  format_fields [Bare "client" client; Bare "flags" flags].

(** Everything the program finds outside. *)
Record Platform `{Toml} : Type := {
  pf_drop_copy : bool;
  pf_parse_file : string → outcome node;
  pf_compare : string → string → Z;
  pf_file : SqliteFile;
  pf_parent_path : string → string;
  pf_create_directory : string → outcome bool;
  pf_create_tcp_listener : NetworkAddress → outcome ();
  pf_bridge : Settings → list subscription → list string → outcome ();
}.

Section application.
Context `{T : !Toml} `{Api : !RoqApi} `{Order : !HashOrder} `{J : !Json} `{W : !WebServer} `{Engine : !SqlEngine}.

(** What the constructor of the controller is given. *)
Definition setup_of (settings : Settings) (config : Config) (source_count : nat) : Setup := {|
  su_url_prefix := control_Shared_ctor settings;
  su_accounts := cfg_accounts config;
  su_users := cfg_users config;
  su_strategies := cfg_strategies config;
  su_source_count := source_count;
|}.

(** The listener of [control::Manager::Manager]. *)
Definition create_listener (p : Platform) (settings : Settings) : outcome () :=
  let? address := create_network_address (pf_parent_path p) (pf_create_directory p)
                    (fl_control_listen_address (se_flags settings)) in
  pf_create_tcp_listener p address.

(** [Application::main], up to the first event. *)
Definition Application_main (p : Platform) (create : outcome Flags) (params : list string)
    : outcome (Settings * Controller SqliteSession) :=
  if bool_decide (params = []) then Fatal
  else
    let? settings := Settings_ctor (pf_drop_copy p) create in
    let settings := {| se_app_drop_copy := true; se_flags := se_flags settings |} in
    let? config := Config_parse (pf_parse_file p) (fl_config_file (se_flags settings)) in
    let? _ := pf_bridge p settings (Config_dispatch config) params in
    let? controller :=
      Controller_ctor (setup_of settings config (length params))
        (Factory_create (pf_compare p) (pf_file p) (fl_db_type (se_flags settings)) (fl_db_params (se_flags settings)))
        (create_listener p settings) in
    Ret (settings, controller).

(** ** main *)

(** [roq::Service::Info]. *)
Record Service_Info : Type := {
  info_description : string;
  info_package_name : string;
  info_build_version : string;
}.

(** The parts of the roq library [main] uses, over the result [A] of the service;
    [Service::run] is given what [Application] overrides. *)
Record Service (A : Type) : Type := {
  sv_Args : Type;
  sv_Args_ctor : list string → string → string → outcome sv_Args;
  sv_Settings : Type;
  sv_Settings_ctor : sv_Args → outcome sv_Settings;
  sv_Parser : Type;
  sv_params : sv_Parser → list string;
  sv_flags_create : outcome Flags;
  sv_run : sv_Args → sv_Settings → Service_Info → (sv_Parser → outcome A) → outcome A;
}.

Definition INFO (package_name build_version : string) : Service_Info := {|
  info_description := "Simple Strategy";
  info_package_name := package_name;
  info_build_version := build_version;
|}.

(** [main], up to the first event. *)
Definition main (sv : Service (Settings * Controller SqliteSession)) (p : Platform)
    (package_name build_version : string) (argv : list string) : outcome (Settings * Controller SqliteSession) :=
  let info := INFO package_name build_version in
  let? args := sv_Args_ctor _ sv argv (info_description info) (info_build_version info) in
  let? settings := sv_Settings_ctor _ sv args in
  sv_run _ sv args settings info (λ parser, Application_main p (sv_flags_create _ sv) (sv_params _ sv parser)).

(** ** Starting over a new file *)

(** The queries on empty tables yield rows that belong to nobody. *)
Lemma empty_positions :
  Trades_select_positions [] = Ret (replicate 3
    {| dbp_user := EmptyString; dbp_strategy_id := 0; dbp_account := EmptyString; dbp_exchange := EmptyString;
       dbp_symbol := EmptyString; dbp_long_quantity := NaN; dbp_short_quantity := NaN; dbp_exchange_time_utc := 0 |}).
Proof.
  unfold Trades_select_positions, select_positions_by_user, select_positions_by_strategy, select_positions_by_account.
  cbv zeta. rewrite !query_yields. cbn [filter list_filter].
  rewrite !(proj2 (side_totals_nil _ _ [])) by done. by rewrite !outer_aggregate_nil.
Qed.

(** What a first start finds: the document of some symbols and limits, a new database
    file of a known type, and a file system, network and bridge that do not fail. *)
Record first_time (p : Platform) (flags : Flags) (params : list string)
    (of_string : string → leaf) (of_double : double → leaf) (of_bool : bool → leaf)
    (symbols : list string) (accounts users : limit_table string) : Prop := {
  ft_string s : leaf_string (of_string s) = Some s;
  ft_double d : leaf_double (of_double d) = Some d;
  ft_bool b : leaf_bool (of_bool b) = Some b;
  ft_params : params ≠ [];
  ft_symbols : symbols ≠ [];
  ft_config : pf_parse_file p (fl_config_file flags)
              = Ret (write_config of_string of_double of_bool symbols accounts users);
  ft_bridge s l : pf_bridge p s l params = Ret ();
  ft_type : pf_compare p (fl_db_type flags) "sqlite" = 0;
  ft_new : (sf_open (pf_file p) (fl_db_params flags)).2 = (None, None);
  ft_open : is_Ret (Session_ctor (pf_file p) (fl_db_params flags));
  ft_listen : create_listener p {| se_app_drop_copy := true; se_flags := flags |} = Ret ();
}.

(** The start gets to a controller over empty tables, with the limits of the
    document. *)
Lemma main_constructs p flags params of_string of_double of_bool symbols accounts users :
  first_time p flags params of_string of_double of_bool symbols accounts users →
  ∃ settings c, Application_main p (Ret flags) params = Ret (settings, c)
    ∧ se_app_drop_copy settings = true
    ∧ Controller_ctor {| su_url_prefix := fl_control_url_prefix flags; su_accounts := accounts; su_users := users;
                         su_strategies := ∅; su_source_count := length params |}
        (Ret {| ss_trades := []; ss_funds := [] |}) (Ret ()) = Ret c.
Proof.
  intros [Hstring Hdouble Hbool Hparams Hsymbols Hconfig Hbridge Htype Hnew Hopen Hlisten].
  unfold Application_main. rewrite bool_decide_false by done. cbv zeta. cbn [outcome_bind se_flags Settings_ctor].
  unfold Config_parse. rewrite Hconfig. cbn [outcome_bind].
  rewrite (config_parses of_string of_double of_bool) by done. cbn [outcome_bind]. rewrite Hbridge. cbn [outcome_bind].
  unfold Factory_create. rewrite Htype. cbn [Z.eqb orb].
  destruct (Session_ctor (pf_file p) (fl_db_params flags)) as [d| | |] eqn:Hd; try done.
  apply new_file_empty in Hd as ->; [|done]. rewrite Hlisten.
  set (setup := setup_of _ _ _). set (d := {| ss_trades := []; ss_funds := [] |}).
  assert (Hc : ∃ c, Controller_ctor setup (Ret d) (Ret ()) = Ret c).
  { unfold Controller_ctor, load_positions, bind, on_manager, ask. cbn [outcome_bind].
    cbn [c_manager initial Manager_ctor m_database db_positions sqlite_database ss_trades d].
    rewrite empty_positions. cbn [modify]. by eexists. }
  destruct Hc as [c Hc]. exists {| se_app_drop_copy := true; se_flags := flags |}, c. by rewrite Hc.
Qed.

End application.

(** ** Evaluation *)

Section application_witnesses.
Import config_example.
Import control_example.
#[local] Existing Instance test_api.

(** A new file, a socket in the current directory, and one gateway. *)
Definition test_platform : Platform := {|
  pf_drop_copy := false;
  pf_parse_file _ := Ret (write_config LString LDouble LBool ["BTC"] btc_limits ∅);
  pf_compare a b := if bool_decide (a = b) then 0 else 1;
  pf_file := new_file;
  pf_parent_path _ := EmptyString;
  pf_create_directory _ := Ret false;
  pf_create_tcp_listener _ := Ret ();
  pf_bridge _ _ _ := Ret ();
|}.
Definition test_flags : Flags := Flags_default "config.toml" "control.sock".

Lemma test_first_time :
  first_time test_platform test_flags ["gateway.sock"] LString LDouble LBool ["BTC"] btc_limits ∅.
Proof. split; try done; reflexivity. Qed.
End application_witnesses.
