(* ===== verification/ControllerProps.v ===== *)
(** * What the controller promises

    Positions are the executed quantities, each execution counted once; updates
    that were in the database at start are dropped; a failing database does not
    stop the risk state; limits are published to ready sources only, with the
    configured limits, and once. *)

From S2P Require Import Prelude Double Messages Instrument Position Groups Shared SharedFacts.
From S2P Require Import RiskFacts Text Web Statement Sql Trades TradesFacts TradesProps Funds.
From S2P Require Import Database Control ControlFacts ControlProps Controller ControllerFacts.
From S2P Require Import PublishFacts.

Section exactly_once.
Context `{Api : !RoqApi} `{Laws : !RoqApiLaws} `{Order : !HashOrder} `{J : !Json} `{W : !WebServer}
  {D : Type} `{DB : !Database D}.
Implicit Types (c : Controller D).

(** A run from the start, position by position. *)
Lemma trade_updates_positions (setup : Setup) (d : D) (l : list (MessageInfo * TradeUpdate)) :
  (∀ id t, settles (server_send_text id t)) →
  Forall (λ x, settled (db_insert_trades (trade_of_fill x.2 <$> tu_fills x.2))) l →
  Forall (λ x, 0 ≤ mi_source x.1 < Z.of_nat (su_source_count setup)) l →
  2 * Z.of_nat (length l) < 2 ^ 32 →
  let fl := filter (λ tu, 0 < tu_create_time_utc tu) l.*2 in
  let s := Shared_ctor (su_accounts setup) (su_users setup) (su_strategies setup) in
  ∃ c', trade_updates l (initial setup d) = (Ret (), c')
  ∧ (∀ a e y, ∃ us, us.*1 = filter (of_account a e y) fl
     ∧ position_of_account a e y (c_shared c') = apply_updates us <$> position_of_account a e y s)
  ∧ (∀ u e y, ∃ us, us.*1 = filter (of_user u e y) fl
     ∧ position_of_user u e y (c_shared c') = apply_updates us <$> position_of_user u e y s).
Proof.
  intros Hserver Hdb Hsources Hcount fl s.
  assert (Hl : Forall (λ x, has_source (mi_source x.1) (initial setup d)) l).
  { eapply Forall_impl; [exact Hsources|]. intros x Hx. apply lookup_lt_is_Some. cbn.
    rewrite length_replicate. cbn in Hx. lia. }
  destruct (trade_updates_total l (initial setup d) Hserver Hdb Hl) as [c' Hrun].
  exists c'. split; [done|]. apply trade_updates_effect in Hrun; [|done].
  change (filter (fresh (initial setup d)) l.*2) with fl in Hrun. rewrite Hrun.
  apply (apply_trades_positions fl 0 s); [done|]. eapply risk_wf_weaken; [|apply risk_wf_ctor].
  pose proof (length_filter (λ tu, 0 < tu_create_time_utc tu) l.*2) as Hlen. rewrite length_fmap in Hlen.
  fold fl in Hlen. lia.
Qed.

Lemma run_implements g ex us (l : list TradeUpdate) limit :
  us.*1 = l → lot_exponent g → Forall (reports g ex) l → gross ex (executed l) < 2 ^ prec →
  implements g ex (executed l) (apply_updates us (Position_ctor limit))
  ∧ limits_of (apply_updates us (Position_ctor limit)) = limit.
Proof.
  intros <- Hg Hr Hb. rewrite <- reported_executed in *. split.
  - rewrite <- (union_empty_r_L (reported us)). apply apply_updates_implements; [done| | |apply implements_init].
    + exact (proj1 (Forall_fmap _ _ _) Hr).
    + by rewrite union_empty_r_L.
  - by rewrite apply_updates_limits, limits_of_ctor.
Qed.

(** The position of a configured account in an instrument: after any run of
    trade updates, from any sources, in any order and with any repetition, for
    this and for other accounts and instruments, the handlers have returned, and
    the long and short position are the positive and negative part of the sum of
    the account's executions in the instrument, each counted once; the limits are
    the configured ones. Database and subscribers may throw at any time. *)
Theorem account_position_exactly_once (setup : Setup) (d : D) (l : list (MessageInfo * TradeUpdate))
    (a e y : string) (g : Z) (ex : string → Z)
    (Hserver : ∀ id t, settles (server_send_text id t))
    (Hdb : Forall (λ x, settled (db_insert_trades (trade_of_fill x.2 <$> tu_fills x.2))) l)
    (Hsources : Forall (λ x, 0 ≤ mi_source x.1 < Z.of_nat (su_source_count setup)) l)
    (Hconfigured : is_Some (su_accounts setup !! a))
    (Hcount : 2 * Z.of_nat (length l) < 2 ^ 32)
    (Hg : lot_exponent g)
    (Hreports : Forall (reports g ex)
                  (filter (of_account a e y) (filter (λ tu, 0 < tu_create_time_utc tu) l.*2)))
    (Hgross : gross ex (executed (filter (of_account a e y) (filter (λ tu, 0 < tu_create_time_utc tu) l.*2)))
              < 2 ^ prec) :
  ∃ c' p, trade_updates l (initial setup d) = (Ret (), c')
       ∧ position_of_account a e y (c_shared c') = Some p
       ∧ implements g ex (executed (filter (of_account a e y) (filter (λ tu, 0 < tu_create_time_utc tu) l.*2))) p
       ∧ limits_of p = get_limit (su_accounts setup) a e y.
Proof.
  destruct (trade_updates_positions setup d l Hserver Hdb Hsources Hcount) as (c' & Hrun & Hp & _).
  exists c'. destruct (Hp a e y) as (us & Hus & Hpos). rewrite initial_position_of_account in Hpos.
  destruct Hconfigured as [t Ht]. rewrite Ht in Hpos. eexists. split; [exact Hrun|].
  split; [exact Hpos|]. by apply (run_implements g ex us).
Qed.

(** The same for a configured user. *)
Theorem user_position_exactly_once (setup : Setup) (d : D) (l : list (MessageInfo * TradeUpdate))
    (u e y : string) (g : Z) (ex : string → Z)
    (Hserver : ∀ id t, settles (server_send_text id t))
    (Hdb : Forall (λ x, settled (db_insert_trades (trade_of_fill x.2 <$> tu_fills x.2))) l)
    (Hsources : Forall (λ x, 0 ≤ mi_source x.1 < Z.of_nat (su_source_count setup)) l)
    (Hconfigured : is_Some (su_users setup !! u))
    (Hcount : 2 * Z.of_nat (length l) < 2 ^ 32)
    (Hg : lot_exponent g)
    (Hreports : Forall (reports g ex)
                  (filter (of_user u e y) (filter (λ tu, 0 < tu_create_time_utc tu) l.*2)))
    (Hgross : gross ex (executed (filter (of_user u e y) (filter (λ tu, 0 < tu_create_time_utc tu) l.*2)))
              < 2 ^ prec) :
  ∃ c' p, trade_updates l (initial setup d) = (Ret (), c')
       ∧ position_of_user u e y (c_shared c') = Some p
       ∧ implements g ex (executed (filter (of_user u e y) (filter (λ tu, 0 < tu_create_time_utc tu) l.*2))) p
       ∧ limits_of p = get_limit (su_users setup) u e y.
Proof.
  destruct (trade_updates_positions setup d l Hserver Hdb Hsources Hcount) as (c' & Hrun & _ & Hp).
  exists c'. destruct (Hp u e y) as (us & Hus & Hpos). rewrite initial_position_of_user in Hpos.
  destruct Hconfigured as [t Ht]. rewrite Ht in Hpos. eexists. split; [exact Hrun|].
  split; [exact Hpos|]. by apply (run_implements g ex us).
Qed.
End exactly_once.

Section handlers.
Context `{Api : !RoqApi} `{Order : !HashOrder} `{J : !Json} `{W : !WebServer} {D : Type} `{DB : !Database D}.
Implicit Types (c : Controller D).

(** ** Trade updates *)

(** A trade update that is not newer than the last trade found in the database
    at start is dropped: no position changes, nothing is stored and no subscriber
    hears of it; only the ids of the source's last message are noted. *)
Theorem stale_trade_dropped (mi : MessageInfo) (tu : TradeUpdate) (st : State) c
    (Hst : c_state c !! Z.to_nat (mi_source mi) = Some st)
    (Hstale : tu_create_time_utc tu ≤ c_last_exchange_time_utc c) :
  Controller_trade_update mi tu c = (Ret (), noted mi st c).
Proof.
  rewrite (trade_update_eq mi tu c st Hst), decide_False; [done|]. unfold fresh. lia.
Qed.

(** What the database or a subscriber's connection throws is swallowed: the
    handler returns and the positions are updated all the same. *)
Theorem trade_update_survives_errors (mi : MessageInfo) (tu : TradeUpdate) (st : State) (e : exn) c c2
    (Hst : c_state c !! Z.to_nat (mi_source mi) = Some st) (Hfresh : fresh c tu)
    (Hstore : store_trades tu (set_shared (apply_trade tu (c_shared c)) (noted mi st c)) = (Throw e, c2)) :
  Controller_trade_update mi tu c = (Ret (), c2) ∧ c_shared c2 = apply_trade tu (c_shared c).
Proof.
  rewrite (trade_update_eq mi tu c st Hst), decide_True by done. split.
  - unfold catch_all. by rewrite Hstore.
  - pose proof (same_risk_store_trades tu (set_shared (apply_trade tu (c_shared c)) (noted mi st c))) as [H _ _ _].
    by rewrite Hstore in H.
Qed.

Lemma store_trades_quiet tu c (Hs : ∀ id t, server_send_text id t = Ret ()) :
  ∃ c1, store_trades tu c = on_database (db_insert_trades (trade_of_fill tu <$> tu_fills tu)) c1
        ∧ m_database (c_manager c1) = m_database (c_manager c) ∧ same_risk c c1.
Proof.
  unfold store_trades. generalize (on_database (db_insert_trades (trade_of_fill tu <$> tu_fills tu))).
  intros k. revert c. induction (tu_fills tu) as [|f l IH]; intros c.
  { by exists c. }
  cbn [for_each]. destruct (Manager_trade_sends (trade_of_fill tu f) (c_manager c) Hs)
    as (m' & Hm & _ & _ & Hd).
  destruct (IH (set_manager m' c)) as (c1 & H1 & H2 & H3). exists c1. split_and!.
  - rewrite <- H1. unfold bind at 1 2, on_manager at 1. by rewrite Hm.
  - rewrite H2. exact Hd.
  - etrans; [|exact H3]. done.
Qed.

(** A fresh update the database takes: the handler returns, with the batch in the
    database and the positions updated. *)
Lemma trade_update_stored mi tu c (d : D) :
  (∀ id t, server_send_text id t = Ret ()) → has_source (mi_source mi) c → fresh c tu →
  db_insert_trades (trade_of_fill tu <$> tu_fills tu) (m_database (c_manager c)) = (Ret (), d) →
  ∃ c', Controller_trade_update mi tu c = (Ret (), c')
    ∧ m_database (c_manager c') = d ∧ c_shared c' = apply_trade tu (c_shared c)
    ∧ (∀ source, has_source source c → has_source source c') ∧ (fresh c tu → fresh c' tu).
Proof.
  intros Hs [st Hst] Hf Hdb.
  destruct (trade_update_effect mi tu c) as (E & L & N & _); [by eexists|].
  assert (H : ∃ c', Controller_trade_update mi tu c = (Ret (), c') ∧ m_database (c_manager c') = d).
  { rewrite (trade_update_eq mi tu c st Hst), decide_True by done. unfold catch_all.
    destruct (store_trades_quiet tu (set_shared (apply_trade tu (c_shared c)) (noted mi st c)) Hs)
      as (c1 & -> & Hd & _).
    unfold on_database, on_manager, call. rewrite Hd. cbn [c_manager set_shared noted set_source_states].
    rewrite Hdb. by eexists. }
  destruct H as (c' & Hc & Hd). rewrite Hc in *. cbn in *. rewrite decide_True in E by done.
  exists c'. split_and!; try done.
  - intros source. unfold has_source. rewrite !lookup_lt_is_Some. lia.
  - unfold fresh. by rewrite L.
Qed.

(** C10. A trade update delivered twice: both deliveries return, the second leaves
    every position of every account and user as it is, and the database holds
    the same rows. *)
Theorem trade_redelivery `{Laws : !DatabaseLaws D} (mi mi' : MessageInfo) (tu : TradeUpdate) c (d1 : D)
    (Hs : ∀ id t, server_send_text id t = Ret ())
    (Hsrc : has_source (mi_source mi) c) (Hsrc' : has_source (mi_source mi') c)
    (Hwf : risk_wf 4 (c_shared c)) (Hok : db_ok (m_database (c_manager c))) (Hfresh : fresh c tu)
    (Hdb : db_insert_trades (trade_of_fill tu <$> tu_fills tu) (m_database (c_manager c)) = (Ret (), d1)) :
  ∃ c1 c2, Controller_trade_update mi tu c = (Ret (), c1) ∧ Controller_trade_update mi' tu c1 = (Ret (), c2)
  ∧ (∀ a e y, position_of_account a e y (c_shared c2) = position_of_account a e y (c_shared c1))
  ∧ (∀ u e y, position_of_user u e y (c_shared c2) = position_of_user u e y (c_shared c1))
  ∧ m_database (c_manager c1) = d1 ∧ db_equiv (m_database (c_manager c2)) d1.
Proof.
  destruct (trade_update_stored mi tu c d1 Hs Hsrc Hfresh Hdb) as (c1 & H1 & D1 & E1 & S1 & F1).
  destruct (db_replay _ _ _ Hok Hdb) as (d2 & Hd2 & Heq). rewrite <- D1 in Hd2.
  destruct (trade_update_stored mi' tu c1 d2 Hs (S1 _ Hsrc') (F1 Hfresh) Hd2) as (c2 & H2 & D2 & E2 & _).
  exists c1, c2. split; [done|]. split; [done|]. rewrite E2, E1, D2.
  destruct (apply_trade_effect tu 2 (c_shared c)) as (W1 & A1 & U1); [lia|done|].
  destruct (apply_trade_effect tu 0 (apply_trade tu (c_shared c))) as (W2 & A2 & U2); [lia|done|].
  split_and!; [| |done|done].
  - intros a e y. destruct (A1 a e y) as [i1 P1]. destruct (A2 a e y) as [i2 P2]. rewrite P2, P1.
    case_decide; [|done]. destruct (position_of_account a e y (c_shared c)) as [p|]; [|done].
    cbn. f_equal. by apply trade_update_again.
  - intros u e y. destruct (U1 u e y) as [i1 P1]. destruct (U2 u e y) as [i2 P2]. rewrite P2, P1.
    case_decide; [|done]. destruct (position_of_user u e y (c_shared c)) as [p|]; [|done].
    cbn. f_equal. by apply trade_update_again.
Qed.

(** ** Start *)

Lemma Controller_ctor_eq (setup : Setup) (d : D) (ps : list db_Position) :
  db_positions d = Ret ps →
  Controller_ctor setup (Ret d) (Ret ()) = Ret (fold_left load_position ps (initial setup d)).
Proof.
  intros Hd. unfold Controller_ctor, outcome_bind, load_positions, bind, on_manager, ask.
  cbn [c_manager initial Manager_ctor m_database]. by rewrite Hd.
Qed.

Lemma initial_risk_wf (setup : Setup) (d : D) n : n < 2 ^ 32 → risk_wf n (c_shared (initial setup d)).
Proof. intros Hn. eapply risk_wf_weaken; [|apply risk_wf_ctor]. lia. Qed.

(** Start: an account that the database has a position for shows that
    position, in the instrument it names; the others show none. Trades are
    dropped up to the latest time of all positions. *)
Theorem start_loads_positions (setup : Setup) (d : D) (ps : list db_Position)
    (Hd : db_positions d = Ret ps) (Hcount : 2 * Z.of_nat (length ps) < 2 ^ 32) :
  ∃ c, Controller_ctor setup (Ret d) (Ret ()) = Ret c
    ∧ c_last_exchange_time_utc c = foldr Z.max 0 (dbp_exchange_time_utc <$> ps)
    ∧ ∀ a e y, a ≠ EmptyString → is_Some (su_accounts setup !! a) →
      ∃ p, position_of_account a e y (c_shared c) = Some p
        ∧ limits_of p = get_limit (su_accounts setup) a e y
        ∧ (long_position p, short_position p)
          = match last (filter (db_of_account a e y) ps) with
            | Some dbp => (dbp_long_quantity dbp, dbp_short_quantity dbp)
            | None => (dzero, dzero)
            end.
Proof.
  eexists. split; [by apply Controller_ctor_eq|].
  destruct (load_positions_effect ps 0 (initial setup d)) as (_ & L & _ & A);
    [done|by apply initial_risk_wf|]. split; [done|].
  intros a e y Ha [t Ht]. destruct (A a e y Ha) as (us & Hus & Hp).
  cbn [c_shared initial] in Hp. rewrite initial_position_of_account, Ht in Hp.
  eexists. split; [exact Hp|]. destruct (load_all_same_but_sides us (Position_ctor (get_limit (su_accounts setup) a e y)))
    as (Hl & _). split; [by rewrite Hl, limits_of_ctor|].
  rewrite <- Hus. destruct us as [|[x i] us _] using rev_ind; [done|].
  rewrite fmap_app. change ([(x, i)].*1) with [x]. rewrite last_snoc.
  destruct (load_all_sides us x i (Position_ctor (get_limit (su_accounts setup) a e y))) as [-> ->]. done.
Qed.

(** C13. The position read from the database does not survive the first trade: the
    account's position is then that trade's alone, as if nothing had been read,
    because the quantity that trades add to stays zero. *)
Theorem restart_forgets_position (setup : Setup) (d : D) (ps : list db_Position) c
    (mi : MessageInfo) (tu : TradeUpdate)
    (Hd : db_positions d = Ret ps) (Hcount : 2 * Z.of_nat (length ps) + 2 < 2 ^ 32)
    (Hc : Controller_ctor setup (Ret d) (Ret ()) = Ret c)
    (Hsrc : 0 ≤ mi_source mi < Z.of_nat (su_source_count setup))
    (Hfresh : fresh c tu) (Hfills : tu_fills tu ≠ []) (Ha : tu_account tu ≠ EmptyString) :
  ∃ i, position_of_account (tu_account tu) (tu_exchange tu) (tu_symbol tu)
         (c_shared (Controller_trade_update mi tu c).2)
       = (λ _, Position_trade_update tu i
                 (Position_ctor (get_limit (su_accounts setup) (tu_account tu) (tu_exchange tu) (tu_symbol tu))))
         <$> su_accounts setup !! tu_account tu.
Proof.
  rewrite (Controller_ctor_eq setup d ps Hd) in Hc. injection Hc as <-.
  destruct (load_positions_effect ps 2 (initial setup d)) as (Hwf & _ & Hst & A);
    [done|apply initial_risk_wf; lia|].
  set (c := fold_left load_position ps (initial setup d)) in *.
  assert (Hs : has_source (mi_source mi) c).
  { unfold has_source. rewrite Hst. apply lookup_lt_is_Some. cbn. rewrite length_replicate. lia. }
  destruct (trade_update_effect mi tu c Hs) as (E & _). rewrite E, decide_True by done.
  destruct (apply_trade_effect tu 0 (c_shared c)) as (_ & P & _); [done|done|].
  destruct (P (tu_account tu) (tu_exchange tu) (tu_symbol tu)) as [i Hi]. exists i.
  rewrite Hi, decide_True by done.
  destruct (A (tu_account tu) (tu_exchange tu) (tu_symbol tu) Ha) as (us & _ & Hp). rewrite Hp.
  cbn [c_shared initial]. rewrite initial_position_of_account.
  destruct (su_accounts setup !! tu_account tu); [|done]. cbn. f_equal.
  apply trade_update_same_but_sides; [apply load_all_same_but_sides| |done].
  by destruct (load_all_same_but_sides us (Position_ctor
    (get_limit (su_accounts setup) (tu_account tu) (tu_exchange tu) (tu_symbol tu)))) as (_ & -> & _).
Qed.

(** ** Publication *)

(** C18. [publish_accounts] sends, for every configured account with a pending
    position, one message with one entry per pending position, and then nothing
    is pending: a second source that is ready gets nothing. *)
Theorem publish_accounts_once (source source' : Z) (st st' : State) c
    (Hst : c_state c !! Z.to_nat source = Some st) (Hst' : c_state c !! Z.to_nat source' = Some st')
    (Hwf : groups_wf (sh_accounts (c_shared c)) (c_shared c)) :
  ∃ c1 c2, publish_accounts source c = (Ret (), c1) ∧ publish_accounts source' c1 = (Ret (), c2)
    ∧ c_sent c1 = c_sent c ++ omap (account_message source st (c_shared c)) (keys (sh_accounts (c_shared c)))
    ∧ c_sent c2 = c_sent c1
    ∧ ∀ name set, publish_by_account (sh_publish (c_shared c)) !! name = Some set →
      ∀ r, r ∈ account_limits name (c_shared c) ↔
        ∃ id i g p, id ∈ set ∧ instruments (sh_registry (c_shared c)) !! id = Some i
          ∧ sh_accounts (c_shared c) !! name = Some g ∧ grp_positions g !! id = Some p
          ∧ r = risk_limit p i.
Proof.
  eexists. eexists. split_and!.
  - by apply publish_accounts_eq.
  - apply (publish_accounts_eq source' st'); cbn; [done|].
    rewrite clear_accounts_accounts. by apply groups_wf_clear_all.
  - done.
  - cbn. rewrite clear_accounts_accounts.
    assert (omap (account_message source' st'
              (clear_accounts (keys (sh_accounts (c_shared c))) (c_shared c))) (keys (sh_accounts (c_shared c))) = [])
      as ->; [|by rewrite app_nil_r].
    assert (∀ l, (∀ n, n ∈ l → n ∈ keys (sh_accounts (c_shared c))) →
      omap (account_message source' st' (clear_accounts (keys (sh_accounts (c_shared c))) (c_shared c))) l = []) as H.
    { intros l. induction l as [|n l IH]; intros Hl; [done|]. cbn. unfold account_message at 1.
      rewrite clear_accounts_limits, decide_True by (apply Hl; left). apply IH. intros. apply Hl. by right. }
    by apply H.
  - intros name set Hset r. unfold account_limits. rewrite Hset. unfold pending.
    rewrite found_perm, list_elem_of_fmap. split.
    + intros ([p i] & -> & (id & g & H1 & H2 & H3 & H4)%elem_of_found). by exists id, i, g, p.
    + intros (id & i & g & p & H1 & H2 & H3 & H4 & ->). exists (p, i). split; [done|].
      apply elem_of_found. by exists id, g.
Qed.


(** The end of a download publishes the account once per connection: a second
    one changes nothing but the noted ids, until the source disconnects. *)
Theorem download_end_latched (mi mi' : MessageInfo) (account : string) (st : State) c
    (Ha : account ≠ EmptyString) (Hsame : mi_source mi' = mi_source mi)
    (Hst : c_state c !! Z.to_nat (mi_source mi) = Some st) (Hnew : account ∉ st_latch_by_account st) :
  ∃ c1 c2, Controller_download_end mi account c = (Ret (), c1)
    ∧ c_shared c1 = publish_account account (c_shared c)
    ∧ Controller_download_end mi' account c1 = (Ret (), c2)
    ∧ c_shared c2 = c_shared c1.
Proof.
  assert (Hlt : (Z.to_nat (mi_source mi) < length (c_state c))%nat) by by eapply lookup_lt_Some.
  unfold Controller_download_end. rewrite !(bool_decide_false (account = EmptyString)) by done.
  eexists. eexists. split_and!.
  - unfold bind at 1. rewrite (message_info_spec mi c st Hst). unfold bind at 1, state_at.
    cbn [c_state set_source_states]. rewrite list_lookup_insert_eq by done.
    rewrite bool_decide_false by done. reflexivity.
  - reflexivity.
  - unfold bind at 1. erewrite message_info_spec.
    2: { rewrite Hsame. cbn. apply list_lookup_insert_eq. by rewrite length_insert. }
    unfold bind, state_at. cbn [c_state set_source_states set_shared]. rewrite Hsame, list_lookup_insert_eq
      by (cbn; by rewrite !length_insert).
    cbn [st_latch_by_account]. rewrite bool_decide_true by set_solver. reflexivity.
  - reflexivity.
Qed.

(** ** Sources and reference data *)


(** Reference data changes no position of any account or user. *)
Theorem reference_data_keeps_positions (rd : ReferenceData) c
    (Hwf : risk_wf (1 + Z.of_nat (size (sh_accounts (c_shared c))) + Z.of_nat (size (sh_users (c_shared c))))
             (c_shared c)) :
  let r := Controller_reference_data rd c in
  r.1 = Ret ()
  ∧ (∀ a e y, position_of_account a e y (c_shared r.2) = position_of_account a e y (c_shared c))
  ∧ (∀ u e y, position_of_user u e y (c_shared r.2) = position_of_user u e y (c_shared c)).
Proof.
  cbn zeta. unfold Controller_reference_data, on_shared, modify. cbn [fst snd c_shared set_shared].
  split; [done|]. set (s := c_shared c) in *. destruct Hwf as [Hs Ha Hu].
  assert (Hpos : 0 < 1 + Z.of_nat (size (sh_accounts s)) + Z.of_nat (size (sh_users s))) by lia.
  pose proof (put_instrument_wf rd _ s (rd_exchange rd) (rd_symbol rd) Hpos Hs) as Hput.
  rewrite get_instrument_eq in *. destruct (registry_get_instrument _ _ (sh_registry s)) as [i r].
  cbn [fst snd] in *. set (s1 := set_registry r s) in *.
  destruct (Instrument_reference_data rd i) as [b i']. cbn [snd] in Hput. destruct Hput as [Hw Hg].
  set (s2 := put_instrument i' s1) in *.
  destruct (positions_grow s s2) as [A2 U2]; [done..|].
  destruct b; [|done].
  assert (W2 : risk_wf (Z.of_nat (size (sh_users s)) + Z.of_nat (length (keys (sh_accounts s2)))) s2).
  { split; [|by eapply groups_wf_grows..]. rewrite length_keys. cbn [sh_accounts s2 put_instrument].
    by replace (Z.of_nat (size (sh_users s)) + _)
      with (1 + Z.of_nat (size (sh_accounts s)) + Z.of_nat (size (sh_users s)) - 1) by (cbn; lia). }
  destruct (get_all_accounts_keep rd (keys (sh_accounts s2)) (Z.of_nat (size (sh_users s))) s2)
    as (W3 & A3 & U3); [done|lia|done|].
  set (s3 := fold_left _ _ s2) in *.
  assert (Hn3 : size (sh_users s3) = size (sh_users s)).
  { unfold s3. f_equal. exact (get_all_accounts_users rd _ s2). }
  destruct (get_all_users_keep rd (keys (sh_users s3)) 0 s3) as (_ & A4 & U4); [done|done| |].
  { by rewrite length_keys, Hn3, Z.add_0_l. }
  split.
  - intros a e y. etrans; [apply A4|]. by rewrite A3.
  - intros u e y. etrans; [apply U4|]. by rewrite U3.
Qed.
End handlers.

(** ** Funds *)

Section funds_update.
Context `{Api : !RoqApi} `{Order : !HashOrder} `{J : !Json} `{W : !WebServer} `{Engine : !SqlEngine}.
Implicit Types (c : Controller SqliteSession).

(** Funds whose balance is not a finite number are an exception out of the
    handler, unlike trades: nothing is stored and nothing cached. *)
Theorem funds_update_throws (now : Z) (mi : MessageInfo) (fu : FundsUpdate) c
    (Hplain : all_plain [fu_account fu; fu_currency fu; fu_external_account fu] = true)
    (Hbalance : isfinite (fu_balance fu) = false) :
  Controller_funds_update now mi fu c = (Throw RuntimeError, c).
Proof.
  unfold Controller_funds_update, bind, on_database, on_manager, call. cbn [db_insert_funds sqlite_database].
  unfold on_funds, Funds_insert. cbn [for_each]. unfold bind. rewrite insert_funds_cases.
  unfold funds_plain, funds_of_update. cbn [dbf_account dbf_currency dbf_external_account]. rewrite Hplain.
  cbn [all_finite forallb dbf_balance]. rewrite Hbalance. cbn [andb].
  by destruct c as [[? ? ? ? ? ? [] ?] ? ? ? ?].
Qed.
End funds_update.

(** ** Evaluation

    One account and one user with limits, two sources, and an account that buys
    ten lots, sells three, and is told of the first trade again. *)

Module controller_example.
Export control_example.
#[export] Instance example_api : RoqApi := test_api.
#[export] Instance example_laws : @RoqApiLaws example_api := test_api_laws.

Definition limit : Limit := {|
  lim_long_position_limit := grid 0 100; lim_short_position_limit := grid 0 100;
  lim_long_risk_exposure_limit := NaN; lim_short_risk_exposure_limit := NaN; lim_allow_netting := true |}.
Definition table : limit_table string := {[ "A1" := {[ "deribit" := {[ "BTC" := limit ]} ]} ]}.
Definition users : limit_table string := {[ "trader" := {[ "deribit" := {[ "BTC" := limit ]} ]} ]}.
Definition setup : Setup := {|
  su_url_prefix := EmptyString; su_accounts := table; su_users := users; su_strategies := ∅;
  su_source_count := 2 |}.

Definition info (source seqno : Z) : MessageInfo :=
  {| mi_source := source; mi_source_session_id := 77; mi_source_seqno := seqno |}.
Definition update (side : Side) (id : string) (lots : Z) : TradeUpdate := {|
  tu_user := "trader"; tu_strategy_id := 0; tu_account := "A1"; tu_exchange := "deribit";
  tu_symbol := "BTC"; tu_side := side; tu_create_time_utc := 5; tu_external_account := EmptyString;
  tu_external_order_id := "o1";
  tu_fills := [{| fill_external_trade_id := id; fill_quantity := grid 0 lots; fill_price := grid 0 100 |}] |}.

Definition executions (id : string) : Z := if bool_decide (id = "t1") then 10 else -3.

Definition start : Controller SqliteSession := initial setup empty_database.

(** The same source, ready. *)
Definition ready : Controller SqliteSession := (Controller_ready (info 0 1) start).2.

(** A database with a purchase of ten lots by "A1", and the positions it yields. *)
Definition holding : SqliteSession :=
  {| ss_trades := [trades_example.row_of trades_example.btc1]; ss_funds := [] |}.
Definition held : list db_Position :=
  match db_positions holding with Ret l => l | _ => [] end.
Definition restarted : Controller SqliteSession := fold_left load_position held (initial setup holding).


Definition first : TradeUpdate := update BUY "t1" 10.
Definition lot_size : ReferenceData :=
  {| rd_exchange := "deribit"; rd_symbol := "BTC"; rd_min_trade_vol := grid 0 1 |}.
(** The first trade, applied and not yet published. *)
Definition pending : Controller SqliteSession := set_shared (apply_trade first (c_shared start)) start.
Definition once : Controller SqliteSession := (Controller_trade_update (info 0 1) first start).2.
End controller_example.

Section controller_witnesses.
Import controller_example.

Lemma run_reports :
  Forall (reports 0 executions)
    [update BUY "t1" 10; update SELL "t2" 3; update BUY "t1" 10].
Proof.
  assert (reports 0 executions (update BUY "t1" 10)).
  { split; [by left|]. apply Forall_singleton. by exists 10. }
  repeat (apply Forall_cons; split); try done.
  split; [by right|]. apply Forall_singleton. by exists 3.
Qed.

Lemma trade_redelivery_witness :
  ∃ c1 c2, Controller_trade_update (info 0 1) first start = (Ret (), c1)
    ∧ Controller_trade_update (info 1 1) first c1 = (Ret (), c2)
    ∧ ∀ a e y, position_of_account a e y (c_shared c2) = position_of_account a e y (c_shared c1).
Proof.
  destruct (trade_redelivery (info 0 1) (info 1 1) first start (m_database (c_manager once)))
    as (c1 & c2 & H1 & H2 & H3 & _).
  - reflexivity.
  - eexists. reflexivity.
  - eexists. reflexivity.
  - apply initial_risk_wf. reflexivity.
  - split; constructor.
  - vm_compute. reflexivity.
  - vm_compute. reflexivity.
  - exists c1, c2. exact (conj H1 (conj H2 H3)).
Defined.

Lemma restart_forgets_position_witness :
  ∃ i, position_of_account "A1" "deribit" "BTC" (c_shared (Controller_trade_update (info 0 1) first restarted).2)
       = (λ _, Position_trade_update first i (Position_ctor (get_limit table "A1" "deribit" "BTC")))
         <$> table !! "A1".
Proof.
  apply (restart_forgets_position setup holding held restarted (info 0 1) first).
  - vm_compute. reflexivity.
  - vm_compute. reflexivity.
  - vm_compute. reflexivity.
  - vm_compute. split; [discriminate|reflexivity].
  - vm_compute. reflexivity.
  - discriminate.
  - discriminate.
Defined.

Lemma publish_accounts_once_witness :
  ∃ c1 c2, publish_accounts 0 pending = (Ret (), c1) ∧ publish_accounts 1 c1 = (Ret (), c2)
    ∧ length (c_sent c1) = 1%nat ∧ c_sent c2 = c_sent c1.
Proof.
  destruct (publish_accounts_once 0 1 State_default State_default pending)
    as (c1 & c2 & H1 & H2 & H3 & H4 & _).
  - reflexivity.
  - reflexivity.
  - apply (apply_trade_effect first 0 (c_shared start)); [discriminate|].
    apply initial_risk_wf. reflexivity.
  - exists c1, c2. split; [exact H1|]. split; [exact H2|]. split; [|exact H4].
    rewrite H3. vm_compute. reflexivity.
Defined.


End controller_witnesses.
