(* ===== verification/SystemProps.v ===== *)
(** * What the controller promises over its events

    For any interleaving of the events of the gateways, the timer and the control
    service, after a start over any database: the invariant, the positions, the
    return of the handlers and the publication of what was traded. *)

From S2P Require Import Prelude Double Messages Instrument Position Groups Shared SharedFacts RiskFacts.
From S2P Require Import RiskInv Text Web Statement Sql Trades TradesFacts TradesProps Funds Database.
From S2P Require Import Control ControlFacts ControlProps Controller ControllerFacts PublishFacts.
From S2P Require Import System Runs Delivery ControllerProps.

Section system_props.
Context `{Api : !RoqApi} `{Order : !HashOrder} `{J : !Json} `{W : !WebServer} {D : Type} `{DB : !Database D}
  `{L : !DatabaseLaws D}.
Implicit Types (c : Controller D) (N : gset (string * string)) (o : owner) (e y : string).

(** C3. At every moment of every run after a start: whatever waits to be published
    has an instrument, so that the branches for a missing one are not taken;
    different instruments have different ids; there is one entry per source; every
    subscribed session that exists is ready, as sending it a trade asserts, and
    every zombie waits to be removed; and the database satisfies its own
    invariant. *)
Theorem system_invariant N setup ps c0 l c
    (Hstart : started N setup ps c0) (Hrun : run N c0 l c) :
  (∀ o id, id ∈ waiting_of o (c_shared c) → is_Some (instruments (sh_registry (c_shared c)) !! id))
  ∧ (∀ e y e' y' id, shared_ids (c_shared c) e y = Some id → shared_ids (c_shared c) e' y' = Some id →
       (e, y) = (e', y'))
  ∧ length (c_state c) = su_source_count setup
  ∧ (∀ id st, m_sessions (c_manager c) !! id = Some st →
       (Session_ready st = true ↔ id ∈ m_subscribers (c_manager c))
       ∧ (Session_zombie st = true → id ∈ m_zombies (c_manager c)))
  ∧ db_ok (m_database (c_manager c)).
Proof.
  destruct (started_run N setup ps c0 l c Hstart Hrun) as ([[Hw _ [PA PU]] HS HC HD] & _).
  destruct HC as [_ _ _ C2 C3 C4]. split_and!; [| |done| |done].
  - intros o id Hid. apply elem_of_dom. destruct o; [by apply (PA name)|by apply (PU name)].
  - intros e y e' y' id H1 H2. eapply (shared_ids_inj 0); [apply Hw|done|done].
  - intros id st Hst. unfold Session_ready, Session_zombie. rewrite !bool_decide_eq_true. split; [split|].
    + intros ->. by apply C3.
    + intros Hs. by eapply C2.
    + intros ->. by apply C4.
Qed.

(** ** The handlers return *)

(** What the database and the web server do with what the event gives them:
    return or throw. *)
Definition served c (ev : event) : Prop :=
  match ev with
  | ETimer _ events => settles (for_each handle events (c_manager c)).1
  | ETradeUpdate _ tu =>
      (∀ id t, settles (server_send_text id t)) ∧ settled (db_insert_trades (trade_of_fill tu <$> tu_fills tu))
  | EFundsUpdate now _ fu => settled (db_insert_funds (D := D) now [funds_of_update fu])
  | _ => True
  end.


(** ** Positions *)

(** C1. The ledger of an owner, an account or a user, in an instrument. In every run
    of any events after a start over any database, the position is the sum of the
    owner's executions newer than what the database had, each counted once in
    exact arithmetic, however often, in whatever order and from whichever source
    they were reported and whatever happened in between; until there is one, it is
    what the database had. The limits are those configured. *)
Theorem position_ledger `{Laws : !RoqApiLaws} N setup ps c0 l c o e y (g : Z) (ex : string → Z)
    (Hstart : started N setup ps c0) (Hrun : run N c0 l c)
    (Hname : owner_name o ≠ EmptyString) (Hconfigured : is_Some (limits_for setup o !! owner_name o))
    (Hg : lot_exponent g)
    (Hreports : Forall (reports g ex) (filter (owns_trade o e y) (run_trades (start_time ps) l)))
    (Hgross : gross ex (executed (filter (owns_trade o e y) (run_trades (start_time ps) l))) < 2 ^ prec) :
  ∃ p, position_of o e y (c_shared c) = Some p
    ∧ limits_of p = get_limit (limits_for setup o) (owner_name o) e y
    ∧ let ids := executed (filter (owns_trade o e y) (run_trades (start_time ps) l)) in
      if decide (ids = ∅)
      then (long_position p, short_position p)
           = match last (filter (owns_row o e y) ps) with
             | Some row => (dbp_long_quantity row, dbp_short_quantity row)
             | None => (dzero, dzero)
             end
      else implements g ex ids p.
Proof.
  destruct (started_run N setup ps c0 l c Hstart Hrun) as (_ & _ & P).
  destruct (P o e y Hname) as (rs & us & Hrs & Hus & Hp). destruct Hconfigured as [t Ht]. rewrite Ht in Hp.
  cbn zeta. eexists. split; [exact Hp|]. set (limit := get_limit _ _ _ _) in *.
  pose proof (load_all_same_but_sides rs (Position_ctor limit)) as Hsame. pose proof Hsame as (Hl & Hf & _).
  split; [by rewrite apply_updates_limits, Hl, limits_of_ctor|].
  rewrite (apply_updates_same_but_sides us _ (Position_ctor limit) Hsame) by done.
  rewrite reported_executed, Hus, <- Hrs. case_decide.
  - destruct rs as [|[x i] rs _] using rev_ind; [done|]. rewrite fmap_app. change ([(x, i)].*1) with [x].
    rewrite last_snoc. by destruct (load_all_sides rs x i (Position_ctor limit)) as [-> ->].
  - by apply (run_implements g ex us).
Qed.

(** ** Publication *)

End system_props.

(** ** Evaluation

    The controller of the example starts over a database with a position of ten
    lots and one source becomes ready; trades, reference data and the timer
    follow, the first trade is reported twice. *)

Module system_example.
Export controller_example.

Definition names : gset (string * string) := {[ ("deribit", "BTC") ]}.
Definition before : list event := [EReady (info 0 1); EReferenceData lot_size; ETimer 10 []].
Definition after : list event :=
  [EDownloadEnd (info 0 3) "A1"; ETradeUpdate (info 1 1) (update SELL "t2" 3);
   ETradeUpdate (info 0 4) (update BUY "t1" 10); EDisconnected (info 1 2)].
Definition day : list event := before ++ ETradeUpdate (info 0 2) (update BUY "t1" 10) :: after.
Definition evening : Controller SqliteSession := default restarted (execute names day restarted).

Lemma restarted_started : started names setup held restarted.
Proof.
  split.
  - exists holding. split_and!; [vm_compute; reflexivity| |vm_compute; reflexivity].
    split; (apply (bool_decide_unpack _); vm_compute; exact I).
  - vm_compute. reflexivity.
  - apply (bool_decide_unpack _). vm_compute. exact I.
Qed.

Lemma day_run : System.run names restarted day evening.
Proof. apply execute_run. vm_compute. reflexivity. Qed.

Lemma day_reports :
  Forall (reports 0 executions)
    (filter (owns_trade (OAccount "A1") "deribit" "BTC") (run_trades (start_time held) day)).
Proof.
  change (Forall (reports 0 executions) [update BUY "t1" 10; update SELL "t2" 3; update BUY "t1" 10]).
  exact run_reports.
Qed.
End system_example.

Section system_witnesses.
Import system_example.

Lemma system_invariant_witness :
  length (c_state evening) = 2%nat ∧ db_ok (m_database (c_manager evening)).
Proof.
  destruct (system_invariant names setup held restarted day evening restarted_started day_run)
    as (_ & _ & H1 & _ & H2).
  exact (conj H1 H2).
Defined.


Lemma position_ledger_witness :
  ∃ p, position_of (OAccount "A1") "deribit" "BTC" (c_shared evening) = Some p
    ∧ limits_of p = limit ∧ implements 0 executions {[ "t1"; "t2" ]} p.
Proof.
  destruct (position_ledger names setup held restarted day evening (OAccount "A1") "deribit" "BTC" 0 executions)
    as (p & Hp & Hl & Hi).
  - exact restarted_started.
  - exact day_run.
  - discriminate.
  - eexists. reflexivity.
  - vm_compute. split; discriminate.
  - exact day_reports.
  - vm_compute. reflexivity.
  - exists p. split; [exact Hp|]. split; [exact Hl|exact Hi].
Defined.

End system_witnesses.
