(* ===== verification/Frame.v ===== *)
(** * Framing the events

    Most of the state is out of reach of most of the code. [shared_frame Rs]: the
    relation [Rs] on [Shared] holds across every assignment the handlers make but
    those to the cache of positions and funds. Then it holds across [apply_trade],
    reference data and publication, and a relation on the controller that follows
    from it holds across every event ([frame_event]). *)

From S2P Require Import Prelude Double Messages Instrument Position Groups Shared SharedFacts RiskFacts.
From S2P Require Import RiskInv Text Web Statement Sql Trades TradesFacts Funds Database.
From S2P Require Import Control ControlFacts Controller ControllerFacts PublishFacts System.

Section shared_frame.
Context `{Api : !RoqApi} `{Order : !HashOrder}.
Implicit Types (s : Shared).

Class shared_frame (Rs : relation Shared) : Prop := {
  fr_preorder :: PreOrder Rs;
  fr_registry r s : Rs s (set_registry r s);
  fr_accounts a s : Rs s (set_accounts a s);
  fr_users u s : Rs s (set_users u s);
  fr_publish_account m s : Rs s (set_publish_by_account m s);
  fr_publish_user m s : Rs s (set_publish_by_user m s);
}.

Context (Rs : relation Shared) `{HF : !shared_frame Rs}.

Lemma frame_get_instrument e y s : Rs s (get_instrument e y s).2.
Proof. rewrite get_instrument_eq. apply fr_registry. Qed.

Lemma frame_get_account a (cb : Account → Shared → Account * Shared) s :
  (∀ g s, Rs s (cb g s).2) → Rs s (get_account a cb s).2.
Proof.
  intros Hcb. unfold get_account. destruct (sh_accounts s !! a) as [g|]; [|done].
  specialize (Hcb g s). destruct (cb g s) as [g' s']. etrans; [exact Hcb|]. apply fr_accounts.
Qed.

Lemma frame_get_user u (cb : User → Shared → User * Shared) s :
  (∀ g s, Rs s (cb g s).2) → Rs s (get_user u cb s).2.
Proof.
  intros Hcb. unfold get_user. destruct (sh_users s !! u) as [g|]; [|done].
  specialize (Hcb g s). destruct (cb g s) as [g' s']. etrans; [exact Hcb|]. apply fr_users.
Qed.

Lemma frame_fold {A} (f : Shared → A → Shared) l s : (∀ s x, Rs s (f s x)) → Rs s (fold_left f l s).
Proof. intros Hf. revert s. induction l as [|x l IH]; intros s; cbn; [done|]. etrans; [apply Hf|apply IH]. Qed.

Lemma frame_dispatch_account {V} `{!Value V} (v : V) cb g s :
  publishes account_handler cb → Rs s (dispatch account_handler v cb g s).2.
Proof.
  intros Hcb. rewrite dispatch_state. etrans; [apply (frame_get_instrument (v_exchange v) (v_symbol v))|].
  destruct Hcb as [->|[k ->]]; [reflexivity|apply fr_publish_account].
Qed.

Lemma frame_dispatch_user {V} `{!Value V} (v : V) cb g s :
  publishes user_handler cb → Rs s (dispatch user_handler v cb g s).2.
Proof.
  intros Hcb. rewrite dispatch_state. etrans; [apply (frame_get_instrument (v_exchange v) (v_symbol v))|].
  destruct Hcb as [->|[k ->]]; [reflexivity|apply fr_publish_user].
Qed.

Lemma frame_apply_trade tu s : Rs s (apply_trade tu s).
Proof.
  unfold apply_trade. etrans; [apply frame_get_account|apply frame_get_user]; intros g s';
    [apply frame_dispatch_account|apply frame_dispatch_user]; right; by eexists.
Qed.

Lemma frame_load_account p s :
  Rs s (get_account (dbp_account p) (Account_database account_handler p) s).2.
Proof. apply frame_get_account. intros g s'. apply frame_dispatch_account. by left. Qed.

Lemma frame_load_user p s : Rs s (get_user (dbp_user p) (User_database user_handler p) s).2.
Proof. apply frame_get_user. intros g s'. apply frame_dispatch_user. by left. Qed.

Lemma frame_all_accounts rd s : Rs s (get_all_accounts (Account_reference_data account_handler rd) s).
Proof.
  apply frame_fold. intros s' name. apply frame_get_account. intros g s''. apply frame_dispatch_account. by left.
Qed.

Lemma frame_all_users rd s : Rs s (get_all_users (User_reference_data user_handler rd) s).
Proof.
  apply frame_fold. intros s' name. apply frame_get_user. intros g s''. apply frame_dispatch_user. by left.
Qed.
End shared_frame.

Section frame.
Context `{Api : !RoqApi} `{Order : !HashOrder} `{J : !Json} `{W : !WebServer} {D : Type} `{DB : !Database D}.
Implicit Types (c : Controller D) (s : Shared).

(** A relation on controllers that allows the manager and the sources to change,
    messages about accounts and users, and what [Rs] allows. *)
Class controller_frame (Rs : relation Shared) (R : relation (Controller D)) : Prop := {
  fc_shared : shared_frame Rs;
  fc_preorder :: PreOrder R;
  fc_manager m c : R c (set_manager m c);
  fc_sources l c : R c (set_source_states l c);
  fc_last t c : R c (set_last_exchange_time_utc t c);
  fc_set_shared s c : Rs (c_shared c) s → R c (set_shared s c);
  fc_send source r c : rls_strategy_id r = 0 → R c (dispatcher_send source r c);
}.

Context (Rs : relation Shared) (R : relation (Controller D)) `{HC : !controller_frame Rs R}.
#[local] Instance frame_on_shared_state : shared_frame Rs := fc_shared.

Lemma frame_state_at i : preserves R (state_at (D := D) i).
Proof. intros c. unfold state_at. by case_match. Qed.
Lemma frame_put_state i st : preserves R (put_state (D := D) i st).
Proof. intros c. apply fc_sources. Qed.
Lemma frame_on_shared f : (∀ s, Rs s (f s)) → preserves R (on_shared (D := D) f).
Proof. intros Hf c. apply fc_set_shared, Hf. Qed.
Lemma frame_on_manager {A} (f : act (Manager D) A) : preserves R (on_manager f).
Proof. intros c. unfold on_manager. destruct (f (c_manager c)). apply fc_manager. Qed.
#[local] Hint Resolve frame_state_at frame_put_state frame_on_shared frame_on_manager : risk.

Lemma frame_message_info mi : preserves R (Controller_message_info (D := D) mi).
Proof. unfold Controller_message_info. auto with risk. Qed.
#[local] Hint Resolve frame_message_info : risk.

Lemma frame_account source st c name : R c (publish_one_account source st c name).
Proof.
  unfold publish_one_account, get_publish_by_account. destruct (sh_accounts _ !! name) as [g|]; [|done].
  destruct (publish_by_account _ !! grp_key g) as [set|].
  - case_bool_decide; (etrans; [apply fc_set_shared, fr_publish_account|]); [done|]. by apply fc_send.
  - rewrite bool_decide_true by done. by apply fc_set_shared.
Qed.

Lemma frame_user source st c name : R c (publish_one_user source st c name).
Proof.
  unfold publish_one_user, get_publish_by_user. destruct (sh_users _ !! name) as [g|]; [|done].
  destruct (publish_by_user _ !! grp_key g) as [set|].
  - case_bool_decide; (etrans; [apply fc_set_shared, fr_publish_user|]); [done|]. by apply fc_send.
  - rewrite bool_decide_true by done. by apply fc_set_shared.
Qed.

Lemma frame_controller_fold {A} (f : Controller D → A → Controller D) l c :
  (∀ c x, R c (f c x)) → R c (fold_left f l c).
Proof. intros Hf. revert c. induction l as [|x l IH]; intros c; cbn; [done|]. etrans; [apply Hf|apply IH]. Qed.

Lemma frame_publish_source source : preserves R (publish_source (D := D) source).
Proof.
  unfold publish_source, publish_accounts, publish_users.
  apply preserves_bind; auto with risk. intros st. case_match; auto with risk.
  apply preserves_bind; auto with risk; [|intros _]; (apply preserves_bind; auto with risk);
    intros st' c; unfold modify; cbn; apply frame_controller_fold; auto using frame_account, frame_user.
Qed.

Lemma frame_timer now events : preserves R (Controller_timer (D := D) now events).
Proof.
  unfold Controller_timer. apply preserves_bind; auto with risk. intros _. apply preserves_bind; auto with risk.
  intros _. apply preserves_bind; auto with risk. intros c.
  apply preserves_for_each; auto using frame_publish_source with risk.
Qed.

Lemma frame_disconnected mi : preserves R (Controller_disconnected (D := D) mi).
Proof. unfold Controller_disconnected. auto with risk. Qed.

Lemma frame_download_end mi a : preserves R (Controller_download_end (D := D) mi a).
Proof.
  unfold Controller_download_end. apply preserves_bind; auto with risk. intros _. case_bool_decide; auto with risk.
  apply preserves_bind; auto with risk. intros st. case_bool_decide; auto with risk.
  apply preserves_bind; auto with risk. intros _. apply frame_on_shared. intros s. apply fr_publish_account.
Qed.

Lemma frame_ready mi : preserves R (Controller_ready (D := D) mi).
Proof.
  unfold Controller_ready. apply preserves_bind; auto with risk. intros _. apply preserves_bind; auto with risk.
  intros st. case_match; auto with risk. apply preserves_bind; auto with risk. intros _. apply frame_on_shared.
  intros s. apply (frame_fold Rs). intros s' name. apply (frame_get_user Rs). intros g s''. apply fr_publish_user.
Qed.

Lemma frame_reference_data rd : preserves R (Controller_reference_data (D := D) rd).
Proof.
  apply frame_on_shared. intros s. pose proof (frame_get_instrument Rs (rd_exchange rd) (rd_symbol rd) s) as H1.
  destruct (get_instrument (rd_exchange rd) (rd_symbol rd) s) as [i s1]. cbn [snd] in H1.
  destruct (Instrument_reference_data rd i) as [b i'].
  assert (H2 : Rs s (put_instrument i' s1)) by (etrans; [exact H1|apply fr_registry]).
  destruct b; [|exact H2]. etrans; [exact H2|]. etrans; [|apply (frame_all_users Rs)].
  apply (frame_all_accounts Rs).
Qed.

Lemma frame_trade_update mi tu : preserves R (Controller_trade_update (D := D) mi tu).
Proof.
  unfold Controller_trade_update, store_trades, on_database. apply preserves_bind; auto with risk. intros _.
  apply preserves_bind; auto with risk. intros c. case_match; auto with risk.
  apply preserves_bind; auto 10 with risk. apply frame_on_shared. apply (frame_apply_trade Rs).
Qed.

(** Every event, given what it does to the cache. *)
Lemma frame_event ev c :
  match ev with
  | EPositionUpdate _ _ | EFundsUpdate _ _ _ => R c (on_event ev c).2
  | _ => True
  end → R c (on_event ev c).2.
Proof.
  destruct ev as [now events|mi|mi|mi a|mi a|mi|rd|mi tu|mi pu|now mi fu]; cbn [on_event]; try done; intros _.
  - apply frame_timer.
  - apply frame_disconnected.
  - apply frame_message_info.
  - apply frame_download_end.
  - apply frame_ready.
  - apply frame_reference_data.
  - apply frame_trade_update.
Qed.

Lemma frame_load_position p c : R c (load_position c p).
Proof.
  unfold load_position. set (c1 := set_last_exchange_time_utc _ c).
  set (c2 := if bool_decide (dbp_user p = EmptyString) then c1 else _).
  transitivity c1; [apply fc_last|]. transitivity c2.
  - unfold c2. case_bool_decide; [done|]. apply fc_set_shared. apply (frame_load_user Rs).
  - case_bool_decide; [done|]. apply fc_set_shared. apply (frame_load_account Rs).
Qed.
End frame.
