(* ===== verification/Truthful.v ===== *)
(** * What is sent is true

    Every message that leaves the controller is about one configured account or
    user, with one entry per instrument, each the position of that owner in that
    instrument at the time, with the configured limits. Only the timer sends. *)

From S2P Require Import Prelude Double Messages Instrument Position Groups Shared SharedFacts RiskFacts.
From S2P Require Import RiskInv Text Web Statement Sql Trades TradesFacts Funds Database.
From S2P Require Import Control ControlFacts Controller ControllerFacts PublishFacts System Runs Delivery SystemProps.

Section truthful.
Context `{Api : !RoqApi} `{Order : !HashOrder} `{J : !Json} `{W : !WebServer} {D : Type} `{DB : !Database D}
  `{L : !DatabaseLaws D}.
Implicit Types (c : Controller D) (s : Shared) (o : owner).

(** ** Messages *)

(** The entry is the position of [o] in the instrument [name]. *)
Definition entry_true s o (name : string * string) (r : RiskLimit) : Prop :=
  ∃ p, position_of o name.1 name.2 s = Some p ∧ r = risk_limit p (Instrument_ctor 0 name.1 name.2).

(** The message is addressed for [o]. *)
Definition for_owner o (r : RiskLimits) : Prop :=
  rls_strategy_id r = 0
  ∧ match o with
    | OAccount a => rls_account r = a ∧ rls_user r = EmptyString
    | OUser u => rls_user r = u ∧ rls_account r = EmptyString
    end.

Definition truthful s (x : Z * RiskLimits) : Prop :=
  ∃ o names, for_owner o x.2 ∧ is_Some (groups_of o s !! owner_name o) ∧ names ≠ [] ∧ NoDup names
    ∧ Forall2 (entry_true s o) names (rls_limits x.2).

Lemma found_cons (r : Registry) (groups : gmap string (Group string)) key id l :
  found r groups key (id :: l)
  = match (i ← instruments r !! id; g ← groups !! key; p ← grp_positions g !! id; Some (p, i)) with
    | Some x => x :: found r groups key l
    | None => found r groups key l
    end.
Proof. done. Qed.

(** The names of the entries of a message. *)
Lemma found_names n s o g (l : list Z) :
  shared_wf n s → groups_of o s !! owner_name o = Some g → NoDup l →
  ∃ names, NoDup names ∧ Forall (λ name, ∃ id, id ∈ l ∧ shared_ids s name.1 name.2 = Some id) names
    ∧ Forall2 (entry_true s o) names
        ((λ x, risk_limit x.1 x.2) <$> found (sh_registry s) (groups_of o s) (owner_name o) l).
Proof.
  intros [Hr _] Hg. induction 1 as [|id l Hid _ (names & Hn & Hl & HF)]; [exists []; by repeat constructor|].
  assert (Hweak : Forall (λ name, ∃ id', id' ∈ id :: l ∧ shared_ids s name.1 name.2 = Some id') names).
  { eapply Forall_impl; [exact Hl|]. intros name (id' & H1 & H2). exists id'. by split; [right|]. }
  rewrite found_cons, Hg. destruct (instruments (sh_registry s) !! id) as [i|] eqn:Hi; [|by exists names].
  cbn [mbind option_bind]. destruct (grp_positions g !! id) as [p|] eqn:Hp; [|by exists names]. cbn [mbind option_bind].
  destruct (wf_instruments _ Hr id i Hi) as (_ & e & y & Hk & Hst & He & Hy).
  assert (Hids : shared_ids s e y = Some id).
  { unfold shared_ids, registry_ids. rewrite decide_True by done. by rewrite Hst. }
  exists ((e, y) :: names). split_and!.
  - constructor; [|done]. intros Hin. rewrite Forall_forall in Hl. destruct (Hl _ Hin) as (id' & Hl' & Hx).
    cbn in Hx. rewrite Hids in Hx. by injection Hx as <-.
  - constructor; [|done]. exists id. by split; [left|].
  - rewrite fmap_cons. constructor; [|done]. exists p. cbn. split.
    + destruct o; cbn in *; unfold position_of_account, position_of_user; rewrite Hg; cbn; unfold position_in;
        cbn; rewrite Hids; unfold position_for; by rewrite Hp.
    + unfold risk_limit. by rewrite He, Hy.
Qed.

(** ** Publication *)

Lemma same_groups_wf s s' : same_groups s s' → risk_wf 0 s → risk_wf 0 s'.
Proof.
  intros Hg [Hs Ha Hu]. pose proof (same_groups_grows _ _ Hg). destruct Hg as [R A U Li].
  split; [unfold shared_wf; by rewrite R|rewrite A|rewrite U]; by eapply groups_wf_grows.
Qed.

Lemma truthful_same s s' x : same_groups s s' → truthful s' x → truthful s x.
Proof.
  intros Hg (o & names & Ho & Hgr & Hne & Hn & HF). exists o, names.
  assert (groups_of o s' = groups_of o s) as <- by (destruct Hg, o; done).
  split_and!; try done. eapply Forall2_impl; [exact HF|]. intros name r (p & Hp & Hr). exists p.
  by rewrite <- (same_positions_of o _ _ s s') by by apply same_groups_positions.
Qed.

(** [c'] has published some of what waits in [c], truthfully. *)
Definition tells c c' : Prop :=
  same_groups (c_shared c) (c_shared c')
  ∧ (risk_wf 0 (c_shared c) → ∃ l, c_sent c' = c_sent c ++ l ∧ Forall (truthful (c_shared c)) l).
#[global] Instance tells_preorder : PreOrder tells.
Proof.
  split.
  - intros c. split; [done|]. intros _. exists []. by rewrite app_nil_r.
  - intros c1 c2 c3 [G1 T1] [G2 T2]. split; [by etrans|]. intros H1.
    destruct (T1 H1) as (l1 & E1 & F1). destruct (T2 (same_groups_wf _ _ G1 H1)) as (l2 & E2 & F2).
    exists (l1 ++ l2). rewrite E2, E1, app_assoc. split; [done|]. apply Forall_app. split; [done|].
    eapply Forall_impl; [exact F2|]. intros x. by apply truthful_same.
Qed.

Lemma tells_quiet c c' : same_groups (c_shared c) (c_shared c') → c_sent c' = c_sent c → tells c c'.
Proof. intros Hg Hs. split; [done|]. intros _. exists []. by rewrite Hs, app_nil_r. Qed.

Lemma tells_account source st c name : tells c (publish_one_account source st c name).
Proof.
  split; [apply publish_one_account_groups|]. intros [Hs Ha _]. unfold publish_one_account, get_publish_by_account.
  destruct (sh_accounts (c_shared c) !! name) as [g|] eqn:Hg; [|exists []; by rewrite app_nil_r].
  destruct (Ha _ _ Hg) as [-> _]. destruct (publish_by_account _ !! name) as [set|]; cycle 1.
  { rewrite bool_decide_true by done. exists []. by rewrite app_nil_r. }
  rewrite drain_collect by done. case_bool_decide as Hb; [exists []; by rewrite app_nil_r|]. eexists. split; [done|].
  apply Forall_singleton. unfold pending in *.
  destruct (found_names 0 (c_shared c) (OAccount name) g (hash_order (elements set))) as (names & Hn & _ & HF);
    [done|done|apply NoDup_hash_order, NoDup_elements|].
  exists (OAccount name), names. split_and!; try done. intros ->. apply Hb. by apply Forall2_nil_inv_l in HF.
Qed.

Lemma tells_user source st c name : tells c (publish_one_user source st c name).
Proof.
  split; [apply publish_one_user_groups|]. intros [Hs _ Hu]. unfold publish_one_user, get_publish_by_user.
  destruct (sh_users (c_shared c) !! name) as [g|] eqn:Hg; [|exists []; by rewrite app_nil_r].
  destruct (Hu _ _ Hg) as [-> _]. destruct (publish_by_user _ !! name) as [set|]; cycle 1.
  { rewrite bool_decide_true by done. exists []. by rewrite app_nil_r. }
  rewrite drain_collect by done. case_bool_decide as Hb; [exists []; by rewrite app_nil_r|]. eexists. split; [done|].
  apply Forall_singleton. unfold pending in *.
  destruct (found_names 0 (c_shared c) (OUser name) g (hash_order (elements set))) as (names & Hn & _ & HF);
    [done|done|apply NoDup_hash_order, NoDup_elements|].
  exists (OUser name), names. split_and!; try done. intros ->. apply Hb. by apply Forall2_nil_inv_l in HF.
Qed.

Lemma tells_fold (f : Controller D → string → Controller D) l c :
  (∀ c x, tells c (f c x)) → tells c (fold_left f l c).
Proof. intros Hf. revert c. induction l as [|x l IH]; intros c; cbn; [done|]. etrans; [apply Hf|apply IH]. Qed.

Lemma tells_state_at i : preserves tells (state_at (D := D) i).
Proof. intros c. unfold state_at. by case_match. Qed.

Lemma tells_manager {A} (f : act (Manager D) A) : preserves tells (on_manager f).
Proof. intros c. unfold on_manager. destruct (f (c_manager c)). by apply tells_quiet. Qed.

Lemma tells_publish_source source : preserves tells (publish_source (D := D) source).
Proof.
  unfold publish_source, publish_accounts, publish_users.
  apply preserves_bind; auto using tells_state_at with risk. intros st. case_match; auto with risk.
  apply preserves_bind; auto with risk; [|intros _]; (apply preserves_bind; auto using tells_state_at with risk);
    intros st' c; unfold modify; cbn; apply tells_fold; auto using tells_account, tells_user.
Qed.

Lemma tells_timer now events : preserves tells (Controller_timer (D := D) now events).
Proof.
  unfold Controller_timer. apply preserves_bind; auto using tells_manager with risk. intros _.
  apply preserves_bind; auto using tells_manager with risk. intros _. apply preserves_bind; auto with risk.
  intros c. apply preserves_for_each; [apply _|]. apply tells_publish_source.
Qed.

(** ** Events that send nothing *)

Definition same_sent c c' : Prop := c_sent c' = c_sent c.
#[global] Instance same_sent_preorder : PreOrder same_sent.
Proof. split; unfold same_sent; [done|]. intros c1 c2 c3. congruence. Qed.

Lemma silent_state_at i : preserves same_sent (state_at (D := D) i).
Proof. intros c. unfold state_at. by case_match. Qed.
Lemma silent_put_state i st : preserves same_sent (put_state (D := D) i st).
Proof. done. Qed.
Lemma silent_shared f : preserves same_sent (on_shared (D := D) f).
Proof. done. Qed.
Lemma silent_manager {A} (f : act (Manager D) A) : preserves same_sent (on_manager f).
Proof. intros c. unfold on_manager. by destruct (f (c_manager c)). Qed.
#[local] Hint Resolve silent_state_at silent_put_state silent_shared silent_manager : risk.

Lemma silent_message_info mi : preserves same_sent (Controller_message_info (D := D) mi).
Proof. unfold Controller_message_info. auto with risk. Qed.
#[local] Hint Resolve silent_message_info : risk.

Lemma silent_event ev : ¬ is_timer ev → preserves same_sent (on_event (D := D) ev).
Proof.
  destruct ev as [now events|mi|mi|mi a|mi a|mi|rd|mi tu|mi pu|now mi fu]; cbn [on_event is_timer]; intros Hn;
    unfold Controller_connected, Controller_disconnected, Controller_download_begin, Controller_download_end,
      Controller_ready, Controller_reference_data, Controller_trade_update, store_trades,
      Controller_position_update, Controller_funds_update, on_database; try done; auto with risk.
  - apply preserves_bind; auto with risk. intros _. case_bool_decide; auto with risk.
    apply preserves_bind; auto with risk. intros st. case_bool_decide; auto with risk.
  - apply preserves_bind; auto with risk. intros _. apply preserves_bind; auto with risk. intros st.
    case_match; auto with risk.
  - apply preserves_bind; auto with risk. intros _. apply preserves_bind; auto with risk. intros c.
    case_match; auto 10 with risk.
Qed.
End truthful.

Section truthful_runs.
Context `{Api : !RoqApi} `{Order : !HashOrder} `{J : !Json} `{W : !WebServer} {D : Type} `{DB : !Database D}
  `{L : !DatabaseLaws D}.
Implicit Types (c : Controller D) (N : gset (string * string)) (o : owner).

(** C5. What is sent is true. In every run after a start, an event other than the
    timer sends nothing, and a timer event sends messages that are each about one
    account or one user and no strategy, with at least one entry and one entry per
    instrument; an entry is the owner's position in that instrument at that time.
    The owner, if it has a name, is configured, and the limits of the entry are
    those configured for the owner and the instrument, or none. *)
Theorem messages_truthful N setup ps c0 l c ev
    (Hstart : started N setup ps c0) (Hrun : run N c0 l c) :
  ∃ messages, c_sent (on_event ev c).2 = c_sent c ++ messages ∧ (¬ is_timer ev → messages = [])
    ∧ Forall (λ x, ∃ o names, for_owner o x.2 ∧ names ≠ [] ∧ NoDup names
                   ∧ (owner_name o ≠ EmptyString → is_Some (limits_for setup o !! owner_name o))
                   ∧ Forall2 (λ name r, ∃ p, position_of o name.1 name.2 (c_shared c) = Some p
                                ∧ r = limit_entry name (long_position p) (short_position p) (limits_of p)
                                ∧ (owner_name o ≠ EmptyString →
                                   limits_of p = get_limit (limits_for setup o) (owner_name o) name.1 name.2))
                       names (rls_limits x.2)) messages.
Proof.
  destruct (started_run N setup ps c0 l c Hstart Hrun) as ([[Hwf _ _] _ _ _] & _ & P).
  destruct (decide (is_timer ev)) as [Ht|Ht]; cycle 1.
  { exists []. rewrite (silent_event ev Ht c), app_nil_r. by split_and!. }
  destruct ev as [now events| | | | | | | | |]; try done. cbn [on_event].
  destruct (tells_timer now events c) as [_ T]. destruct (T Hwf) as (messages & Hsent & HF).
  exists messages. split_and!; [done|done|]. eapply Forall_impl; [exact HF|].
  intros x (o & names & Ho & [g Hg] & Hne & Hn & Hnames). exists o, names. split_and!; try done.
  - intros Hname. destruct (P o EmptyString EmptyString Hname) as (rs & us & _ & _ & Hp).
    assert (Hs : is_Some (position_of o EmptyString EmptyString (c_shared c))).
    { destruct o; cbn in *; unfold position_of_account, position_of_user; by rewrite Hg. }
    rewrite Hp in Hs. by apply fmap_is_Some in Hs.
  - eapply Forall2_impl; [exact Hnames|]. intros name r (p & Hp & Hr). rewrite risk_limit_entry in Hr.
    exists p. split_and!; [done..|].
    intros Hname. destruct (P o name.1 name.2 Hname) as (rs & us & _ & _ & Hp'). rewrite Hp in Hp'.
    symmetry in Hp'. apply fmap_Some in Hp' as (t & _ & ->).
    rewrite apply_updates_limits, (proj1 (load_all_same_but_sides rs _)). apply limits_of_ctor.
Qed.
End truthful_runs.

(** ** Evaluation *)

Section truthful_witnesses.
Import system_example.

Lemma messages_truthful_witness :
  ∃ messages, c_sent (on_event (ETimer 20 []) evening).2 = c_sent evening ++ messages
    ∧ length messages = 2%nat ∧ Forall (λ x, ∃ o, for_owner o x.2) messages.
Proof.
  destruct (messages_truthful names setup held restarted day evening (ETimer 20 []) restarted_started day_run)
    as (messages & Hsent & _ & HF).
  exists messages. split; [exact Hsent|]. split.
  - assert (length (c_sent evening) = 1%nat) by (vm_compute; reflexivity).
    assert (length (c_sent (on_event (ETimer 20 []) evening).2) = 3%nat) by (vm_compute; reflexivity).
    apply (f_equal length) in Hsent. rewrite length_app in Hsent. lia.
  - eapply Forall_impl; [exact HF|]. intros x (o & names & Ho & _). exists o. exact Ho.
Defined.
End truthful_witnesses.
