(* ===== verification/Strategies.v ===== *)
(** * Strategies are never used

    [Shared] keeps strategies, their limits and what to publish for them, and
    [risk::Strategy] handles trades, but no handler of the controller calls any of
    it: whatever happens, strategies stay as they were constructed and no message
    names one. *)

From S2P Require Import Prelude Double Messages Instrument Position Groups Shared SharedFacts RiskFacts.
From S2P Require Import RiskInv Text Web Statement Sql Trades TradesFacts Funds Database.
From S2P Require Import Control ControlFacts Controller ControllerFacts PublishFacts System Frame Runs Delivery.
From S2P Require Import ControllerProps SystemProps.

Section strategies.
Context `{Api : !RoqApi} `{Order : !HashOrder} `{J : !Json} `{W : !WebServer} {D : Type} `{DB : !Database D}.
Implicit Types (c : Controller D) (s : Shared).

Record same_strategies s s' : Prop := {
  ss_table : sh_strategies s' = sh_strategies s;
  ss_publish : publish_by_strategy (sh_publish s') = publish_by_strategy (sh_publish s);
}.
#[global] Instance same_strategies_frame : shared_frame same_strategies.
Proof. split; try done. split; [done|]. intros s1 s2 s3 [] []. split; congruence. Qed.

(** Strategies are as before, and no message since then names one. *)
Definition inert c c' : Prop :=
  same_strategies (c_shared c) (c_shared c')
  ∧ ∃ l, c_sent c' = c_sent c ++ l ∧ Forall (λ x, rls_strategy_id x.2 = 0) l.

Lemma inert_quiet c c' : same_strategies (c_shared c) (c_shared c') → c_sent c' = c_sent c → inert c c'.
Proof. intros Hs Hc. split; [done|]. exists []. by rewrite Hc, app_nil_r. Qed.

#[global] Instance inert_preorder : PreOrder inert.
Proof.
  split.
  - intros c. by apply inert_quiet.
  - intros c1 c2 c3 [S1 (l1 & E1 & F1)] [S2 (l2 & E2 & F2)]. split; [by etrans|].
    exists (l1 ++ l2). rewrite E2, E1, app_assoc. split; [done|]. by apply Forall_app.
Qed.

#[global] Instance inert_frame : controller_frame same_strategies inert.
Proof.
  split; try apply _; try (intros; by apply inert_quiet).
  intros source r c Hr. split; [done|]. eexists. split; [done|]. by apply Forall_singleton.
Qed.

(** The cache is not about strategies either. *)
Lemma inert_event ev : preserves inert (on_event (D := D) ev).
Proof.
  intros c. apply (frame_event same_strategies inert). destruct ev as [| | | | | | | |mi pu|now mi fu]; try done.
  - apply (frame_on_shared same_strategies inert). intros s. cbn beta zeta. by case_match.
  - assert (H : preserves inert (Controller_funds_update (D := D) now mi fu)); [|apply H].
    apply preserves_bind; [apply _|apply (frame_on_manager same_strategies inert)|].
    intros _. apply (frame_on_shared same_strategies inert). intros s. cbn beta zeta. by case_match.
Qed.

Lemma run_inert N c l c' : run N c l c' → inert c c'.
Proof.
  induction 1 as [c|c ev r c1 l c2 _ Hev _ _ IH]; [done|]. etrans; [|exact IH].
  pose proof (inert_event ev c) as H. by rewrite Hev in H.
Qed.

(** C28. Strategies are never used: after a start over any database and any run, a
    strategy is one that was configured and has no position in any instrument, so
    that its limits are never looked up; nothing waits to be published for a
    strategy; and no message that was sent names one. *)
Theorem strategies_inert N setup d ps c0 l c
    (Hd : db_positions d = Ret ps) (Hc : Controller_ctor setup (Ret d) (Ret ()) = Ret c0) (Hrun : run N c0 l c) :
  (∀ id, sh_strategies (c_shared c) !! id = (λ _, Strategy_ctor id) <$> su_strategies setup !! id)
  ∧ (∀ id (cb : Position → Instrument → list RiskLimit → list RiskLimit) b,
       get_publish_by_strategy id cb b (c_shared c) = (false, b, c_shared c))
  ∧ Forall (λ x, rls_strategy_id x.2 = 0) (c_sent c).
Proof.
  rewrite (Controller_ctor_eq setup d ps Hd) in Hc. injection Hc as <-.
  assert (H : inert (initial setup d) c).
  { etrans; [|by eapply run_inert]. apply (frame_controller_fold same_strategies inert).
    intros c' p. apply (frame_load_position same_strategies inert). }
  destruct H as [[Ht Hp] (sent & Hs & HF)]. split_and!.
  - intros id. rewrite Ht. apply create_config_lookup.
  - intros id cb b. unfold get_publish_by_strategy. by rewrite Hp.
  - by rewrite Hs.
Qed.
End strategies.

(** ** Evaluation *)

Section strategies_witnesses.
Import system_example.

Lemma strategies_inert_witness : Forall (λ x, rls_strategy_id x.2 = 0) (c_sent evening) ∧ c_sent evening ≠ [].
Proof.
  split; [|vm_compute; discriminate].
  apply (strategies_inert names setup holding held restarted day evening).
  - vm_compute. reflexivity.
  - vm_compute. reflexivity.
  - exact day_run.
Defined.
End strategies_witnesses.
