(* ===== verification/Tables.v ===== *)
(** * The database as the image of a run

    What a run writes depends on its events alone: trades newer than the start and
    funds, in the order they arrive. [written] is that abstract journal over the
    interface of the database; for the tables of SQLite it is [recorded], the
    fills the statements can express, of which the last of each primary key is
    kept. Runs whose requests only read are considered. *)

From S2P Require Import Prelude Double Messages Instrument Position Groups Shared SharedFacts RiskFacts.
From S2P Require Import RiskInv Text Web Statement Sql Trades TradesFacts TradesProps Funds Database.
From S2P Require Import Control ControlFacts ControlProps Controller ControllerFacts PublishFacts.
From S2P Require Import System Runs Delivery ControllerProps SystemProps.

(** ** Events that only read *)

Section journal.
Context `{Api : !RoqApi} `{Order : !HashOrder} `{J : !Json} `{W : !WebServer} {D : Type} `{DB : !Database D}
  `{L : !DatabaseLaws D}.
Implicit Types (c : Controller D) (N : gset (string * string)) (d : D).

(** No request of the control service is a PUT. *)
Definition reads_only (e : control_event) : Prop :=
  match e with EvRequest _ _ request => req_method request ≠ PUT | _ => True end.
Definition reading (ev : event) : Prop :=
  match ev with ETimer _ events => Forall reads_only events | _ => True end.

#[global] Instance reads_only_dec e : Decision (reads_only e).
Proof. destruct e; cbn; apply _. Defined.
#[global] Instance reading_dec ev : Decision (reading ev).
Proof. destruct ev; cbn; apply _. Defined.

Lemma handle_reads e : reads_only e → preserves same_database (handle (D := D) e).
Proof.
  destruct e as [|id|now id req|id payload|id|now|trade]; cbn [handle reads_only]; intros He.
  - intros m. unfold Manager_accept, control_Session_ctor, bind, modify, get, lift, same_database. cbn.
    by destruct (server_create _) as [[]| | |].
  - done.
  - by apply request_reads.
  - apply preserves_text; auto with risk.
  - done.
  - intros m. unfold Manager_timer, bind, get, remove_zombies, modify, same_database. case_match; [|done].
    cbn. by case_bool_decide.
  - apply preserves_trade; auto with risk.
Qed.

Lemma drain_reads events : Forall reads_only events → preserves same_database (for_each (handle (D := D)) events).
Proof.
  induction 1 as [|e events He _ IH]; cbn [for_each]; auto with risk.
  apply preserves_bind; [apply _|by apply handle_reads|by intros _].
Qed.

(** ** The journal *)

(** What an event writes, in a controller that started at time [t]. *)
Definition written (t : Z) d (ev : event) : D :=
  match ev with
  | ETradeUpdate _ tu =>
      if decide (t < tu_create_time_utc tu)
      then (db_insert_trades (trade_of_fill tu <$> tu_fills tu) d).2 else d
  | EFundsUpdate now _ fu => (db_insert_funds now [funds_of_update fu] d).2
  | _ => d
  end.

Lemma trade_update_writes mi tu c :
  (∀ id t, server_send_text id t = Ret ()) → has_source (mi_source mi) c → fresh c tu →
  m_database (c_manager (Controller_trade_update mi tu c).2)
  = (db_insert_trades (trade_of_fill tu <$> tu_fills tu) (m_database (c_manager c))).2.
Proof.
  intros Hs [st Hst] Hf. rewrite (trade_update_eq mi tu c st Hst), decide_True by done. unfold catch_all.
  destruct (store_trades_quiet tu (set_shared (apply_trade tu (c_shared c)) (noted mi st c)) Hs)
    as (c1 & -> & Hd & _).
  unfold on_database, on_manager, call. rewrite Hd. cbn [c_manager set_shared noted set_source_states].
  by destruct (db_insert_trades _ _) as [[] ?].
Qed.

Lemma event_writes N ev c :
  (∀ id t, server_send_text id t = Ret ()) → admissible N c ev → reading ev →
  m_database (c_manager (on_event ev c).2) = written (c_last_exchange_time_utc c) (m_database (c_manager c)) ev.
Proof.
  intros Hs Ha Hr. pose proof (event_relation_from same_database) as Hev.
  destruct ev as [now events|mi|mi|mi a|mi a|mi|rd|mi tu|mi pu|now mi fu]; cbn [written];
    try (apply Hev; [by intros now m; apply (handle_reads (EvTimer now))|]; done).
  - apply Hev; [by intros now' m; apply (handle_reads (EvTimer now'))|]. by apply drain_reads.
  - cbn [on_event]. case_decide as Hf.
    + apply trade_update_writes; [done| |done]. by apply (ad_source _ _ _ Ha).
    + destruct (ad_source _ _ _ Ha (mi_source mi) eq_refl) as [st Hst].
      by rewrite (trade_update_eq mi tu c st Hst), decide_False.
  - cbn [on_event]. unfold Controller_funds_update, bind, on_database, on_manager, call.
    by destruct (db_insert_funds _ _ _) as [[] ?].
Qed.

(** The database of a run is the journal of its events. *)
Lemma run_writes N n c l c' :
  (∀ id t, server_send_text id t = Ret ()) → fits N → run N c l c' → sys_inv N n c → Forall reading l →
  m_database (c_manager c') = fold_left (written (c_last_exchange_time_utc c)) l (m_database (c_manager c)).
Proof.
  intros Hs Hfit. induction 1 as [c|c ev r c1 l c2 Ha Hev Hr Hrun IH]; intros Hc Hl; [done|].
  apply Forall_cons in Hl as [Hre Hl]. pose proof (event_writes N ev c Hs Ha Hre) as Hw.
  pose proof (event_inv N n ev c Hfit Ha Hc) as H1.
  destruct (event_positions N n ev c (OAccount EmptyString) EmptyString EmptyString Hfit Ha Hc) as [Ht _].
  rewrite Hev in *. cbn [snd fold_left] in *. rewrite <- Hw, <- Ht. by apply IH.
Qed.
End journal.

(** ** The tables of SQLite *)

Section tables.
Context `{Api : !RoqApi} `{Order : !HashOrder} `{J : !Json} `{W : !WebServer} `{Engine : !SqlEngine}.
Implicit Types (c : Controller SqliteSession) (N : gset (string * string)).

#[global] Instance storable_dec item : Decision (storable item).
Proof. unfold storable. apply _. Defined.

(** The trades of a batch before the first one that cannot be stored. *)
Fixpoint accepted (l : list db_Trade) : list db_Trade :=
  match l with
  | [] => []
  | x :: l' => if decide (storable x) then x :: accepted l' else []
  end.

Lemma accepted_all l : Forall storable l → accepted l = l.
Proof. induction 1 as [|x l Hx _ IH]; cbn; [done|]. by rewrite decide_True, IH. Qed.

Lemma accepted_subset l x : x ∈ accepted l → x ∈ l.
Proof.
  induction l as [|y l IH]; cbn; [done|]. case_decide; [|by intros []%elem_of_nil].
  rewrite !elem_of_cons. naive_solver.
Qed.

Lemma insert_trades_accepted l t : (Trades_insert_trades l t).2 = store (trade_row <$> accepted l) t.
Proof.
  unfold Trades_insert_trades. revert t. induction l as [|x l IH]; intros t; cbn; [done|].
  unfold bind. rewrite insert_trade_cases. case_decide as Hx.
  - destruct Hx as [-> ->]. apply IH.
  - unfold storable in Hx. destruct (trade_plain x), (all_finite _); naive_solver.
Qed.

(** The trades a run records, and the rows of funds. *)
Definition recorded (start : Z) (l : list event) : list db_Trade :=
  run_trades start l ≫= λ tu, accepted (trade_of_fill tu <$> tu_fills tu).

Definition event_funds (ev : event) : option FundsRow :=
  match ev with
  | EFundsUpdate now _ fu =>
      let item := funds_of_update fu in
      if funds_plain item && all_finite [dbf_balance item; stored_hold item]
      then Some (funds_row now item) else None
  | _ => None
  end.
Definition recorded_funds (l : list event) : list FundsRow := omap event_funds l.
Definition store_funds (rows f : list FundsRow) : list FundsRow :=
  fold_left (λ f r, insert_or_replace funds_key r f) rows f.

Lemma recorded_cons start ev l :
  recorded start (ev :: l) = recorded start [ev] ++ recorded start l.
Proof.
  unfold recorded, run_trades. cbn [omap list_omap]. destruct (event_trade ev); [|done].
  rewrite !filter_cons, filter_nil. by case_decide; cbn; rewrite ?app_nil_r.
Qed.

(** One event of the journal on the tables. *)
Lemma written_tables start ev (d : SqliteSession) :
  written start d ev
  = {| ss_trades := store (trade_row <$> recorded start [ev]) (ss_trades d);
       ss_funds := store_funds (recorded_funds [ev]) (ss_funds d) |}.
Proof.
  destruct d as [t f], ev as [| | | | | | |mi tu| |now mi fu]; try done.
  - unfold recorded, run_trades. cbn [written omap list_omap event_trade recorded_funds event_funds fold_left].
    rewrite filter_cons, filter_nil. case_decide; [|done]. cbn [mbind list_bind].
    rewrite app_nil_r, <- insert_trades_accepted. cbn. unfold on_trades. cbn.
    by destruct (Trades_insert_trades _ _).
  - unfold recorded_funds. cbn [written db_insert_funds sqlite_database omap list_omap event_funds].
    unfold on_funds, Funds_insert. cbn [for_each ss_funds]. unfold bind. rewrite insert_funds_cases.
    destruct (funds_plain _); [|done]. by destruct (all_finite _).
Qed.

Lemma journal_tables start l (d : SqliteSession) :
  fold_left (written start) l d
  = {| ss_trades := store (trade_row <$> recorded start l) (ss_trades d);
       ss_funds := store_funds (recorded_funds l) (ss_funds d) |}.
Proof.
  revert d. induction l as [|ev l IH]; intros d; [by destruct d|]. cbn [fold_left]. rewrite IH, written_tables.
  rewrite (recorded_cons start ev l). cbn [ss_trades ss_funds]. f_equal.
  - unfold store. by rewrite fmap_app, fold_left_app.
  - unfold store_funds, recorded_funds. cbn. by destruct (event_funds ev).
Qed.


(** ** The last trade of each key *)

Definition kept (l : list db_Trade) : list db_Trade :=
  fold_left (λ t x, insert_or_replace (trade_key ∘ trade_row) x t) l [].

Lemma insert_or_replace_fmap {A B K} `{EqDecision K} (f : A → B) (pk : B → K) (x : A) (l : list A) :
  insert_or_replace pk (f x) (f <$> l) = f <$> insert_or_replace (pk ∘ f) x l.
Proof.
  unfold insert_or_replace. rewrite fmap_app. f_equal. induction l as [|y l IH]; [done|].
  rewrite fmap_cons, !filter_cons, IH. cbn [compose]. by case_decide.
Qed.

Lemma store_kept l : store (trade_row <$> l) [] = trade_row <$> kept l.
Proof.
  unfold store, kept. assert (H : ∀ k, fold_left (λ t r, insert_or_replace trade_key r t) (trade_row <$> l) (trade_row <$> k)
    = trade_row <$> fold_left (λ t x, insert_or_replace (trade_key ∘ trade_row) x t) l k); [|apply (H [])].
  induction l as [|x l IH]; intros k; [done|]. rewrite fmap_cons. cbn [fold_left].
  rewrite insert_or_replace_fmap. apply IH.
Qed.

Lemma kept_subset l x : x ∈ kept l → x ∈ l.
Proof.
  unfold kept. assert (H : ∀ t, x ∈ fold_left (λ t x, insert_or_replace (trade_key ∘ trade_row) x t) l t → x ∈ t ∨ x ∈ l).
  { induction l as [|x' l IH]; intros t; cbn [fold_left]; [by left|]. intros [Hx|Hx]%IH; [|by right; right].
    apply elem_of_insert_or_replace in Hx as [->|[Hx _]]; [by right; left|by left]. }
  intros [Hn|?]%H; [by apply elem_of_nil in Hn|done].
Qed.

End tables.

(** ** Evaluation

    From empty tables: two trades, one of them reported twice, funds, and a session
    that asks for accounts. *)

Module tables_example.
Export system_example.

Definition nobody : list db_Position := match db_positions empty_database with Ret l => l | _ => [] end.
Definition opened : Controller SqliteSession := fold_left load_position nobody (initial setup empty_database).
Definition balance : FundsUpdate := {|
  fu_account := "A1"; fu_currency := "USD"; fu_balance := grid 0 1000; fu_hold := NaN;
  fu_exchange_time_utc := 0; fu_external_account := EmptyString |}.
Definition session : list event :=
  [EReady (info 0 1); ETradeUpdate (info 0 2) (update BUY "t1" 10); EFundsUpdate 6 (info 0 3) balance;
   ETimer 7 [EvAccept; EvRequest 7 1 (request GET ["accounts"] [] EmptyString)];
   ETradeUpdate (info 1 1) (update SELL "t2" 3); ETradeUpdate (info 0 4) (update BUY "t1" 10)].
Definition closed : Controller SqliteSession := default opened (execute names session opened).

Lemma opened_started : started names setup nobody opened.
Proof.
  split.
  - exists empty_database. split_and!; [vm_compute; reflexivity| |vm_compute; reflexivity].
    split; constructor.
  - vm_compute. reflexivity.
  - apply (bool_decide_unpack _). vm_compute. exact I.
Qed.

Lemma session_run : System.run names opened session closed.
Proof. apply execute_run. vm_compute. reflexivity. Qed.

Lemma session_reading : Forall reading session.
Proof. apply (bool_decide_unpack _). vm_compute. exact I. Qed.
End tables_example.

Section tables_witnesses.
Import tables_example.


End tables_witnesses.
