(* ===== verification/Cache.v ===== *)
(** * The cache of positions and funds

    [Shared::accounts_by_source], what each gateway reports about its accounts:
    the entry of a source, an account and an instrument, or a currency, is the
    history of the updates for that key, and funds are cached exactly when they are
    stored. *)

From S2P Require Import Prelude Double Messages Instrument Position Groups Shared SharedFacts RiskFacts.
From S2P Require Import RiskInv Text Web Statement Sql Trades TradesFacts TradesProps Funds Database.
From S2P Require Import Control ControlFacts Controller ControllerFacts PublishFacts System Frame Runs Delivery.
From S2P Require Import ControllerProps SystemProps Tables.

Section entries.
Context `{Api : !RoqApi} `{Order : !HashOrder}.
Implicit Types (s : Shared) (source : Z) (account : string).

Definition cached_account source account s : option shared_Account :=
  sh_accounts_by_source s !! source ≫= λ accounts, accounts !! account.
Definition cached_position source account (e y : string) s : option cache_Position :=
  cached_account source account s ≫= λ a, sa_positions a !! e ≫= λ symbols, symbols !! y.
Definition cached_funds source account (currency : string) s : option cache_Funds :=
  cached_account source account s ≫= λ a, sa_funds a !! currency.

Lemma cached_account_put source account a s source' account' :
  cached_account source' account' (put_source_account source account a s)
  = if decide ((source', account') = (source, account)) then Some a else cached_account source' account' s.
Proof.
  unfold cached_account, put_source_account, at_key. cbn. destruct (decide (source' = source)) as [->|Hs].
  - rewrite lookup_insert_eq. cbn. destruct (decide (account' = account)) as [->|Ha].
    + by rewrite lookup_insert_eq, decide_True.
    + rewrite lookup_insert_ne, decide_False by congruence. by destruct (sh_accounts_by_source s !! source).
  - by rewrite lookup_insert_ne, decide_False by congruence.
Qed.

Lemma source_account_cached source account s :
  source_account source account s = default shared_Account_default (cached_account source account s).
Proof. unfold source_account, cached_account, at_key. by destruct (sh_accounts_by_source s !! source). Qed.

(** One update of an entry. *)
Definition note_position (o : option cache_Position) (pu : PositionUpdate) : option cache_Position :=
  Some (cache_Position_update pu (default cache_Position_default o)).2.
Definition note_funds (o : option cache_Funds) (fu : FundsUpdate) : option cache_Funds :=
  Some (cache_Funds_update fu (default cache_Funds_default o)).2.

(** What the two handlers assign. *)
Definition cache_position source (pu : PositionUpdate) s : Shared :=
  let account := source_account source (pu_account pu) s in
  let by_symbol := at_key (pu_exchange pu) (sa_positions account) in
  put_source_account source (pu_account pu)
    {| sa_positions := <[pu_exchange pu := <[pu_symbol pu := (cache_Position_update pu
         (default cache_Position_default (by_symbol !! pu_symbol pu))).2]> by_symbol]> (sa_positions account);
       sa_funds := sa_funds account |} s.
Definition cache_funds source (fu : FundsUpdate) s : Shared :=
  let account := source_account source (fu_account fu) s in
  put_source_account source (fu_account fu)
    {| sa_positions := sa_positions account;
       sa_funds := <[fu_currency fu := (cache_Funds_update fu
         (default cache_Funds_default (sa_funds account !! fu_currency fu))).2]> (sa_funds account) |} s.

Lemma cache_position_entries source pu s source' account e y :
  cached_position source' account e y (cache_position source pu s)
  = if decide ((source', account, e, y) = (source, pu_account pu, pu_exchange pu, pu_symbol pu))
    then note_position (cached_position source' account e y s) pu else cached_position source' account e y s.
Proof.
  unfold cached_position, cache_position. rewrite cached_account_put, source_account_cached.
  destruct (decide ((source', account) = (source, pu_account pu))) as [[= -> ->]|Hne].
  2:{ rewrite decide_False by congruence. done. }
  cbn. destruct (cached_account source (pu_account pu) s) as [a|]; cbn; unfold at_key.
  - destruct (decide (e = pu_exchange pu)) as [->|He].
    + rewrite lookup_insert_eq. cbn. destruct (decide (y = pu_symbol pu)) as [->|Hy].
      * rewrite lookup_insert_eq, decide_True by done. unfold note_position. by destruct (sa_positions a !! pu_exchange pu).
      * rewrite lookup_insert_ne, decide_False by congruence. by destruct (sa_positions a !! pu_exchange pu).
    + by rewrite lookup_insert_ne, decide_False by congruence.
  - rewrite lookup_empty. cbn. destruct (decide (e = pu_exchange pu)) as [->|He].
    + rewrite lookup_insert_eq. cbn. destruct (decide (y = pu_symbol pu)) as [->|Hy].
      * by rewrite lookup_insert_eq, decide_True.
      * by rewrite lookup_insert_ne, decide_False by congruence.
    + by rewrite lookup_insert_ne, decide_False by congruence.
Qed.

Lemma cache_position_funds source pu s source' account currency :
  cached_funds source' account currency (cache_position source pu s) = cached_funds source' account currency s.
Proof.
  unfold cached_funds, cache_position. rewrite cached_account_put, source_account_cached.
  case_decide as Hk; [|done]. injection Hk as -> ->. cbn.
  by destruct (cached_account source (pu_account pu) s); cbn; rewrite ?lookup_empty.
Qed.

Lemma cache_funds_entries source fu s source' account currency :
  cached_funds source' account currency (cache_funds source fu s)
  = if decide ((source', account, currency) = (source, fu_account fu, fu_currency fu))
    then note_funds (cached_funds source' account currency s) fu else cached_funds source' account currency s.
Proof.
  unfold cached_funds, cache_funds. rewrite cached_account_put, source_account_cached.
  destruct (decide ((source', account) = (source, fu_account fu))) as [[= -> ->]|Hne].
  2:{ rewrite decide_False by congruence. done. }
  destruct (cached_account source (fu_account fu) s) as [a|]; cbn;
    (destruct (decide (currency = fu_currency fu)) as [->|Hc];
     [by rewrite lookup_insert_eq, decide_True|by rewrite lookup_insert_ne, decide_False by congruence]).
Qed.

Lemma cache_funds_positions source fu s source' account e y :
  cached_position source' account e y (cache_funds source fu s) = cached_position source' account e y s.
Proof.
  unfold cached_position, cache_funds. rewrite cached_account_put, source_account_cached.
  case_decide as Hk; [|done]. injection Hk as -> ->. cbn.
  by destruct (cached_account source (fu_account fu) s); cbn; rewrite ?lookup_empty.
Qed.
End entries.

Section cache.
Context `{Api : !RoqApi} `{Order : !HashOrder} `{J : !Json} `{W : !WebServer} `{Engine : !SqlEngine}.
Implicit Types (c : Controller SqliteSession) (s : Shared) (source : Z) (account : string).

(** Everything else leaves the cache alone. *)
Definition same_cache s s' : Prop := sh_accounts_by_source s' = sh_accounts_by_source s.
#[global] Instance same_cache_frame : shared_frame same_cache.
Proof. split; try done. split; unfold same_cache; [done|]. intros s1 s2 s3. congruence. Qed.

Definition controller_same_cache c c' : Prop := same_cache (c_shared c) (c_shared c').
#[global] Instance controller_same_cache_frame : controller_frame same_cache controller_same_cache.
Proof.
  split; try done; try apply _. split; unfold controller_same_cache, same_cache; [done|]. intros c1 c2 c3. congruence.
Qed.

Lemma position_update_eq mi pu c :
  Controller_position_update mi pu c = (Ret (), set_shared (cache_position (mi_source mi) pu (c_shared c)) c).
Proof.
  unfold Controller_position_update, on_shared, modify, cache_position. cbn beta zeta.
  by destruct (cache_Position_update pu _).
Qed.

(** Funds are cached when they were stored. *)
Lemma funds_update_shared now mi fu c :
  c_shared (Controller_funds_update now mi fu c).2
  = match event_funds (EFundsUpdate now mi fu) with
    | Some _ => cache_funds (mi_source mi) fu (c_shared c)
    | None => c_shared c
    end.
Proof.
  unfold Controller_funds_update, bind, on_database, on_manager, call, event_funds. cbn [db_insert_funds sqlite_database].
  unfold on_funds, Funds_insert. cbn [for_each]. unfold bind. rewrite insert_funds_cases.
  destruct (funds_plain _); [|done]. destruct (all_finite _); [|done]. cbn [andb].
  unfold on_shared, modify, cache_funds. cbn. by destruct (cache_Funds_update fu _).
Qed.

(** The updates of a run for one entry. *)
Definition event_position source account (e y : string) (ev : event) : option PositionUpdate :=
  match ev with
  | EPositionUpdate mi pu =>
      if decide ((source, account, e, y) = (mi_source mi, pu_account pu, pu_exchange pu, pu_symbol pu))
      then Some pu else None
  | _ => None
  end.
Definition event_balance source account (currency : string) (ev : event) : option FundsUpdate :=
  match ev with
  | EFundsUpdate now mi fu =>
      if decide ((source, account, currency) = (mi_source mi, fu_account fu, fu_currency fu))
      then (λ _, fu) <$> event_funds ev else None
  | _ => None
  end.

Lemma event_cached_position source account e y ev c :
  cached_position source account e y (c_shared (on_event ev c).2)
  = fold_left note_position (omap (event_position source account e y) [ev])
      (cached_position source account e y (c_shared c)).
Proof.
  assert (Hsame : ∀ c', controller_same_cache c c' →
    cached_position source account e y (c_shared c') = cached_position source account e y (c_shared c)).
  { intros c' Hc. unfold cached_position, cached_account. by rewrite Hc. }
  destruct ev as [| | | | | | | |mi pu|now mi fu];
    try (apply Hsame, (frame_event same_cache controller_same_cache); exact I).
  - cbn [on_event]. rewrite position_update_eq. cbn [snd c_shared set_shared omap list_omap event_position].
    rewrite cache_position_entries. by case_decide.
  - cbn [on_event]. rewrite funds_update_shared. cbn [omap list_omap event_position fold_left].
    case_match; [apply cache_funds_positions|done].
Qed.

Lemma event_cached_funds source account currency ev c :
  cached_funds source account currency (c_shared (on_event ev c).2)
  = fold_left note_funds (omap (event_balance source account currency) [ev])
      (cached_funds source account currency (c_shared c)).
Proof.
  assert (Hsame : ∀ c', controller_same_cache c c' →
    cached_funds source account currency (c_shared c') = cached_funds source account currency (c_shared c)).
  { intros c' Hc. unfold cached_funds, cached_account. by rewrite Hc. }
  destruct ev as [| | | | | | | |mi pu|now mi fu];
    try (apply Hsame, (frame_event same_cache controller_same_cache); exact I).
  - cbn [on_event]. rewrite position_update_eq. apply cache_position_funds.
  - cbn [on_event]. rewrite funds_update_shared. cbn [omap list_omap]. unfold event_balance.
    destruct (event_funds (EFundsUpdate now mi fu)); cbn [fmap option_fmap option_map]; [|by case_decide].
    rewrite cache_funds_entries. by case_decide.
Qed.

Lemma run_cached N c l c' source account (e y currency : string) :
  run N c l c' →
  cached_position source account e y (c_shared c')
  = fold_left note_position (omap (event_position source account e y) l) (cached_position source account e y (c_shared c))
  ∧ cached_funds source account currency (c_shared c')
    = fold_left note_funds (omap (event_balance source account currency) l)
        (cached_funds source account currency (c_shared c)).
Proof.
  induction 1 as [c|c ev r c1 l c2 _ Hev _ _ [IH1 IH2]]; [done|].
  pose proof (event_cached_position source account e y ev c) as H1.
  pose proof (event_cached_funds source account currency ev c) as H2. rewrite Hev in H1, H2. cbn [snd] in H1, H2.
  rewrite IH1, IH2, H1, H2. by rewrite !(omap_cons_app _ ev l), !fold_left_app.
Qed.

(** C27. The cache is the history of its keys: after a start over any database and
    any run, the entry of a source, an account and an instrument is what the
    position updates for exactly that key make of an empty entry, in order, and the
    entry of a source, an account and a currency what the funds updates for it make,
    of those that the database could store; a key without updates has no entry. *)
Theorem cache_of_run N setup d ps c0 l c source account (e y currency : string)
    (Hd : db_positions d = Ret ps) (Hc : Controller_ctor setup (Ret d) (Ret ()) = Ret c0) (Hrun : run N c0 l c) :
  cached_position source account e y (c_shared c)
  = fold_left note_position (omap (event_position source account e y) l) None
  ∧ cached_funds source account currency (c_shared c)
    = fold_left note_funds (omap (event_balance source account currency) l) None.
Proof.
  assert (H0 : sh_accounts_by_source (c_shared c0) = ∅).
  { rewrite (Controller_ctor_eq setup d ps Hd) in Hc. injection Hc as <-.
    change ∅ with (sh_accounts_by_source (c_shared (initial setup d))).
    apply (frame_controller_fold same_cache controller_same_cache).
    intros c' p. apply (frame_load_position same_cache controller_same_cache). }
  assert (HP : cached_position source account e y (c_shared c0) = None)
    by (unfold cached_position, cached_account; by rewrite H0).
  assert (HFu : cached_funds source account currency (c_shared c0) = None)
    by (unfold cached_funds, cached_account; by rewrite H0).
  rewrite <- HP, <- HFu. by apply (run_cached N).
Qed.
End cache.

(** ** Evaluation *)

Section cache_witnesses.
Import tables_example.

Lemma cache_of_run_witness :
  cached_funds 0 "A1" "USD" (c_shared closed)
  = fold_left note_funds (omap (event_balance 0 "A1" "USD") session) None
  ∧ omap (event_balance 0 "A1" "USD") session = [balance].
Proof.
  split; [|vm_compute; reflexivity].
  apply (cache_of_run names setup empty_database nobody opened session closed 0 "A1" "deribit" "BTC" "USD").
  - vm_compute. reflexivity.
  - vm_compute. reflexivity.
  - exact session_run.
Defined.
End cache_witnesses.
