(* ===== verification/Corrections.v ===== *)
(** * Corrections wait for a restart

    A correction sent to the control service is written to the table of trades and
    to nothing else: the positions the controller keeps and publishes are those of
    the gateways' trades until it is started again. *)

From S2P Require Import Prelude Double Messages Instrument Position Groups Shared SharedFacts RiskFacts.
From S2P Require Import RiskInv Text Web Statement Sql Trades TradesFacts TradesProps Funds Database.
From S2P Require Import Control ControlFacts ControlProps Controller ControllerFacts PublishFacts.
From S2P Require Import System Runs Delivery ControllerProps SystemProps Tables.

Section corrections.
Context `{Api : !RoqApi} `{Order : !HashOrder} `{J : !Json} `{W : !WebServer} `{Engine : !SqlEngine}.
Implicit Types (c : Controller SqliteSession) (N : gset (string * string)) (o : owner).

(** A correction the statement can express. *)
Definition correction_storable (x : db_Correction) : Prop :=
  correction_plain x = true ∧ all_finite [dbc_quantity x; dbc_price x] = true.

Lemma insert_correction_storable now x (d : SqliteSession) :
  correction_storable x →
  db_insert_corrections now [x] d
  = (Ret (), {| ss_trades := insert_or_replace trade_key (correction_row now x) (ss_trades d);
                ss_funds := ss_funds d |}).
Proof.
  intros [Hp Hf]. cbn. unfold on_trades, Trades_insert_corrections. cbn [for_each]. unfold bind, insert_correction.
  by rewrite Hp, Hf.
Qed.

Lemma Manager_timer_keeps now (m : Manager SqliteSession) :
  m_out (Manager_timer now m).2 = m_out m ∧ m_database (Manager_timer now m).2 = m_database m.
Proof. unfold Manager_timer, bind, get, remove_zombies, modify. case_match; [|done]. cbn. by case_bool_decide. Qed.

(** C32. A correction changes the table and no position: in every run, when a timer
    event delivers a correction the table can hold, the handler returns, success is
    reported to the client, the row of the correction is in the table, and every
    position of every account and user is what it was, so that nothing of the
    correction is published before the next start. *)
Theorem correction_not_live N setup ps c0 l c now at_ id request j x
    (Hstart : started N setup ps c0) (Hrun : run N c0 l c)
    (Haddr : addressed PUT "trade" request (c_manager c)) (Hbody : req_body request ≠ EmptyString)
    (Hparse : json_parse (req_body request) = Ret j) (Harray : json_is_array j = false)
    (Hitem : parse_item j = Ret x) (Hx : correction_storable x)
    (Hsend : ∀ r, server_send id r = Ret ()) :
  ∃ c', Controller_timer now [EvRequest at_ id request] c = (Ret (), c')
    ∧ Sent id (success_reply request) ∈ m_out (c_manager c')
    ∧ ss_trades (m_database (c_manager c'))
      = insert_or_replace trade_key (correction_row at_ x) (ss_trades (m_database (c_manager c)))
    ∧ ∀ o e y, position_of o e y (c_shared c') = position_of o e y (c_shared c).
Proof.
  destruct (started_run N setup ps c0 l c Hstart Hrun) as ([HR _ _ _] & _ & _).
  pose proof (insert_correction_storable at_ x (m_database (c_manager c)) Hx) as Hins.
  pose proof (put_trade_object_eq at_ id request j x _ _ (c_manager c) Haddr Hbody Hparse Harray Hitem Hins Hsend) as Hreq.
  cbn beta iota in Hreq. set (m1 := add_out _ _) in Hreq.
  assert (Hev : for_each handle [EvRequest at_ id request] (c_manager c) = (Ret (), m1)).
  { cbn [for_each handle]. unfold bind. by rewrite Hreq. }
  destruct (timer_eq now _ c m1 Hev) as (c' & Hc & Hpub & _). exists c'. split; [done|].
  assert (Hm : c_manager c' = (Manager_timer now m1).2).
  { assert (Hp : preserves same_manager (for_each (publish_source (D := SqliteSession)) (seq 0 (length (c_state c)))))
      by (apply preserves_for_each; [apply _|]; intros; apply same_manager_publish_source).
    specialize (Hp (set_manager (Manager_timer now m1).2 c)). by rewrite Hpub in Hp. }
  destruct (Manager_timer_keeps now m1) as [Hout Hdb]. rewrite Hm, Hout, Hdb. split_and!; [set_solver|done|].
  intros o e y. apply same_positions_of. pose proof (step_timer N now [EvRequest at_ id request] c) as [_ _ _ Hpos].
  rewrite Hc in Hpos. by apply Hpos.
Qed.
End corrections.

(** ** Evaluation *)

Section corrections_witnesses.
Import tables_example.

Definition correct : Request := request PUT ["trade"] [] "one".

Lemma correction_not_live_witness :
  ∃ c', Controller_timer 9 [EvRequest 8 1 correct] closed = (Ret (), c')
    ∧ length (ss_trades (m_database (c_manager c'))) = 3%nat
    ∧ position_of (OAccount "A1") "deribit" "BTC" (c_shared c')
      = position_of (OAccount "A1") "deribit" "BTC" (c_shared closed).
Proof.
  destruct (correction_not_live (J := test_json) names setup nobody opened session closed 9 8 1 correct correction_value stored_correction)
    as (c' & H1 & _ & H2 & H3).
  - exact opened_started.
  - exact session_run.
  - split; [reflexivity|]. split; [discriminate|]. vm_compute. reflexivity.
  - discriminate.
  - reflexivity.
  - reflexivity.
  - reflexivity.
  - split; reflexivity.
  - reflexivity.
  - exists c'. split; [exact H1|]. split; [rewrite H2; vm_compute; reflexivity|apply H3].
Defined.
End corrections_witnesses.
