(* ===== verification/Feed.v ===== *)
(** * The feed of a subscriber

    A session that was upgraded is told of every trade the controller accepts, in
    order and once per delivery, for as long as its own connection is quiet,
    whatever other sessions, the database and the gateways do. *)

From S2P Require Import Prelude Double Messages Instrument Position Groups Shared SharedFacts RiskFacts.
From S2P Require Import RiskInv Text Web Statement Sql Trades TradesFacts TradesProps Funds Database.
From S2P Require Import Control ControlFacts ControlProps Controller ControllerFacts PublishFacts.
From S2P Require Import System Runs Delivery ControllerProps SystemProps Tables.

Section feed.
Context `{J : !Json} `{W : !WebServer} `{Order : !HashOrder} {D : Type} `{DB : !Database D}.
Implicit Types (m : Manager D) (id : Z).

(** The texts a session was sent. *)
Definition text_for id (o : output) : option string :=
  match o with SentText id' text => if decide (id' = id) then Some text else None | _ => None end.
Definition feed id m : list string := omap (text_for id) (m_out m).

(** The session is subscribed, exists, and is not about to be removed. *)
Record attached id m : Prop := {
  at_subscribed : id ∈ m_subscribers m;
  at_exists : is_Some (m_sessions m !! id);
  at_stays : id ∉ m_zombies m;
}.

(** What happens aside does not reach the session. *)
Record aside id m m' : Prop := {
  as_attached : attached id m → attached id m';
  as_feed : feed id m' = feed id m;
}.
#[global] Instance aside_preorder id : PreOrder (aside id).
Proof. split; [done|]. intros m1 m2 m3 [A1 F1] [A2 F2]. split; [auto|congruence]. Qed.

Lemma aside_server_call id o r : output_session o ≠ id → preserves (aside id) (server_call (D := D) o r).
Proof.
  intros Ho m. split; [by intros []; split|]. unfold server_call, bind, modify, feed. cbn.
  rewrite omap_app. assert (omap (text_for id) [o] = []) as ->; [|apply app_nil_r].
  destruct o; cbn in *; try done. by rewrite decide_False.
Qed.

Lemma aside_set_state id id' st : id' ≠ id → preserves (aside id) (set_state (D := D) id' st).
Proof. intros Hne m. split; [|done]. intros [A E Z]. split; try done. cbn. by rewrite lookup_insert_ne. Qed.

Lemma aside_call {A} id (f : act D A) : preserves (aside id) (call f).
Proof. intros m. unfold call. destruct (f (m_database m)). split; [by intros []; split|done]. Qed.
#[local] Hint Resolve aside_server_call aside_set_state aside_call : risk.

(** The events of other sessions. *)
Definition elsewhere id (e : control_event) : Prop :=
  event_session e ≠ Some id ∧ match e with EvTrade _ => False | _ => True end.

Lemma aside_timer id now : preserves (aside id) (Manager_timer (D := D) now).
Proof.
  intros m. unfold Manager_timer, bind, get. case_match; [|done]. cbn -[remove_zombies].
  pose proof (remove_zombies_lookup (set_next_cleanup (now + CLEANUP_FREQUENCY) m) id) as Hl.
  split.
  - intros [A E Z]. cbn in Hl. rewrite decide_False in Hl by done. unfold remove_zombies, modify in *.
    cbn in *. case_bool_decide; split; cbn in *; solve [done|set_solver|by rewrite Hl].
  - unfold remove_zombies, modify, feed. cbn. by case_bool_decide.
Qed.

Lemma aside_accept id : preserves (aside id) (Manager_accept (D := D)).
Proof.
  intros m. unfold Manager_accept, control_Session_ctor, bind, modify, get, lift. cbn.
  set (n := u64 _). destruct (server_create n) as [[]|e| |]; (split; [|done]); intros [A E Z]; split; try done. cbn.
  unfold try_emplace. destruct (m_sessions m !! n) eqn:Hn; [done|]. destruct (decide (id = n)) as [->|].
  - by rewrite lookup_insert_eq.
  - by rewrite lookup_insert_ne.
Qed.

Lemma aside_handle id e : elsewhere id e → preserves (aside id) (handle (D := D) e).
Proof.
  intros [Hid He].
  assert (Hcalls : ∀ id', id' ≠ id → ∀ o r, output_session o = id' → preserves (aside id) (server_call (D := D) o r)).
  { intros id' Hne o r <-. auto with risk. }
  destruct e as [|id'|now id' req|id' payload|id'|now|trade]; cbn [handle]; try done.
  - apply aside_accept.
  - assert (id' ≠ id) by naive_solver. unfold Session_disconnected, Manager_disconnected.
    apply preserves_bind; auto with risk. intros _ m. split; [|done]. intros [A E Z]. split; cbn; set_solver.
  - assert (Hne : id' ≠ id) by naive_solver. unfold Session_request.
    apply preserves_catch; [apply _| |by apply preserves_close, Hcalls]. case_bool_decide.
    + apply preserves_bind; [apply _|by apply aside_server_call|]. intros _.
      apply preserves_bind; [apply _|by apply aside_set_state|]. intros _ m. split; [|done].
      intros [A E Z]. split; cbn; set_solver.
    + apply preserves_bind; auto with risk. intros m. case_bool_decide; auto with risk.
      apply (preserves_route _); auto with risk. by apply Hcalls.
  - apply (preserves_text _ id'). apply Hcalls. naive_solver.
  - apply aside_timer.
Qed.

Lemma aside_drain id events : Forall (elsewhere id) events → preserves (aside id) (for_each (handle (D := D)) events).
Proof.
  induction 1 as [|e events He _ IH]; cbn [for_each]; [apply preserves_ret, _|].
  apply preserves_bind; [apply _|by apply aside_handle|by intros _].
Qed.

(** A trade reaches an attached session once. *)
Lemma feed_trade id (trade : db_Trade) m :
  (∀ id t, server_send_text id t = Ret ()) → attached id m →
  ∃ m', Manager_trade trade m = (Ret (), m') ∧ feed id m' = feed id m ++ [trade_to_json trade] ∧ attached id m'.
Proof.
  intros Hs [A E Z]. destruct (Manager_trade_sends trade m Hs) as (m' & Hm & Hout & [_ HT HS HZ] & _).
  exists m'. split_and!; [done| |split; congruence]. unfold feed. rewrite Hout, omap_app. f_equal. clear Hout.
  assert (Hin : id ∈ receivers m).
  { unfold receivers. rewrite list_elem_of_filter, elem_of_hash_order, elem_of_elements. done. }
  assert (Hnd : NoDup (receivers m)) by apply NoDup_filter, NoDup_hash_order, NoDup_elements.
  revert Hin. induction Hnd as [|i l Hi Hnd IH]; [by intros []%elem_of_nil|]. intros Hin. cbn.
  case_decide as Hd; [subst i|].
  - f_equal. clear -Hi. induction l as [|i l IH]; [done|]. cbn. apply not_elem_of_cons in Hi as [Hne Hi].
    rewrite decide_False by done. by apply IH.
  - apply elem_of_cons in Hin as [->|Hin]; [done|]. exact (IH Hin).
Qed.
End feed.

Section feed_runs.
Context `{Api : !RoqApi} `{Order : !HashOrder} `{J : !Json} `{W : !WebServer} {D : Type} `{DB : !Database D}
  `{L : !DatabaseLaws D}.
Implicit Types (c : Controller D) (N : gset (string * string)) (id : Z).

(** Nothing arrives from the session's connection. *)
Definition undisturbed id (ev : event) : Prop :=
  match ev with ETimer _ events => Forall (elsewhere id) events | _ => True end.

(** The texts of the fills of a sequence of updates. *)
Definition trade_texts (l : list TradeUpdate) : list string :=
  l ≫= λ tu, trade_to_json <$> (trade_of_fill tu <$> tu_fills tu).

Lemma feed_fills id tu (fills : list Fill) c :
  (∀ id t, server_send_text id t = Ret ()) → attached id (c_manager c) →
  ∃ c', for_each (λ item, on_manager (Manager_trade (trade_of_fill tu item))) fills c = (Ret (), c')
    ∧ feed id (c_manager c') = feed id (c_manager c) ++ (trade_to_json <$> (trade_of_fill tu <$> fills))
    ∧ attached id (c_manager c').
Proof.
  intros Hs. revert c. induction fills as [|f fills IH]; intros c Ha; [exists c; by rewrite app_nil_r|].
  destruct (feed_trade id (trade_of_fill tu f) (c_manager c) Hs Ha) as (m1 & Hm & Hf1 & Ha1).
  destruct (IH (set_manager m1 c) Ha1) as (c' & Hc & Hf2 & Ha2). exists c'. cbn [for_each]. unfold bind, on_manager at 1.
  rewrite Hm. split_and!; [done| |done]. rewrite Hf2. cbn [c_manager set_manager]. rewrite Hf1, <- app_assoc. done.
Qed.

Lemma feed_trade_update id mi tu c :
  (∀ id t, server_send_text id t = Ret ()) → has_source (mi_source mi) c → attached id (c_manager c) →
  let c' := (Controller_trade_update mi tu c).2 in
  feed id (c_manager c') = feed id (c_manager c) ++ (if decide (fresh c tu) then trade_texts [tu] else [])
  ∧ attached id (c_manager c').
Proof.
  intros Hs [st Hst] Ha. rewrite (trade_update_eq mi tu c st Hst). case_decide; [|cbn; by rewrite app_nil_r].
  set (c1 := set_shared _ _). change (c_manager c) with (c_manager c1) in *. clearbody c1.
  destruct (feed_fills id tu (tu_fills tu) c1 Hs Ha) as (c2 & Hc & Hf & Ha2).
  unfold catch_all, store_trades. unfold bind at 1 2. rewrite Hc. unfold trade_texts. cbn [mbind list_bind].
  rewrite app_nil_r. unfold on_database, on_manager.
  pose proof (aside_call id (db_insert_trades (trade_of_fill tu <$> tu_fills tu)) (c_manager c2)) as [Aa Af].
  destruct (call _ (c_manager c2)) as [r m]. cbn [snd] in *.
  assert (feed id m = feed id (c_manager c1) ++ (trade_to_json <$> (trade_of_fill tu <$> tu_fills tu)) ∧ attached id m)
    as Hm by (rewrite Af; auto).
  by destruct r.
Qed.

Lemma event_feed N id ev c :
  (∀ id t, server_send_text id t = Ret ()) → admissible N c ev → undisturbed id ev → attached id (c_manager c) →
  let c' := (on_event ev c).2 in
  feed id (c_manager c')
  = feed id (c_manager c) ++ trade_texts (run_trades (c_last_exchange_time_utc c) [ev])
  ∧ attached id (c_manager c').
Proof.
  intros Hs Ha Hu Hatt. assert (Hother : aside id (c_manager c) (c_manager (on_event ev c).2) →
    run_trades (c_last_exchange_time_utc c) [ev] = [] →
    feed id (c_manager (on_event ev c).2)
    = feed id (c_manager c) ++ trade_texts (run_trades (c_last_exchange_time_utc c) [ev])
    ∧ attached id (c_manager (on_event ev c).2)).
  { intros [A F] ->. rewrite F. cbn. rewrite app_nil_r. auto. }
  destruct ev as [now events|mi|mi|mi a|mi a|mi|rd|mi tu|mi pu|now mi fu];
    try (apply Hother; [|done]; apply (event_relation_from (aside id)); [apply aside_timer|]; try done;
         by apply aside_drain).
  - cbn [on_event]. destruct (feed_trade_update id mi tu c) as [Hf Ha']; [done|by apply (ad_source _ _ _ Ha)|done|].
    split; [|done]. rewrite Hf. f_equal. unfold run_trades. cbn [omap list_omap event_trade]. rewrite filter_cons, filter_nil.
    unfold fresh. by repeat case_decide.
  - apply Hother; [|done].
    apply (rel_funds_update (aside id)). intros. apply aside_call.
Qed.

End feed_runs.

(** ** Evaluation

    A session is accepted and upgraded; the trades of the example follow, and
    another session asks for accounts in between. *)

Section feed_witnesses.
Import tables_example.

Definition joining : list event := [ETimer 3 [EvAccept; EvRequest 3 1 upgrade]].
Definition trading : list event :=
  [ETradeUpdate (info 0 2) (update BUY "t1" 10);
   ETimer 7 [EvAccept; EvRequest 7 2 (request GET ["accounts"] [] EmptyString)];
   ETradeUpdate (info 1 1) (update SELL "t2" 3)].
Definition joined : Controller SqliteSession := default opened (execute names joining opened).
Definition traded_on : Controller SqliteSession := default joined (execute names trading joined).

End feed_witnesses.
