(* ===== verification/Durable.v ===== *)
(** * What is stored stays stored

    No event removes a trade or funds from the database: keys are only added, by
    the trades of the gateways, by corrections and by funds. *)

From S2P Require Import Prelude Double Messages Instrument Position Groups Shared SharedFacts RiskFacts.
From S2P Require Import RiskInv Text Web Statement Sql Trades TradesFacts TradesProps Funds Database.
From S2P Require Import Control ControlFacts ControlProps Controller ControllerFacts PublishFacts.
From S2P Require Import System Runs Delivery ControllerProps SystemProps.

Lemma insert_or_replace_keys {R K} `{EqDecision K} (pk : R → K) (r : R) (t : list R) k :
  k ∈ pk <$> insert_or_replace pk r t ↔ k = pk r ∨ k ∈ pk <$> t.
Proof.
  rewrite !list_elem_of_fmap. setoid_rewrite elem_of_insert_or_replace. split.
  - intros (x & -> & [->|[Hx _]]); [by left|]. right. by exists x.
  - intros [->|(x & -> & Hx)]; [exists r; naive_solver|].
    destruct (decide (pk x = pk r)) as [Heq|Hne]; [exists r|exists x]; naive_solver.
Qed.

Section durable.
Context `{Api : !RoqApi} `{Order : !HashOrder} `{J : !Json} `{W : !WebServer} `{Engine : !SqlEngine}.
Implicit Types (c : Controller SqliteSession) (d : SqliteSession).

(** The keys of [d] are keys of [d']. *)
Definition keys_kept d d' : Prop :=
  (∀ k, k ∈ trade_key <$> ss_trades d → k ∈ trade_key <$> ss_trades d')
  ∧ (∀ k, k ∈ funds_key <$> ss_funds d → k ∈ funds_key <$> ss_funds d').
#[global] Instance keys_kept_preorder : PreOrder keys_kept.
Proof. split; [by intros d|]. intros d1 d2 d3 [T1 F1] [T2 F2]. split; auto. Qed.

Lemma for_each_keys {R K A} `{EqDecision K} (pk : R → K) (f : A → act (list R) ()) l t k :
  (∀ x t, k ∈ pk <$> t → k ∈ pk <$> (f x t).2) → k ∈ pk <$> t → k ∈ pk <$> (for_each f l t).2.
Proof. intros Hf. apply (for_each_invariant (λ t, k ∈ pk <$> t)). auto. Qed.

Lemma keys_kept_operations : operations_keep keys_kept.
Proof.
  split.
  - intros l d. cbn. unfold on_trades. destruct (Trades_insert_trades l (ss_trades d)) as [r t] eqn:E. split; [|done].
    intros k Hk. cbn. replace t with (Trades_insert_trades l (ss_trades d)).2 by by rewrite E. apply for_each_keys; [|done].
    intros x t' Hx. rewrite insert_trade_cases. repeat case_match; try done. apply insert_or_replace_keys. by right.
  - intros now l d. cbn. unfold on_trades. destruct (Trades_insert_corrections now l (ss_trades d)) as [r t] eqn:E.
    split; [|done]. intros k Hk. cbn.
    replace t with (Trades_insert_corrections now l (ss_trades d)).2 by by rewrite E. apply for_each_keys; [|done].
    intros x t' Hx. unfold insert_correction. repeat case_match; try done. apply insert_or_replace_keys. by right.
  - intros now l d. cbn. unfold on_funds. destruct (Funds_insert now l (ss_funds d)) as [r t] eqn:E. split; [done|].
    intros k Hk. cbn. replace t with (Funds_insert now l (ss_funds d)).2 by by rewrite E. apply for_each_keys; [|done].
    intros x t' Hx. rewrite insert_funds_cases. repeat case_match; try done. apply insert_or_replace_keys. by right.
  - intros z d. by split.
Qed.

Lemma run_keys_kept N c l c' : run N c l c' → keys_kept (m_database (c_manager c)) (m_database (c_manager c')).
Proof.
  induction 1 as [c|c ev r c1 l c2 _ Hev _ _ IH]; [done|]. etrans; [|exact IH].
  pose proof (event_database keys_kept ev c keys_kept_operations) as H. by rewrite Hev in H.
Qed.

Lemma store_keys rows (t : list TradeRow) k : k ∈ trade_key <$> rows → k ∈ trade_key <$> store rows t.
Proof.
  unfold store. revert t. induction rows as [|r rows IH]; intros t Hk; [by apply elem_of_nil in Hk|]. cbn [fold_left].
  rewrite fmap_cons, elem_of_cons in Hk. destruct Hk as [->|Hk]; [|by apply IH].
  clear IH. assert (Hr : trade_key r ∈ trade_key <$> insert_or_replace trade_key r t)
    by (apply insert_or_replace_keys; by left).
  revert Hr. generalize (insert_or_replace trade_key r t). induction rows as [|r' rows IH]; intros t' Hr; [done|].
  cbn [fold_left]. apply IH. apply insert_or_replace_keys. by right.
Qed.

End durable.

(** ** Evaluation *)

Section durable_witnesses.
Import system_example.

Definition traded_once : Controller SqliteSession := (Controller_trade_update (info 0 2) first restarted).2.
Definition later : Controller SqliteSession := default traded_once (execute names after traded_once).

End durable_witnesses.
