(* ===== verification/Restart.v ===== *)
(** * The controller across a restart

    A controller that is started over the trades of one account in one instrument
    shows the totals of its purchases and of its sales; one that saw those trades
    as they happened shows their difference on one side. *)

From S2P Require Import Prelude Double Messages Instrument Position Groups Shared SharedFacts RiskFacts.
From S2P Require Import RiskInv Text Web Statement Sql Trades TradesFacts TradesProps Funds Database.
From S2P Require Import Control ControlFacts ControlProps Controller ControllerFacts PublishFacts.
From S2P Require Import System Runs Delivery ControllerProps SystemProps.

Section restart.
Context `{Api : !RoqApi} `{Order : !HashOrder} `{J : !Json} `{W : !WebServer} `{Engine : !SqlEngine}
  `{Sum : !ExactSum}.
Implicit Types (t : list TradeRow).

Lemma side_sum_bounds q side t : zsum (zabs q <$> t) < 2 ^ prec → lots (side_sum q side t).
Proof.
  intros Hb. unfold lots, side_sum, of_side. eapply Z.le_lt_trans; [apply zsum_zabs_le|].
  eapply Z.le_lt_trans; [apply zsum_zabs_filter|done].
Qed.

Lemma side_sum_nonneg q side t : Forall (λ r, 0 < q r) t → 0 ≤ side_sum q side t.
Proof.
  intros Hq. unfold side_sum, of_side. apply (Forall_filter_weaken (λ r, tr_side r = side) _ t) in Hq. unfold zsum.
  induction Hq as [|r l Hr _ IH]; cbn; lia.
Qed.

Lemma side_sum_pos q side t : Forall (λ r, 0 < q r) t → of_side side t ≠ [] → 0 < side_sum q side t.
Proof.
  intros Hq. unfold side_sum, of_side. apply (Forall_filter_weaken (λ r, tr_side r = side) _ t) in Hq. unfold zsum.
  induction Hq as [|r l Hr Hl IH]; [done|]. intros _. cbn. destruct l; [cbn; lia|].
  specialize (IH ltac:(done)). cbn in *. lia.
Qed.

(** The position of the account after a start over its trades. *)
Lemma restart_position g q a e y t f setup :
  lot_exponent g → in_lots g q t → zsum (zabs q <$> t) < 2 ^ prec →
  Forall (λ r, account_key r = (a, e, y)) t → of_side "BUY" t ≠ [] →
  Forall (λ r, uint32 (tr_strategy_id r)) t → a ≠ EmptyString → is_Some (su_accounts setup !! a) →
  ∃ c p, Controller_ctor setup (Ret {| ss_trades := t; ss_funds := f |}) (Ret ()) = Ret c
    ∧ position_of_account a e y (c_shared c) = Some p
    ∧ long_position p = grid g (side_sum q "BUY" t) ∧ short_position p = grid g (side_sum q "SELL" t)
    ∧ (∀ r, r ∈ of_side "BUY" t ∨ r ∈ of_side "SELL" t → tr_exchange_time_utc r ≤ c_last_exchange_time_utc c).
Proof.
  intros Hg Hq Hb Ht Hbuy Hu Ha [x Hx].
  destruct (user_position g q t) as (pu & Hpu & Hua & _); [done..|by left|].
  destruct (strategy_position g q t) as (ps & Hps & _ & Hsa); [done..|].
  pose proof (positions_single_account g q a e y t Hg Hq Hb Ht Hbuy) as Hpa.
  set (pa := Build_db_Position _ _ _ _ _ _ _ _) in Hpa.
  set (d := {| ss_trades := t; ss_funds := f |}).
  assert (Hd : db_positions d = Ret [pu; ps; pa]).
  { cbn. unfold Trades_select_positions. rewrite Hpu, Hps, Hpa. done. }
  destruct (load_positions_effect [pu; ps; pa] 0 (initial setup d)) as (_ & T & _ & A); [done|by apply initial_risk_wf|].
  destruct (A a e y Ha) as (us & Hus & Hp). cbn [c_shared initial] in Hp. rewrite initial_position_of_account, Hx in Hp.
  eexists. eexists. split; [by apply Controller_ctor_eq|]. split; [exact Hp|].
  rewrite !filter_cons, filter_nil in Hus. unfold db_of_account in Hus.
  rewrite decide_False in Hus by (rewrite Hua; congruence). rewrite decide_False in Hus by (rewrite Hsa; congruence).
  rewrite decide_True in Hus by done. destruct us as [|[z i] [|? ?]]; try done. injection Hus as ->.
  split_and!; [done..|]. intros r Hr. rewrite T. cbn.
  assert (tr_exchange_time_utc r ≤ dbp_exchange_time_utc pa); [|cbn in *; lia].
  cbn. destruct Hr as [Hr|Hr]; apply (list_elem_of_fmap_2 tr_exchange_time_utc), max_of_ge in Hr; lia.
Qed.

(** A restart and the position kept live. Over the trades of one account in one
    instrument, with a purchase, a controller that starts shows everything bought
    as the long and everything sold as the short position, where a position that
    counted the same executions shows their difference on one side: the net is the
    same, and the two agree exactly when nothing was sold. *)
Theorem restart_equivalence g q a e y t f setup ex s (live : Position)
    (Hg : lot_exponent g) (Hq : in_lots g q t) (Hb : zsum (zabs q <$> t) < 2 ^ prec)
    (Hpos : Forall (λ r, 0 < q r) t) (Ht : Forall (λ r, account_key r = (a, e, y)) t)
    (Hbuy : of_side "BUY" t ≠ []) (Hu : Forall (λ r, uint32 (tr_strategy_id r)) t)
    (Ha : a ≠ EmptyString) (Hconfigured : is_Some (su_accounts setup !! a))
    (Hlive : implements g ex s live) (Hsame : net ex s = side_sum q "BUY" t - side_sum q "SELL" t) :
  ∃ c p, Controller_ctor setup (Ret {| ss_trades := t; ss_funds := f |}) (Ret ()) = Ret c
    ∧ position_of_account a e y (c_shared c) = Some p
    ∧ long_position p = grid g (side_sum q "BUY" t) ∧ short_position p = grid g (side_sum q "SELL" t)
    ∧ pos_quantity live = grid g (side_sum q "BUY" t - side_sum q "SELL" t)
    ∧ (long_position p = long_position live ∧ same_number (short_position p) (short_position live)
       ↔ of_side "SELL" t = []).
Proof.
  destruct (restart_position g q a e y t f setup) as (c & p & Hc & Hp & Hl & Hs & _); try done.
  exists c, p. destruct Hlive as [_ HQ HL HS]. rewrite Hsame in HQ, HL, HS. split_and!; try done.
  rewrite Hl, Hs, HL. pose proof (side_sum_pos q "BUY" t Hpos Hbuy) as Hb0.
  pose proof (side_sum_bounds q "BUY" t Hb) as HbB. pose proof (side_sum_bounds q "SELL" t Hb) as HbS.
  pose proof (side_sum_nonneg q "SELL" t Hpos) as Hs0. unfold lots in *. split.
  - intros [HLL _]. destruct (decide (of_side "SELL" t = [])) as [|Hsell]; [done|].
    pose proof (side_sum_pos q "SELL" t Hpos Hsell). apply grid_inj in HLL; unfold lots; lia || done.
  - intros Hsell. assert (Hz : side_sum q "SELL" t = 0) by (unfold side_sum; by rewrite Hsell). rewrite Hz in *.
    split; [f_equal; lia|]. replace (Z.max (- (side_sum q "BUY" t - 0)) 0) with 0 in HS by lia.
    assert (grid g 0 = dzero) as Hzero by by rewrite grid_spec. rewrite Hzero in *. by apply same_number_zero.
Qed.
End restart.

(** ** Evaluation *)

Module restart_example.
Export system_example.
#[export] Instance example_sum : @ExactSum example_engine := table_order_exact.
End restart_example.
