(* ===== verification/Watermark.v ===== *)
(** * The time a restart begins at

    A controller drops the updates that are not newer than the latest time its
    position queries return. [MAX] with two arguments is a function of one row, not
    an aggregate, so each of the three queries returns the time of one position,
    whichever the engine picked, and not that of the last trade. *)

From S2P Require Import Prelude Double Messages Instrument Position Groups Shared SharedFacts RiskFacts.
From S2P Require Import RiskInv Text Web Statement Sql Trades TradesFacts TradesProps Funds Database Queries.
From S2P Require Import Control ControlFacts ControlProps Controller ControllerFacts PublishFacts.
From S2P Require Import System Runs Delivery ControllerProps SystemProps Restart.

(** ** Times of rows *)

(** The latest time of some rows, and zero when there are none. *)
Definition latest (t : list TradeRow) : Z := foldr Z.max 0 (tr_exchange_time_utc <$> t).

(** The rows the position queries read. *)
Definition dealt (t : list TradeRow) : list TradeRow := filter (λ r, tr_side r = "BUY" ∨ tr_side r = "SELL") t.

(** The rows of one position. *)
Definition of_key {K} `{EqDecision K} (key : TradeRow → K) (k : K) (t : list TradeRow) : list TradeRow :=
  filter (λ r, key r = k) t.

(** The latest time of one of the positions. *)
Definition position_time {K} `{EqDecision K} (key : TradeRow → K) (t : list TradeRow) (w : Z) : Prop :=
  (t = [] ∧ w = 0) ∨ ∃ k, k ∈ key <$> t ∧ w = latest (of_key key k t).

Lemma latest_le t n : latest t ≤ n ↔ 0 ≤ n ∧ ∀ r, r ∈ t → tr_exchange_time_utc r ≤ n.
Proof.
  unfold latest. induction t as [|r t IH]; cbn; [set_solver|].
  rewrite Z.max_lub_iff, IH. setoid_rewrite elem_of_cons. naive_solver.
Qed.

Lemma latest_bound t : 0 ≤ latest t ∧ ∀ r, r ∈ t → tr_exchange_time_utc r ≤ latest t.
Proof. by apply latest_le. Qed.

Lemma latest_mono t t' : (∀ r, r ∈ t → r ∈ t') → latest t ≤ latest t'.
Proof. intros H. apply latest_le. destruct (latest_bound t'). eauto. Qed.

Lemma max_of_le l n : l ≠ [] → max_of l ≤ n ↔ ∀ x, x ∈ l → x ≤ n.
Proof.
  intros Hl. split; [|intros H; by apply H, max_of_elem].
  intros H x Hx%max_of_ge. lia.
Qed.

Lemma Z_eq_le (a b : Z) : (∀ n, a ≤ n ↔ b ≤ n) → a = b.
Proof. intros H. apply Z.le_antisymm; apply H; lia. Qed.

(** ** Rows of the join *)

Section join.
Context {A B K : Type} `{EqDecision K} (ka : A → K) (kb : B → K).

(** A row of the join is a match, or a row that has none. *)
Lemma elem_of_full_outer_join ta tb oa ob :
  (oa, ob) ∈ full_outer_join ka kb ta tb →
  ∃ k, k ∈ (ka <$> ta) ++ (kb <$> tb)
    ∧ (∀ x, oa = Some x → x ∈ ta ∧ ka x = k) ∧ (oa = None → k ∉ ka <$> ta)
    ∧ (∀ y, ob = Some y → y ∈ tb ∧ kb y = k) ∧ (ob = None → k ∉ kb <$> tb).
Proof.
  unfold full_outer_join. rewrite elem_of_app, list_elem_of_bind, list_elem_of_fmap. intros [(a & Hj & Ha)|(b & [= -> ->] & Hb)].
  - exists (ka a). split; [apply elem_of_app; left; by apply list_elem_of_fmap_2|].
    destruct (filter (λ b, kb b = ka a) tb) as [|b bs] eqn:Hf.
    + apply list_elem_of_singleton in Hj as [= -> ->]. split_and!; try naive_solver.
      intros _ (b & Hk & Hb)%list_elem_of_fmap. assert (b ∈ filter (λ b, kb b = ka a) tb)
        by by apply list_elem_of_filter. rewrite Hf in *. set_solver.
    + rewrite <- Hf in Hj. apply list_elem_of_fmap in Hj as (b' & [= -> ->] & [Hk Hb]%list_elem_of_filter).
      split_and!; naive_solver.
  - apply list_elem_of_filter in Hb as [Hk Hb]. exists (kb b).
    split; [apply elem_of_app; right; by apply list_elem_of_fmap_2|]. split_and!; naive_solver.
Qed.
End join.

Section watermark.
Context `{Api : !RoqApi} `{Order : !HashOrder} `{J : !Json} `{W : !WebServer} `{Engine : !SqlEngine}.
Implicit Types (t : list TradeRow).

Lemma side_totals_elem {K} `{EqDecision K} (key : TradeRow → K) side t x :
  x ∈ side_totals key side t →
  tot_key x ∈ key <$> of_side side t
  ∧ ∀ n, tot_exchange_time_utc x ≤ n
         ↔ ∀ r, r ∈ of_side side t → key r = tot_key x → tr_exchange_time_utc r ≤ n.
Proof.
  unfold side_totals. fold (of_side side t). intros ([k rows] & -> & Hx)%list_elem_of_fmap.
  pose proof (group_by_nonempty _ _ _ _ Hx) as Hne. apply elem_of_group_by in Hx as [-> Hk]. cbn.
  split; [by rewrite (scan_perm _) in Hk|]. intros n. rewrite max_of_le by by intros ?%fmap_nil_inv.
  split.
  - intros H r Hr Hkr. apply H, list_elem_of_fmap_2, list_elem_of_filter. by rewrite (scan_perm (of_side side t)).
  - intros H x (r & -> & [Hkr Hr]%list_elem_of_filter)%list_elem_of_fmap. rewrite (scan_perm _) in Hr. by apply H.
Qed.

Lemma side_totals_key {K} `{EqDecision K} (key : TradeRow → K) side t r :
  r ∈ of_side side t → key r ∈ tot_key <$> side_totals key side t.
Proof.
  intros Hr. unfold side_totals. fold (of_side side t). rewrite <- list_fmap_compose.
  rewrite (list_fmap_ext _ fst) by (by intros i [] _). rewrite group_by_keys.
  apply elem_of_remove_dups, list_elem_of_fmap_2. by rewrite (scan_perm _).
Qed.

(** The time a side contributes for the key of a join row. *)
Lemma coalesce_time_le {K} `{EqDecision K} (key : TradeRow → K) side t (o : option (Side_total K)) k n :
  0 ≤ n → (∀ x, o = Some x → x ∈ side_totals key side t ∧ tot_key x = k) →
  (o = None → k ∉ tot_key <$> side_totals key side t) →
  coalesce_time o ≤ n ↔ ∀ r, r ∈ of_side side t → key r = k → tr_exchange_time_utc r ≤ n.
Proof.
  intros Hn HS HN. destruct o as [x|]; cbn.
  - destruct (HS x eq_refl) as [Hx <-]. by apply side_totals_elem.
  - split; [|done]. intros _ r Hr <-. destruct (HN eq_refl). by apply side_totals_key.
Qed.

Lemma elem_of_dealt t r : r ∈ dealt t ↔ r ∈ of_side "BUY" t ∨ r ∈ of_side "SELL" t.
Proof. unfold dealt, of_side. rewrite !list_elem_of_filter. naive_solver. Qed.

Lemma joined_position_time {K} `{EqDecision K} (key : TradeRow → K) t z :
  joined_time (side_totals key "BUY" t) (side_totals key "SELL" t) z →
  position_time key (dealt t) (Z.max 0 z).
Proof.
  intros [[Hj ->]|(a & b & Hj & ->)].
  - left. split; [|done]. destruct (dealt t) as [|r l] eqn:Hd; [done|exfalso].
    assert (Hr : r ∈ dealt t) by (rewrite Hd; left). apply elem_of_dealt in Hr as [Hr|Hr].
    + apply (side_totals_key key) in Hr.
      rewrite <- (full_outer_join_left tot_key tot_key _ (side_totals key "SELL" t)), Hj in Hr
        by apply side_totals_keys. set_solver.
    + apply (side_totals_key key) in Hr.
      rewrite <- (full_outer_join_right tot_key tot_key (side_totals key "BUY" t)), Hj in Hr
        by apply side_totals_keys. set_solver.
  - right. destruct (elem_of_full_outer_join _ _ _ _ _ _ Hj) as (k & Hk & Ha & Ha' & Hb & Hb'). exists k. split.
    + apply elem_of_app in Hk as [(x & -> & [Hx _]%side_totals_elem)%list_elem_of_fmap
                                 |(x & -> & [Hx _]%side_totals_elem)%list_elem_of_fmap];
        apply list_elem_of_fmap in Hx as (r & -> & Hr); apply list_elem_of_fmap_2, elem_of_dealt; auto.
    + apply Z_eq_le. intros n. unfold of_key. rewrite !Z.max_lub_iff, latest_le.
      destruct (decide (0 ≤ n)) as [Hn|]; [|naive_solver].
      rewrite (coalesce_time_le key "BUY" t a k n Hn Ha Ha'), (coalesce_time_le key "SELL" t b k n Hn Hb Hb').
      split.
      * intros (_ & H1 & H2). split; [done|]. intros r [Hk' [Hr|Hr]%elem_of_dealt]%list_elem_of_filter; auto.
      * intros (_ & H). split_and!; [done|..]; intros r Hr Hk'; apply H, list_elem_of_filter;
          rewrite elem_of_dealt; auto.
Qed.

Lemma position_time_le {K} `{EqDecision K} (key : TradeRow → K) t w : position_time key t w → 0 ≤ w ≤ latest t.
Proof.
  pose proof (proj1 (latest_bound t)).
  intros [[_ ->]|(k & _ & ->)]; [lia|]. split; [|apply latest_mono; intros r [_ Hr]%list_elem_of_filter; done].
  apply latest_bound.
Qed.

Lemma position_time_single {K} `{EqDecision K} (key : TradeRow → K) t k w :
  Forall (λ r, key r = k) t → position_time key t w → w = latest t.
Proof.
  intros Hk [[-> ->]|(k' & Hk' & ->)]; [done|]. apply list_elem_of_fmap in Hk' as (r & -> & Hr).
  rewrite Forall_forall in Hk. unfold of_key. f_equal. apply filter_Forall.
  apply Forall_forall. intros r' Hr'. by rewrite (Hk r Hr), (Hk r' Hr').
Qed.

Lemma dealt_filter (P : TradeRow → Prop) `{∀ r, Decision (P r)} t : dealt (filter P t) = filter P (dealt t).
Proof. unfold dealt. rewrite !list_filter_filter. apply list_filter_iff. naive_solver. Qed.

(** C9. The time a start begins at. Over any table the program can have written, the
    start returns, and updates are taken for new when they are newer than one user's,
    one strategy's and one account's position, whichever the engine picked: an update
    newer than everything stored is never dropped, and when the stored trades are
    those of one account in one instrument, or of one user in one instrument, nothing
    stored is taken for new. Of several positions, the trades of those not picked can
    be newer than this time, and are taken for new when they are downloaded again. *)
Theorem restart_watermark setup t f (Ht : Forall row_typed t) :
  ∃ c, Controller_ctor setup (Ret {| ss_trades := t; ss_funds := f |}) (Ret ()) = Ret c
    ∧ (∃ wu ws wa, position_time user_key (dealt t) wu
        ∧ position_time strategy_key (filter (λ r, 0 < tr_strategy_id r) (dealt t)) ws
        ∧ position_time account_key (dealt t) wa
        ∧ c_last_exchange_time_utc c = Z.max wu (Z.max ws wa))
    ∧ (∀ tu, (∀ r, r ∈ t → tr_exchange_time_utc r < tu_create_time_utc tu) → 0 < tu_create_time_utc tu → fresh c tu)
    ∧ (∀ k, Forall (λ r, account_key r = k) (dealt t) ∨ Forall (λ r, user_key r = k) (dealt t) →
       ∀ tu r, r ∈ dealt t → tu_create_time_utc tu = tr_exchange_time_utc r → ¬ fresh c tu).
Proof.
  destruct (positions_total t Ht) as (pu & ps & pa & Hp & _ & _ & _ & Hu & Hs & Ha). cbv zeta in Hs.
  apply joined_position_time in Hu, Hs, Ha. rewrite dealt_filter in Hs.
  set (d := {| ss_trades := t; ss_funds := f |}). assert (Hd : db_positions d = Ret [pu; ps; pa]) by exact Hp.
  eexists. split; [by apply Controller_ctor_eq|].
  destruct (load_positions_effect [pu; ps; pa] 0 (initial setup d)) as (_ & T & _); [done|by apply initial_risk_wf|].
  set (c := fold_left _ _ _) in T |- *. clearbody c.
  pose proof (position_time_le _ _ _ Hu). pose proof (position_time_le _ _ _ Hs). pose proof (position_time_le _ _ _ Ha).
  assert (Hsub : latest (filter (λ r, 0 < tr_strategy_id r) (dealt t)) ≤ latest (dealt t))
    by (apply latest_mono; by intros r [_ Hr]%list_elem_of_filter).
  cbn in T. split_and!.
  - eexists _, _, _. split_and!; [exact Hu|exact Hs|exact Ha|]. rewrite T. lia.
  - intros tu Hnew Hpos. unfold fresh. rewrite T. assert (latest (dealt t) < tu_create_time_utc tu); [|lia].
    apply Z.lt_le_pred, latest_le. split; [lia|]. intros r [_ Hr%Hnew]%list_elem_of_filter. lia.
  - intros k Hk tu r Hr Htu. unfold fresh. rewrite T, Htu. pose proof (proj2 (latest_bound (dealt t)) r Hr).
    destruct Hk as [Hk|Hk]; [apply (position_time_single _ _ _ _ Hk) in Ha|apply (position_time_single _ _ _ _ Hk) in Hu]; lia.
Qed.
End watermark.

(** ** Evaluation

    Two accounts traded two instruments and the engine takes the bare columns of the
    last row: the trade of the other at time three is newer than the start. *)

Section watermark_witnesses.
Import restart_example.
Import trades_example.

Definition two_accounts : list TradeRow := row_of <$> [trade "A1" "ETH" "t3" BUY 5 3; trade "A2" "BTC" "t1" BUY 10 1].

Lemma restart_watermark_witness :
  ∃ c, Controller_ctor setup (Ret {| ss_trades := two_accounts; ss_funds := [] |}) (Ret ()) = Ret c
    ∧ c_last_exchange_time_utc c = 1 ∧ latest two_accounts = 3.
Proof.
  destruct (restart_watermark setup two_accounts []) as (c & Hc & _).
  - repeat constructor; vm_compute; first [discriminate|by eexists].
  - exists c. split; [exact Hc|]. split; [|vm_compute; reflexivity].
    assert (Hl : (c_last_exchange_time_utc <$> (match Controller_ctor setup (Ret {| ss_trades := two_accounts; ss_funds := [] |}) (Ret ()) with Ret x => Some x | _ => None end)) = Some 1)
      by (vm_compute; reflexivity).
    rewrite Hc in Hl. by injection Hl.
Defined.
End watermark_witnesses.
