(* ===== verification/Continuity.v ===== *)
(** * A run and the restart after it

    The table a run of one account in one instrument leaves has one row per
    execution, so that the controller that starts over it shows what the run
    executed, and drops the trades of the run when they are downloaded again. *)

From S2P Require Import Prelude Double Messages Instrument Position Groups Shared SharedFacts RiskFacts.
From S2P Require Import RiskInv Text Web Statement Sql Trades TradesFacts TradesProps Funds Database.
From S2P Require Import Control ControlFacts ControlProps Controller ControllerFacts PublishFacts.
From S2P Require Import System Runs Delivery Application ControllerProps SystemProps Tables Durable Restart.

(** ** Totals of executions *)

(** The lots bought and sold by a set of executions. *)
Definition bought (ex : string → Z) (s : gset string) : Z := set_sum (λ x, Z.max (ex x) 0) s.
Definition sold (ex : string → Z) (s : gset string) : Z := set_sum (λ x, Z.max (- ex x) 0) s.

Lemma bought_sold ex s : bought ex s - sold ex s = net ex s.
Proof. unfold bought, sold, net, set_sum, zsum. induction (elements s); cbn; lia. Qed.

Lemma set_sum_list {A} `{Countable A} (f : A → Z) (l : list A) :
  NoDup l → set_sum f (list_to_set l) = zsum (f <$> l).
Proof.
  induction 1 as [|x l Hx _ IH]; [apply set_sum_empty|].
  rewrite list_to_set_cons, set_sum_insert, IH by by rewrite elem_of_list_to_set. by rewrite fmap_cons, zsum_cons.
Qed.

Lemma zsum_filter {A} (P : A → Prop) `{∀ x, Decision (P x)} (f g : A → Z) (l : list A) :
  Forall (λ x, g x = if decide (P x) then f x else 0) l → zsum (f <$> filter P l) = zsum (g <$> l).
Proof.
  induction 1 as [|x l Hx _ IH]; [done|]. rewrite filter_cons, fmap_cons, zsum_cons, Hx, <- IH.
  case_decide; [by rewrite fmap_cons, zsum_cons|lia].
Qed.

Section table.
Context `{Api : !RoqApi} `{Laws : !RoqApiLaws} `{Engine : !SqlEngine}.
Implicit Types (l : list TradeUpdate) (r : TradeRow).

(** Updates of [ex] that the table can hold: an execution has one user, strategy
    and time ([meta]) whenever it is reported, its quantity is positive and survives
    the decimal text of the statement. *)
Record identified (g : Z) (ex : string → Z) (meta : string → string * Z * Z) (tu : TradeUpdate) : Prop := {
  id_reports : reports g ex tu;
  id_positive : Forall (λ f, Z.sgn (ex (fill_external_trade_id f)) = sign (tu_side tu)) (tu_fills tu);
  id_meta : Forall (λ f, meta (fill_external_trade_id f)
                         = (tu_user tu, tu_strategy_id tu, tu_create_time_utc tu)) (tu_fills tu);
  id_storable : Forall storable (trade_of_fill tu <$> tu_fills tu);
  id_exact : Forall (λ f, real_literal (fill_quantity f) = fill_quantity f) (tu_fills tu);
  id_strategy : uint32 (tu_strategy_id tu);
}.

(** The row of an execution of account [a] in instrument [e], [y]. *)
Record execution_row (g : Z) (ex : string → Z) (meta : string → string * Z * Z) (a e y : string) r : Prop := {
  er_account : account_key r = (a, e, y);
  er_quantity : tr_quantity r = grid g (Z.abs (ex (tr_external_trade_id r)));
  er_side : tr_side r = if decide (0 < ex (tr_external_trade_id r)) then "BUY" else "SELL";
  er_meta : meta (tr_external_trade_id r) = (tr_user r, tr_strategy_id r, tr_exchange_time_utc r);
  er_type : tr_type r = EXCHANGE;
  er_strategy : uint32 (tr_strategy_id r);
}.

Definition rows_of l : list TradeRow := trade_row <$> (l ≫= λ tu, accepted (trade_of_fill tu <$> tu_fills tu)).

Lemma fill_row g ex meta a e y tu f :
  identified g ex meta tu → owns_trade (OAccount a) e y tu → f ∈ tu_fills tu →
  execution_row g ex meta a e y (trade_row (trade_of_fill tu f)).
Proof.
  intros [[Hside Hq] Hp Hm _ Hx Hu] Ho Hf. rewrite Forall_forall in Hq, Hp, Hm, Hx.
  destruct (Hq f Hf) as (q & Hgrid & Hex). specialize (Hp f Hf). specialize (Hm f Hf). specialize (Hx f Hf).
  rewrite Hex in Hp. injection Ho as -> -> ->.
  split; cbn; rewrite ?Hx, ?Hex; try done.
  - rewrite Hgrid. f_equal. destruct (sign_unit _ Hside) as [Hs|Hs]; rewrite Hs in *; lia.
  - destruct Hside as [Hs|Hs]; rewrite Hs in *; rewrite ?sign_BUY, ?sign_SELL in *; case_decide; done || lia.
Qed.

Lemma elem_of_rows_of l r :
  Forall (λ tu, Forall storable (trade_of_fill tu <$> tu_fills tu)) l →
  r ∈ rows_of l ↔ ∃ tu f, tu ∈ l ∧ f ∈ tu_fills tu ∧ r = trade_row (trade_of_fill tu f).
Proof.
  intros Hl. rewrite Forall_forall in Hl. unfold rows_of. rewrite list_elem_of_fmap. setoid_rewrite list_elem_of_bind. split.
  - intros (x & -> & tu & Hx & Htu). rewrite accepted_all in Hx by auto.
    apply list_elem_of_fmap in Hx as (f & -> & Hf). by exists tu, f.
  - intros (tu & f & Htu & Hf & ->). eexists. split; [done|]. exists tu. split; [|done].
    rewrite accepted_all by auto. by apply list_elem_of_fmap_2.
Qed.

Context (g : Z) (ex : string → Z) (meta : string → string * Z * Z) (a e y : string) (l : list TradeUpdate).
Hypothesis Hid : Forall (identified g ex meta) l.
Hypothesis Howner : Forall (owns_trade (OAccount a) e y) l.

Let table : list TradeRow := store (rows_of l) [].

Lemma all_storable : Forall (λ tu, Forall storable (trade_of_fill tu <$> tu_fills tu)) l.
Proof. eapply Forall_impl; [exact Hid|]. by intros tu []. Qed.

Lemma table_elem r : r ∈ table → ∃ tu f, tu ∈ l ∧ f ∈ tu_fills tu ∧ r = trade_row (trade_of_fill tu f).
Proof.
  intros [[Hn _]|(l1 & l2 & Heq & _)]%elem_of_store; [by apply elem_of_nil in Hn|].
  apply (elem_of_rows_of l r all_storable). rewrite Heq. set_solver.
Qed.

Lemma table_rows : Forall (execution_row g ex meta a e y) table.
Proof.
  apply Forall_forall. intros r (tu & f & Htu & Hf & ->)%table_elem.
  rewrite Forall_forall in Hid, Howner. by apply fill_row; auto.
Qed.

(** One row per execution. *)
Lemma table_ids_NoDup : NoDup (tr_external_trade_id <$> table).
Proof.
  apply (NoDup_fmap_1 (λ id, ((meta id).1.1, (meta id).1.2, a, e, y, (meta id).2, id, EXCHANGE))).
  rewrite <- list_fmap_compose.
  assert (Hk : trade_key <$> table
    = ((λ id, ((meta id).1.1, (meta id).1.2, a, e, y, (meta id).2, id, EXCHANGE)) ∘ tr_external_trade_id) <$> table).
  { apply list_fmap_ext. intros i r Hr. apply list_elem_of_lookup_2 in Hr.
    pose proof table_rows as Hrows. rewrite Forall_forall in Hrows. destruct (Hrows r Hr) as [Ha _ _ Hm Ht _].
    unfold compose, trade_key. rewrite Hm, Ht. unfold account_key in Ha. by injection Ha as -> -> ->. }
  rewrite <- Hk. apply store_unique. constructor.
Qed.

(** Every execution has a row. *)
Lemma table_has tu f : tu ∈ l → f ∈ tu_fills tu →
  ∃ r, r ∈ table ∧ tr_external_trade_id r = fill_external_trade_id f
       ∧ tr_exchange_time_utc r = tu_create_time_utc tu.
Proof.
  intros Htu Hf. assert (Hk : trade_key (trade_row (trade_of_fill tu f)) ∈ trade_key <$> table).
  { apply store_keys, list_elem_of_fmap_2, elem_of_rows_of; [exact all_storable|]. by exists tu, f. }
  apply list_elem_of_fmap in Hk as (r & Hk & Hr). exists r. by injection Hk.
Qed.

(** Every row has one of the two sides the queries ask for. *)
Lemma table_sides r : r ∈ table → r ∈ of_side "BUY" table ∨ r ∈ of_side "SELL" table.
Proof.
  intros Hr. pose proof table_rows as Htable. rewrite Forall_forall in Htable. destruct (Htable r Hr) as [_ _ Hside _ _ _].
  unfold of_side. rewrite !list_elem_of_filter, Hside. case_decide; auto.
Qed.

Lemma table_ids : list_to_set (tr_external_trade_id <$> table) = executed l.
Proof.
  apply set_eq. intros id. rewrite elem_of_list_to_set, list_elem_of_fmap. unfold executed.
  rewrite elem_of_union_list. split.
  - intros (r & -> & (tu & f & Htu & Hf & ->)%table_elem). exists (ids (tu_fills tu)).
    split; [by apply (list_elem_of_fmap_2 (λ tu, ids (tu_fills tu)))|]. unfold ids.
    apply elem_of_list_to_set. by apply (list_elem_of_fmap_2 fill_external_trade_id).
  - intros (s & Hs & Hin). apply list_elem_of_fmap in Hs as (tu & -> & Htu). unfold ids in Hin.
    apply elem_of_list_to_set, list_elem_of_fmap in Hin as (f & -> & Hf).
    destruct (table_has tu f Htu Hf) as (r & Hr & Hk & _). by exists r.
Qed.

(** The totals of the table are those of the executions. *)
Definition row_lots r : Z := Z.abs (ex (tr_external_trade_id r)).

Lemma table_sum (f : Z → Z) : zsum ((λ r, f (ex (tr_external_trade_id r))) <$> table) = set_sum (λ x, f (ex x)) (executed l).
Proof.
  rewrite <- table_ids, set_sum_list by apply table_ids_NoDup. by rewrite <- list_fmap_compose.
Qed.

Lemma table_bought : side_sum row_lots "BUY" table = bought ex (executed l).
Proof.
  unfold side_sum, of_side. rewrite (zsum_filter _ _ (λ r, Z.max (ex (tr_external_trade_id r)) 0)).
  - apply (table_sum (λ z, Z.max z 0)).
  - eapply Forall_impl; [apply table_rows|]. intros r [_ _ Hs _ _ _]. unfold row_lots. rewrite Hs.
    repeat case_decide; done || lia.
Qed.

Lemma table_sold : side_sum row_lots "SELL" table = sold ex (executed l).
Proof.
  unfold side_sum, of_side. rewrite (zsum_filter _ _ (λ r, Z.max (- ex (tr_external_trade_id r)) 0)).
  - apply (table_sum (λ z, Z.max (- z) 0)).
  - eapply Forall_impl; [apply table_rows|]. intros r [_ _ Hs _ _ _]. unfold row_lots. rewrite Hs.
    repeat case_decide; done || lia.
Qed.

Lemma table_gross : zsum (zabs row_lots <$> table) = gross ex (executed l).
Proof.
  unfold gross. rewrite <- (table_sum Z.abs). f_equal. apply list_fmap_ext. intros i r _. unfold zabs, row_lots. lia.
Qed.
End table.

(** ** From a new file to the restart *)

Section continuity.
Context `{Api : !RoqApi} `{Laws : !RoqApiLaws} `{Order : !HashOrder} `{J : !Json} `{W : !WebServer}
  `{Engine : !SqlEngine} `{Sum : !ExactSum}.
Implicit Types (c : Controller SqliteSession) (N : gset (string * string)).

Definition new_database : SqliteSession := {| ss_trades := []; ss_funds := [] |}.

Lemma new_started N setup c0 :
  fits N → Controller_ctor setup (Ret new_database) (Ret ()) = Ret c0 →
  ∃ ps, started N setup ps c0 ∧ start_time ps = 0 ∧ m_database (c_manager c0) = new_database
    ∧ ∀ o e y, owner_name o ≠ EmptyString → filter (owns_row o e y) ps = [].
Proof.
  intros Hfit Hc. pose proof empty_positions as Hps. set (ps := replicate _ _) in Hps. exists ps.
  assert (Hnone : Forall (λ p, dbp_user p = EmptyString ∧ dbp_account p = EmptyString ∧ dbp_exchange_time_utc p = 0) ps)
    by by repeat constructor.
  clearbody ps.
  assert (Hnamed : Forall (row_named N) ps).
  { eapply Forall_impl; [exact Hnone|]. intros p (Hu & Ha & _) [?|?]; congruence. }
  split_and!.
  - split; [|done..]. exists new_database. split_and!; [done| |done]. by split; constructor.
  - unfold start_time. clear Hps Hnamed Hc. induction Hnone as [|p ps (_ & _ & Ht) _ IH]; [done|]. cbn. rewrite Ht, IH. done.
  - assert (Hd : db_positions new_database = Ret ps) by exact Hps.
    rewrite (Controller_ctor_eq setup new_database ps Hd) in Hc. injection Hc as <-.
    by destruct (load_positions_inv N ps (initial setup new_database) Hfit Hnamed) as (_ & _ & _ & -> & _);
      [apply initial_risk_inv|].
  - intros o e y Ho. clear Hps Hnamed Hc. induction Hnone as [|p ps (Hu & Ha & _) _ IH]; [done|].
    rewrite filter_cons, decide_False, IH; [done|]. intros Hown. apply Ho. injection Hown as Hn _ _.
    destruct o; cbn in *; congruence.
Qed.

(** The database and the position at the end of a run from a new file. *)
Lemma new_run N setup c0 l c :
  (∀ id text, server_send_text id text = Ret ()) → fits N →
  Controller_ctor setup (Ret new_database) (Ret ()) = Ret c0 → run N c0 l c → Forall reading l →
  m_database (c_manager c)
  = {| ss_trades := store (rows_of (run_trades 0 l)) []; ss_funds := store_funds (recorded_funds l) [] |}.
Proof.
  intros Hserver Hfit Hnew Hrun Hread. destruct (new_started N setup c0 Hfit Hnew) as (ps & Hstart & Ht & Hdb0 & _).
  destruct (started_run N setup ps c0 [] c0 Hstart ltac:(constructor)) as (I0 & T0 & _).
  rewrite (run_writes N _ c0 l c Hserver Hfit Hrun I0 Hread), T0, Ht, journal_tables, Hdb0. done.
Qed.

Lemma new_run_position N setup c0 l c o e y g ex :
  fits N → Controller_ctor setup (Ret new_database) (Ret ()) = Ret c0 → run N c0 l c →
  owner_name o ≠ EmptyString → is_Some (limits_for setup o !! owner_name o) → lot_exponent g →
  let trades := filter (owns_trade o e y) (run_trades 0 l) in
  Forall (reports g ex) trades → gross ex (executed trades) < 2 ^ prec →
  ∃ p, position_of o e y (c_shared c) = Some p ∧ limits_of p = get_limit (limits_for setup o) (owner_name o) e y
       ∧ implements g ex (executed trades) p.
Proof.
  intros Hfit Hnew Hrun Ho [x Hx] Hg trades Hr Hb.
  destruct (new_started N setup c0 Hfit Hnew) as (ps & Hstart & Ht & _ & Hrows).
  destruct (started_run N setup ps c0 l c Hstart Hrun) as (_ & _ & P).
  destruct (P o e y Ho) as (rs & us & Hrs & Hus & Hp). rewrite Hrows in Hrs by done. apply fmap_nil_inv in Hrs as ->.
  rewrite Hx in Hp. eexists. split; [exact Hp|]. split; [by rewrite apply_updates_limits; apply limits_of_ctor|].
  rewrite Ht in Hus. by apply (run_implements g ex us).
Qed.

End continuity.

(** ** Evaluation *)

Section continuity_witnesses.
Import restart_example tables_example.

Definition described (id : string) : string * Z * Z := ("trader", 0, 5).

Lemma session_identified : Forall (identified 0 executions described) (run_trades 0 session).
Proof.
  change (run_trades 0 session) with [update BUY "t1" 10; update SELL "t2" 3; update BUY "t1" 10].
  pose proof run_reports as H. repeat (apply Forall_cons in H as [? H]).
  repeat (apply Forall_cons; split); try done; split; try done; repeat constructor; try done.
Qed.

End continuity_witnesses.
