(* ===== verification/Days.v ===== *)
(** * The life of a database

    The program is stopped and started again, with other settings or over other
    instruments, each time over what the runs before have written. The table of
    trades is the image of all of its runs, an execution has one row however often
    and in however many runs it is reported, and the program can always be started
    again. *)

From S2P Require Import Prelude Double Messages Instrument Position Groups Shared SharedFacts RiskFacts.
From S2P Require Import RiskInv Text Web Statement Sql Trades TradesFacts TradesProps Funds Database Queries.
From S2P Require Import Control ControlFacts ControlProps Controller ControllerFacts PublishFacts.
From S2P Require Import System Runs Delivery ControllerProps SystemProps Tables Durable Restart Continuity.

Section days.
Context `{Api : !RoqApi} `{Order : !HashOrder} `{J : !Json} `{W : !WebServer} `{Engine : !SqlEngine}.
Implicit Types (d : SqliteSession) (c : Controller SqliteSession).

(** The runs over a database, each with the time it began at: a controller is
    constructed over what is stored, handles events, and leaves its database. *)
Inductive lives : SqliteSession → list (Z * list event) → SqliteSession → Prop :=
| lives_none d : lives d [] d
| lives_run N setup d ps c0 l c days d' :
    db_positions d = Ret ps → Forall (row_named N) ps → fits N →
    Controller_ctor setup (Ret d) (Ret ()) = Ret c0 → run N c0 l c →
    lives (m_database (c_manager c)) days d' → lives d ((start_time ps, l) :: days) d'.

(** The fills the runs record, in order. *)
Definition journal (days : list (Z * list event)) : list db_Trade := days ≫= λ day, recorded day.1 day.2.

Lemma day_table N setup d ps c0 l c :
  (∀ id text, server_send_text id text = Ret ()) → sqlite_ok d →
  db_positions d = Ret ps → Forall (row_named N) ps → fits N →
  Controller_ctor setup (Ret d) (Ret ()) = Ret c0 → run N c0 l c → Forall reading l →
  ss_trades (m_database (c_manager c)) = store (trade_row <$> recorded (start_time ps) l) (ss_trades d)
  ∧ sqlite_ok (m_database (c_manager c)).
Proof.
  intros Hserver Hok Hd Hnamed Hfit Hc Hrun Hread.
  assert (Hstart : started N setup ps c0) by (split; [by exists d|done..]).
  destruct (started_run N setup ps c0 [] c0 Hstart ltac:(constructor)) as (I0 & T0 & _).
  destruct (started_run N setup ps c0 l c Hstart Hrun) as ([_ _ _ Hok'] & _).
  rewrite (run_writes N _ c0 l c Hserver Hfit Hrun I0 Hread), T0, journal_tables in Hok' |- *. cbn [ss_trades].
  split; [|done]. do 2 f_equal. rewrite (Controller_ctor_eq setup d ps Hd) in Hc. injection Hc as <-.
  by destruct (load_positions_inv N ps (initial setup d) Hfit Hnamed) as (_ & _ & _ & -> & _);
    [apply initial_risk_inv|].
Qed.

Lemma lives_table d days d' :
  (∀ id text, server_send_text id text = Ret ()) → lives d days d' → Forall (Forall reading) days.*2 → sqlite_ok d →
  ss_trades d' = store (trade_row <$> journal days) (ss_trades d).
Proof.
  intros Hserver. induction 1 as [d|N setup d ps c0 l c days d' Hd Hn Hfit Hc Hrun _ IH]; intros Hread Hok; [done|].
  cbn in Hread. apply Forall_cons in Hread as [Hl Hread].
  destruct (day_table N setup d ps c0 l c Hserver Hok Hd Hn Hfit Hc Hrun Hl) as [Ht Hok'].
  rewrite (IH Hread Hok'), Ht. unfold journal, store. by rewrite bind_cons, fmap_app, fold_left_app.
Qed.

(** Rows with one key are one row. *)
Lemma kept_once l x :
  x ∈ l → (∀ x', x' ∈ l → trade_key (trade_row x') = trade_key (trade_row x) → x' = x) →
  filter (λ r, trade_key r = trade_key (trade_row x)) (trade_row <$> kept l) = [trade_row x].
Proof.
  intros Hx Hsame. rewrite <- store_kept. set (t := store _ []).
  assert (Hu : unique_key trade_key t) by by apply store_unique; constructor.
  assert (Hin : trade_row x ∈ t).
  { assert (Hk : trade_key (trade_row x) ∈ trade_key <$> t) by by apply store_keys, list_elem_of_fmap_2, list_elem_of_fmap_2.
    apply list_elem_of_fmap in Hk as (r & Hk & Hr). assert (Hr' := Hr). unfold t in Hr'. rewrite store_kept in Hr'.
    apply list_elem_of_fmap in Hr' as (x' & -> & Hx'%kept_subset). by rewrite <- (Hsame x' Hx'). }
  symmetry. apply Permutation_singleton_l, NoDup_Permutation.
  - apply NoDup_singleton.
  - by apply NoDup_filter, unique_key_NoDup.
  - intros r. rewrite list_elem_of_filter, list_elem_of_singleton. split; [by intros ->|].
    intros [Hk Hr]. by eapply (NoDup_fmap_determines trade_key).
Qed.

Lemma trade_row_typed x : uint32 (dbt_strategy_id x) → row_typed (trade_row x).
Proof. intros Hx. split; [done|]. cbn. by rewrite Side_cast_name. Qed.

End days.

(** ** Evaluation

    The run of the example, and a second one over what it left, in which everything
    is downloaded again before one trade is new. *)

Section days_witnesses.
Import tables_example.

Definition next_trade : TradeUpdate := {|
  tu_account := "A1"; tu_user := "trader"; tu_strategy_id := 0; tu_exchange := "deribit"; tu_symbol := "BTC";
  tu_side := BUY; tu_create_time_utc := 8; tu_external_account := EmptyString; tu_external_order_id := "o9";
  tu_fills := [{| fill_quantity := grid 0 2; fill_price := grid 0 100; fill_external_trade_id := "t9" |}] |}.
Definition overnight : SqliteSession := m_database (c_manager closed).
Definition found : list db_Position := match db_positions overnight with Ret l => l | _ => [] end.
Definition reopened : Controller SqliteSession := fold_left load_position found (initial setup overnight).
Definition next_session : list event :=
  [EReady (info 0 1); ETradeUpdate (info 0 2) (update BUY "t1" 10); ETradeUpdate (info 0 3) (update SELL "t2" 3);
   ETradeUpdate (info 0 4) next_trade].
Definition reclosed : Controller SqliteSession := default reopened (execute names next_session reopened).

End days_witnesses.
