(* ===== verification/Program.v ===== *)
(** * The program

    From the command line to any moment of a run: what [main] constructs from a
    document of limits and a new database file is a controller whose positions are
    the ledger of the executions it is told of, under the limits of the document, and
    whose tables are what it was told. *)

From S2P Require Import Prelude Double Messages Instrument Position Groups Shared SharedFacts RiskFacts.
From S2P Require Import RiskInv Config ConfigProps Format Text Web Statement Sql Trades TradesFacts TradesProps Funds.
From S2P Require Import Database Queries Control ControlFacts ControlProps Controller ControllerFacts PublishFacts.
From S2P Require Import System Runs Delivery Application ControllerProps SystemProps Tables Durable Restart Continuity.

Section program.
Context `{T : !Toml} `{Api : !RoqApi} `{Laws : !RoqApiLaws} `{Order : !HashOrder} `{J : !Json} `{W : !WebServer}
  `{Engine : !SqlEngine}.
Implicit Types (c : Controller SqliteSession) (N : gset (string * string)) (o : owner) (e y : string).

(** The roq service reads the command line, and runs what it is given with the
    parsed arguments. *)
Record serves (sv : Service (Settings * Controller SqliteSession)) (info : Service_Info) (argv : list string)
    (flags : Flags) (params : list string) : Prop := {
  sv_serves : ∃ args settings parser,
    sv_Args_ctor _ sv argv (info_description info) (info_build_version info) = Ret args
    ∧ sv_Settings_ctor _ sv args = Ret settings
    ∧ (∀ f, sv_run _ sv args settings info f = f parser) ∧ sv_params _ sv parser = params;
  sv_flags : sv_flags_create _ sv = Ret flags;
}.

Lemma main_serves sv p package version argv flags params :
  serves sv (INFO package version) argv flags params →
  main sv p package version argv = Application_main p (Ret flags) params.
Proof.
  intros [(args & settings & parser & Hargs & Hset & Hrun & <-) Hflags]. unfold main. cbv zeta.
  rewrite Hargs. cbn [outcome_bind]. rewrite Hset. cbn [outcome_bind]. by rewrite Hrun, Hflags.
Qed.

(** The position of an owner at any moment of a run from a new file. *)
Lemma new_run_unconfigured N setup c0 l c o e y :
  fits N → Controller_ctor setup (Ret new_database) (Ret ()) = Ret c0 → run N c0 l c →
  owner_name o ≠ EmptyString → limits_for setup o !! owner_name o = None → position_of o e y (c_shared c) = None.
Proof.
  intros Hfit Hnew Hrun Ho Hx. destruct (new_started N setup c0 Hfit Hnew) as (ps & Hstart & _).
  destruct (started_run N setup ps c0 l c Hstart Hrun) as (_ & _ & P).
  destruct (P o e y Ho) as (rs & us & _ & _ & Hp). by rewrite Hx in Hp.
Qed.

End program.

(** ** Evaluation

    A service that takes the last argument for the gateway; the account of the
    document buys and sells. *)

Section program_witnesses.
Import config_example restart_example.

Definition test_service : Service (Settings * Controller SqliteSession) := {|
  sv_Args := list string; sv_Args_ctor argv _ _ := Ret argv;
  sv_Settings := (); sv_Settings_ctor _ := Ret ();
  sv_Parser := list string; sv_params parser := parser;
  sv_flags_create := Ret test_flags;
  sv_run args _ _ f := f (drop 1 args);
|}.
Definition argv : list string := ["roq-risk-manager"; "gateway.sock"].
Definition launched : Controller SqliteSession :=
  match main test_service test_platform "roq-risk-manager" "1.0.0" argv with
  | Ret (_, c) => c | _ => restarted end.
Definition morning : list event :=
  [ETradeUpdate (info 0 1) (update BUY "t1" 10); ETradeUpdate (info 0 2) (update SELL "t2" 3);
   ETradeUpdate (info 0 3) (update BUY "t1" 10)].
Definition noon : Controller SqliteSession := default launched (execute names morning launched).

End program_witnesses.
